(* ===== verification/_CoqProject ===== *)
-Q . S2P
Prelude.v
Float32.v
LinkedList.v
MediaBuffer.v
G711.v
Bits.v
H264.v
H265.v
SmartLink.v
GLESMath.v
P2PConnector.v
P2PLegacy.v
P2PManager.v
JAConnect.v
Pacing.v
Download.v
ConnectManager.v
OsdText.v
DecodeThread.v
Circle.v
Media.v
Receive.v
Stream.v
JAText.v
Surface.v
Screen.v
FishEye.v
Animation.v
Gestures.v
Mesh.v
Stitch.v
