(* ===== verification/Prelude.v ===== *)
(** * A verification of the JAGles native library

    src/jagles/src/main/jni/gles is the native half of an Android player for
    networked cameras: it connects to devices through a peer-to-peer SDK, receives
    audio and video frames into a ring per viewer, decodes them and draws them with
    OpenGL ES.  This library models the parts whose behaviour is the program's own.
    The paths below are relative to src/jagles/src/main/jni.

    ** How the parts fit together

    The application calls the viewer table (ConnectManager), 36 slots of viewers
    (JAConnect).  A viewer's public methods only queue commands in a linked list
    (list.h); its task thread takes them one by one and calls a peer-to-peer manager
    (JAP2PManager: JAP2PConnector2 over the kp2p SDK, or the older JAP2PConnector
    over libjnnat).  Managers of the same device are shared and counted.  The SDK
    calls back with frames, which the viewer writes into its ring (mediabuffer.c);
    the decode thread reads the ring, finds the picture size in the stream
    (h264wh.cpp, h265wh.cpp), decodes the pictures and records and captures them
    (JAMedia.cpp), decodes G.711 audio (ag711.cpp), paints the time over the picture
    (JAText.cpp) and paces the display (preRender).  Pictures of a fish-eye camera are
    corrected with parameters that arrive as frames, or with the circle found in the
    first picture.  Files of the device are downloaded through the table's message
    pool (OperateDeviceFile).  The videos are shown in a grid (NormalScreen) of
    surfaces that a thread animates (ParametricManager), and those of fish-eye cameras on
    meshes (VertexObject, sphere), the two lenses of a 720-degree camera on a mesh made
    from the table the device sends (SphereStitch2); the drawing uses the matrices of
    GLESMath.c.
    SmartLink.c sends the Wi-Fi credentials to a device that is not on the net yet.

    ** The files

    - Prelude (this file): machine integers; [outcome], the result of a C
      computation ([Done], [Fault] for undefined behaviour, [OutOfFuel]), as a monad; byte memories with loads, stores and little-endian words;
      list lookup and update by integer index; tactics and hints.
    - Float32: IEEE binary32, and what is needed of binary64, on SpecFloat.
    - LinkedList (Utils/list.h): heap nodes and pointers; every operation against
      the list of values it represents, under a representation predicate.
    - MediaBuffer (Utils/mediabuffer.c): the ring as bytes and the C struct's
      fields, one definition per function, and the sequences of writer and reader
      that make a lap.
    - G711 (Media/ag711.cpp): both codecs, A-law and mu-law.
    - Bits: the Exp-Golomb bit reader of both parsers, and a writer for the round
      trips.  H264 and H265 (Media/h264wh.cpp, h265wh.cpp): start code search,
      emulation prevention, the parameter set parsers, the picture size.
    - SmartLink (smartLink/..._SmartLink.c): the packet lengths sent, and a listener
      that recovers the message from them.
    - GLESMath (GLES/GLESMath.c): every matrix function once, over a class of
      scalars: the reals for the algebra, binary32 for evaluation; ksInvert over a
      second class for its doubles.
    - P2PConnector (Network/JAP2PConnector2.cpp, JAP2PManager.cpp): the registry of
      connectors under its global lock, the connector's state, its methods and the
      SDK's callbacks.  The SDK is a parameter: a function from the calls made so
      far and the new call to its answer.
    - P2PLegacy (Network/JAP2PConnector.cpp): the older connector, same parameter.
    - P2PManager (Network/JAP2PManager.h): the abstract class as the type class
      [P2PManager] with the laws [P2PManagerLaws] its clients rely on, and both
      connectors as an instance.
    - JAConnect (Network/JAConnect.cpp): the viewer against [P2PManager]: the
      command queue, the task thread's switch, connecting and sharing, channels,
      recordings, remote set-up, the callbacks.  State: the records [target],
      [session] and [player] are groups of the class's members; what the viewer
      shows to the outside (status, decoder reset, spawned threads) is a log of
      actions.  The shared managers are a heap [net] with the list of managers.
    - ConnectManager (Network/ConnectManager.cpp): the table, its methods, and the
      whole system as a step relation: application calls, task threads, disconnect
      threads and callbacks in any order.
    - Pacing (JAConnect::preRender): time stamps and the wait loop, for any width of
      [long].
    - OsdText: the time drawn over the video: calendar, time zone in single
      precision, text.
    - DecodeThread (JAConnect::HandleDecodeThread): one turn of the loop that reads the
      ring, gates frames, chooses the decoder, shows, paces and controls the flow of
      recordings; on top of the parsers, Pacing, OsdText and the viewer.
    - Download (ConnectManager::doDownloadThread and its callback): the message pool
      as bytes, deliveries and turns of the thread.
    - Circle (JAMedia::TestCircRound, DetectCircleData): the search for the picture's
      circle.
    - Media (Media/JAMedia.cpp): decoder, recorder, captures and sound of a viewer over
      the answers of ffmpeg, which are a parameter; the files written are logs.
    - Receive (JAConnect's callbacks behind the network): fish-eye, lens and sensor
      frames, the sound path, captures and recordings as the viewer starts them, and
      what goes into the ring.
    - Stream: ring, decode thread, media object and receive callbacks as one system: a
      turn of the thread with the ring, and the specification over a list of frames.
    - JAText (Media/JAText.cpp): the bitmap fonts and the painting of a text.
    - Surface (GLES/NormalPlay.cpp, ParametricSurface.cpp): a video's transform and the
      limits of panning and magnifying.  Screen (GLES/NormalScreen.cpp): splits, pages
      and selection over 36 surfaces; what the class asks of its events is a log.
      FishEye (GLES/VertexObjectImpl.cpp, framedraw.cpp, ExpandFrameDraw.cpp): the
      modes of the fish-eye screen, their windows, the animated change of mode and
      its thread, the outlines.
      Animation (GLES/ParametricManager.cpp): the list of animations and its thread,
      over the class [ISurface], of which the grid is an instance.
      Gestures (GLES/ParametricManager.cpp): grid and fish-eye screen as one instance
      of [ISurface]; the handlers of press, move, release, wheel and double tap, the
      windows that follow a touch, and sessions of gestures and thread turns.
    - Mesh (GLES/ParametricSurface.cpp, VertexObject.cpp, sphere.cpp, SelectedBox.cpp and
      the smaller screens): the loops that fill the vertex arrays, generic in the scalar
      type and run in binary32, the surfaces and texture coordinates evaluated on them,
      the GL buffers as a map from names to data, the matrices.
      Stitch (GLES/SphereStitch2.cpp, SphereStitch.cpp, SphereStitchImp.cpp and
      ParametricManager::SetDistortion): the lens table on its way to the mesh of the
      stitched sphere and to the world map; tables are a heap that the viewers free.

    ** What the theorems show

    - Memory and data: the ring never writes outside its bounds and a frame read is
      the frame written, over a whole lap and for a reader that attaches at a key
      frame ([attach_and_drain], [write_lap], [read_lap]); the linked list behaves as
      a list ([remove_search]); what happens beyond the design limits is stated too
      ([oversize_write_faults], [wrap_leaves_reader_unmarked], ...).
    - Codecs and parsers: encode and decode agree up to the quantisation step and
      are stable; a parameter set written by the grammar is parsed to its picture
      size ([sps_roundtrip], [h265_roundtrip]); a captured SmartLink transmission
      decodes to the message ([capture_recovers]).
    - Matrices, in exact arithmetic: [ksInvert] returns the inverse exactly when there is
      one ([invert_spec]; not so in floats: [tiny_not_inverted]); the frustum is mapped to
      the clip cube ([frustum_spec]).
    - Sessions: the registry holds exactly the living connectors and the callbacks
      only touch those ([registry_safe]); connecting is issued once
      ([connect_once]); the open channels refine a routing table
      ([open_refines]); the use count of a shared manager is the number of viewers
      that hold it ([connect_disconnect_accounting]), the last one frees it
      ([last_viewer_frees]), and no interleaving of the system frees a manager under
      a viewer ([viewers_never_dangle]).
    - Downloads: the thread's turns, however the deliveries are cut, write the
      chunks of the files in order ([download_refines]), and a well-formed stream
      is finished within a stated number of turns ([download_complete]).
    - The decode thread: nothing is decoded or heard before a key frame
      ([decode_gate]); the pauses and resumptions it asks of the device are those of
      an automaton with hysteresis ([playback_flow]); what becomes of a key frame
      under the hardware decoder ([hardware_key_frame]), and of pacing in live view
      ([live_unpaced]); the time text is the frame's second in the viewer's zone, less a
      minute in six zones ([osd_text_roundtrip], [zone_offsets]).
    - The whole path: frames written to the ring by the callbacks are what the thread's
      specification decodes ([stream_refines]); the first second of a live view is
      decoded from its newest key frame on ([live_view]); decoder and recorder
      get the same pictures ([decoder_and_recorder], [recorded_view]); a device that
      was paused is resumed ([paused_resumes]).
    - Media: the object is well formed in every reachable state ([media_wf]), but direct
      textures turned on again after the device refused them fault
      ([direct_again_faults]); the
      decoder follows the stream's size ([open_follows_header]); a recording is its
      frames from the first key frame ([recording_refines]); captures
      ([captures_written]); the circle of a disc is found exactly ([circle_found]);
      fish-eye and lens frames round trip ([fisheye_roundtrip], [lens_roundtrip]); a
      text that fits is painted as its glyphs ([text_painted]).
    - Screens: the splits tile the screen ([split_layout]); the visible videos are
      those of the page after any operations, save at most one ([pages_shown],
      [select_then_page]), with animations too
      ([animated_page]); the double tap is undone ([zoom_and_back]); a touch selects
      its cell ([touch_selects], and its exceptions [later_page_touch]); textures stay
      within their limits ([texture_within]); every animation ends, at its end value
      ([animations_finish], [animation_lands]).
    - Gestures: grid, fish-eye screen and animations stay well formed in any session
      ([gestures_ok], [fisheye_ok]); a touch selects the window drawn there
      ([touch_hits]); UpdateFrame visits each outlined window once ([update_visits]);
      a second double tap undoes the first ([double_tap_back]); scale and tilt stay
      within their limits ([wheel_range], [tilt_stays_limited]), but for a slow
      release ([slow_release_stays]); the mode last asked for is the one shown
      ([last_mode_shown]), unless the change thread comes between a test and its lock
      ([late_turn_wins]); what the destructor leaves ([half_destroyed]).
    - Meshes: the loops fill the arrays exactly, in binary32 as over the reals
      ([grid_fills]), but for a screen narrower than 180 degrees ([onescreen_overflow]);
      over the reals every vertex of the dome shows the direction it stands for
      ([dome_mesh]) and the mesh is drawn rigidly ([drawn_rigidly]); the buffers of an
      object are its own and are given back ([mesh_buffers]), where its selection box
      does not delete another's ([junk_deleted]).
    - Two lenses: the table becomes the piecewise linear array of the world map, and
      writes past it beyond 115 degrees ([manager_distortion]); it becomes the mesh of the
      sphere, entry by entry ([crystal_mesh]); buffers are kept by the table's address,
      which shows an old mesh ([reused_address]), deleted buffers ([stale_cache]) or a
      freed table ([freed_table]).
    - Errors: the range and null tests of the table ([guard_table]), malformed
      credentials, failed opens that leak a manager ([failed_open_leaks]), a failed
      playback reported as started ([JA.playback_answer]).

    ** Bounds and fuel

    Integers are unbounded [Z] with the wrap of the C type written where the code
    can reach it; signed overflow and accesses outside an object are [Fault].
    Loops of the source take fuel where they are not structural: the ring's search
    for a key frame, the start code search, the Exp-Golomb prefix, the search
    batches of DoSearchRec, the wait loop of preRender, the float loops over a mesh and
    the turns of the download thread.  Each theorem about such a loop states fuel that is enough (the
    number of frames, the length of the input, the number of chunks, the rows and columns
    of a mesh) and concludes
    [Done]; the ones about [Fault] and [OutOfFuel] are the behaviours beyond that.  The
    download pool has 2 MiB as in the source.  The built ABI is armeabi-v7a, where
    [long] has 32 bits; Pacing, OsdText and DecodeThread take its width as a
    parameter.

    Commands of a viewer, callbacks and table methods run to completion one at a
    time; what may happen inside one of them, between two accesses to data that
    threads share, is not modelled (the source guards part of it with mutexes).

    ** Not modelled

    The audio output is a sequence of OpenAL calls; the shaders, the textures and frame
    buffers of the surfaces and the GPU stages are GL calls; the meshes of Hemisphere,
    Cylinder and Expand are not in the build; a lens table with more than 248552 entries,
    whose arrays a 32-bit process cannot allocate, faults;
    the JNI files convert arguments; breakpad, ffmpeg, OpenAL and the SDK headers are
    vendored; the Java application is another language.  Of ConnectManager the
    destructor and the callbacks that only forward are left out, of the screens the
    loading and information pictures, of the step counter of a looping animation the
    overflow after 2 ^ 31 turns.

    The rest of this file is the shared vocabulary. *)
From Stdlib Require Export ZArith Lia ZifyBool.
From stdpp Require Export base list numbers option.
Global Open Scope Z_scope.

(** * Machine integers *)

Definition u8 (x : Z) : Z := x mod 2 ^ 8.
Definition u16 (x : Z) : Z := x mod 2 ^ 16.
Definition u32 (x : Z) : Z := x mod 2 ^ 32.
Definition u64 (x : Z) : Z := x mod 2 ^ 64.

(** Two's complement re-interpretation on [w] bits. *)
Definition signed (w x : Z) : Z := (x + 2 ^ (w - 1)) mod 2 ^ w - 2 ^ (w - 1).
Definition i8 (x : Z) : Z := signed 8 x.
Definition i16 (x : Z) : Z := signed 16 x.
Definition i32 (x : Z) : Z := signed 32 x.

(** C's division and remainder round towards zero. *)
Definition cdiv (a b : Z) : Z := Z.quot a b.
Definition cmod (a b : Z) : Z := Z.rem a b.

Definition in_u8 (x : Z) : Prop := 0 <= x < 256.
Definition in_u32 (x : Z) : Prop := 0 <= x < 2 ^ 32.
Definition in_i32 (x : Z) : Prop := - 2 ^ 31 <= x < 2 ^ 31.

Create HintDb gles.

Lemma u8_small x : 0 <= x < 256 -> u8 x = x.
Proof. intros; apply Z.mod_small; lia. Qed.
Lemma u16_small x : 0 <= x < 65536 -> u16 x = x.
Proof. intros; apply Z.mod_small; lia. Qed.
Lemma u32_small x : 0 <= x < 2 ^ 32 -> u32 x = x.
Proof. intros; apply Z.mod_small; lia. Qed.
Lemma u64_small x : 0 <= x < 2 ^ 64 -> u64 x = x.
Proof. intros; apply Z.mod_small; lia. Qed.
Lemma u8_range x : 0 <= u8 x < 256.
Proof. apply Z.mod_pos_bound; lia. Qed.
Lemma u32_range x : 0 <= u32 x < 2 ^ 32.
Proof. apply Z.mod_pos_bound; lia. Qed.
Lemma u32_idemp x : u32 (u32 x) = u32 x.
Proof. apply u32_small, u32_range. Qed.
Lemma u32_add_l x y : u32 (u32 x + y) = u32 (x + y).
Proof. unfold u32; apply Zplus_mod_idemp_l. Qed.
Lemma u32_add_r x y : u32 (x + u32 y) = u32 (x + y).
Proof. unfold u32; apply Zplus_mod_idemp_r. Qed.

Lemma signed_small w x :
  0 < w -> - 2 ^ (w - 1) <= x < 2 ^ (w - 1) -> signed w x = x.
Proof.
  intros Hw Hx; unfold signed.
  assert (2 ^ w = 2 * 2 ^ (w - 1)) as E.
  { rewrite <- Z.pow_succ_r by lia; f_equal; lia. }
  rewrite Z.mod_small by (rewrite E; lia); lia.
Qed.
Lemma i32_small x : - 2 ^ 31 <= x < 2 ^ 31 -> i32 x = x.
Proof. intros; apply signed_small; lia. Qed.
Lemma i16_small x : - 2 ^ 15 <= x < 2 ^ 15 -> i16 x = x.
Proof. intros; apply signed_small; lia. Qed.
Lemma i32_range x : - 2 ^ 31 <= i32 x < 2 ^ 31.
Proof.
  unfold i32, signed.
  pose proof (Z.mod_pos_bound (x + 2 ^ (32 - 1)) (2 ^ 32) ltac:(lia)); lia.
Qed.

Lemma u32_i32 x : u32 (i32 x) = u32 x.
Proof. unfold u32, i32, signed; rewrite Zminus_mod_idemp_l; f_equal; lia. Qed.

#[export] Hint Resolve u8_range u32_range i32_range : gles.
Create Rewrite HintDb gles.
#[export] Hint Rewrite u32_idemp u32_add_l u32_add_r : gles.

(** * Outcomes of C computations *)

(** [Done a]: the code returns [a]; [Fault]: the code has undefined behaviour
    (null or out-of-bounds access); [OutOfFuel]: the loop did not finish
    within the fuel it was given. *)
Inductive outcome (A : Type) : Type :=
| Done (a : A)
| Fault
| OutOfFuel.
Arguments Done {A} a.
Arguments Fault {A}.
Arguments OutOfFuel {A}.

#[global] Instance outcome_eq_dec {A} `{EqDecision A} : EqDecision (outcome A).
Proof. solve_decision. Defined.

Definition obind {A B : Type} (m : outcome A) (k : A -> outcome B) : outcome B :=
  match m with
  | Done a => k a
  | Fault => Fault
  | OutOfFuel => OutOfFuel
  end.

Declare Scope outcome_scope.
Delimit Scope outcome_scope with outcome.
Notation "'let*' x := m 'in' k" := (obind m (fun x => k))
  (at level 10, x binder, m at level 100, k at level 200) : outcome_scope.
Notation "'let*' ' p := m 'in' k" := (obind m (fun x => match x with p => k end))
  (at level 10, p pattern, m at level 100, k at level 200) : outcome_scope.
Global Open Scope outcome_scope.

Lemma obind_done {A B} (m : outcome A) (k : A -> outcome B) b :
  obind m k = Done b -> exists a, m = Done a /\ k a = Done b.
Proof. destruct m; simpl; intros; try discriminate; eauto. Qed.

(** Peel the binds of an equation [... = Done _] in hypothesis [H]. *)
Ltac obinv H :=
  repeat match type of H with
  | obind ?m ?k = Done _ =>
      let a := fresh "v" in let E := fresh "E" in
      apply obind_done in H as (a & E & H)
  end.

(** Linear arithmetic with division and remainder by constants. *)
Ltac dlia := Z.to_euclidean_division_equations; lia.

(** Split the conditionals of the goal one by one. *)
Ltac case_bool :=
  repeat match goal with
  | |- context [if ?b then _ else _] => let E := fresh "Hb" in destruct b eqn:E
  end.

(** * Memory as a byte array *)

Abbreviation bytes := (list Z).
Definition zlen {A} (l : list A) : Z := Z.of_nat (length l).

Definition inb (m : bytes) (off len : Z) : bool :=
  (0 <=? off) && (0 <=? len) && (off + len <=? zlen m).

Definition load (m : bytes) (off len : Z) : outcome bytes :=
  if inb m off len then Done (take (Z.to_nat len) (drop (Z.to_nat off) m)) else Fault.

Definition store (m : bytes) (off : Z) (bs : bytes) : outcome bytes :=
  if inb m off (zlen bs)
  then Done (take (Z.to_nat off) m ++ bs ++ drop (Z.to_nat off + length bs) m)
  else Fault.

Lemma inb_spec m off len :
  inb m off len = true <-> 0 <= off /\ 0 <= len /\ off + len <= zlen m.
Proof. unfold inb; rewrite !andb_true_iff, !Z.leb_le; tauto. Qed.

Lemma store_done m off bs m' :
  store m off bs = Done m' ->
  0 <= off /\ off + zlen bs <= zlen m /\
  m' = take (Z.to_nat off) m ++ bs ++ drop (Z.to_nat off + length bs) m.
Proof.
  unfold store; destruct inb eqn:E; intros [= <-].
  apply inb_spec in E; intuition.
Qed.

Lemma store_total m off bs :
  0 <= off -> off + zlen bs <= zlen m -> exists m', store m off bs = Done m'.
Proof.
  intros; unfold store; destruct inb eqn:E; eauto.
  assert (inb m off (zlen bs) = true); [|congruence].
  apply inb_spec; unfold zlen in *; lia.
Qed.

Lemma store_length m off bs m' :
  store m off bs = Done m' -> zlen m' = zlen m.
Proof.
  intros (H1 & H2 & ->)%store_done; unfold zlen in *.
  rewrite !length_app, length_take, length_drop; lia.
Qed.

(** A load that is exactly what was stored. *)
Lemma load_store_same m off bs m' :
  store m off bs = Done m' -> load m' off (zlen bs) = Done bs.
Proof.
  intros H; pose proof (store_length _ _ _ _ H) as Hl.
  destruct (store_done _ _ _ _ H) as (H1 & H2 & E); unfold load.
  replace (inb m' off (zlen bs)) with true; [f_equal; subst m'|].
  - unfold zlen in *.
    rewrite drop_app_length', Nat2Z.id by (rewrite length_take; lia).
    by rewrite take_app_length.
  - symmetry; apply inb_spec; unfold zlen in *; lia.
Qed.

(** A load outside the stored range is not affected. *)
Lemma load_store_disjoint m off bs m' off' len :
  store m off bs = Done m' ->
  off' + len <= off \/ off + zlen bs <= off' ->
  load m' off' len = load m off' len.
Proof.
  intros H Hd; pose proof (store_length _ _ _ _ H) as Hl.
  destruct (store_done _ _ _ _ H) as (H1 & H2 & E); unfold load, inb; rewrite Hl.
  destruct (_ && _) eqn:B; [|done]; f_equal; subst m'.
  rewrite !andb_true_iff, !Z.leb_le in B; unfold zlen in *.
  apply list_eq; intros i.
  destruct (decide (i < Z.to_nat len)%nat) as [Hi|Hi].
  2:{ rewrite !lookup_take_ge by lia; done. }
  rewrite !lookup_take_lt, !lookup_drop by lia.
  destruct Hd as [Hd|Hd].
  - rewrite lookup_app_l by (rewrite length_take; lia).
    rewrite lookup_take_lt by lia; done.
  - rewrite lookup_app_r by (rewrite length_take; lia).
    rewrite lookup_app_r by (rewrite length_take; lia).
    rewrite lookup_drop, length_take; f_equal; lia.
Qed.

(** A sub-range of a loaded range. *)
Lemma load_sub m off len bs o l :
  load m off len = Done bs -> 0 <= o -> 0 <= l -> o + l <= len ->
  load m (off + o) l = Done (take (Z.to_nat l) (drop (Z.to_nat o) bs)).
Proof.
  unfold load; destruct (inb m off len) eqn:E; intros [= <-] ? ? ?.
  apply inb_spec in E.
  replace (inb m (off + o) l) with true by (symmetry; apply inb_spec; lia).
  f_equal. rewrite skipn_firstn_comm, take_take, drop_drop. f_equal; [lia|].
  f_equal; lia.
Qed.

Lemma load_done_len m off len bs :
  load m off len = Done bs -> zlen bs = len /\ 0 <= off /\ off + len <= zlen m.
Proof.
  unfold load; destruct inb eqn:E; intros [= <-]. apply inb_spec in E.
  unfold zlen in *; rewrite length_take, length_drop; lia.
Qed.

(** The middle part of a concatenation, and its beginning. *)
Lemma load_app (a b c : bytes) off len :
  off = zlen a -> len = zlen b -> load (a ++ b ++ c) off len = Done b.
Proof.
  intros -> ->; unfold load.
  replace (inb _ _ _) with true
    by (symmetry; apply inb_spec; unfold zlen; rewrite !length_app; lia).
  unfold zlen; rewrite !Nat2Z.id, drop_app_length, take_app_length; done.
Qed.
Lemma load_prefix (m : bytes) k : 0 <= k <= zlen m -> load m 0 k = Done (take (Z.to_nat k) m).
Proof. intros H; unfold load; rewrite (proj2 (inb_spec _ _ _)) by lia; by rewrite drop_0. Qed.
Lemma load_all (m : bytes) : load m 0 (zlen m) = Done m.
Proof. rewrite load_prefix by (unfold zlen; lia); unfold zlen; by rewrite Nat2Z.id, firstn_all. Qed.

(** * Little-endian words *)

Fixpoint le_split (n : nat) (x : Z) : bytes :=
  match n with
  | O => []
  | S n => x mod 256 :: le_split n (x / 256)
  end.

Fixpoint le_join (bs : bytes) : Z :=
  match bs with
  | [] => 0
  | b :: bs => b + 256 * le_join bs
  end.

Lemma le_split_length n x : length (le_split n x) = n.
Proof. revert x; induction n; simpl; auto. Qed.

Lemma le_join_split n x : le_join (le_split n x) = x mod 256 ^ Z.of_nat n.
Proof.
  revert x; induction n as [|n IH]; intros x; simpl le_join.
  - rewrite Z.mod_1_r; done.
  - rewrite IH, Nat2Z.inj_succ, Z.pow_succ_r by lia.
    rewrite Z.rem_mul_r by lia; lia.
Qed.

Lemma le_join_split_small n x :
  0 <= x < 256 ^ Z.of_nat n -> le_join (le_split n x) = x.
Proof. intros; rewrite le_join_split; apply Z.mod_small; done. Qed.

Lemma le_split_byte n x : Forall (fun b => 0 <= b < 256) (le_split n x).
Proof.
  revert x; induction n as [|n IH]; intros x; simpl; constructor; auto.
  apply Z.mod_pos_bound; lia.
Qed.

Definition load32 (m : bytes) (off : Z) : outcome Z :=
  let* bs := load m off 4 in Done (le_join bs).
Definition load64 (m : bytes) (off : Z) : outcome Z :=
  let* bs := load m off 8 in Done (le_join bs).

#[export] Hint Rewrite le_split_length : gles.

(** Words of 32 and 64 bits behind one another, as a device packs them. *)
Definition words (l : list Z) : bytes := flat_map (fun x => le_split 4 (u32 x)) l.
Definition dwords (l : list Z) : bytes := flat_map (fun x => le_split 8 (u64 x)) l.
Lemma words_length l : length (words l) = (4 * length l)%nat.
Proof. induction l as [|x l IH]; cbn [words flat_map length]; [done|]; fold (words l); rewrite length_app, le_split_length, IH; lia. Qed.
Lemma dwords_length l : length (dwords l) = (8 * length l)%nat.
Proof. induction l as [|x l IH]; cbn [dwords flat_map length]; [done|]; fold (dwords l); rewrite length_app, le_split_length, IH; lia. Qed.

Lemma load32_words l rest i x :
  l !! i = Some x -> load32 (words l ++ rest) (4 * Z.of_nat i) = Done (u32 x).
Proof.
  intros H; apply list_elem_of_split_length in H as (l1 & l2 & -> & ->).
  unfold words; rewrite flat_map_app; cbn [flat_map]; rewrite <- !app_assoc; unfold load32.
  erewrite load_app; cbn [obind]; [|fold (words l1); unfold zlen; rewrite words_length; lia|unfold zlen; by rewrite le_split_length].
  rewrite le_join_split_small; [done|]; apply u32_range.
Qed.
Lemma load64_dwords pre l rest i x :
  l !! i = Some x -> load64 (pre ++ dwords l ++ rest) (zlen pre + 8 * Z.of_nat i) = Done (u64 x).
Proof.
  intros H; apply list_elem_of_split_length in H as (l1 & l2 & -> & ->).
  unfold dwords; rewrite flat_map_app; cbn [flat_map]; rewrite <- !app_assoc, app_assoc; unfold load64.
  erewrite load_app; cbn [obind];
    [|fold (dwords l1); unfold zlen; rewrite length_app, dwords_length; lia|unfold zlen; by rewrite le_split_length].
  rewrite le_join_split_small; [done|]; apply Z.mod_pos_bound; lia.
Qed.

(** * Lists indexed by Z *)

Definition znth {A} (l : list A) (i : Z) : option A :=
  if i <? 0 then None else l !! Z.to_nat i.
Definition zget (l : list Z) (i : Z) : Z := default 0 (znth l i).
Definition zset {A} (l : list A) (i : Z) (x : A) : list A :=
  if i <? 0 then l else <[Z.to_nat i := x]> l.

Lemma zset_length {A} (l : list A) i x : length (zset l i x) = length l.
Proof. unfold zset; case_bool; [done|apply length_insert]. Qed.

Lemma zget_zset_eq l i x : 0 <= i < zlen l -> zget (zset l i x) i = x.
Proof.
  intros H; unfold zget, znth, zset, zlen in *.
  replace (i <? 0) with false by lia.
  rewrite list_lookup_insert_eq by lia; done.
Qed.

Lemma zget_zset_ne l i j x : i <> j -> zget (zset l i x) j = zget l j.
Proof.
  intros H; unfold zget, znth, zset.
  destruct (j <? 0) eqn:Ej; [done|]; destruct (i <? 0) eqn:Ei; [done|].
  rewrite list_lookup_insert_ne by lia; done.
Qed.

#[export] Hint Rewrite @zset_length : gles.

(** Finite decision over an integer interval by evaluation. *)
Fixpoint forall_range (n : nat) (lo : Z) (f : Z -> bool) : bool :=
  match n with
  | O => true
  | S n => f lo && forall_range n (lo + 1) f
  end.

Lemma forall_range_spec n lo f :
  forall_range n lo f = true -> forall x, lo <= x < lo + Z.of_nat n -> f x = true.
Proof.
  revert lo; induction n as [|n IH]; intros lo H x Hx; [lia|].
  simpl in H; apply andb_true_iff in H as [H1 H2].
  destruct (Z.eq_dec x lo) as [->|]; [done|]; apply (IH (lo + 1)); [done|lia].
Qed.

(** Monotonicity over an interval from neighbouring points. *)
Lemma monotone_range (g : Z -> Z) lo hi :
  (forall x, lo <= x < hi -> g x <= g (x + 1)) ->
  forall x y, lo <= x -> x <= y -> y <= hi -> g x <= g y.
Proof.
  intros H x y Hlo Hxy Hhi.
  assert (forall n : nat, x + Z.of_nat n <= hi -> g x <= g (x + Z.of_nat n)) as Hn.
  { intros n; induction n as [|n IH]; intros Hb; [rewrite Z.add_0_r; lia|].
    rewrite Nat2Z.inj_succ, <- Z.add_1_r, Z.add_assoc.
    etransitivity; [apply IH; lia|apply H; lia]. }
  specialize (Hn (Z.to_nat (y - x))); rewrite Z2Nat.id in Hn by lia.
  replace (x + (y - x)) with y in Hn by lia; apply Hn; lia.
Qed.
