(* ===== verification/Float32.v ===== *)
(** IEEE 754 binary32, the C type [float], on the Standard Library's
    [SpecFloat]: conversions from and to integers and the four operations, all
    executable (round to nearest, ties to even). *)
From Stdlib Require Import SpecFloat.
From S2P Require Import Prelude.

Module F32.

Definition prec : Z := 24.
Definition emax : Z := 128.

Definition of_Z (x : Z) : spec_float := binary_normalize prec emax x 0 false.
Definition add : spec_float -> spec_float -> spec_float := SFadd prec emax.
Definition sub : spec_float -> spec_float -> spec_float := SFsub prec emax.
Definition mul : spec_float -> spec_float -> spec_float := SFmul prec emax.
Definition div : spec_float -> spec_float -> spec_float := SFdiv prec emax.
Definition ltb : spec_float -> spec_float -> bool := SFltb.
(** [sqrtf] and [floorf], exact in C too. *)
Definition sqrt : spec_float -> spec_float := SFsqrt prec emax.
Definition floor (x : spec_float) : spec_float :=
  match x with
  | S754_finite s m e => if e <? 0 then of_Z (Z.shiftr (if s then Z.neg m else Z.pos m) (- e)) else x
  | _ => x
  end.

(** Truncation towards zero; [None] for infinities and NaN. *)
Definition trunc (x : spec_float) : option Z :=
  match x with
  | S754_zero _ => Some 0
  | S754_finite s m e =>
      let a := if e <? 0 then Z.shiftr (Zpos m) (- e) else Z.shiftl (Zpos m) e in
      Some (if s then - a else a)
  | _ => None
  end.

(** [(int)x]: undefined when the truncated value does not fit an [int]. *)
Definition to_int (x : spec_float) : outcome Z :=
  match trunc x with
  | Some z => if (- 2 ^ 31 <=? z) && (z <? 2 ^ 31) then Done z else Fault
  | None => Fault
  end.

Lemma to_int_range x z : to_int x = Done z -> in_i32 z.
Proof.
  unfold to_int, in_i32; destruct (trunc x); [|done].
  case_bool; [intros [= <-]; lia|done].
Qed.

(** The value of 32 bits in memory. *)
Definition of_bits (x : Z) : spec_float :=
  let s := Z.testbit x 31 in
  let e := Z.land (Z.shiftr x 23) 255 in
  let m := Z.land x (2 ^ 23 - 1) in
  if e =? 255 then if m =? 0 then S754_infinity s else S754_nan
  else if e =? 0 then match m with Zpos p => S754_finite s p (-149) | _ => S754_zero s end
  else match m + 2 ^ 23 with Zpos p => S754_finite s p (e - 150) | _ => S754_nan end.

(** ** Integers of 24 bits are exact *)

Lemma digits2_iter p k : digits2_pos (Pos.iter xO p k) = (digits2_pos p + k)%positive.
Proof.
  induction k as [|k IH] using Pos.peano_ind; [cbn; lia|].
  rewrite Pos.iter_succ; cbn [digits2_pos]; rewrite IH; lia.
Qed.
Lemma iter_xO p k : Z.pos (Pos.iter xO p k) = Z.pos p * 2 ^ Z.pos k.
Proof.
  induction k as [|k IH] using Pos.peano_ind; [cbn; lia|].
  rewrite Pos.iter_succ, Pos2Z.inj_xO, IH, Pos2Z.inj_succ, Z.pow_succ_r by lia; lia.
Qed.
Lemma digits2_lower p : 2 ^ (Z.pos (digits2_pos p) - 1) <= Z.pos p.
Proof.
  induction p as [p IH|p IH|]; cbn [digits2_pos]; [..|cbn; lia].
  all: rewrite Pos2Z.inj_succ; replace (Z.succ _ - 1) with (Z.succ (Z.pos (digits2_pos p) - 1)) by lia.
  all: rewrite Z.pow_succ_r by lia; lia.
Qed.
Lemma digits2_24 p : Z.pos p < 2 ^ 24 -> Z.pos (digits2_pos p) <= 24.
Proof.
  intros H; pose proof (digits2_lower p); destruct (Z.le_gt_cases (Z.pos (digits2_pos p)) 24); [done|].
  pose proof (Z.pow_le_mono_r 2 24 (Z.pos (digits2_pos p) - 1) ltac:(lia) ltac:(lia)); lia.
Qed.

(** A mantissa of full width is rounded to itself. *)
Lemma round_aux_full s m e :
  Z.pos (digits2_pos m) = 24 -> -23 <= e <= 0 ->
  binary_round_aux prec emax s (Z.pos m) e loc_Exact = S754_finite s m e.
Proof.
  intros Hd He; unfold binary_round_aux, shr_fexp; cbn [Zdigits2]; rewrite Hd.
  assert (fexp prec emax (24 + e) - e = 0) as -> by (unfold fexp, emin, prec, emax; lia).
  cbn [shr shr_record_of_loc loc_of_shr_record shr_m round_nearest_even Zdigits2]; rewrite Hd.
  assert (fexp prec emax (24 + e) - e = 0) as -> by (unfold fexp, emin, prec, emax; lia).
  cbn [shr shr_record_of_loc shr_m]; by replace (e <=? emax - prec) with true by (unfold emax, prec; lia).
Qed.

Lemma round_small s p :
  Z.pos p < 2 ^ 24 ->
  exists m e, binary_round prec emax s p 0 = S754_finite s m e /\ -23 <= e <= 0 /\ Z.pos m = Z.pos p * 2 ^ (- e).
Proof.
  intros H; pose proof (digits2_24 p H) as Hd; unfold binary_round.
  assert (fexp prec emax (Z.pos (digits2_pos p) + 0) = Z.pos (digits2_pos p) - 24) as ->
    by (unfold fexp, emin, prec, emax; lia).
  unfold shl_align; rewrite Z.sub_0_r.
  destruct (Z.pos (digits2_pos p) - 24) as [|k|k] eqn:E; [|lia|].
  - exists p, 0; rewrite round_aux_full by lia; split; [done|]; split; [lia|cbn; lia].
  - exists (Pos.iter xO p k), (Z.neg k).
    rewrite round_aux_full by (rewrite ?digits2_iter; lia); split; [done|]; split; [lia|].
    rewrite iter_xO; done.
Qed.

Lemma trunc_of_Z x : Z.abs x < 2 ^ 24 -> trunc (of_Z x) = Some x.
Proof.
  intros H; unfold of_Z, binary_normalize; destruct x as [|p|p]; [done| |].
  all: destruct (round_small false p ltac:(lia)) as (m & e & E & He & Em) || idtac.
  - rewrite E; unfold trunc; destruct (e <? 0) eqn:E0; f_equal.
    + rewrite Z.shiftr_div_pow2, Em, Z.div_mul by lia; done.
    + replace e with 0 in * by lia; rewrite Z.shiftl_0_r, Em; lia.
  - clear m e E He Em; destruct (round_small true p ltac:(lia)) as (m & e & E & He & Em).
    rewrite E; unfold trunc; destruct (e <? 0) eqn:E0; f_equal.
    + rewrite Z.shiftr_div_pow2, Em, Z.div_mul by lia; done.
    + replace e with 0 in * by lia; rewrite Z.shiftl_0_r, Em; lia.
Qed.
Lemma to_int_of_Z x : Z.abs x < 2 ^ 24 -> to_int (of_Z x) = Done x.
Proof.
  intros H; unfold to_int; rewrite trunc_of_Z by done.
  by replace (_ && _) with true by lia.
Qed.

(** ** Arithmetic on integers of 24 bits is exact *)

(** [p * 2 ^ k] *)
Definition up (p : positive) (k : Z) : positive :=
  match k with Zpos q => Pos.iter xO p q | _ => p end.
Lemma up_val p k : 0 <= k -> Z.pos (up p k) = Z.pos p * 2 ^ k.
Proof. destruct k as [|q|q]; [cbn; lia| |lia]; intros _; apply iter_xO. Qed.
Lemma up_digits p k : 0 <= k -> Z.pos (digits2_pos (up p k)) = Z.pos (digits2_pos p) + k.
Proof. destruct k as [|q|q]; [cbn; lia| |lia]; intros _; cbn [up]; rewrite digits2_iter; lia. Qed.
Lemma up_eq p m k : 0 <= k -> Z.pos m = Z.pos p * 2 ^ k -> m = up p k.
Proof. intros H; rewrite <- up_val by done; lia. Qed.
Lemma up_up p j k : 0 <= j -> 0 <= k -> up (up p j) k = up p (j + k).
Proof. intros; apply up_eq; [lia|]; rewrite !up_val, Z.pow_add_r by lia; lia. Qed.

(** The representation of a positive integer of at most 24 bits. *)
Definition whole (s : bool) (p : positive) : spec_float :=
  let d := Z.pos (digits2_pos p) in S754_finite s (up p (24 - d)) (d - 24).

Lemma iter_pos_iter {A} (f : A -> A) n x : SpecFloat.iter_pos f n x = Pos.iter f x n.
Proof.
  revert x; induction n as [n IH|n IH|]; intros x; cbn [SpecFloat.iter_pos Pos.iter]; rewrite ?IH; [|done..].
  by rewrite <- !Pos.iter_swap.
Qed.
Lemma shr_exact p n : 0 <= n -> forall e,
  shr (shr_record_of_loc (Z.pos (up p n)) loc_Exact) e n = (shr_record_of_loc (Z.pos p) loc_Exact, e + n).
Proof.
  destruct n as [|q|q]; intros H e; [cbn; by rewrite Z.add_0_r| |lia]; cbn [shr up]; rewrite iter_pos_iter; f_equal; clear H.
  revert p; induction q as [|q IH] using Pos.peano_ind; intros p; [done|].
  rewrite Pos.iter_succ_r, Pos.iter_succ; cbn [shr_record_of_loc shr_1 orb]; apply IH.
Qed.

Lemma aux_exact s m p e :
  Z.pos m = Z.pos p * 2 ^ (- e) -> e <= 0 -> Z.pos p < 2 ^ 24 -> 24 <= Z.pos (digits2_pos m) ->
  binary_round_aux prec emax s (Z.pos m) e loc_Exact = whole s p.
Proof.
  intros Hm He Hp Hd; pose proof (digits2_24 p Hp); apply up_eq in Hm as ->; [|lia].
  rewrite up_digits in Hd by lia; set (d := Z.pos (digits2_pos p)) in *.
  assert (shr_fexp prec emax (Z.pos (up p (- e))) e loc_Exact
          = (shr_record_of_loc (Z.pos (up p (24 - d))) loc_Exact, d - 24)) as E.
  { unfold shr_fexp; cbn [Zdigits2]; rewrite up_digits by lia; fold d.
    replace (fexp prec emax (d + - e + e) - e) with (d - 24 - e) by (unfold fexp, emin, prec, emax; lia).
    replace (- e) with (24 - d + (d - 24 - e)) by lia; rewrite <- up_up, shr_exact by lia; f_equal; lia. }
  unfold binary_round_aux; rewrite E; cbn [shr_record_of_loc loc_of_shr_record shr_m round_nearest_even].
  unfold shr_fexp; cbn [Zdigits2]; rewrite up_digits by lia; fold d.
  replace (fexp prec emax _ - _) with 0 by (unfold fexp, emin, prec, emax; lia).
  cbn [shr shr_record_of_loc shr_m]; by replace (d - 24 <=? emax - prec) with true by (unfold emax, prec; lia).
Qed.

Lemma round_exact s m p e :
  Z.pos m = Z.pos p * 2 ^ (- e) -> e <= 0 -> Z.pos p < 2 ^ 24 -> binary_round prec emax s m e = whole s p.
Proof.
  intros Hm He Hp; pose proof (digits2_24 p Hp); unfold binary_round, shl_align.
  pose proof Hm as E; apply up_eq in E; [|lia].
  assert (Z.pos (digits2_pos m) = Z.pos (digits2_pos p) - e) as Ed by (rewrite E, up_digits by lia; lia).
  replace (fexp prec emax _) with (Z.pos (digits2_pos p) - 24) by (rewrite Ed; unfold fexp, emin, prec, emax; lia).
  destruct (_ - 24 - e) as [|k|k] eqn:Ek; [apply aux_exact; lia..|].
  change (Pos.iter xO m k) with (up m (Z.pos k)); apply aux_exact; [|lia|done|rewrite up_digits; lia].
  rewrite E, up_up by lia; rewrite up_val by lia; do 2 f_equal; lia.
Qed.

Lemma normalize_exact n e : Z.abs n < 2 ^ 24 -> e <= 0 -> binary_normalize prec emax (n * 2 ^ (- e)) e false = of_Z n.
Proof.
  intros Hn He; pose proof (Z.pow_pos_nonneg 2 (- e)); unfold of_Z, binary_normalize.
  destruct n as [|p|p]; [done| |].
  - destruct (Z.pos p * 2 ^ (- e)) eqn:E; [lia| |lia].
    by rewrite (round_exact false p0 p), (round_exact false p p) by lia.
  - destruct (Z.neg p * 2 ^ (- e)) eqn:E; [lia|lia|].
    by rewrite (round_exact true p0 p), (round_exact true p p) by lia.
Qed.

Lemma of_Z_whole n : n <> 0 -> Z.abs n < 2 ^ 24 -> exists p, Z.pos p = Z.abs n /\ of_Z n = whole (n <? 0) p.
Proof.
  intros H Hn; destruct n as [|p|p]; [done| |]; exists p; (split; [done|]); apply round_exact; lia.
Qed.

(** The mantissa and exponent of a whole number, by value. *)
Lemma whole_parts s p : Z.pos p < 2 ^ 24 ->
  exists m e, whole s p = S754_finite s m e /\ -23 <= e <= 0 /\ Z.pos m = Z.pos p * 2 ^ (- e) /\ Z.pos (digits2_pos m) = 24.
Proof.
  intros H; pose proof (digits2_24 p H); unfold whole; eexists _, _; split; [done|].
  rewrite up_digits, up_val by lia; split_and!; [lia..| |lia]; do 2 f_equal; lia.
Qed.

Lemma aligned m e ez : ez <= e -> Z.pos (fst (shl_align m e ez)) = Z.pos m * 2 ^ (e - ez).
Proof.
  intros H; unfold shl_align; destruct (ez - e) eqn:E; cbn [fst]; [|lia|].
  - replace (e - ez) with 0 by lia; lia.
  - rewrite iter_xO; do 2 f_equal; lia.
Qed.
Lemma aligned_whole n p m e ez : Z.pos p = Z.abs n -> Z.pos m = Z.pos p * 2 ^ (- e) -> ez <= e <= 0 ->
  cond_Zopp (n <? 0) (Z.pos (fst (shl_align m e ez))) = n * 2 ^ (- ez).
Proof.
  intros Hp Hm H; rewrite aligned, Hm, Hp by lia.
  replace (Z.abs n * _ * _) with (Z.abs n * 2 ^ (- ez)).
  - destruct (n <? 0) eqn:E; cbn [cond_Zopp]; [rewrite Z.abs_neq by lia; ring|rewrite Z.abs_eq by lia; ring].
  - rewrite <- Z.mul_assoc, <- Z.pow_add_r by lia; do 2 f_equal; lia.
Qed.

Lemma add_exact a b : Z.abs a < 2 ^ 24 -> Z.abs b < 2 ^ 24 -> Z.abs (a + b) < 2 ^ 24 ->
  add (of_Z a) (of_Z b) = of_Z (a + b).
Proof.
  intros Ha Hb Hs; destruct (Z.eq_dec a 0) as [->|Na].
  { destruct (Z.eq_dec b 0) as [->|Nb]; [done|]; rewrite Z.add_0_l.
    destruct (of_Z_whole b Nb Hb) as (p & _ & ->); done. }
  destruct (of_Z_whole a Na Ha) as (p & Hp & Ea); rewrite Ea.
  destruct (Z.eq_dec b 0) as [->|Nb]; [by rewrite Z.add_0_r, Ea|].
  destruct (of_Z_whole b Nb Hb) as (q & Hq & ->).
  destruct (whole_parts (a <? 0) p ltac:(lia)) as (m & e & -> & He & Hm & _).
  destruct (whole_parts (b <? 0) q ltac:(lia)) as (n & f & -> & Hf & Hn & _).
  unfold add, SFadd; rewrite (aligned_whole a p), (aligned_whole b q) by (done || lia).
  by rewrite <- Z.mul_add_distr_r, normalize_exact by lia.
Qed.

Lemma sub_exact a b : Z.abs a < 2 ^ 24 -> Z.abs b < 2 ^ 24 -> Z.abs (a - b) < 2 ^ 24 ->
  sub (of_Z a) (of_Z b) = of_Z (a - b).
Proof.
  intros Ha Hb Hs; destruct (Z.eq_dec b 0) as [->|Nb].
  { rewrite Z.sub_0_r; destruct (Z.eq_dec a 0) as [->|Na]; [done|].
    destruct (of_Z_whole a Na Ha) as (p & _ & ->); done. }
  destruct (of_Z_whole b Nb Hb) as (q & Hq & ->); destruct (Z.eq_dec a 0) as [->|Na].
  { destruct (of_Z_whole (0 - b) ltac:(lia) Hs) as (q' & Hq' & ->).
    replace q' with q by lia; unfold sub, SFsub, of_Z, binary_normalize, whole; f_equal; lia. }
  destruct (of_Z_whole a Na Ha) as (p & Hp & ->).
  destruct (whole_parts (a <? 0) p ltac:(lia)) as (m & e & -> & He & Hm & _).
  destruct (whole_parts (b <? 0) q ltac:(lia)) as (n & f & -> & Hf & Hn & _).
  unfold sub, SFsub; rewrite (aligned_whole a p), (aligned_whole b q) by (done || lia).
  by rewrite <- Z.mul_sub_distr_r, normalize_exact by lia.
Qed.

Lemma digits2_upper p : Z.pos p < 2 ^ Z.pos (digits2_pos p).
Proof.
  induction p as [p IH|p IH|]; cbn [digits2_pos]; [..|cbn; lia].
  all: rewrite Pos2Z.inj_succ, Z.pow_succ_r by lia; lia.
Qed.
Lemma digits2_least p k : 0 <= k -> 2 ^ k <= Z.pos p -> k < Z.pos (digits2_pos p).
Proof.
  intros Hk H; pose proof (digits2_upper p).
  destruct (Z.lt_ge_cases k (Z.pos (digits2_pos p))) as [|Hge]; [done|].
  pose proof (Z.pow_le_mono_r 2 (Z.pos (digits2_pos p)) k ltac:(lia) Hge); lia.
Qed.

(** Zero needs signs that agree. *)
Lemma mul_exact a b : 0 <= a < 2 ^ 24 -> 0 <= b < 2 ^ 24 -> a * b < 2 ^ 24 -> mul (of_Z a) (of_Z b) = of_Z (a * b).
Proof.
  intros Ha Hb Hs; destruct (Z.eq_dec a 0) as [->|Na].
  { destruct (Z.eq_dec b 0) as [->|Nb]; [done|].
    destruct (of_Z_whole b Nb ltac:(lia)) as (p & _ & ->); by replace (b <? 0) with false by lia. }
  destruct (of_Z_whole a Na ltac:(lia)) as (p & Hp & ->); destruct (Z.eq_dec b 0) as [->|Nb].
  { by rewrite Z.mul_0_r; replace (a <? 0) with false by lia. }
  destruct (of_Z_whole b Nb ltac:(lia)) as (q & Hq & ->).
  destruct (of_Z_whole (a * b) ltac:(nia) ltac:(nia)) as (r & Hr & ->).
  destruct (whole_parts (a <? 0) p ltac:(lia)) as (m & e & -> & He & Hm & Dm).
  destruct (whole_parts (b <? 0) q ltac:(lia)) as (n & f & -> & Hf & Hn & Dn).
  unfold mul, SFmul; replace (a <? 0) with false by lia; replace (b <? 0) with false by lia.
  replace (a * b <? 0) with false by nia; apply aux_exact; [|lia|nia|].
  - rewrite Pos2Z.inj_mul, Hm, Hn, Hr, Hp, Hq, Z.opp_add_distr, Z.pow_add_r by lia.
    rewrite !Z.abs_eq by nia; ring.
  - pose proof (digits2_lower m) as Lm; rewrite Dm in Lm.
    assert (23 < Z.pos (digits2_pos (m * n))); [|lia]; apply digits2_least; [lia|].
    rewrite Pos2Z.inj_mul; nia.
Qed.

Lemma div_exact q b : 0 <= q < 2 ^ 24 -> 0 < b < 2 ^ 24 -> q * b < 2 ^ 24 -> div (of_Z (q * b)) (of_Z b) = of_Z q.
Proof.
  intros Hq Hb Hs; destruct (of_Z_whole b ltac:(lia) ltac:(lia)) as (p & Hp & ->).
  destruct (Z.eq_dec q 0) as [->|Nq]; [by replace (b <? 0) with false by lia|].
  destruct (of_Z_whole (q * b) ltac:(nia) ltac:(nia)) as (a & Ha & ->).
  destruct (of_Z_whole q Nq ltac:(lia)) as (c & Hc & ->).
  destruct (whole_parts (q * b <? 0) a ltac:(lia)) as (m & e & -> & He & Hm & Dm).
  destruct (whole_parts (b <? 0) p ltac:(lia)) as (n & f & -> & Hf & Hn & Dn).
  unfold div, SFdiv, SFdiv_core_binary; cbn [Zdigits2]; rewrite Dm, Dn.
  replace (Z.min _ _) with (e - f - 24) by (unfold fexp, emin, prec, emax; lia).
  replace (e - f - (e - f - 24)) with 24 by lia; cbn [Z.sub].
  set (k := f - e + 24).
  assert (Z.shiftl (Z.pos m) 24 = Z.pos c * 2 ^ k * Z.pos n) as E.
  { rewrite Z.shiftl_mul_pow2, Hm, Hn, Ha, Hp, Hc, !Z.abs_eq by nia.
    replace (q * b * 2 ^ (- e) * 2 ^ 24) with (q * b * 2 ^ (- e + 24)) by (rewrite Z.pow_add_r by lia; ring).
    replace (- e + 24) with (k + - f) by (unfold k; lia); rewrite Z.pow_add_r by (unfold k; lia); ring. }
  pose proof (Z_div_mod (Z.shiftl (Z.pos m) 24) (Z.pos n) ltac:(lia)) as Q.
  rewrite E in Q |- *; destruct (Z.div_eucl _ _) as [z r]; destruct Q as [Q R].
  assert (z = Z.pos c * 2 ^ k /\ r = 0) as [-> ->].
  { assert (r = (Z.pos c * 2 ^ k - z) * Z.pos n) as Er by lia.
    assert (Z.pos c * 2 ^ k - z = 0) by nia; nia. }
  assert (exists z, Z.pos z = Z.pos c * 2 ^ k) as [z Ez].
  { pose proof (Z.pow_pos_nonneg 2 k ltac:(lia) ltac:(unfold k; lia)).
    exists (Z.to_pos (Z.pos c * 2 ^ k)); apply Z2Pos.id; lia. }
  rewrite <- Ez; replace (new_location (Z.pos n) 0) with loc_Exact by (unfold new_location; by destruct (Z.even _)).
  replace (xorb _ _) with (q <? 0) by (replace (q * b <? 0) with false by nia; replace (b <? 0) with false by lia; cbn; lia).
  apply aux_exact; [by rewrite Ez; replace (- (e - f - 24)) with k by (unfold k; lia)|lia|lia|].
  assert (23 < Z.pos (digits2_pos z)); [|lia]; apply digits2_least; [lia|].
  pose proof (digits2_lower m) as Lm; rewrite Dm in Lm; pose proof (digits2_upper n) as Un; rewrite Dn in Un.
  rewrite Z.shiftl_mul_pow2 in E by lia; rewrite <- Ez in E; nia.
Qed.

(** The order is that of the integers. *)
Lemma whole_lt s p q : Z.pos p < 2 ^ 24 -> Z.pos q < 2 ^ 24 ->
  SFltb (whole s p) (whole s q) = if s then Z.pos q <? Z.pos p else Z.pos p <? Z.pos q.
Proof.
  intros Hp Hq; destruct (whole_parts s p Hp) as (m & e & -> & He & Hm & Dm).
  destruct (whole_parts s q Hq) as (n & f & -> & Hf & Hn & Dn).
  pose proof (digits2_lower m) as Lm; pose proof (digits2_upper m) as Um.
  pose proof (digits2_lower n) as Ln; pose proof (digits2_upper n) as Un.
  rewrite Dm in Lm, Um; rewrite Dn in Ln, Un; unfold SFltb, SFcompare.
  assert (forall a b e f m n, -23 <= e < f -> f <= 0 -> m = a * 2 ^ (- e) -> n = b * 2 ^ (- f) ->
            m < 2 ^ 24 -> 2 ^ 23 <= n -> 0 < a -> 0 < b -> a < b) as low.
  { clear; intros a b e f m n H1 H2 -> -> Hm Hn Ha Hb.
    replace (- e) with (- f + (f - e)) in Hm by lia; rewrite Z.pow_add_r in Hm by lia.
    pose proof (Z.pow_le_mono_r 2 1 (f - e) ltac:(lia) ltac:(lia)).
    pose proof (Z.pow_pos_nonneg 2 (- f) ltac:(lia) ltac:(lia)).
    assert (0 <= a * 2 ^ (- f) * (2 ^ (f - e) - 2)) by (repeat apply Z.mul_nonneg_nonneg; lia).
    apply (Z.mul_lt_mono_pos_r (2 ^ (- f))); nia. }
  change (Pos.compare_cont Eq m n) with (Pos.compare m n).
  destruct (Z.compare_spec e f) as [->|Hef|Hef].
  - assert ((Z.pos m ?= Z.pos n) = (Z.pos p ?= Z.pos q)) as C.
    { rewrite Hm, Hn; pose proof (Z.pow_pos_nonneg 2 (- f) ltac:(lia) ltac:(lia)).
      symmetry; apply Zmult_compare_compat_r; lia. }
    change (m ?= n)%positive with (Z.pos m ?= Z.pos n); rewrite C.
    destruct s; rewrite ?(Z.compare_antisym (Z.pos q) (Z.pos p)); unfold Z.ltb.
    + rewrite (Z.compare_antisym (Z.pos p) (Z.pos q)); by destruct (Z.pos p ?= Z.pos q).
    + by rewrite <- Z.compare_antisym; destruct (Z.pos p ?= Z.pos q).
  - pose proof (low (Z.pos p) (Z.pos q) e f _ _ ltac:(lia) ltac:(lia) Hm Hn ltac:(lia) ltac:(lia) ltac:(lia) ltac:(lia)).
    destruct s; lia.
  - pose proof (low (Z.pos q) (Z.pos p) f e _ _ ltac:(lia) ltac:(lia) Hn Hm ltac:(lia) ltac:(lia) ltac:(lia) ltac:(lia)).
    destruct s; lia.
Qed.

Lemma ltb_exact a b : Z.abs a < 2 ^ 24 -> Z.abs b < 2 ^ 24 -> ltb (of_Z a) (of_Z b) = (a <? b).
Proof.
  intros Ha Hb; unfold ltb; destruct (Z.eq_dec a 0) as [->|Na].
  { destruct (Z.eq_dec b 0) as [->|Nb]; [done|]; destruct (of_Z_whole b Nb Hb) as (q & Hq & ->).
    unfold whole; cbn; destruct (b <? 0) eqn:E; lia. }
  destruct (of_Z_whole a Na Ha) as (p & Hp & ->); destruct (Z.eq_dec b 0) as [->|Nb].
  { unfold whole; cbn; destruct (a <? 0) eqn:E; lia. }
  destruct (of_Z_whole b Nb Hb) as (q & Hq & ->).
  destruct (a <? 0) eqn:Ea, (b <? 0) eqn:Eb; [| | |]; rewrite ?whole_lt by lia; unfold whole, SFltb; cbn; lia.
Qed.

(** The comparisons the clamps rely on. *)
Lemma ltb_irrefl x : SFltb x x = false.
Proof.
  destruct x as [s|s| |s m e]; try done; [by destruct s|].
  unfold SFltb, SFcompare; destruct s; by rewrite Z.compare_refl, Pos.compare_cont_refl.
Qed.
Lemma ltb_opp l : SFltb l (of_Z 0) = false -> SFltb l (SFopp l) = false.
Proof. destruct l as [s|s| |s m e]; try done; destruct s; done. Qed.
End F32.

(** C's [double], where a float computation is carried out in it. *)
Module F64.
Definition prec : Z := 53.
Definition emax : Z := 1024.
Definition of_Z (x : Z) : spec_float := binary_normalize prec emax x 0 false.
Definition add : spec_float -> spec_float -> spec_float := SFadd prec emax.
Definition sub : spec_float -> spec_float -> spec_float := SFsub prec emax.
Definition mul : spec_float -> spec_float -> spec_float := SFmul prec emax.
Definition div : spec_float -> spec_float -> spec_float := SFdiv prec emax.
(** The decimal literal [n / d] of the source; both are exact, so the quotient is the
    double next to it. *)
Definition dec (n d : Z) : spec_float := div (of_Z n) (of_Z d).
(** A float as a double, and back. *)
Definition rounded (p em : Z) (x : spec_float) : spec_float :=
  match x with
  | S754_finite s m e => binary_normalize p em (if s then Z.neg m else Z.pos m) e false
  | _ => x
  end.
Definition of_float : spec_float -> spec_float := rounded prec emax.
Definition to_float : spec_float -> spec_float := rounded F32.prec F32.emax.
End F64.
