(* ===== verification/LinkedList.v ===== *)
(** The singly linked list template of gles/Utils/list.h, which holds the
    device connections, the connector handles and the screens.  A list value
    is the chain from [header]; a node is an element of the chain. *)
From S2P Require Import Prelude.

Module CList.
Section Ops.
Context {T : Type} `{EqDecision T}.

Definition isEmpty (header : list T) : bool :=
  match header with [] => true | _ => false end.

Fixpoint length_from (len : Z) (i : list T) : Z :=
  match i with
  | [] => len
  | _ :: next => length_from (len + 1) next
  end.
Definition length (header : list T) : Z := length_from 0 header.

(** The walk [for (i = 0; it && i < k; i++) it = it->next;]: the node reached
    and the final [i]. *)
Fixpoint at_walk (k : nat) (i : Z) (it : list T) : list T * Z :=
  match k, it with
  | S k, _ :: next => at_walk k (i + 1) next
  | _, _ => (it, i)
  end.

(** [fresh] is the value of the element that [new T] allocates. *)
Definition at_ (fresh : T) (k : Z) (header : list T) : outcome T :=
  if k <? 0 then Done fresh
  else match header with
  | [] => Done fresh
  | _ =>
      let (it, i) := at_walk (Z.to_nat k) 0 header in
      if negb (i =? k) then Done fresh
      else match it with
           | x :: _ => Done x
           | [] => Fault
           end
  end.

Fixpoint search_from (k : Z) (v : T) (i : list T) : Z :=
  match i with
  | [] => -1
  | data :: next => if decide (data = v) then k else search_from (k + 1) v next
  end.
Definition search (v : T) (header : list T) : Z := search_from 0 v header.

(** [remove]: the loop returns when it runs off the chain before [k] steps;
    after [k] steps [it->next] is read whether or not [it] is null. *)
Fixpoint remove_from (k : nat) (it : list T) : outcome (list T) :=
  match k, it with
  | O, [] => Fault
  | O, _ :: next => Done next
  | S _, [] => Done []
  | S k, x :: next => let* r := remove_from k next in Done (x :: r)
  end.
Definition remove (k : Z) (header : list T) : outcome (list T) :=
  if k <? 0 then Done header else remove_from (Z.to_nat k) header.

(** [insert]: the new node is linked after the node where the walk stops;
    [steps] is [None] when [flag] is set, that is for a negative index. *)
Fixpoint insert_from (steps : option nat) (v : T) (x : T) (rest : list T) : list T :=
  match rest, steps with
  | y :: rest', None => x :: insert_from None v y rest'
  | y :: rest', Some (S n) => x :: insert_from (Some n) v y rest'
  | _, _ => x :: v :: rest
  end.
Definition insert (k : Z) (v : T) (header : list T) : list T :=
  match header with
  | [] => [v]
  | x :: rest => insert_from (if k <? 0 then None else Some (Z.to_nat k)) v x rest
  end.

(** ** Lemmas *)

Lemma length_from_spec len l : length_from len l = len + zlen l.
Proof.
  revert len; induction l as [|x l IH]; intros len; simpl; unfold zlen in *; simpl.
  - lia.
  - rewrite IH; simpl; lia.
Qed.

Lemma length_spec l : length l = zlen l.
Proof. apply length_from_spec. Qed.

Lemma search_from_spec k v l :
  (search_from k v l = -1 /\ v ∉ l) \/
  (exists pre post, l = pre ++ v :: post /\ v ∉ pre /\ search_from k v l = k + zlen pre).
Proof.
  revert k; induction l as [|x l IH]; intros k; simpl.
  - left; split; [done|apply not_elem_of_nil].
  - case_decide as Hd.
    + right; exists [], l; subst; repeat split; [|unfold zlen; simpl; lia].
      apply not_elem_of_nil.
    + destruct (IH (k + 1)) as [[H1 H2]|(pre & post & -> & H2 & H3)].
      * left; split; [done|]. rewrite not_elem_of_cons; naive_solver.
      * right; exists (x :: pre), post; repeat split.
        -- rewrite not_elem_of_cons; naive_solver.
        -- rewrite H3; unfold zlen; simpl; lia.
Qed.

Lemma remove_from_app pre x post :
  remove_from (List.length pre) (pre ++ x :: post) = Done (pre ++ post).
Proof. induction pre as [|y pre IH]; simpl; [done|by rewrite IH]. Qed.

Lemma insert_from_append v x rest : insert_from None v x rest = x :: rest ++ [v].
Proof.
  revert x; induction rest as [|y rest IH]; intros x; simpl; [done|by rewrite IH].
Qed.

Lemma insert_append v l : insert (-1) v l = l ++ [v].
Proof. destruct l; [done|apply insert_from_append]. Qed.

Lemma insert_from_index n v x rest :
  insert_from (Some n) v x rest =
  take (S (n `min` List.length rest)) (x :: rest)
    ++ v :: drop (S (n `min` List.length rest)) (x :: rest).
Proof.
  revert n x; induction rest as [|y rest IH]; intros [|n] x; simpl; try done.
  f_equal; apply IH.
Qed.

Lemma at_walk_lookup k i l x :
  l !! k = Some x ->
  exists next, at_walk k i l = (x :: next, i + Z.of_nat k).
Proof.
  revert i l; induction k as [|k IH]; intros i [|y l] H; simpl in *; try discriminate.
  - simplify_eq; exists l; f_equal; lia.
  - destruct (IH (i + 1) l H) as [next ->]; exists next; f_equal; lia.
Qed.

Lemma at_lookup fresh k l x :
  znth l k = Some x -> at_ fresh k l = Done x.
Proof.
  unfold znth, at_; destruct (k <? 0) eqn:Hk; [done|]; intros H.
  destruct l as [|y l]; [done|].
  destruct (at_walk_lookup _ 0 _ _ H) as [next ->].
  replace (negb (0 + Z.of_nat (Z.to_nat k) =? k)) with false by lia; done.
Qed.

End Ops.

Lemma search_remove {T} `{EqDecision T} (v : T) (l : list T) :
  (v ∉ l /\ remove (search v l) l = Done l) \/
  (exists pre post, l = pre ++ v :: post /\ v ∉ pre /\
     search v l = zlen pre /\ remove (search v l) l = Done (pre ++ post)).
Proof.
  unfold search; destruct (search_from_spec 0 v l) as [[E H]|(pre & post & -> & H & E)].
  - left; split; [done|]; rewrite E; done.
  - right; exists pre, post; repeat split; try done.
    rewrite E; unfold remove, zlen.
    replace (_ <? 0) with false by lia.
    replace (Z.to_nat (0 + Z.of_nat (List.length pre))) with (List.length pre) by lia.
    apply remove_from_app.
Qed.

(** Removing the element that [search] finds deletes the first occurrence
    and nothing else, and leaves the list unchanged when there is none: this is
    how every caller takes an entry out of a list. *)
Theorem remove_search {T} `{EqDecision T} (v : T) (l : list T) :
  (v ∉ l /\ remove (search v l) l = Done l) \/
  (exists pre post, l = pre ++ v :: post /\ v ∉ pre /\
     search v l = zlen pre /\ remove (search v l) l = Done (pre ++ post)).
Proof. apply search_remove. Qed.

(** Appending (a negative index) puts the element at the end, where [at]
    with the old length finds it and every earlier index finds what it found
    before. *)
Theorem append_at {T} (fresh v : T) (l : list T) (k : Z) :
  insert (-1) v l = l ++ [v] /\
  length (insert (-1) v l) = length l + 1 /\
  at_ fresh (length l) (insert (-1) v l) = Done v /\
  (forall x, znth l k = Some x -> at_ fresh k (insert (-1) v l) = Done x).
Proof.
  rewrite insert_append, !length_spec; repeat split.
  - unfold zlen; rewrite length_app; simpl; lia.
  - apply at_lookup; unfold znth, zlen.
    replace (_ <? 0) with false by lia.
    rewrite Nat2Z.id, lookup_app_r, Nat.sub_diag by lia; done.
  - intros x H; apply at_lookup; unfold znth in *.
    destruct (k <? 0); [done|]. rewrite lookup_app_l; [done|].
    eapply lookup_lt_Some; eauto.
Qed.

(** The one-past-the-end accesses: [remove(length)] and, on a non-empty
    list, [at(length)] dereference the null pointer at the end of the chain,
    whereas larger indices are ignored. *)
Theorem off_end {T} (fresh : T) (x : T) (l : list T) (k : Z) :
  remove (length (x :: l)) (x :: l) = Fault /\
  at_ fresh (length (x :: l)) (x :: l) = Fault /\
  (length (x :: l) < k -> remove k (x :: l) = Done (x :: l) /\
     at_ fresh k (x :: l) = Done fresh).
Proof.
  rewrite length_spec.
  assert (forall l : list T, remove_from (List.length l) l = Fault) as Hr.
  { intros l'; induction l' as [|y l' IH]; simpl; [done|by rewrite IH]. }
  assert (forall (l : list T) i k, (List.length l <= k)%nat ->
            at_walk k i l = ([], i + zlen l)) as Hw.
  { intros l'; induction l' as [|y l' IH]; intros i [|k'] Hk; simpl in *;
      unfold zlen in *; simpl; try lia; try (f_equal; lia).
    rewrite IH by lia; f_equal; lia. }
  assert (forall (l : list T) k, (List.length l < k)%nat -> remove_from k l = Done l) as Hk.
  { intros l'; induction l' as [|y l' IH]; intros [|k'] Hk'; simpl in *; try lia; [done|].
    rewrite IH by lia; done. }
  repeat split.
  - unfold remove; replace (_ <? 0) with false by (unfold zlen; lia).
    unfold zlen; rewrite Nat2Z.id; apply Hr.
  - unfold at_; replace (_ <? 0) with false by (unfold zlen; lia).
    rewrite Hw by (unfold zlen; simpl; lia).
    replace (negb _) with false by lia; done.
  - unfold remove; replace (_ <? 0) with false by (unfold zlen in *; lia).
    apply Hk; unfold zlen in *; lia.
  - unfold at_; replace (_ <? 0) with false by (unfold zlen in *; lia).
    rewrite Hw by (unfold zlen in *; lia).
    replace (negb _) with true by lia; done.
Qed.

End CList.
