(* ===== verification/MediaBuffer.v ===== *)
(** The frame ring of gles/Utils/mediabuffer.c: one writer, sixteen readers,
    variable-size frames with a 48-byte header in one byte buffer.  The struct
    is a record, its buffer is a byte array, headers are encoded and decoded at
    their offsets, and an access outside the allocation is [Fault].  The layout
    is that of LP64 and 32-bit ARM (the 64-bit timestamp is 8-aligned). *)
From Stdlib Require Import SpecFloat.
From S2P Require Import Prelude Float32.

Module MediaBuffer.

(** ** Constants and data *)

Definition MB_SUCCESS : Z := 0.
Definition MB_INVALID_HANDLE : Z := -1.
Definition MB_NO_BUFFER : Z := -2.
Definition MB_TOO_SMALL : Z := -3.
Definition MB_INVALID_INDEX : Z := -4.
Definition MB_FT_AUDIO : Z := 0.
Definition MB_FT_IFRAME : Z := 1.
Definition MB_FT_PFRAME : Z := 2.
Definition FLAG : Z := 0xffefface.
Definition sizeof_BUFHDR : Z := 48.

(** [struct _mediabuffer]; [_buf] is [None] for a null pointer, and [_mutex]
    counts locks minus unlocks. *)
Record _MEDIA_BUFFER := mkMB {
  _readpos : list Z;
  _writepos : Z;
  _lastwritepos : Z;
  _readcount : list Z;
  _writecount : Z;
  _readlock : list Z;
  _writelock : Z;
  _buf : option bytes;
  _bufsize : Z;
  _overwriteread : list Z;
  _isuse : list Z;
  _fps : Z;
  _bitrate : Z;
  _lasttime : Z;
  _starttime : Z;
  _lastwritecount : Z;
  _bitwritecount : Z;
  _mutex : Z
}.

(** The handle type [unsigned long]: zero, a live buffer, or a freed one. *)
Inductive handle :=
| Null
| Live (p : _MEDIA_BUFFER)
| Freed.

(** [struct _bufhdr]. *)
Record _BUFHDR := mkHdr {
  _flag : Z;
  _buftype : Z;
  _buflen : Z;
  _timestamp : Z;
  _reallen : Z;
  _playtime : Z;
  _enc : bytes;
  _prevpos : Z;
  _nextpos : Z
}.

(** The header in memory: offsets 0, 4, 8, (4 bytes of padding), 16, 24, 28,
    32, 40, 44. *)
Definition hdr_encode (h : _BUFHDR) : bytes :=
  le_split 4 (_flag h) ++ le_split 4 (_buftype h) ++ le_split 4 (_buflen h) ++
  [0; 0; 0; 0] ++ le_split 8 (_timestamp h) ++ le_split 4 (_reallen h) ++
  le_split 4 (_playtime h) ++ _enc h ++ le_split 4 (_prevpos h) ++
  le_split 4 (_nextpos h).

Definition h_flag (m : bytes) (pos : Z) : outcome Z := load32 m pos.
Definition h_buftype (m : bytes) (pos : Z) : outcome Z := load32 m (pos + 4).
Definition h_buflen (m : bytes) (pos : Z) : outcome Z := load32 m (pos + 8).
Definition h_timestamp (m : bytes) (pos : Z) : outcome Z := load64 m (pos + 16).
Definition h_reallen (m : bytes) (pos : Z) : outcome Z := load32 m (pos + 24).
Definition h_playtime (m : bytes) (pos : Z) : outcome Z := load32 m (pos + 28).
Definition h_prevpos (m : bytes) (pos : Z) : outcome Z := load32 m (pos + 40).
Definition h_nextpos (m : bytes) (pos : Z) : outcome Z := load32 m (pos + 44).

(** [strcpy(_enc, lhdr->_enc)]: the bytes up to the terminator. *)
Fixpoint cstring (bs : bytes) : outcome bytes :=
  match bs with
  | [] => Fault
  | b :: bs => if b =? 0 then Done [] else let* r := cstring bs in Done (b :: r)
  end.
Definition h_enc (m : bytes) (pos : Z) : outcome bytes :=
  if inb m (pos + 32) 0 then cstring (drop (Z.to_nat (pos + 32)) m) else Fault.

(** [memset(enc, 0, 8); strncpy(enc, src, 5)] with [src] the characters before
    the terminator, or a null pointer. *)
Definition enc_field (src : option bytes) : bytes :=
  match src with
  | None => replicate 8 0
  | Some s => take 8 (take 5 s ++ replicate 8 0)
  end.

(** [(n/4+1)*4] when [n%4 != 0]. *)
Definition pad4 (n : Z) : Z := if n mod 4 =? 0 then n else u32 ((n / 4 + 1) * 4).

(** ** Creation, reset, release *)

Definition zeros16 : list Z := replicate 16 0.

Definition zeroed (buf : option bytes) (size mutex : Z) : _MEDIA_BUFFER :=
  mkMB zeros16 0 0 zeros16 0 zeros16 0 buf size zeros16 zeros16 0 0 0 0 0 0 mutex.

(** [InitMediaBuffer]: [mem1] and [mem2] are the results of the two [malloc]
    calls; the struct itself is allocated with [size] bytes. *)
Definition InitMediaBuffer (sizeof_MB size : Z) (mem1 : bool) (mem2 : option bytes)
  : outcome handle :=
  if negb mem1 then Done Null
  else if size <? sizeof_MB then Fault
  else match mem2 with
  | None => Done Null
  | Some m => Done (Live (zeroed (Some m) (u32 size) 0))
  end.

Definition with_isuse (p : _MEDIA_BUFFER) (u : list Z) : _MEDIA_BUFFER :=
  mkMB (_readpos p) (_writepos p) (_lastwritepos p) (_readcount p) (_writecount p)
    (_readlock p) (_writelock p) (_buf p) (_bufsize p) (_overwriteread p) u
    (_fps p) (_bitrate p) (_lasttime p) (_starttime p) (_lastwritecount p)
    (_bitwritecount p) (_mutex p).

Definition ResetMediaBuffer (pHandle : handle) : outcome handle :=
  match pHandle with
  | Null => Done Null
  | Freed => Fault
  | Live p =>
      let lock := _mutex p + 1 in
      let tmpsize := i32 (_bufsize p) in
      Done (Live (with_isuse (zeroed (_buf p) (u32 tmpsize) (lock - 1)) (_isuse p)))
  end.

Definition ReleaseBuffer (pHandle : handle) : outcome handle :=
  match pHandle with
  | Null => Done Null
  | Freed => Fault
  | Live _ => Done Freed
  end.

(** ** Counters *)

Definition GetWriteCount (pHandle : handle) : outcome Z :=
  match pHandle with
  | Null => Done 0
  | Freed => Fault
  | Live p => Done (_writecount p)
  end.

(** The guard admits index 16: element 16 of [_readcount] is, in the struct's
    layout, the following field [_writecount]. *)
Definition GetReadCount (pHandle : handle) (index : Z) : outcome Z :=
  if (index <? 0) || (16 <? index) then Done 0
  else match pHandle with
  | Null => Done 0
  | Freed => Fault
  | Live p => Done (if index =? 16 then _writecount p else zget (_readcount p) index)
  end.

Definition GetCurrentFPS (pHandle : handle) : outcome Z :=
  match pHandle with
  | Null => Done MB_INVALID_HANDLE
  | Freed => Fault
  | Live p => Done (_fps p)
  end.

Definition GetCurrentBitrate (pHandle : handle) : outcome Z :=
  match pHandle with
  | Null => Done MB_INVALID_HANDLE
  | Freed => Fault
  | Live p => Done (_bitrate p)
  end.

(** [clock_ms] from the reading of [clock_gettime]. *)
Definition clock_ms (tv_sec tv_nsec : Z) : Z :=
  u64 (u64 (tv_sec * 1000) + tv_nsec / 1000000).

(** ** Readers *)

Definition with_readers (p : _MEDIA_BUFFER) (pos cnt lck ovw : list Z) : _MEDIA_BUFFER :=
  mkMB pos (_writepos p) (_lastwritepos p) cnt (_writecount p) lck (_writelock p)
    (_buf p) (_bufsize p) ovw (_isuse p) (_fps p) (_bitrate p) (_lasttime p)
    (_starttime p) (_lastwritecount p) (_bitwritecount p) (_mutex p).
Definition with_mutex (p : _MEDIA_BUFFER) (m : Z) : _MEDIA_BUFFER :=
  mkMB (_readpos p) (_writepos p) (_lastwritepos p) (_readcount p) (_writecount p)
    (_readlock p) (_writelock p) (_buf p) (_bufsize p) (_overwriteread p) (_isuse p)
    (_fps p) (_bitrate p) (_lasttime p) (_starttime p) (_lastwritecount p)
    (_bitwritecount p) m.
Definition lock (p : _MEDIA_BUFFER) : _MEDIA_BUFFER := with_mutex p (_mutex p + 1).
Definition unlock (p : _MEDIA_BUFFER) : _MEDIA_BUFFER := with_mutex p (_mutex p - 1).
Definition set_readpos (p : _MEDIA_BUFFER) (i v : Z) : _MEDIA_BUFFER :=
  with_readers p (zset (_readpos p) i v) (_readcount p) (_readlock p) (_overwriteread p).
Definition set_readcount (p : _MEDIA_BUFFER) (i v : Z) : _MEDIA_BUFFER :=
  with_readers p (_readpos p) (zset (_readcount p) i v) (_readlock p) (_overwriteread p).
Definition set_readlock (p : _MEDIA_BUFFER) (i v : Z) : _MEDIA_BUFFER :=
  with_readers p (_readpos p) (_readcount p) (zset (_readlock p) i v) (_overwriteread p).
Definition set_overwrite (p : _MEDIA_BUFFER) (i v : Z) : _MEDIA_BUFFER :=
  with_readers p (_readpos p) (_readcount p) (_readlock p) (zset (_overwriteread p) i v).

(** The loop [for (i = 0; i < 16; i++) if (!_isuse[i])], over the remaining slots. *)
Fixpoint first_free (i : Z) (isuse : list Z) : option Z :=
  match isuse with
  | [] => None
  | u :: us => if u =? 0 then Some i else first_free (i + 1) us
  end.

Definition GetReadIndex (pHandle : handle) : outcome (handle * Z) :=
  match pHandle with
  | Null => Done (Null, MB_INVALID_HANDLE)
  | Freed => Fault
  | Live p =>
      match first_free 0 (_isuse p) with
      | Some i => Done (Live (with_isuse (set_overwrite p i 1) (zset (_isuse p) i 1)), i)
      | None => Done (Live p, MB_INVALID_HANDLE)
      end
  end.

Definition ReleaseReader (pHandle : handle) (index : Z) : outcome handle :=
  if (index <? 0) || (15 <? index) then Done pHandle
  else match pHandle with
  | Null => Done Null
  | Freed => Fault
  | Live p => Done (Live (with_isuse p (zset (_isuse p) index 0)))
  end.

Definition unlockRead (pHandle : handle) (index : Z) : outcome (handle * Z) :=
  match pHandle with
  | Null => Done (Null, MB_INVALID_HANDLE)
  | Freed => Fault
  | Live p =>
      if (index <? 0) || (15 <? index) then Done (Live p, MB_INVALID_INDEX)
      else Done (Live (unlock (set_readlock p index 0)), MB_SUCCESS)
  end.

(** ** Reading *)

(** The backward walk over [_prevpos] to a key frame, [n] counting the reader's
    [_readcount] down: the position found, or [None]. *)
Fixpoint find_key (fuel : nat) (m : bytes) (lreadpos n : Z) : outcome (option Z * Z) :=
  match fuel with
  | O => OutOfFuel
  | S fuel =>
      if lreadpos <? 0 then Done (None, n)
      else
        let* prevpos := h_prevpos m lreadpos in
        let* buftype := h_buftype m lreadpos in
        let* flag := h_flag m lreadpos in
        if (buftype =? MB_FT_IFRAME) && (flag =? FLAG) then Done (Some lreadpos, n)
        else if (lreadpos =? 0) && (prevpos =? 0) then Done (None, n)
        else find_key fuel m (i32 prevpos) (u32 (n - 1))
  end.

(** What a successful read stores through the caller's pointers; [o_buf] is
    [*buf] as an offset into [_buf]. *)
Record read_out := mkOut {
  o_buf : Z;
  o_readsize : Z;
  o_type : Z;
  o_timestamp : Z;
  o_playtime : Z;
  o_enc : bytes
}.

(** The frame at [lreadpos] delivered to the caller. *)
Definition read_frame (p : _MEDIA_BUFFER) (m : bytes) (readsize index lreadpos : Z)
  : outcome (_MEDIA_BUFFER * Z * option read_out) :=
  let* flag := h_flag m lreadpos in
  let lreadpos := if flag =? FLAG then lreadpos else 0 in
  let* buflen := h_buflen m lreadpos in
  if readsize <? buflen then Done (p, MB_TOO_SMALL, None)
  else
    let* reallen := h_reallen m lreadpos in
    let* buftype := h_buftype m lreadpos in
    let* timestamp := h_timestamp m lreadpos in
    let* playtime := h_playtime m lreadpos in
    let* enc := h_enc m lreadpos in
    let* nextpos := h_nextpos m lreadpos in
    let p := set_readcount p index (u32 (zget (_readcount p) index + 1)) in
    let p := set_readpos p index (u32 (i32 nextpos)) in
    Done (p, MB_SUCCESS,
          Some (mkOut (lreadpos + sizeof_BUFHDR) reallen (i32 buftype) timestamp playtime enc)).

(** The body of [ReadBuffer] between lock and unlock. *)
Definition read_locked (fuel : nat) (p : _MEDIA_BUFFER) (m : bytes) (readsize index : Z)
  : outcome (_MEDIA_BUFFER * Z * option read_out) :=
  let p := set_readlock p index (i32 (zget (_readlock p) index + 1)) in
  if zget (_overwriteread p) index =? 0
  then read_frame p m readsize index (i32 (zget (_readpos p) index))
  else
    let lreadpos := i32 (_lastwritepos p) in
    let lreadpos := if lreadpos <? 0 then 0 else lreadpos in
    let* '(found, n) := find_key fuel m lreadpos (u32 (_writecount p - 1)) in
    let p := set_readcount p index n in
    match found with
    | None => Done (p, MB_NO_BUFFER, None)
    | Some pos => read_frame (set_overwrite p index 0) m readsize index pos
    end.

(** [ReadBuffer]: the [;] after [if (rt != MB_SUCCESS)] makes the unlock
    unconditional. *)
Definition ReadBuffer (fuel : nat) (pHandle : handle) (readsize index : Z)
  : outcome (handle * Z * option read_out) :=
  match pHandle with
  | Null => Done (Null, MB_INVALID_HANDLE, None)
  | Freed => Fault
  | Live p =>
      match _buf p with
      | None => Done (Live p, MB_INVALID_HANDLE, None)
      | Some m =>
          if (index <? 0) || (15 <? index) then Done (Live p, MB_INVALID_INDEX, None)
          else if zget (_readpos p) index =? _writepos p
          then Done (Live p, MB_NO_BUFFER, None)
          else
            let* '(p', rt, out) := read_locked fuel (lock p) m readsize index in
            Done (Live (unlock p'), rt, out)
      end
  end.

(** The bytes behind [*buf] that the caller consumes. *)
Definition payload (m : bytes) (o : read_out) : outcome bytes :=
  load m (o_buf o) (o_readsize o).

(** ** Writing *)

(** The overwrite marks: a reader whose position lies inside the new frame's
    extent, computed before the position wraps. *)
Definition mark_overwrite (lwritepos pSize : Z) (readpos ovw : list Z) : list Z :=
  zip_with (fun r o =>
    if (lwritepos <? r) && (r <? lwritepos + sizeof_BUFHDR + pSize) then 1 else o)
    readpos ovw.

(** The position the frame goes to: back to the start when it does not fit. *)
Definition place (bufsize lwritepos pSize : Z) : Z :=
  if (bufsize <? lwritepos + sizeof_BUFHDR) || (bufsize <? lwritepos + sizeof_BUFHDR + pSize)
  then 0 else lwritepos.

(** [durationtime > 1000]: rate per second as the code computes it in binary32. *)
Definition rate (count durationtime : Z) : outcome Z :=
  F32.to_int (F32.div (F32.of_Z count) (F32.div (F32.of_Z durationtime) (F32.of_Z 1000))).

(** The three possible readings of [clock_ms] during one write. *)
Record clock := mkClock { t_start : Z; t_now : Z; t_last : Z }.

(** The statistics updated after the unlock. *)
Definition update_stats (clk : clock) (p : _MEDIA_BUFFER) : outcome _MEDIA_BUFFER :=
  let upd lasttime fps bitrate :=
    mkMB (_readpos p) (_writepos p) (_lastwritepos p) (_readcount p) (_writecount p)
      (_readlock p) (_writelock p) (_buf p) (_bufsize p) (_overwriteread p) (_isuse p)
      fps bitrate lasttime (_starttime p) (i32 (_writecount p)) (_bitwritecount p) (_mutex p) in
  if _lasttime p =? 0 then Done (upd (t_now clk) (_fps p) (_bitrate p))
  else
    let durationtime := u32 (t_now clk - _starttime p) in
    if durationtime <=? 1000 then Done p
    else
      let* lfps := rate (_writecount p) durationtime in
      let* lcount := rate (_bitwritecount p) durationtime in
      Done (upd (t_last clk) lfps lcount).

(** The frame given to [WrtieBuffer]: [memcpy] reads [pSize] bytes of [pBuf]. *)
Record frame := mkFrame {
  f_type : Z;
  f_timestamp : Z;
  f_playtime : Z;
  f_enc : option bytes;
  f_data : bytes
}.

Definition header_of (f : frame) (lwritepos prevpos : Z) : _BUFHDR :=
  let len := pad4 (zlen (f_data f)) in
  mkHdr FLAG (u32 (f_type f)) len (f_timestamp f) (zlen (f_data f)) (f_playtime f)
    (enc_field (f_enc f)) prevpos (u32 (lwritepos + sizeof_BUFHDR + len)).

(** The struct once the frame is in memory, when the lock is released. *)
Definition commit (clk : clock) (p : _MEDIA_BUFFER) (f : frame) (hdr : _BUFHDR)
    (lwritepos : Z) (m : bytes) : _MEDIA_BUFFER :=
  mkMB (_readpos p) (_nextpos hdr) lwritepos (_readcount p) (u32 (_writecount p + 1))
    (_readlock p) 0 (Some m) (_bufsize p)
    (mark_overwrite (_writepos p) (zlen (f_data f)) (_readpos p) (_overwriteread p))
    (_isuse p) (_fps p) (_bitrate p) (_lasttime p)
    (if _starttime p =? 0 then t_start clk else _starttime p)
    (_lastwritecount p) (i32 (_bitwritecount p + _buflen hdr)) (_mutex p).

Definition WrtieBuffer (clk : clock) (pHandle : handle) (f : frame) : outcome (handle * Z) :=
  match pHandle with
  | Null => Done (Null, MB_INVALID_HANDLE)
  | Freed => Fault
  | Live p =>
      match _buf p with
      | None => Done (Live p, MB_INVALID_HANDLE)
      | Some m =>
          let pSize := zlen (f_data f) in
          let lwritepos := place (_bufsize p) (_writepos p) pSize in
          let hdr := header_of f lwritepos (_lastwritepos p) in
          let* m1 := store m lwritepos (hdr_encode hdr) in
          let* m2 := store m1 (lwritepos + sizeof_BUFHDR) (f_data f) in
          let p' := commit clk p f hdr lwritepos m2 in
          let* p'' := update_stats clk p' in
          Done (Live p'', MB_SUCCESS)
      end
  end.

(** ** The lap: the frames written since the position last returned to 0 *)

Definition fsize (f : frame) : Z := sizeof_BUFHDR + pad4 (zlen (f_data f)).

Fixpoint lap_end (pos : Z) (fs : list frame) : Z :=
  match fs with [] => pos | f :: fs => lap_end (pos + fsize f) fs end.

(** The position of the last frame; [prev] when there is none. *)
Fixpoint last_start (prev pos : Z) (fs : list frame) : Z :=
  match fs with [] => prev | f :: fs => last_start pos (pos + fsize f) fs end.

Fixpoint frames_at (m : bytes) (pos prev : Z) (fs : list frame) : Prop :=
  match fs with
  | [] => True
  | f :: fs =>
      load m pos sizeof_BUFHDR = Done (hdr_encode (header_of f pos prev)) /\
      load m (pos + sizeof_BUFHDR) (zlen (f_data f)) = Done (f_data f) /\
      frames_at m (pos + fsize f) pos fs
  end.

Definition enc_ok (e : option bytes) : Prop :=
  match e with None => True | Some s => Forall (fun c => 0 < c < 256) s end.

Record frame_ok (f : frame) : Prop := {
  ok_type : 0 <= f_type f < 2 ^ 31;
  ok_ts : 0 <= f_timestamp f < 2 ^ 64;
  ok_play : 0 <= f_playtime f < 2 ^ 32;
  ok_enc : enc_ok (f_enc f);
  ok_len : zlen (f_data f) < 2 ^ 31 - 52
}.

Record Lap (p : _MEDIA_BUFFER) (m : bytes) (prev : Z) (fs : list frame) : Prop := {
  lap_buf : _buf p = Some m;
  lap_size : zlen m = _bufsize p;
  lap_small : _bufsize p < 2 ^ 31;
  lap_prev : 0 <= prev < 2 ^ 31;
  lap_frames : frames_at m 0 prev fs;
  lap_ok : Forall frame_ok fs;
  lap_wpos : _writepos p = lap_end 0 fs;
  lap_last : _lastwritepos p = last_start prev 0 fs;
  lap_readers : length (_readpos p) = 16%nat /\ length (_readcount p) = 16%nat /\
                length (_readlock p) = 16%nat /\ length (_overwriteread p) = 16%nat
}.

(** ** Lemmas: sizes and positions *)

Lemma pad4_spec n : 0 <= n < 2 ^ 31 -> n <= pad4 n < n + 4 /\ pad4 n mod 4 = 0.
Proof.
  intros H; unfold pad4; destruct (n mod 4 =? 0) eqn:E; [lia|].
  rewrite u32_small by dlia. split; [dlia|].
  rewrite Z.mod_mul; lia.
Qed.

Lemma zlen_nonneg {A} (l : list A) : 0 <= zlen l.
Proof. unfold zlen; lia. Qed.

Lemma fsize_bounds f :
  frame_ok f -> sizeof_BUFHDR + zlen (f_data f) <= fsize f < sizeof_BUFHDR + zlen (f_data f) + 4
                /\ sizeof_BUFHDR <= fsize f.
Proof.
  intros [_ _ _ _ H]; unfold fsize.
  pose proof (zlen_nonneg (f_data f)); pose proof (pad4_spec (zlen (f_data f))); lia.
Qed.

Lemma lap_end_app pos fs gs : lap_end pos (fs ++ gs) = lap_end (lap_end pos fs) gs.
Proof. revert pos; induction fs; intros; simpl; auto. Qed.

Lemma last_start_snoc prev pos fs f : last_start prev pos (fs ++ [f]) = lap_end pos fs.
Proof. revert prev pos; induction fs; intros; simpl; auto. Qed.

Lemma lap_end_ge pos fs : Forall frame_ok fs -> pos <= lap_end pos fs.
Proof.
  revert pos; induction fs as [|f fs IH]; intros pos H; simpl; [lia|].
  inversion_clear H. specialize (IH (pos + fsize f)).
  pose proof (fsize_bounds f); unfold sizeof_BUFHDR in *; intuition lia.
Qed.

Lemma frames_at_app m pos prev fs gs :
  frames_at m pos prev (fs ++ gs) <->
  frames_at m pos prev fs /\ frames_at m (lap_end pos fs) (last_start prev pos fs) gs.
Proof.
  revert pos prev; induction fs as [|f fs IH]; intros pos prev; simpl; [tauto|].
  rewrite IH; tauto.
Qed.

Lemma enc_field_length e : length (enc_field e) = 8%nat.
Proof.
  destruct e; [|done]; unfold enc_field.
  rewrite length_take, length_app, length_replicate; lia.
Qed.

Lemma hdr_encode_length h : length (_enc h) = 8%nat -> zlen (hdr_encode h) = 48.
Proof.
  intros H; unfold hdr_encode, zlen; rewrite !length_app, !le_split_length, H; reflexivity.
Qed.

Lemma header_length f pos prev : zlen (hdr_encode (header_of f pos prev)) = sizeof_BUFHDR.
Proof. apply hdr_encode_length, enc_field_length. Qed.

(** ** Lemmas: decoding a header *)

Section Decode.
Context (m : bytes) (pos : Z) (h : _BUFHDR).
Hypothesis Hload : load m pos sizeof_BUFHDR = Done (hdr_encode h).
Hypothesis Henc : length (_enc h) = 8%nat.

Lemma load_field (o : Z) (pre bs post : bytes) :
  hdr_encode h = pre ++ bs ++ post -> zlen pre = o -> load m (pos + o) (zlen bs) = Done bs.
Proof.
  intros E <-.
  assert (zlen (hdr_encode h) = sizeof_BUFHDR) as Hl by by apply hdr_encode_length.
  rewrite (load_sub _ _ _ _ (zlen pre) (zlen bs) Hload);
    [|apply zlen_nonneg..|rewrite <- Hl, E; unfold zlen; rewrite !length_app; lia].
  unfold zlen; rewrite E, !Nat2Z.id, drop_app_length, take_app_length; done.
Qed.

Lemma load32_field (o v : Z) (pre post : bytes) :
  hdr_encode h = pre ++ le_split 4 v ++ post -> zlen pre = o -> in_u32 v ->
  load32 m (pos + o) = Done v.
Proof.
  intros E Hp Hv; unfold load32.
  pose proof (load_field o pre (le_split 4 v) post E Hp) as H.
  change (zlen (le_split 4 v)) with 4 in H; rewrite H; cbn [obind].
  rewrite le_join_split_small; done.
Qed.

Definition hdr_upto16 : bytes :=
  le_split 4 (_flag h) ++ le_split 4 (_buftype h) ++ le_split 4 (_buflen h) ++ [0; 0; 0; 0].
Definition hdr_upto40 : bytes :=
  hdr_upto16 ++ le_split 8 (_timestamp h) ++ le_split 4 (_reallen h) ++
  le_split 4 (_playtime h) ++ _enc h.

Lemma hdr_split40 :
  hdr_encode h = hdr_upto40 ++ le_split 4 (_prevpos h) ++ le_split 4 (_nextpos h).
Proof. unfold hdr_encode, hdr_upto40, hdr_upto16; rewrite <- !app_assoc; done. Qed.

Lemma hdr_upto40_length : zlen hdr_upto40 = 40.
Proof.
  unfold hdr_upto40, hdr_upto16, zlen; rewrite !length_app, !le_split_length, Henc; done.
Qed.

Lemma decode_flag : in_u32 (_flag h) -> h_flag m pos = Done (_flag h).
Proof.
  intros H; unfold h_flag; rewrite <- (Z.add_0_r pos).
  apply (load32_field 0 _ [] _ eq_refl eq_refl H).
Qed.
Lemma decode_buftype : in_u32 (_buftype h) -> h_buftype m pos = Done (_buftype h).
Proof. apply (load32_field 4 _ (le_split 4 (_flag h)) _ eq_refl eq_refl). Qed.
Lemma decode_buflen : in_u32 (_buflen h) -> h_buflen m pos = Done (_buflen h).
Proof.
  apply (load32_field 8 _ (le_split 4 (_flag h) ++ le_split 4 (_buftype h)) _ eq_refl eq_refl).
Qed.
Lemma decode_timestamp : 0 <= _timestamp h < 2 ^ 64 -> h_timestamp m pos = Done (_timestamp h).
Proof.
  intros H; unfold h_timestamp, load64.
  pose proof (load_field 16 hdr_upto16 (le_split 8 (_timestamp h)) _ eq_refl eq_refl) as E.
  change (zlen (le_split 8 (_timestamp h))) with 8 in E; rewrite E; cbn [obind].
  rewrite le_join_split_small; done.
Qed.
Lemma decode_reallen : in_u32 (_reallen h) -> h_reallen m pos = Done (_reallen h).
Proof.
  apply (load32_field 24 _ (hdr_upto16 ++ le_split 8 (_timestamp h)) _ eq_refl eq_refl).
Qed.
Lemma decode_playtime : in_u32 (_playtime h) -> h_playtime m pos = Done (_playtime h).
Proof.
  apply (load32_field 28 _ (hdr_upto16 ++ le_split 8 (_timestamp h) ++ le_split 4 (_reallen h))
           _ eq_refl eq_refl).
Qed.
Lemma decode_prevpos : in_u32 (_prevpos h) -> h_prevpos m pos = Done (_prevpos h).
Proof. apply (load32_field 40 _ _ _ hdr_split40 hdr_upto40_length). Qed.
Lemma decode_nextpos : in_u32 (_nextpos h) -> h_nextpos m pos = Done (_nextpos h).
Proof.
  apply (load32_field 44 _ (hdr_upto40 ++ le_split 4 (_prevpos h)) []).
  - rewrite hdr_split40, app_nil_r, <- app_assoc; done.
  - pose proof hdr_upto40_length as E; unfold zlen in *; rewrite length_app, le_split_length; lia.
Qed.

Lemma cstring_app e r x : cstring e = Done r -> cstring (e ++ x) = Done r.
Proof.
  revert r; induction e as [|b e IH]; intros r; simpl; [done|].
  destruct (b =? 0); [done|]; intros H; obinv H; rewrite (IH _ E); done.
Qed.

Lemma decode_enc s : cstring (_enc h) = Done s -> h_enc m pos = Done s.
Proof.
  intros H; unfold h_enc.
  assert (load m (pos + 32) (zlen (_enc h)) = Done (_enc h)) as E.
  { apply (load_field 32 (hdr_upto16 ++ le_split 8 (_timestamp h) ++ le_split 4 (_reallen h)
             ++ le_split 4 (_playtime h)) (_enc h) _ eq_refl); reflexivity. }
  pose proof (load_done_len _ _ _ _ E) as (_ & H1 & H2).
  unfold load in E; destruct (inb m (pos + 32) (zlen (_enc h))) in E; [|done].
  replace (inb m (pos + 32) 0) with true
    by (symmetry; apply inb_spec; pose proof (zlen_nonneg (_enc h)); lia).
  injection E as E'.
  rewrite <- (take_drop (Z.to_nat (zlen (_enc h))) (drop (Z.to_nat (pos + 32)) m)), E'.
  apply cstring_app; done.
Qed.
End Decode.

Lemma cstring_enc e :
  enc_ok e -> cstring (enc_field e) = Done (match e with Some s => take 5 s | None => [] end).
Proof.
  destruct e as [s|]; [|done]; intros H; unfold enc_field.
  assert (forall k n l, (length (take n l) <= k)%nat -> Forall (fun c => 0 < c < 256) l ->
    cstring (take (S k) (take n l ++ replicate (S k) 0)) = Done (take n l)) as Hgen.
  { intros k n l; revert k l; induction n as [|n IH]; intros k [|c l] Hk Hl; try done.
    inversion_clear Hl; simpl in Hk; destruct k as [|k]; [lia|].
    change (replicate (S (S k)) 0) with ([0] ++ replicate (S k) 0); simpl.
    replace (c =? 0) with false by lia.
    change (0 :: 0 :: replicate k 0) with (replicate (S (S k)) 0).
    rewrite replicate_S_end, app_assoc, take_app_le
      by (rewrite length_app, length_replicate; simpl in *; lia).
    rewrite IH; done || lia. }
  apply (Hgen 7%nat); [rewrite length_take; lia|done].
Qed.

Lemma frames_at_bound m pos prev pre f post :
  frames_at m pos prev (pre ++ f :: post) ->
  lap_end pos pre + sizeof_BUFHDR + zlen (f_data f) <= zlen m /\ 0 <= lap_end pos pre.
Proof.
  rewrite frames_at_app; simpl; intros (_ & H1 & H2 & _).
  apply load_done_len in H1, H2; lia.
Qed.

Lemma frames_at_store m m' off bs pos prev fs :
  store m off bs = Done m' -> Forall frame_ok fs -> lap_end pos fs <= off ->
  frames_at m pos prev fs -> frames_at m' pos prev fs.
Proof.
  intros Hs; revert pos prev; induction fs as [|f fs IH]; intros pos prev Hok Hoff; simpl; [done|].
  inversion_clear Hok as [|? ? Hf Hfs]; intros (H1 & H2 & H3); simpl in Hoff.
  pose proof (lap_end_ge (pos + fsize f) fs Hfs); pose proof (fsize_bounds f Hf).
  repeat split; auto.
  - rewrite (load_store_disjoint _ _ _ _ _ _ Hs); [done|lia].
  - rewrite (load_store_disjoint _ _ _ _ _ _ Hs); [done|lia].
Qed.

(** The statistics are defined: the rates fit an [int]. *)
Definition rates_ok (clk : clock) (p : _MEDIA_BUFFER) (f : frame) : bool :=
  let start := if _starttime p =? 0 then t_start clk else _starttime p in
  let d := u32 (t_now clk - start) in
  (_lasttime p =? 0) || (d <=? 1000) ||
  match rate (u32 (_writecount p + 1)) d,
        rate (i32 (_bitwritecount p + pad4 (zlen (f_data f)))) d with
  | Done _, Done _ => true
  | _, _ => false
  end.

(** Everything but the statistics. *)
Definition core (p : _MEDIA_BUFFER) :=
  (_readpos p, _writepos p, _lastwritepos p, _readcount p, _writecount p, _readlock p,
   _buf p, _bufsize p, (_overwriteread p, _isuse p, _mutex p, _starttime p)).

Lemma update_stats_core clk p p' : update_stats clk p = Done p' -> core p' = core p.
Proof.
  unfold update_stats; case_bool; intros H; [by simplify_eq..|].
  obinv H; by simplify_eq.
Qed.

Lemma update_stats_total clk p f pos prev lw m :
  rates_ok clk p f = true ->
  exists p', update_stats clk (commit clk p f (header_of f pos prev) lw m) = Done p'.
Proof.
  unfold rates_ok, update_stats; cbn -[rate u32].
  destruct (_lasttime p =? 0); [eauto|]; simpl.
  destruct (_ <=? 1000); [eauto|]; simpl.
  destruct (rate _ _); simpl; [|done..].
  destruct (rate _ _); simpl; [eauto|done..].
Qed.

Lemma header_next f pos prev :
  frame_ok f -> 0 <= pos -> pos + sizeof_BUFHDR + zlen (f_data f) <= 2 ^ 31 ->
  _nextpos (header_of f pos prev) = pos + fsize f.
Proof.
  intros Hf Hp Hb; unfold fsize; simpl.
  pose proof (fsize_bounds f Hf) as Hs; unfold fsize, sizeof_BUFHDR in *.
  rewrite u32_small; lia.
Qed.

(** One frame stored at [pos] in a buffer that holds [fs] below [pos]. *)
Lemma store_frame m pos prev f :
  0 <= pos -> pos + sizeof_BUFHDR + zlen (f_data f) <= zlen m ->
  exists m1 m2,
    store m pos (hdr_encode (header_of f pos prev)) = Done m1 /\
    store m1 (pos + sizeof_BUFHDR) (f_data f) = Done m2 /\
    zlen m2 = zlen m /\ frames_at m2 pos prev [f] /\
    (forall p0 pv fs, Forall frame_ok fs -> lap_end p0 fs <= pos ->
       frames_at m p0 pv fs -> frames_at m2 p0 pv fs).
Proof.
  intros Hp Hb; pose proof (zlen_nonneg (f_data f)).
  pose proof (header_length f pos prev) as Hh.
  destruct (store_total m pos (hdr_encode (header_of f pos prev))) as [m1 E1]; [done|lia|].
  pose proof (store_length _ _ _ _ E1) as L1.
  destruct (store_total m1 (pos + sizeof_BUFHDR) (f_data f)) as [m2 E2];
    [unfold sizeof_BUFHDR; lia|lia|].
  pose proof (store_length _ _ _ _ E2) as L2.
  exists m1, m2; split_and!; try done; [lia| |].
  - simpl; split_and!; [| |done].
    + rewrite (load_store_disjoint _ _ _ _ _ _ E2), <- Hh by lia.
      by apply (load_store_same m).
    + by apply (load_store_same m1).
  - intros p0 pv fs Hok Hend Hfr.
    eapply frames_at_store; [exact E2|done|unfold sizeof_BUFHDR; lia|].
    eapply frames_at_store; eauto.
Qed.

(** ** Writing extends the lap, or starts a new one *)

Lemma core_lap p p' m prev fs : core p' = core p -> Lap p m prev fs -> Lap p' m prev fs.
Proof. unfold core; intros E []; simplify_eq; constructor; try congruence; intuition congruence. Qed.

Lemma last_start_bound m pos prev fs :
  frames_at m pos prev fs -> 0 <= prev < 2 ^ 31 -> zlen m < 2 ^ 31 ->
  0 <= last_start prev pos fs < 2 ^ 31.
Proof.
  destruct fs as [|f fs _] using rev_ind; [done|].
  intros H ? ?; apply frames_at_bound in H; rewrite last_start_snoc.
  pose proof (zlen_nonneg (f_data f)); unfold sizeof_BUFHDR in *; lia.
Qed.

Lemma write_frame clk p m prev fs f :
  Lap p m prev fs -> frame_ok f -> rates_ok clk p f = true ->
  sizeof_BUFHDR + zlen (f_data f) <= _bufsize p ->
  exists p' m',
    WrtieBuffer clk (Live p) f = Done (Live p', MB_SUCCESS) /\
    (if _writepos p + sizeof_BUFHDR + zlen (f_data f) <=? _bufsize p
     then Lap p' m' prev (fs ++ [f])
     else Lap p' m' (_lastwritepos p) [f]) /\
    _writecount p' = u32 (_writecount p + 1) /\
    _readpos p' = _readpos p /\ _mutex p' = _mutex p /\
    _overwriteread p' =
      mark_overwrite (_writepos p) (zlen (f_data f)) (_readpos p) (_overwriteread p) /\
    _isuse p' = _isuse p /\ _bufsize p' = _bufsize p /\
    _starttime p' = (if _starttime p =? 0 then t_start clk else _starttime p).
Proof.
  intros HL Hf Hr Hfit; destruct (HL) as [Hb Hsz Hsm Hpv Hfr Hok Hw Hl Hrd].
  pose proof (zlen_nonneg (f_data f)) as Hn; pose proof (lap_end_ge 0 fs Hok) as Hge.
  set (lw := place (_bufsize p) (_writepos p) (zlen (f_data f))).
  assert (0 <= lw /\ lw + sizeof_BUFHDR + zlen (f_data f) <= zlen m) as [Hlw0 Hlw].
  { unfold lw, place, sizeof_BUFHDR in *; case_bool; lia. }
  destruct (store_frame m lw (_lastwritepos p) f Hlw0 Hlw) as (m1 & m2 & E1 & E2 & Lm & F & K).
  set (hdr := header_of f lw (_lastwritepos p)).
  destruct (update_stats_total clk p f lw (_lastwritepos p) lw m2 Hr) as [p' E3].
  pose proof (update_stats_core _ _ _ E3) as Hc.
  assert (0 <= _lastwritepos p < 2 ^ 31) as Hlast.
  { rewrite Hl; eapply last_start_bound; eauto; lia. }
  exists p', m2; split.
  { unfold WrtieBuffer; rewrite Hb; fold lw; cbv zeta; rewrite E1; cbn [obind].
    rewrite E2; cbn [obind]; rewrite E3; done. }
  split; [|unfold core in Hc; simplify_eq; simpl in *; split_and!; congruence].
  assert (length (mark_overwrite (_writepos p) (zlen (f_data f)) (_readpos p)
            (_overwriteread p)) = 16%nat) as Hmk.
  { unfold mark_overwrite; rewrite length_zip_with; lia. }
  assert (_nextpos hdr = lw + fsize f) as Hnext by (apply header_next; [done|lia|lia]).
  destruct (_ <=? _bufsize p) eqn:Efit.
  - assert (lw = lap_end 0 fs) as Elw.
    { unfold lw, place; rewrite <- Hw; case_bool; unfold sizeof_BUFHDR in *; lia. }
    eapply core_lap; [exact Hc|]; constructor; simpl; try done; try lia.
    + apply frames_at_app; split; [apply (K 0 prev fs); [done|lia|done]|].
      rewrite <- Elw, <- Hl; done.
    + rewrite Forall_app, Forall_singleton; done.
    + rewrite lap_end_app, <- Elw; exact Hnext.
    + rewrite last_start_snoc; done.
  - assert (lw = 0) as Elw.
    { unfold lw, place; case_bool; unfold sizeof_BUFHDR in *; lia. }
    eapply core_lap; [exact Hc|]; constructor; simpl; try done; try lia.
    + rewrite <- Elw; done.
    + constructor; done.
    + change (_nextpos hdr = 0 + fsize f); lia.
Qed.

(** C3: [WrtieBuffer] on a buffer holding the lap [fs] succeeds whenever the
    frame with its header fits the buffer at all: if it fits behind the write
    position the lap becomes [fs ++ [f]] with every earlier frame intact,
    otherwise it becomes [[f]] at offset 0, linked back to the previous frame;
    the frame counter advances and no lock is left held. *)
Theorem write_lap clk p m prev fs f :
  Lap p m prev fs -> frame_ok f -> rates_ok clk p f = true ->
  sizeof_BUFHDR + zlen (f_data f) <= _bufsize p ->
  exists p' m',
    WrtieBuffer clk (Live p) f = Done (Live p', MB_SUCCESS) /\
    (if _writepos p + sizeof_BUFHDR + zlen (f_data f) <=? _bufsize p
     then Lap p' m' prev (fs ++ [f])
     else Lap p' m' (_lastwritepos p) [f]) /\
    _writecount p' = u32 (_writecount p + 1) /\
    _readpos p' = _readpos p /\ _mutex p' = _mutex p /\
    _overwriteread p' =
      mark_overwrite (_writepos p) (zlen (f_data f)) (_readpos p) (_overwriteread p).
Proof.
  intros HL Hf Hr Hfit.
  destruct (write_frame clk p m prev fs f HL Hf Hr Hfit)
    as (p' & m' & ? & ? & ? & ? & ? & ? & _); exists p', m'; auto 10.
Qed.

(** ** Reading *)

Lemma header_ranges f pos prev :
  frame_ok f -> 0 <= prev < 2 ^ 31 ->
  let h := header_of f pos prev in
  in_u32 (_flag h) /\ in_u32 (_buftype h) /\ in_u32 (_buflen h) /\ in_u32 (_reallen h) /\
  in_u32 (_prevpos h) /\ in_u32 (_nextpos h) /\ _buftype h = f_type f.
Proof.
  intros [Ht Hts Hp He Hl] Hpv; simpl; unfold in_u32, FLAG.
  pose proof (zlen_nonneg (f_data f)).
  pose proof (pad4_spec (zlen (f_data f)) ltac:(lia)).
  pose proof (u32_range (pos + sizeof_BUFHDR + pad4 (zlen (f_data f)))).
  rewrite u32_small by lia; split_and!; lia.
Qed.

(** What the consumer of a frame sees. *)
Definition view (f : frame) : Z * Z * Z * bytes * bytes :=
  (f_type f, f_timestamp f, f_playtime f,
   match f_enc f with Some s => take 5 s | None => [] end, f_data f).

Definition out_of (f : frame) (pos : Z) : read_out :=
  mkOut (pos + sizeof_BUFHDR) (zlen (f_data f)) (f_type f) (f_timestamp f) (f_playtime f)
    (match f_enc f with Some s => take 5 s | None => [] end).

Lemma frame_in_lap p m prev pre f post :
  Lap p m prev (pre ++ f :: post) ->
  let pos := lap_end 0 pre in
  load m pos sizeof_BUFHDR = Done (hdr_encode (header_of f pos (last_start prev 0 pre))) /\
  load m (pos + sizeof_BUFHDR) (zlen (f_data f)) = Done (f_data f) /\
  frame_ok f /\ 0 <= pos /\ pos + sizeof_BUFHDR + zlen (f_data f) < 2 ^ 31 /\
  0 <= last_start prev 0 pre < 2 ^ 31 /\ 0 <= pos + fsize f < 2 ^ 32.
Proof.
  intros [Hb Hsz Hsm Hpv Hfr Hok Hw Hl Hrd]; simpl.
  pose proof (frames_at_bound _ _ _ _ _ _ Hfr).
  apply frames_at_app in Hfr as [Hpre (H1 & H2 & _)].
  apply Forall_app in Hok as [Hokp Hokf]; inversion_clear Hokf as [|? ? Hf _].
  pose proof (last_start_bound _ _ _ _ Hpre Hpv ltac:(lia)).
  pose proof (fsize_bounds f Hf); pose proof (lap_end_ge 0 pre Hokp).
  unfold sizeof_BUFHDR in *.
  split_and!; done || lia.
Qed.

(** [read_frame] at the position of a frame of the lap. *)
Lemma read_frame_lap p q m prev pre f post readsize index :
  Lap q m prev (pre ++ f :: post) -> pad4 (zlen (f_data f)) <= readsize ->
  read_frame p m readsize index (lap_end 0 pre) =
  Done (set_readpos (set_readcount p index (u32 (zget (_readcount p) index + 1))) index
          (lap_end 0 (pre ++ [f])), MB_SUCCESS, Some (out_of f (lap_end 0 pre))).
Proof.
  intros HL Hrs; pose proof (frame_in_lap _ _ _ _ _ _ HL) as (H1 & H2 & Hf & H3 & H4 & H5 & H6).
  set (pos := lap_end 0 pre) in *.
  pose proof (header_ranges f pos _ Hf H5) as (R1 & R2 & R3 & R4 & R5 & R6 & R7).
  destruct (Hf) as [Ht Hts Hp He Hl].
  pose proof (enc_field_length (f_enc f)) as Henc.
  unfold read_frame.
  rewrite (decode_flag _ _ _ H1 Henc R1); cbn [obind _flag header_of].
  rewrite Z.eqb_refl, (decode_buflen _ _ _ H1 Henc R3); cbn [obind _buflen header_of].
  replace (readsize <? pad4 (zlen (f_data f))) with false by lia.
  rewrite (decode_reallen _ _ _ H1 Henc R4), (decode_buftype _ _ _ H1 Henc R2); cbn [obind].
  rewrite (decode_timestamp _ _ _ H1 Henc Hts), (decode_playtime _ _ _ H1 Henc Hp); cbn [obind].
  rewrite (decode_enc _ _ _ H1 Henc _ (cstring_enc _ He)); cbn [obind].
  rewrite (decode_nextpos _ _ _ H1 Henc R6), header_next, R7 by (done || lia); cbn [obind].
  unfold out_of. cbn [_timestamp _playtime _reallen header_of].
  rewrite lap_end_app; cbn [lap_end]; fold pos.
  rewrite u32_i32, (u32_small (pos + fsize f)), (i32_small (f_type f)) by lia; done.
Qed.

(** The header of a lap's frame, as the backward walk reads it. *)
Lemma walk_header p m prev pre f post :
  Lap p m prev (pre ++ f :: post) ->
  let pos := lap_end 0 pre in
  h_prevpos m pos = Done (last_start prev 0 pre) /\
  h_buftype m pos = Done (f_type f) /\ h_flag m pos = Done FLAG.
Proof.
  intros HL; pose proof (frame_in_lap _ _ _ _ _ _ HL) as (H1 & _ & Hf & _ & _ & H5 & _).
  pose proof (header_ranges f (lap_end 0 pre) _ Hf H5) as (R1 & R2 & _ & _ & R5 & _ & R7).
  pose proof (enc_field_length (f_enc f)) as Henc.
  split_and!; [apply (decode_prevpos _ _ _ H1 Henc R5)| |apply (decode_flag _ _ _ H1 Henc R1)].
  rewrite (decode_buftype _ _ _ H1 Henc R2), R7; done.
Qed.

Definition is_key (f : frame) : bool := f_type f =? MB_FT_IFRAME.

(** One step of the walk, at frame [f] of the lap. *)
Lemma find_key_step p m prev pre f post fuel n :
  Lap p m prev (pre ++ f :: post) ->
  find_key (S fuel) m (lap_end 0 pre) n =
  if is_key f then Done (Some (lap_end 0 pre), n)
  else if (lap_end 0 pre =? 0) && (last_start prev 0 pre =? 0) then Done (None, n)
  else find_key fuel m (last_start prev 0 pre) (u32 (n - 1)).
Proof.
  intros HL; pose proof (walk_header _ _ _ _ _ _ HL) as (E1 & E2 & E3).
  pose proof (frame_in_lap _ _ _ _ _ _ HL) as (_ & _ & _ & H3 & _ & H5 & _).
  cbn [find_key]; replace (lap_end 0 pre <? 0) with false by lia.
  rewrite E1, E2, E3; cbn [obind]; rewrite Z.eqb_refl, andb_true_r; unfold is_key.
  rewrite i32_small by lia; done.
Qed.

Lemma find_key_newest p m prev pre k post rest fuel n :
  Lap p m prev (pre ++ k :: post ++ rest) -> is_key k = true ->
  Forall (fun f => is_key f = false) post -> in_u32 n -> (length post < fuel)%nat ->
  find_key fuel m (last_start prev 0 (pre ++ k :: post)) n =
  Done (Some (lap_end 0 pre), u32 (n - zlen post)).
Proof.
  intros HL Hk; revert rest fuel n HL.
  induction post as [|f post IH] using rev_ind; intros rest [|fuel] n HL Hp Hn Hfuel;
    try (simpl in Hfuel; lia).
  - rewrite last_start_snoc, (find_key_step _ _ _ _ k rest) by done.
    rewrite Hk, Z.sub_0_r, u32_small by apply Hn; done.
  - apply Forall_app in Hp as [Hp Hf]; inversion_clear Hf as [|? ? Hf' _].
    rewrite app_comm_cons, app_assoc, last_start_snoc.
    rewrite <- app_assoc in HL; simpl in HL.
    rewrite (find_key_step p _ prev _ f rest);
      [|by rewrite <- app_assoc].
    rewrite Hf'.
    assert (0 < lap_end 0 (pre ++ k :: post)) as Hpos.
    { pose proof (lap_ok _ _ _ _ HL) as Hok; apply Forall_app in Hok as [Hok1 Hok2].
      rewrite lap_end_app; cbn [lap_end]; inversion_clear Hok2 as [|? ? Hk' Hok3].
      apply Forall_app in Hok3 as [Hok3 _].
      pose proof (lap_end_ge 0 pre Hok1); pose proof (lap_end_ge (lap_end 0 pre + fsize k) post Hok3).
      pose proof (fsize_bounds k Hk'); unfold sizeof_BUFHDR in *; lia. }
    replace (lap_end 0 (pre ++ k :: post) =? 0) with false by lia; cbn [andb].
    rewrite length_app in Hfuel; simpl in Hfuel.
    rewrite (IH ([f] ++ rest)); try done; [|apply u32_range|lia].
    unfold u32; rewrite Zminus_mod_idemp_l; unfold zlen; rewrite length_app; simpl.
    do 2 f_equal; f_equal; lia.
Qed.

Lemma find_key_none p m fs fuel n rest :
  Lap p m 0 (fs ++ rest) -> Forall (fun f => is_key f = false) fs ->
  fs <> [] -> (length fs <= fuel)%nat ->
  exists n', find_key fuel m (last_start 0 0 fs) n = Done (None, n').
Proof.
  revert fuel n rest; induction fs as [|f fs IH] using rev_ind;
    intros fuel n rest HL Hp Hne Hfuel; [done|].
  apply Forall_app in Hp as [Hp Hf]; inversion_clear Hf as [|? ? Hf' _].
  rewrite last_start_snoc; rewrite length_app in Hfuel; simpl in Hfuel.
  rewrite <- app_assoc in HL; simpl in HL.
  destruct fuel as [|fuel]; [lia|].
  rewrite (find_key_step _ _ _ _ f rest) by done; rewrite Hf'.
  destruct fs as [|g fs]; [simpl; eauto|].
  destruct (_ && _); [eauto|].
  eapply (IH fuel _ (f :: rest)); [done|done|done|lia].
Qed.

(** ** Reading a lap *)

Definition reader_ok (index : Z) : Prop := 0 <= index <= 15.

Lemma Lap_nonempty_reader p m prev fs pre f post :
  Lap p m prev fs -> fs = pre ++ f :: post -> lap_end 0 pre < _writepos p.
Proof.
  intros [Hb Hsz Hsm Hpv Hfr Hok Hw Hl Hrd] ->.
  apply Forall_app in Hok as [Hok1 Hok2]; inversion_clear Hok2 as [|? ? Hf Hok3].
  rewrite Hw, lap_end_app; cbn [lap_end].
  pose proof (lap_end_ge (lap_end 0 pre + fsize f) post Hok3).
  pose proof (fsize_bounds f Hf); unfold sizeof_BUFHDR in *; lia.
Qed.

(** What a successful read of frame [f] behind [pre] leaves. *)
Definition after_read (p : _MEDIA_BUFFER) (p' : _MEDIA_BUFFER) (index pos : Z) : Prop :=
  _readpos p' = zset (_readpos p) index pos /\ zget (_overwriteread p') index = 0 /\
  _mutex p' = _mutex p /\ _writecount p' = _writecount p.

Lemma Lap_readers p m prev fs pos cnt lck ovw :
  Lap p m prev fs -> length pos = 16%nat -> length cnt = 16%nat -> length lck = 16%nat ->
  length ovw = 16%nat -> Lap (with_readers p pos cnt lck ovw) m prev fs.
Proof. intros [] ? ? ? ?; constructor; done. Qed.

Lemma Lap_mutex p m prev fs k : Lap p m prev fs -> Lap (with_mutex p k) m prev fs.
Proof. intros []; constructor; done. Qed.

Ltac lap_readers :=
  repeat apply Lap_mutex; repeat (apply Lap_readers; simpl; rewrite ?zset_length);
  repeat apply Lap_mutex; simpl; try done; try (apply Lap_mutex; done);
  try (match goal with H : Lap _ _ _ _ |- _ => destruct (lap_readers _ _ _ _ H) as (? & ? & ? & ?) end;
       simpl; rewrite ?zset_length; done).

Lemma read_lap_frame fuel p m prev pre f post readsize index :
  Lap p m prev (pre ++ f :: post) -> reader_ok index ->
  zget (_readpos p) index = lap_end 0 pre -> zget (_overwriteread p) index = 0 ->
  pad4 (zlen (f_data f)) <= readsize ->
  exists p',
    ReadBuffer fuel (Live p) readsize index =
      Done (Live p', MB_SUCCESS, Some (out_of f (lap_end 0 pre))) /\
    payload m (out_of f (lap_end 0 pre)) = Done (f_data f) /\
    Lap p' m prev (pre ++ f :: post) /\ after_read p p' index (lap_end 0 (pre ++ [f])).
Proof.
  intros HL Hi Hpos Hov Hrs; destruct (lap_readers _ _ _ _ HL) as (L1 & L2 & L3 & L4).
  pose proof (Lap_nonempty_reader _ _ _ _ _ _ _ HL eq_refl) as Hlt.
  pose proof (frame_in_lap _ _ _ _ _ _ HL) as (_ & Hpay & _ & H3 & H4 & _).
  unfold ReadBuffer; rewrite (lap_buf _ _ _ _ HL).
  replace ((index <? 0) || (15 <? index)) with false by (unfold reader_ok in Hi; lia).
  rewrite Hpos; replace (lap_end 0 pre =? _writepos p) with false by lia.
  unfold read_locked; simpl _overwriteread; rewrite Hov; simpl Z.eqb; cbn iota.
  simpl _readpos; rewrite Hpos.
  pose proof (zlen_nonneg (f_data f)); unfold sizeof_BUFHDR in H4.
  rewrite (i32_small (lap_end 0 pre)), (read_frame_lap _ p m prev pre f post) by (done || lia).
  cbn [obind]; eexists; split; [done|]; split; [done|]; split; [lap_readers|].
  unfold after_read; simpl; split_and!; done || lia.
Qed.

(** A reader that is not marked overwritten and stands at frame [f] of the
    lap gets exactly [f] (type, timestamp, play time, codec tag, payload) and
    moves to the frame behind it; the lap itself is unchanged. *)
Theorem read_lap fuel p m prev pre f post readsize index :
  Lap p m prev (pre ++ f :: post) -> reader_ok index ->
  zget (_readpos p) index = lap_end 0 pre -> zget (_overwriteread p) index = 0 ->
  pad4 (zlen (f_data f)) <= readsize ->
  exists p',
    ReadBuffer fuel (Live p) readsize index =
      Done (Live p', MB_SUCCESS, Some (out_of f (lap_end 0 pre))) /\
    payload m (out_of f (lap_end 0 pre)) = Done (f_data f) /\
    Lap p' m prev (pre ++ f :: post) /\ after_read p p' index (lap_end 0 (pre ++ [f])).
Proof. apply read_lap_frame. Qed.

Lemma read_newest_frame fuel p m prev pre k post readsize index :
  Lap p m prev (pre ++ k :: post) -> reader_ok index ->
  is_key k = true -> Forall (fun f => is_key f = false) post ->
  zget (_overwriteread p) index <> 0 -> zget (_readpos p) index <> _writepos p ->
  (length post < fuel)%nat -> pad4 (zlen (f_data k)) <= readsize ->
  exists p',
    ReadBuffer fuel (Live p) readsize index =
      Done (Live p', MB_SUCCESS, Some (out_of k (lap_end 0 pre))) /\
    payload m (out_of k (lap_end 0 pre)) = Done (f_data k) /\
    Lap p' m prev (pre ++ k :: post) /\ after_read p p' index (lap_end 0 (pre ++ [k])) /\
    zget (_readcount p') index = u32 (_writecount p - zlen post).
Proof.
  intros HL Hi Hk Hpost Hov Hne Hfuel Hrs; destruct (lap_readers _ _ _ _ HL) as (L1 & L2 & L3 & L4).
  pose proof (frame_in_lap _ _ _ _ _ _ HL) as (_ & Hpay & _ & H3 & H4 & _).
  unfold ReadBuffer; rewrite (lap_buf _ _ _ _ HL).
  replace ((index <? 0) || (15 <? index)) with false by (unfold reader_ok in Hi; lia).
  replace (zget (_readpos p) index =? _writepos p) with false by lia.
  unfold read_locked; simpl _overwriteread.
  replace (zget (_overwriteread p) index =? 0) with false by lia.
  simpl _lastwritepos; simpl _writecount.
  pose proof (last_start_bound _ _ _ _ (lap_frames _ _ _ _ HL) (lap_prev _ _ _ _ HL)
    ltac:(rewrite (lap_size _ _ _ _ HL); exact (lap_small _ _ _ _ HL))) as Hlb.
  rewrite (lap_last _ _ _ _ HL), i32_small by lia.
  replace (last_start prev 0 (pre ++ k :: post) <? 0) with false by lia.
  rewrite (find_key_newest p m prev pre k post [])
    by (done || apply u32_range || by rewrite app_nil_r).
  cbn [obind].
  rewrite (read_frame_lap _ p m prev pre k post) by done.
  cbn [obind]; eexists; split; [done|]; split; [done|]; split; [lap_readers|].
  unfold reader_ok in Hi; unfold after_read; simpl; split_and!; try done.
  - rewrite zget_zset_eq by (unfold zlen; rewrite ?zset_length; lia); done.
  - lia.
  - rewrite !zget_zset_eq by (unfold zlen; rewrite ?zset_length; lia).
    unfold u32; rewrite Zminus_mod_idemp_l, Zplus_mod_idemp_l; f_equal; lia.
Qed.

(** A reader marked overwritten (every new reader is) is moved to the
    newest key frame [k] of the lap, whatever its old position, gets [k], and
    its mark is cleared; its frame counter is the number of frames written up
    to [k]. *)
Theorem read_newest_key fuel p m prev pre k post readsize index :
  Lap p m prev (pre ++ k :: post) -> reader_ok index ->
  is_key k = true -> Forall (fun f => is_key f = false) post ->
  zget (_overwriteread p) index <> 0 -> zget (_readpos p) index <> _writepos p ->
  (length post < fuel)%nat -> pad4 (zlen (f_data k)) <= readsize ->
  exists p',
    ReadBuffer fuel (Live p) readsize index =
      Done (Live p', MB_SUCCESS, Some (out_of k (lap_end 0 pre))) /\
    payload m (out_of k (lap_end 0 pre)) = Done (f_data k) /\
    Lap p' m prev (pre ++ k :: post) /\ after_read p p' index (lap_end 0 (pre ++ [k])) /\
    zget (_readcount p') index = u32 (_writecount p - zlen post).
Proof. apply read_newest_frame. Qed.

(** What a read of an unmarked reader leaves of the statistics. *)
Lemma read_counts fuel p readsize index p' rt o :
  ReadBuffer fuel (Live p) readsize index = Done (Live p', rt, Some o) ->
  reader_ok index -> length (_readcount p) = 16%nat ->
  _fps p' = _fps p /\
  (zget (_overwriteread p) index = 0 -> zget (_readcount p') index = u32 (zget (_readcount p) index + 1)).
Proof.
  intros H Hi L; unfold reader_ok in Hi.
  assert (HR : forall q m pos p1 rt1, length (_readcount q) = 16%nat ->
    read_frame q m readsize index pos = Done (p1, rt1, Some o) ->
    _fps p1 = _fps q /\ zget (_readcount p1) index = u32 (zget (_readcount q) index + 1)).
  { intros q m pos p1 rt1 Lq E; unfold read_frame in E; obinv E; destruct (readsize <? _); [done|]; obinv E; simplify_eq.
    split; [done|]; simpl; apply zget_zset_eq; unfold zlen; lia. }
  unfold ReadBuffer in H; destruct (_buf p) as [m|]; [|done]; 
  destruct ((index <? 0) || (15 <? index)); [done|]; destruct (zget (_readpos p) index =? _writepos p); [done|].
  obinv H; destruct v as [[p1 rt1] out1]; simplify_eq; unfold read_locked in E; revert E.
  cbn [_overwriteread set_readlock with_readers lock with_mutex].
  destruct (zget (_overwriteread p) index =? 0) eqn:Eo; [intros E; apply HR in E as [E1 E2]; [by split; intros|]; done|].
  apply Z.eqb_neq in Eo; intros E; obinv E; destruct v as [[pos|] n]; [|done].
  apply HR in E as [E _]; [done|]; simpl; by rewrite zset_length.
Qed.

(** ** First in, first out *)

(** [n] reads in a row, each followed through [*buf]. *)
Fixpoint reads (n fuel : nat) (h : handle) (readsize index : Z)
  : outcome (handle * list (Z * Z * Z * bytes * bytes)) :=
  match n with
  | O => Done (h, [])
  | S n =>
      let* '(h', rt, out) := ReadBuffer fuel h readsize index in
      match h', out with
      | Live p', Some o =>
          let* d := match _buf p' with Some m => payload m o | None => Fault end in
          let* '(h'', vs) := reads n fuel h' readsize index in
          Done (h'', (o_type o, o_timestamp o, o_playtime o, o_enc o, d) :: vs)
      | _, _ => Fault
      end
  end.

Lemma fifo_aux fuel p m prev pre post readsize index :
  Lap p m prev (pre ++ post) -> reader_ok index ->
  zget (_readpos p) index = lap_end 0 pre -> zget (_overwriteread p) index = 0 ->
  Forall (fun f => pad4 (zlen (f_data f)) <= readsize) post ->
  exists p', reads (length post) fuel (Live p) readsize index = Done (Live p', map view post) /\
    ReadBuffer fuel (Live p') readsize index = Done (Live p', MB_NO_BUFFER, None).
Proof.
  revert p pre; induction post as [|f post IH]; intros p pre HL Hi Hpos Hov Hrs.
  - exists p; split; [done|]; rewrite app_nil_r in HL.
    unfold ReadBuffer; rewrite (lap_buf _ _ _ _ HL).
    replace ((index <? 0) || (15 <? index)) with false by (unfold reader_ok in Hi; lia).
    rewrite Hpos, (lap_wpos _ _ _ _ HL), Z.eqb_refl; done.
  - inversion_clear Hrs as [|? ? Hr1 Hr2].
    destruct (lap_readers _ _ _ _ HL) as (L1 & _).
    destruct (read_lap_frame fuel p m prev pre f post readsize index HL Hi Hpos Hov Hr1)
      as (p' & E & Hpay & HL' & A1 & A2 & _).
    destruct (IH p' (pre ++ [f])) as (p'' & E' & E''); try done.
    { rewrite <- app_assoc; done. }
    { rewrite A1; apply zget_zset_eq; unfold reader_ok, zlen in *; lia. }
    exists p''; split; [|done].
    cbn [reads length]; rewrite E; cbn [obind].
    rewrite (lap_buf _ _ _ _ HL'), Hpay; cbn [obind]; rewrite E'; done.
Qed.

(** A sequence of writes. *)
Fixpoint writes (h : handle) (l : list (clock * frame)) : outcome handle :=
  match l with
  | [] => Done h
  | (c, f) :: l => let* '(h', _) := WrtieBuffer c h f in writes h' l
  end.

(** A write neither clears a reader's mark nor, within the first second, changes
    the frame rate. *)
Lemma mark_overwrite_keeps w n readpos ovw i :
  reader_ok i -> length readpos = 16%nat -> length ovw = 16%nat -> zget ovw i <> 0 ->
  zget (mark_overwrite w n readpos ovw) i <> 0.
Proof.
  intros Hi L1 L2; unfold reader_ok in Hi; unfold zget, znth, mark_overwrite.
  replace (i <? 0) with false by lia; rewrite lookup_zip_with.
  destruct (lookup_lt_is_Some_2 readpos (Z.to_nat i) ltac:(lia)) as [r ->].
  destruct (ovw !! Z.to_nat i) as [o|]; simpl; [|done]; by case_match.
Qed.

Lemma write_fps clk p f p' rt :
  WrtieBuffer clk (Live p) f = Done (Live p', rt) ->
  u32 (t_now clk - (if _starttime p =? 0 then t_start clk else _starttime p)) <= 1000 -> _fps p' = _fps p.
Proof.
  unfold WrtieBuffer; destruct (_buf p) as [m|]; [|intros [= <-]; done].
  intros H Ht; obinv H; simplify_eq; unfold update_stats in *; cbn [_lasttime commit _starttime _fps] in *.
  destruct (_lasttime p =? 0); [by simplify_eq|].
  match goal with H : (if ?b then _ else _) = Done _ |- _ => replace b with true in H by (symmetry; apply Z.leb_le; exact Ht) end.
  by simplify_eq.
Qed.

Lemma rates_ok_early clk p f :
  u32 (t_now clk - (if _starttime p =? 0 then t_start clk else _starttime p)) <= 1000 ->
  rates_ok clk p f = true.
Proof.
  intros H; unfold rates_ok; rewrite !orb_true_iff; left; right; apply Z.leb_le; done.
Qed.

(** The clock readings of writes within the second that starts at [s]. *)
Definition within (s : Z) (c : clock) : Prop :=
  0 < s /\ t_start c = s /\ s <= t_now c <= s + 1000.

Lemma writes_lap s p m fs l :
  Lap p m 0 fs -> _starttime p = 0 \/ _starttime p = s ->
  Forall (fun cf => within s cf.1 /\ frame_ok cf.2) l ->
  lap_end 0 (fs ++ map snd l) <= _bufsize p ->
  exists p' m', writes (Live p) l = Done (Live p') /\ Lap p' m' 0 (fs ++ map snd l) /\
    _isuse p' = _isuse p /\ _readpos p' = _readpos p /\
    (forall i, reader_ok i -> zget (_overwriteread p) i <> 0 -> zget (_overwriteread p') i <> 0) /\
    _fps p' = _fps p.
Proof.
  revert p m fs; induction l as [|[c f] l IH]; intros p m fs HL Hs Hl Hfit.
  - exists p, m; rewrite app_nil_r; split_and!; done.
  - apply Forall_cons_1 in Hl as [[(Hs0 & Hc1 & Hc2) Hf] Hl]; cbn [map fst snd] in *.
    assert (lap_end 0 fs + fsize f <= lap_end 0 (fs ++ f :: map snd l)) as Hle.
    { rewrite lap_end_app; cbn [lap_end]; apply lap_end_ge, Forall_fmap.
      eapply List.Forall_impl; [|exact Hl]; intros ? []; done. }
    pose proof (fsize_bounds f Hf) as Hsz.
    pose proof (lap_end_ge 0 fs (lap_ok _ _ _ _ HL)).
    assert (u32 (t_now c - (if _starttime p =? 0 then t_start c else _starttime p)) <= 1000) as Hearly.
    { destruct Hs as [->| ->]; [rewrite Z.eqb_refl|replace (s =? 0) with false by lia];
        rewrite ?Hc1, u32_small; lia. }
    destruct (write_frame c p m 0 fs f HL Hf) as (p' & m' & E & HL' & _ & E1 & _ & E5 & E2 & E3 & E4).
    { by apply rates_ok_early. }
    { lia. }
    rewrite (lap_wpos _ _ _ _ HL) in HL'.
    replace (_ <=? _) with true in HL' by lia.
    destruct (IH p' m' (fs ++ [f])) as (p'' & m'' & E' & HL'' & E2' & E1' & E5' & E6'); try done.
    { destruct Hs as [Hs|Hs]; rewrite Hs in E4; [|replace (s =? 0) with false in E4 by lia];
        right; simpl in E4; congruence. }
    { rewrite <- app_assoc; simpl; lia. }
    rewrite <- app_assoc in HL''; simpl in HL''.
    exists p'', m''; cbn [writes]; rewrite E; cbn [obind].
    destruct (lap_readers _ _ _ _ HL) as (R1 & _ & _ & R4).
    split_and!; try done; try congruence.
    + intros i Hi Ho; apply E5'; [done|]; rewrite E5; by apply mark_overwrite_keeps.
    + rewrite E6'; eapply write_fps; [exact E|exact Hearly].
Qed.

Lemma fresh_lap m : zlen m < 2 ^ 31 -> Lap (zeroed (Some m) (zlen m) 0) m 0 [].
Proof. intros; constructor; simpl; done || lia. Qed.

(** C2: end to end.  Frames [pre ++ k :: post] written to a fresh buffer that
    holds them all, within one second by the writer's clock (before the buffer
    computes its rates), [k] the newest key frame: a reader that then attaches,
    with room for each of the frames from [k] on, gets [k] and every frame after
    it, unchanged, once and in order, and after that [MB_NO_BUFFER]. *)
Theorem attach_and_drain s m l pre k post fuel readsize :
  zlen m < 2 ^ 31 -> Forall (fun cf => within s cf.1 /\ frame_ok cf.2) l ->
  map snd l = pre ++ k :: post -> lap_end 0 (map snd l) <= zlen m ->
  is_key k = true -> Forall (fun f => is_key f = false) post ->
  Forall (fun f => pad4 (zlen (f_data f)) <= readsize) (k :: post) ->
  (length post < fuel)%nat ->
  exists p1 p2 p3,
    writes (Live (zeroed (Some m) (zlen m) 0)) l = Done (Live p1) /\
    GetReadIndex (Live p1) = Done (Live p2, 0) /\
    reads (length (k :: post)) fuel (Live p2) readsize 0 = Done (Live p3, map view (k :: post)) /\
    ReadBuffer fuel (Live p3) readsize 0 = Done (Live p3, MB_NO_BUFFER, None).
Proof.
  intros Hm Hl E Hfit Hk Hpost Hrs Hfuel.
  destruct (writes_lap s _ m [] l (fresh_lap m Hm)) as (p1 & m1 & Ew & HL & Hu & Hp & _);
    [by left|done|done|].
  rewrite app_nil_l, E in HL.
  set (p2 := with_isuse (set_overwrite p1 0 1) (zset (_isuse p1) 0 1)).
  assert (GetReadIndex (Live p1) = Done (Live p2, 0)) as Eg.
  { unfold GetReadIndex; replace (first_free 0 (_isuse p1)) with (Some 0) by (rewrite Hu; done); done. }
  destruct (lap_readers _ _ _ _ HL) as (L1 & L2 & L3 & L4).
  assert (Lap p2 m1 0 (pre ++ k :: post)) as HL2.
  { destruct HL; constructor; simpl; rewrite ?zset_length; done. }
  inversion_clear Hrs as [|? ? Hr1 Hr2].
  destruct (read_newest_frame fuel p2 m1 0 pre k post readsize 0) as
    (p & Er & Hpay & HL' & (A1 & A2 & _) & _); try done.
  { simpl; rewrite zget_zset_eq; [done|unfold zlen; lia]. }
  { simpl _readpos; rewrite Hp.
    pose proof (Lap_nonempty_reader _ _ _ _ _ _ _ HL2 eq_refl).
    pose proof (lap_ok _ _ _ _ HL) as H1; apply Forall_app in H1 as [H1 _].
    pose proof (lap_end_ge 0 pre H1).
    change (zget _ 0) with 0; lia. }
  destruct (fifo_aux fuel p m1 0 (pre ++ [k]) post readsize 0) as (p3 & E1 & E2); try done.
  { rewrite <- app_assoc; done. }
  { rewrite A1; apply zget_zset_eq; unfold zlen; simpl _readpos; lia. }
  exists p1, p2, p3; split_and!; try done.
  cbn [reads length]; rewrite Er; cbn [obind].
  rewrite (lap_buf _ _ _ _ HL'), Hpay; cbn [obind]; rewrite E1; done.
Qed.

(** A position without a valid header is read as position 0. *)
Lemma read_frame_unflagged p m readsize index r w :
  h_flag m r = Done w -> w <> FLAG -> h_flag m 0 = Done FLAG ->
  read_frame p m readsize index r = read_frame p m readsize index 0.
Proof.
  intros Hr Hw E0; unfold read_frame; rewrite Hr, E0; cbn [obind].
  replace (w =? FLAG) with false by lia; done.
Qed.

(** Following the writer through a wrap.  A reader left at the end [r] of
    the previous lap, where no valid header stands, gets the first frame of the
    new lap and continues behind it. *)
Theorem read_wrap fuel p m prev f post readsize index r w :
  Lap p m prev (f :: post) -> reader_ok index ->
  zget (_readpos p) index = r -> zget (_overwriteread p) index = 0 ->
  r <> _writepos p -> 0 <= r < 2 ^ 31 -> h_flag m r = Done w -> w <> FLAG ->
  pad4 (zlen (f_data f)) <= readsize ->
  exists p',
    ReadBuffer fuel (Live p) readsize index = Done (Live p', MB_SUCCESS, Some (out_of f 0)) /\
    payload m (out_of f 0) = Done (f_data f) /\
    Lap p' m prev (f :: post) /\ after_read p p' index (fsize f).
Proof.
  intros HL Hi Hpos Hov Hne Hr Hw HwF Hrs; destruct (lap_readers _ _ _ _ HL) as (L1 & L2 & L3 & L4).
  pose proof (frame_in_lap p m prev [] f post HL) as (_ & Hpay & _ & H3 & H4 & _).
  unfold ReadBuffer; rewrite (lap_buf _ _ _ _ HL).
  replace ((index <? 0) || (15 <? index)) with false by (unfold reader_ok in Hi; lia).
  rewrite Hpos; replace (r =? _writepos p) with false by lia.
  unfold read_locked; simpl _overwriteread; rewrite Hov; simpl Z.eqb; cbn iota.
  simpl _readpos; rewrite Hpos, (i32_small r) by lia.
  rewrite (read_frame_unflagged _ _ _ _ _ _ Hw HwF) by apply (walk_header p m prev [] f post HL).
  pose proof (read_frame_lap (set_readlock (lock p) index (i32 (zget (_readlock (lock p)) index + 1)))
    p m prev [] f post readsize index HL Hrs) as E; simpl lap_end in E; rewrite E.
  cbn [obind]; eexists; split; [done|]; split; [done|]; split; [lap_readers|].
  unfold after_read; simpl; split_and!; done || lia.
Qed.

(** The size of a frame is not checked against the buffer: a frame that
    cannot fit even an empty buffer is stored past the end of the allocation. *)
Theorem oversize_write_faults clk p m f :
  _buf p = Some m -> zlen m = _bufsize p -> 0 <= _writepos p ->
  _bufsize p < sizeof_BUFHDR + zlen (f_data f) ->
  WrtieBuffer clk (Live p) f = Fault.
Proof.
  intros Hb Hs Hw Hbig; unfold WrtieBuffer; rewrite Hb.
  assert (place (_bufsize p) (_writepos p) (zlen (f_data f)) = 0) as ->
    by (unfold place; case_bool; lia).
  destruct (store m 0 _) as [m1| |] eqn:E1; cbn [obind]; try done.
  - pose proof (store_length _ _ _ _ E1) as L1.
    unfold store; replace (inb m1 _ _) with false; [done|].
    symmetry; apply not_true_iff_false; rewrite inb_spec; lia.
  - unfold store in E1; destruct (inb _ _ _) in E1; done.
Qed.

(** A wrapping write does not mark the readers whose next frame it
    destroys: the marks are computed for the position before the wrap, so a
    reader at [r] inside the new frame keeps its old mark. *)
Theorem wrap_leaves_reader_unmarked clk p m prev fs f index r :
  Lap p m prev fs -> frame_ok f -> rates_ok clk p f = true ->
  sizeof_BUFHDR + zlen (f_data f) <= _bufsize p ->
  _bufsize p < _writepos p + sizeof_BUFHDR + zlen (f_data f) ->
  reader_ok index -> zget (_readpos p) index = r ->
  r < sizeof_BUFHDR + zlen (f_data f) -> r <= _writepos p ->
  exists p' m', WrtieBuffer clk (Live p) f = Done (Live p', MB_SUCCESS) /\
    Lap p' m' (_lastwritepos p) [f] /\
    zget (_overwriteread p') index = zget (_overwriteread p) index.
Proof.
  intros HL Hf Hr Hfit Hwrap Hi Hpos Hin Hle.
  destruct (write_frame clk p m prev fs f HL Hf Hr Hfit) as (p' & m' & E & HL' & _ & _ & _ & Ho & _).
  replace (_ <=? _) with false in HL' by lia.
  exists p', m'; split_and!; try done; rewrite Ho.
  destruct (lap_readers _ _ _ _ HL) as (L1 & _ & _ & L4).
  unfold reader_ok in Hi; unfold zget, znth, mark_overwrite in *.
  replace (index <? 0) with false in * by lia.
  destruct (lookup_lt_is_Some_2 (_readpos p) (Z.to_nat index)) as [r' Er]; [lia|].
  destruct (lookup_lt_is_Some_2 (_overwriteread p) (Z.to_nat index)) as [o Eo]; [lia|].
  rewrite Er in Hpos; simpl in Hpos; subst r'.
  rewrite lookup_zip_with, Er, Eo; simpl.
  replace (_writepos p <? r) with false by lia; done.
Qed.

(** The walk over a cycle of positions, none of them a key frame or the origin. *)
Lemma find_key_cycle m (links : list (Z * Z)) fuel pos n :
  (forall q prev, In (q, prev) links ->
     0 <= q /\ h_prevpos m q = Done prev /\ (q <> 0 \/ prev <> 0) /\
     (exists t g, h_buftype m q = Done t /\ h_flag m q = Done g /\ t <> MB_FT_IFRAME) /\
     In (i32 prev) (map fst links)) ->
  In pos (map fst links) -> find_key fuel m pos n = OutOfFuel.
Proof.
  intros H; revert pos n; induction fuel as [|fuel IH]; intros pos n Hin; [done|].
  apply in_map_iff in Hin as ([q prev] & <- & Hin); simpl.
  destruct (H q prev Hin) as (Hq & Hp & Hz & (t & g & Ht & Hg & Hk) & Hnext).
  replace (q <? 0) with false by lia; rewrite Hp, Ht, Hg; cbn [obind].
  unfold MB_FT_IFRAME in *; replace (t =? 1) with false by lia; cbn [andb].
  replace ((q =? 0) && (prev =? 0)) with false by lia; auto.
Qed.

Lemma ReadBuffer_walk fuel p m readsize index :
  _buf p = Some m -> reader_ok index -> zget (_readpos p) index <> _writepos p ->
  zget (_overwriteread p) index <> 0 -> 0 <= _lastwritepos p < 2 ^ 31 ->
  (forall n, find_key fuel m (_lastwritepos p) n = OutOfFuel) ->
  ReadBuffer fuel (Live p) readsize index = OutOfFuel.
Proof.
  intros Hb Hi Hne Ho Hl Hw; unfold ReadBuffer, reader_ok in *; rewrite Hb.
  replace ((index <? 0) || (15 <? index)) with false by lia.
  replace (zget (_readpos p) index =? _writepos p) with false by lia.
  unfold read_locked; simpl _overwriteread; simpl _lastwritepos.
  replace (zget (_overwriteread p) index =? 0) with false by lia.
  rewrite i32_small by lia; replace (_lastwritepos p <? 0) with false by lia.
  rewrite Hw; done.
Qed.

(** Four 52-byte predicted frames into a 160-byte buffer, then a new reader. *)
Definition keyless_run : outcome (handle * Z) :=
  let* h := writes (Live (zeroed (Some (replicate 160 0)) 160 0))
    (replicate 4 (mkClock 1 1 1, mkFrame MB_FT_PFRAME 0 0 None [1; 2; 3; 4])) in
  GetReadIndex h.
Definition keyless_state : _MEDIA_BUFFER :=
  Eval vm_compute in
    match keyless_run with Done (Live p, _) => p | _ => zeroed None 0 0 end.
Definition keyless_mem : bytes :=
  Eval vm_compute in default [] (_buf keyless_state).

(** Without a key frame the backward walk need not end: once three
    predicted frames fill the buffer and a fourth one wraps, the links form a
    cycle and [ReadBuffer] of a newly attached reader loops for ever, holding
    the lock. *)
Theorem keyless_wrap_diverges :
  keyless_run = Done (Live keyless_state, 0) /\
  forall fuel readsize, ReadBuffer fuel (Live keyless_state) readsize 0 = OutOfFuel.
Proof.
  split; [vm_compute; done|]; intros fuel readsize.
  apply (ReadBuffer_walk fuel keyless_state keyless_mem);
    [done|unfold reader_ok; lia|vm_compute; done..|]; intros n.
  apply (find_key_cycle keyless_mem [(0, 104); (52, 0); (104, 52)]); [|simpl; auto].
  intros q prev H; simpl in H; destruct H as [[= <- <-]|[[= <- <-]|[[= <- <-]|[]]]];
    (split; [lia|]; split; [vm_compute; done|]; split; [lia|]; split;
     [exists 2, FLAG; vm_compute; done|vm_compute; auto]).
Qed.

(** A reader that has consumed the whole lap, at a position within four
    bytes of the end of the buffer, reads its next header past the allocation
    once the writer has wrapped. *)
Theorem lap_end_overread fuel p m readsize index r :
  _buf p = Some m -> zlen m = _bufsize p -> reader_ok index ->
  zget (_readpos p) index = r -> zget (_overwriteread p) index = 0 ->
  0 <= r < 2 ^ 31 -> r <> _writepos p -> _bufsize p < r + 4 ->
  ReadBuffer fuel (Live p) readsize index = Fault.
Proof.
  intros Hb Hs Hi Hr Ho Hr' Hne Hend; unfold ReadBuffer, reader_ok in *; rewrite Hb.
  replace ((index <? 0) || (15 <? index)) with false by lia.
  rewrite Hr; replace (r =? _writepos p) with false by lia.
  unfold read_locked; simpl _overwriteread; rewrite Ho; simpl Z.eqb; cbn iota.
  simpl _readpos; rewrite Hr, (i32_small r) by lia.
  unfold read_frame, h_flag, load32, load.
  replace (inb m r 4) with false; [done|].
  symmetry; apply not_true_iff_false; rewrite inb_spec; lia.
Qed.

(** ** Locks and reader slots *)

Lemma read_locked_mutex fuel p m readsize index p' rt out :
  read_locked fuel p m readsize index = Done (p', rt, out) -> _mutex p' = _mutex p.
Proof.
  assert (forall q pos, read_frame q m readsize index pos = Done (p', rt, out) ->
            _mutex p' = _mutex q) as Hf.
  { intros q pos H; unfold read_frame in H; obinv H; case_match; [by simplify_eq|].
    obinv H; by simplify_eq. }
  unfold read_locked; destruct (_ =? 0); [by intros H%Hf|].
  intros H; obinv H; destruct v as [[pos|] n]; [by apply Hf in H|by simplify_eq].
Qed.

(** [ReadBuffer] releases the lock on every path, successful or not (the
    conditional before its unlock is empty); the [unlockRead] that the header
    requires after each read therefore unlocks a mutex that is not held, and
    the frame is used without it. *)
Theorem read_then_unlock fuel p readsize index h' rt out :
  ReadBuffer fuel (Live p) readsize index = Done (h', rt, out) -> reader_ok index ->
  exists p' p'', h' = Live p' /\ _mutex p' = _mutex p /\ unlockRead h' index = Done (Live p'', MB_SUCCESS) /\ _mutex p'' = _mutex p - 1.
Proof.
  intros H Hi; unfold reader_ok in Hi.
  assert (exists p', h' = Live p' /\ _mutex p' = _mutex p) as (p' & -> & E).
  { unfold ReadBuffer in H; destruct (_buf p) as [m|]; [|simplify_eq; eauto].
    do 2 (case_match; [simplify_eq; eauto|]).
    obinv H; destruct v as [[p1 rt1] out1]; simplify_eq.
    apply read_locked_mutex in E; eexists; split; [done|]; simpl in *; lia. }
  exists p', (unlock (set_readlock p' index 0)); split_and!; try done; [|simpl; lia].
  unfold unlockRead; replace ((index <? 0) || (15 <? index)) with false by lia; done.
Qed.

Lemma first_free_spec i us :
  match first_free i us with
  | Some k => exists pre post, us = pre ++ 0 :: post /\ Forall (fun u => u <> 0) pre /\
    k = i + zlen pre
  | None => Forall (fun u => u <> 0) us
  end.
Proof.
  revert i; induction us as [|u us IH]; intros i; simpl; [done|].
  destruct (u =? 0) eqn:E.
  - exists [], us; split_and!; [simpl; f_equal; lia|done|unfold zlen; simpl; lia].
  - specialize (IH (i + 1)); destruct (first_free (i + 1) us).
    + destruct IH as (pre & post & -> & H & ->); exists (u :: pre), post.
      split_and!; [done|constructor; [lia|done]|unfold zlen; simpl; lia].
    + constructor; [lia|done].
Qed.

(** Reader slots: [GetReadIndex] hands out the lowest free slot, marks that
    slot and no other as used and overwritten, and refuses exactly when all
    sixteen are in use; [ReleaseReader] of that slot makes it free again and
    restores the allocation table. *)
Theorem reader_slots p :
  length (_isuse p) = 16%nat -> length (_overwriteread p) = 16%nat ->
  (Forall (fun u => u <> 0) (_isuse p) /\
    GetReadIndex (Live p) = Done (Live p, MB_INVALID_HANDLE)) \/
  (exists i p1 p2, reader_ok i /\ zget (_isuse p) i = 0 /\
    Forall (fun u => u <> 0) (take (Z.to_nat i) (_isuse p)) /\
    GetReadIndex (Live p) = Done (Live p1, i) /\
    _isuse p1 = zset (_isuse p) i 1 /\ zget (_overwriteread p1) i = 1 /\
    ReleaseReader (Live p1) i = Done (Live p2) /\ _isuse p2 = _isuse p).
Proof.
  intros L1 L2; pose proof (first_free_spec 0 (_isuse p)) as H; unfold GetReadIndex.
  destruct (first_free 0 (_isuse p)) as [i|]; [right|by left].
  destruct H as (pre & post & E & Hpre & ->); rewrite Z.add_0_l.
  assert (0 <= zlen pre <= 15) as Hb.
  { rewrite E, length_app in L1; simpl in L1; unfold zlen; lia. }
  exists (zlen pre); do 2 eexists; split; [done|].
  unfold zlen at 1 2; rewrite Nat2Z.id; split_and!; [| |reflexivity|reflexivity| | |].
  - unfold zget, znth, zlen; replace (_ <? 0) with false by lia.
    rewrite Nat2Z.id, E, lookup_app_r, Nat.sub_diag by lia; done.
  - rewrite E, take_app_length; done.
  - simpl; apply zget_zset_eq; unfold zlen in *; lia.
  - unfold ReleaseReader; replace ((_ <? 0) || _) with false by lia; reflexivity.
  - simpl; unfold zset, zlen; replace (_ <? 0) with false by lia; rewrite Nat2Z.id.
    rewrite list_insert_insert_eq, list_insert_id; [done|].
    rewrite E, lookup_app_r, Nat.sub_diag by lia; done.
Qed.

(** ** Concrete instances *)

Definition demo_clk : clock := mkClock 5000 5000 5000.
Definition demo_key : frame := mkFrame MB_FT_IFRAME 100 40 (Some [104; 50; 54; 53]) [1; 2; 3; 4; 5].
Definition demo_p1 : frame := mkFrame MB_FT_PFRAME 140 40 None [9].
Definition demo_big : frame := mkFrame MB_FT_PFRAME 180 40 None (replicate 100 7).
Definition demo_l : list (clock * frame) := [(demo_clk, demo_key); (demo_clk, demo_p1)].
Definition state_of (h : outcome handle) : _MEDIA_BUFFER :=
  match h with Done (Live p) => p | _ => zeroed None 0 0 end.
Definition demo_p : _MEDIA_BUFFER :=
  Eval vm_compute in state_of (writes (Live (zeroed (Some (replicate 200 0)) 200 0)) demo_l).
Definition demo_m : bytes := Eval vm_compute in default [] (_buf demo_p).

Lemma demo_frame_ok f : f = demo_key \/ f = demo_p1 \/ f = demo_big -> frame_ok f.
Proof.
  intros [->|[->| ->]]; constructor; simpl; try done; repeat constructor; done.
Qed.

Lemma demo_lap : Lap demo_p demo_m 0 [demo_key; demo_p1].
Proof.
  constructor; try (vm_compute; done).
  repeat (constructor; [apply demo_frame_ok; auto|]); constructor.
Qed.

Lemma write_lap_witness :
  exists p' m', WrtieBuffer demo_clk (Live demo_p) demo_p1 = Done (Live p', MB_SUCCESS) /\
    Lap p' m' 0 [demo_key; demo_p1; demo_p1].
Proof.
  destruct (write_lap demo_clk demo_p demo_m 0 [demo_key; demo_p1] demo_p1 demo_lap
    (demo_frame_ok demo_p1 ltac:(auto)) eq_refl ltac:(vm_compute; discriminate))
    as (p' & m' & H1 & H2 & _); exists p', m'; exact (conj H1 H2).
Defined.

Lemma read_lap_witness :
  exists p', ReadBuffer 0 (Live (set_overwrite demo_p 3 0)) 8 3 =
    Done (Live p', MB_SUCCESS, Some (out_of demo_key 0)).
Proof.
  destruct (read_lap 0 (set_overwrite demo_p 3 0) demo_m 0 [] demo_key [demo_p1] 8 3
    ltac:(apply (Lap_readers demo_p); [exact demo_lap|reflexivity..])
    ltac:(split; discriminate) eq_refl eq_refl ltac:(vm_compute; discriminate)) as (p' & H & _).
  exists p'; exact H.
Defined.

Lemma read_newest_key_witness :
  exists p', ReadBuffer 2 (Live (set_overwrite demo_p 3 1)) 8 3 =
    Done (Live p', MB_SUCCESS, Some (out_of demo_key 0)).
Proof.
  destruct (read_newest_key 2 (set_overwrite demo_p 3 1) demo_m 0 [] demo_key [demo_p1] 8 3
    ltac:(apply (Lap_readers demo_p); [exact demo_lap|reflexivity..])
    ltac:(split; discriminate) eq_refl ltac:(repeat constructor)
    ltac:(vm_compute; discriminate) ltac:(vm_compute; discriminate) ltac:(simpl; lia)
    ltac:(vm_compute; discriminate)) as (p' & H & _).
  exists p'; exact H.
Defined.

Lemma attach_and_drain_witness :
  exists p1 p2 p3,
    writes (Live (zeroed (Some (replicate 200 0)) 200 0)) demo_l = Done (Live p1) /\
    GetReadIndex (Live p1) = Done (Live p2, 0) /\
    reads 2 2 (Live p2) 8 0 = Done (Live p3, [view demo_key; view demo_p1]).
Proof.
  destruct (attach_and_drain 5000 (replicate 200 0) demo_l [] demo_key [demo_p1] 2 8)
    as (p1 & p2 & p3 & H1 & H2 & H3 & _);
    [vm_compute; done| |done|vm_compute; discriminate|done|repeat constructor
    |repeat constructor; vm_compute; discriminate|simpl; lia|].
  - repeat constructor; simpl; try lia; try done.
  - exists p1, p2, p3; exact (conj H1 (conj H2 H3)).
Defined.

(** The demo buffer after a frame that wraps: one big frame at offset 0. *)
Definition demo_wrapped : _MEDIA_BUFFER :=
  Eval vm_compute in state_of (let* '(h, _) := WrtieBuffer demo_clk (Live demo_p) demo_big in Done h).
Definition demo_wm : bytes := Eval vm_compute in default [] (_buf demo_wrapped).

Lemma demo_wrapped_lap : Lap demo_wrapped demo_wm 56 [demo_big].
Proof.
  constructor; try (vm_compute; done).
  repeat (constructor; [apply demo_frame_ok; auto|]); constructor.
Qed.

Lemma read_wrap_witness :
  exists p', ReadBuffer 0 (Live (set_readpos demo_wrapped 2 156)) 100 2 =
    Done (Live p', MB_SUCCESS, Some (out_of demo_big 0)).
Proof.
  destruct (read_wrap 0 (set_readpos demo_wrapped 2 156) demo_wm 56 demo_big [] 100 2 156 0
    ltac:(apply (Lap_readers demo_wrapped); [exact demo_wrapped_lap|reflexivity..])
    ltac:(split; discriminate) eq_refl eq_refl ltac:(vm_compute; discriminate) ltac:(lia)
    eq_refl ltac:(vm_compute; discriminate) ltac:(vm_compute; discriminate)) as (p' & H & _).
  exists p'; exact H.
Defined.

Lemma oversize_write_faults_witness :
  WrtieBuffer demo_clk (Live (zeroed (Some (replicate 100 0)) 100 0)) demo_big = Fault.
Proof.
  apply (oversize_write_faults demo_clk (zeroed (Some (replicate 100 0)) 100 0)
    (replicate 100 0) demo_big); vm_compute; done.
Defined.

Lemma wrap_leaves_reader_unmarked_witness :
  exists p' m', WrtieBuffer demo_clk (Live (set_readpos demo_p 4 56)) demo_big =
      Done (Live p', MB_SUCCESS) /\ Lap p' m' 56 [demo_big] /\
    zget (_overwriteread p') 4 = 0.
Proof.
  destruct (wrap_leaves_reader_unmarked demo_clk (set_readpos demo_p 4 56) demo_m 0
    [demo_key; demo_p1] demo_big 4 56
    ltac:(apply (Lap_readers demo_p); [exact demo_lap|reflexivity..])
    (demo_frame_ok demo_big ltac:(auto)) eq_refl ltac:(vm_compute; discriminate) eq_refl
    ltac:(split; discriminate) eq_refl eq_refl ltac:(vm_compute; discriminate))
    as (p' & m' & H1 & H2 & H3).
  exists p', m'; exact (conj H1 (conj H2 H3)).
Defined.

(** Two 52-byte frames fill a 104-byte buffer; the reader takes both; the third
    frame wraps. *)
Definition full_lap : outcome handle :=
  let fr := mkFrame MB_FT_IFRAME 0 0 None [1; 2; 3; 4] in
  let* h := writes (Live (zeroed (Some (replicate 104 0)) 104 0)) [(demo_clk, fr); (demo_clk, fr)] in
  let* '(h, _) := reads 2 0 h 100 0 in
  writes h [(demo_clk, fr)].

Lemma lap_end_overread_witness :
  full_lap = Done (Live (state_of full_lap)) /\
  ReadBuffer 5 (Live (state_of full_lap)) 100 0 = Fault.
Proof.
  split; [vm_compute; done|].
  apply (lap_end_overread 5 _ (default [] (_buf (state_of full_lap))) 100 0 104);
    try (vm_compute; done); unfold reader_ok; lia.
Defined.

Lemma read_then_unlock_witness :
  exists p'', unlockRead (match ReadBuffer 2 (Live demo_p) 100 0 with
                          | Done (h, _, _) => h | _ => Null end) 0 = Done (Live p'', MB_SUCCESS)
              /\ _mutex p'' = -1.
Proof.
  destruct (ReadBuffer 2 (Live demo_p) 100 0) as [[[h rt] out]| |] eqn:E;
    [|vm_compute in E; discriminate..].
  destruct (read_then_unlock 2 demo_p 100 0 h rt out E ltac:(split; discriminate))
    as (p' & p'' & _ & _ & H1 & H2); exists p''; exact (conj H1 H2).
Defined.

Lemma reader_slots_witness :
  exists i p1, GetReadIndex (Live demo_p) = Done (Live p1, i) /\ reader_ok i.
Proof.
  destruct (reader_slots demo_p eq_refl eq_refl) as [[H _]|(i & p1 & p2 & H1 & _ & _ & H2 & _)].
  - inversion H; vm_compute in *; congruence.
  - exists i, p1; exact (conj H2 H1).
Defined.

End MediaBuffer.
