(* ===== verification/G711.v ===== *)
(** The G.711 companding of gles/Media/ag711.cpp: A-law and mu-law codecs,
    the two transcoding tables, and the batch loops over buffers.  Facts about
    the codecs are decided by evaluating every code or every 16-bit sample. *)
From S2P Require Import Prelude.

Module G711.

Definition SIGN_BIT : Z := 0x80.
Definition QUANT_MASK : Z := 0xf.
Definition SEG_SHIFT : Z := 4.
Definition SEG_MASK : Z := 0x70.
Definition BIAS : Z := 0x84.
Definition seg_end : list Z := [0xFF; 0x1FF; 0x3FF; 0x7FF; 0xFFF; 0x1FFF; 0x3FFF; 0x7FFF].

Definition _u2a : list Z :=
  [1; 1; 2; 2; 3; 3; 4; 4; 5; 5; 6; 6; 7; 7; 8; 8;
   9; 10; 11; 12; 13; 14; 15; 16; 17; 18; 19; 20; 21; 22; 23; 24;
   25; 27; 29; 31; 33; 34; 35; 36; 37; 38; 39; 40; 41; 42; 43; 44;
   46; 48; 49; 50; 51; 52; 53; 54; 55; 56; 57; 58; 59; 60; 61; 62;
   64; 65; 66; 67; 68; 69; 70; 71; 72; 73; 74; 75; 76; 77; 78; 79;
   81; 82; 83; 84; 85; 86; 87; 88; 89; 90; 91; 92; 93; 94; 95; 96;
   97; 98; 99; 100; 101; 102; 103; 104; 105; 106; 107; 108; 109; 110; 111; 112;
   113; 114; 115; 116; 117; 118; 119; 120; 121; 122; 123; 124; 125; 126; 127; 128].

Definition _a2u : list Z :=
  [1; 3; 5; 7; 9; 11; 13; 15; 16; 17; 18; 19; 20; 21; 22; 23;
   24; 25; 26; 27; 28; 29; 30; 31; 32; 32; 33; 33; 34; 34; 35; 35;
   36; 37; 38; 39; 40; 41; 42; 43; 44; 45; 46; 47; 48; 48; 49; 49;
   50; 51; 52; 53; 54; 55; 56; 57; 58; 59; 60; 61; 62; 63; 64; 64;
   65; 66; 67; 68; 69; 70; 71; 72; 73; 74; 75; 76; 77; 78; 79; 79;
   80; 81; 82; 83; 84; 85; 86; 87; 88; 89; 90; 91; 92; 93; 94; 95;
   96; 97; 98; 99; 100; 101; 102; 103; 104; 105; 106; 107; 108; 109; 110; 111;
   112; 113; 114; 115; 116; 117; 118; 119; 120; 121; 122; 123; 124; 125; 126; 127].

(** [search]: the first entry not below [val], over the remaining table. *)
Fixpoint search (i val : Z) (table : list Z) : Z :=
  match table with
  | [] => i
  | e :: table => if val <=? e then i else search (i + 1) val table
  end.

Definition linear2alaw (pcm_val : Z) : Z :=
  let mask := if 0 <=? pcm_val then 0xD5 else 0x55 in
  let pcm_val := if 0 <=? pcm_val then pcm_val else - pcm_val - 8 in
  let seg := search 0 pcm_val seg_end in
  if 8 <=? seg then u8 (Z.lxor 0x7F mask)
  else
    let aval := u8 (Z.shiftl seg SEG_SHIFT) in
    let aval :=
      if seg <? 2 then Z.lor aval (Z.land (Z.shiftr pcm_val 4) QUANT_MASK)
      else Z.lor aval (Z.land (Z.shiftr pcm_val (seg + 3)) QUANT_MASK) in
    u8 (Z.lxor aval mask).

Definition alaw2linear (a_val : Z) : Z :=
  let a_val := Z.lxor a_val 0x55 in
  let t := Z.shiftl (Z.land a_val QUANT_MASK) 4 in
  let seg := Z.shiftr (Z.land a_val SEG_MASK) SEG_SHIFT in
  let t :=
    if seg =? 0 then t + 8
    else if seg =? 1 then t + 0x108
    else Z.shiftl (t + 0x108) (seg - 1) in
  if Z.land a_val SIGN_BIT =? 0 then - t else t.

Definition linear2ulaw (pcm_val : Z) : Z :=
  let mask := if pcm_val <? 0 then 0x7F else 0xFF in
  let pcm_val := if pcm_val <? 0 then BIAS - pcm_val else pcm_val + BIAS in
  let seg := search 0 pcm_val seg_end in
  if 8 <=? seg then u8 (Z.lxor 0x7F mask)
  else
    let uval := u8 (Z.lor (Z.shiftl seg 4) (Z.land (Z.shiftr pcm_val (seg + 3)) 0xF)) in
    u8 (Z.lxor uval mask).

Definition ulaw2linear (u_val : Z) : Z :=
  let u_val := u8 (Z.lnot u_val) in
  let t := Z.shiftl (Z.land u_val QUANT_MASK) 3 + BIAS in
  let t := Z.shiftl t (Z.shiftr (Z.land u_val SEG_MASK) SEG_SHIFT) in
  if Z.land u_val SIGN_BIT =? 0 then t - BIAS else BIAS - t.

(** The tables are read at [aval ^ 0xD5] or [aval ^ 0x55]; outside is [Fault]. *)
Definition table_at (t : list Z) (i : Z) : outcome Z :=
  match znth t i with Some x => Done x | None => Fault end.

Definition alaw2ulaw (aval : Z) : outcome Z :=
  let aval := Z.land aval 0xff in
  if negb (Z.land aval 0x80 =? 0)
  then let* x := table_at _a2u (Z.lxor aval 0xD5) in Done (u8 (Z.lxor 0xFF x))
  else let* x := table_at _a2u (Z.lxor aval 0x55) in Done (u8 (Z.lxor 0x7F x)).

Definition ulaw2alaw (uval : Z) : outcome Z :=
  let uval := Z.land uval 0xff in
  if negb (Z.land uval 0x80 =? 0)
  then let* x := table_at _u2a (Z.lxor 0xFF uval) in Done (u8 (Z.lxor 0xD5 (x - 1)))
  else let* x := table_at _u2a (Z.lxor 0x7F uval) in Done (u8 (Z.lxor 0x55 (x - 1))).

(** The loop [for (i = 0; i < len; i++) dst[i] = f(src[i])] of the batch
    functions, [n] iterations from index [i]. *)
Fixpoint batch_loop (f : Z -> Z) (n : nat) (i : nat) (dst src : list Z) : outcome (list Z) :=
  match n with
  | O => Done dst
  | S n =>
      match src !! i, dst !! i with
      | Some s, Some _ => batch_loop f n (S i) (<[i := f s]> dst) src
      | _, _ => Fault
      end
  end.
Definition batch (f : Z -> Z) (dst src : list Z) (len : Z) : outcome (list Z) :=
  batch_loop f (Z.to_nat len) 0 dst src.

Definition batch_linear2ulaw (dst src : list Z) (len : Z) : outcome (list Z) :=
  batch linear2ulaw dst src len.
Definition batch_ulaw2linear (dst src : list Z) (len : Z) : outcome (list Z) :=
  batch (fun u => i16 (ulaw2linear (u8 u))) dst src len.
Definition batch_linear2alaw (dst src : list Z) (len : Z) : outcome (list Z) :=
  batch linear2alaw dst src len.
Definition batch_alaw2linear (dst src : list Z) (len : Z) : outcome (list Z) :=
  batch (fun a => i16 (alaw2linear (u8 a))) dst src len.

(** ** Lemmas: exhaustive evaluation *)

Definition alaw_codec (x : Z) : Z := alaw2linear (linear2alaw x).
Definition ulaw_codec (x : Z) : Z := ulaw2linear (linear2ulaw x).

(** Decide [forall x, lo <= x < lo + n -> ...] by evaluating the body. *)
Ltac by_range n lo x f :=
  let H := fresh in
  assert (forall_range (Z.to_nat n) lo f = true) as H by (vm_compute; reflexivity);
  apply (forall_range_spec _ _ _ H x); rewrite Z2Nat.id by lia; lia.

Lemma alaw_step_neg x : -32768 <= x < -8 -> (alaw_codec x <=? alaw_codec (x + 1)) = true.
Proof. intros; by_range 32760 (-32768) x (fun x => alaw_codec x <=? alaw_codec (x + 1)). Qed.
Lemma alaw_step_pos x : 0 <= x < 32767 -> (alaw_codec x <=? alaw_codec (x + 1)) = true.
Proof. intros; by_range 32767 0 x (fun x => alaw_codec x <=? alaw_codec (x + 1)). Qed.
Lemma ulaw_step x : -32768 <= x < 32767 -> (ulaw_codec x <=? ulaw_codec (x + 1)) = true.
Proof. intros; by_range 65535 (-32768) x (fun x => ulaw_codec x <=? ulaw_codec (x + 1)). Qed.

Lemma batch_loop_done f n i dst src :
  (i + n <= length src)%nat -> (i + n <= length dst)%nat ->
  batch_loop f n i dst src =
  Done (take i dst ++ map f (take n (drop i src)) ++ drop (i + n) dst).
Proof.
  revert i dst; induction n as [|n IH]; intros i dst Hs Hd; simpl.
  - rewrite Nat.add_0_r, take_drop; done.
  - destruct (lookup_lt_is_Some_2 src i) as [s Es]; [lia|].
    destruct (lookup_lt_is_Some_2 dst i) as [d Ed]; [lia|].
    rewrite Es, Ed, IH by (rewrite ?length_insert; lia).
    rewrite (drop_S _ _ _ Es); simpl; f_equal.
    rewrite (take_S_r _ _ (f s)) by (apply list_lookup_insert_eq; lia).
    rewrite take_insert_ge, drop_insert_lt by lia.
    rewrite <- app_assoc, Nat.add_succ_r; done.
Qed.

Lemma batch_loop_fault f n i dst src :
  (i <= length src)%nat -> (i <= length dst)%nat ->
  (length src < i + n \/ length dst < i + n)%nat ->
  batch_loop f n i dst src = Fault.
Proof.
  revert i dst; induction n as [|n IH]; intros i dst Hs Hd H; simpl; [lia|].
  destruct (src !! i) as [s|] eqn:Es; [|done].
  destruct (dst !! i) as [d|] eqn:Ed; [|done].
  apply lookup_lt_Some in Es, Ed.
  apply IH; rewrite ?length_insert; lia.
Qed.

(** ** Properties *)

(** The codes are stable: encoding a decoded A-law code gives that code
    back for all 256 codes, and the same holds for mu-law except that negative
    zero, 0x7F, comes back as positive zero, 0xFF. *)
Theorem codes_stable c :
  in_u8 c ->
  linear2alaw (alaw2linear c) = c /\
  linear2ulaw (ulaw2linear c) = (if c =? 0x7F then 0xFF else c).
Proof.
  intros H; unfold in_u8 in H.
  split; apply Z.eqb_eq; [by_range 256 0 c (fun c => linear2alaw (alaw2linear c) =? c)|].
  by_range 256 0 c (fun c => linear2ulaw (ulaw2linear c) =? (if c =? 0x7F then 0xFF else c)).
Qed.

(** Quantisation error: over the 16-bit samples the A-law codec is off by
    at most 1/32 of the sample plus 16, except on -7..-1, and the mu-law codec
    by at most 1/32 of the sample plus 132/32. *)
Theorem codec_error x :
  - 2 ^ 15 <= x < 2 ^ 15 ->
  (- 7 <= x <= -1 \/ 32 * Z.abs (alaw_codec x - x) <= Z.abs x + 512) /\
  32 * Z.abs (ulaw_codec x - x) <= Z.abs x + 132.
Proof.
  intros H; split.
  - cut (((-7 <=? x) && (x <=? -1) || (32 * Z.abs (alaw_codec x - x) <=? Z.abs x + 512)) = true);
      [lia|].
    by_range 65536 (-32768) x
      (fun x => (-7 <=? x) && (x <=? -1) || (32 * Z.abs (alaw_codec x - x) <=? Z.abs x + 512)).
  - apply Z.leb_le.
    by_range 65536 (-32768) x (fun x => 32 * Z.abs (ulaw_codec x - x) <=? Z.abs x + 132).
Qed.

(** Both codecs are monotone on 16-bit samples, A-law outside -7..-1: a
    louder sample never decodes to a quieter one. *)
Theorem codec_monotone x y :
  - 2 ^ 15 <= x -> x <= y -> y < 2 ^ 15 ->
  ulaw_codec x <= ulaw_codec y /\
  (~ (- 7 <= x <= -1) -> ~ (- 7 <= y <= -1) -> alaw_codec x <= alaw_codec y).
Proof.
  intros H1 H2 H3; split.
  - apply (monotone_range ulaw_codec (-32768) 32767); try lia.
    intros z Hz; apply Z.leb_le, ulaw_step; lia.
  - intros Hx Hy.
    assert (forall a b, -32768 <= a -> a <= b -> b <= -8 -> alaw_codec a <= alaw_codec b) as Hn.
    { apply monotone_range; intros z Hz; apply Z.leb_le, alaw_step_neg; lia. }
    assert (forall a b, 0 <= a -> a <= b -> b <= 32767 -> alaw_codec a <= alaw_codec b) as Hp.
    { apply monotone_range; intros z Hz; apply Z.leb_le, alaw_step_pos; lia. }
    destruct (Z.le_gt_cases y (-8)); [apply Hn; lia|].
    destruct (Z.le_gt_cases 0 x); [apply Hp; lia|].
    transitivity (alaw_codec (-8)); [apply Hn; lia|].
    transitivity (alaw_codec 0); [vm_compute; discriminate|apply Hp; lia].
Qed.

(** The A-law encoder's [-pcm_val - 8] goes negative for -7..-1: those
    samples, all but silent, decode to -248. *)
Theorem alaw_small_negative x : - 7 <= x <= -1 -> alaw_codec x = -248.
Proof.
  intros H; apply Z.eqb_eq; by_range 7 (-7) x (fun x => alaw_codec x =? -248).
Qed.

(** The batch loops convert exactly the first [len] elements, in order, and
    leave the rest of the destination alone; when a buffer is shorter than
    [len] they run past its end. *)
Theorem batch_spec f dst src len :
  0 <= len ->
  batch f dst src len =
  if (len <=? zlen src) && (len <=? zlen dst)
  then Done (map f (take (Z.to_nat len) src) ++ drop (Z.to_nat len) dst)
  else Fault.
Proof.
  intros Hlen; unfold batch, zlen; case_bool.
  - rewrite batch_loop_done by lia; done.
  - apply batch_loop_fault; lia.
Qed.

(** An A-law packet survives decoding into a PCM buffer and encoding again,
    byte for byte. *)
Theorem batch_alaw_roundtrip codes pcm out :
  Forall in_u8 codes -> length pcm = length codes -> length out = length codes ->
  exists pcm', batch_alaw2linear pcm codes (zlen codes) = Done pcm' /\
    batch_linear2alaw out pcm' (zlen codes) = Done codes.
Proof.
  intros Hc Hp Ho.
  unfold batch_alaw2linear, batch_linear2alaw, batch, zlen; rewrite Nat2Z.id.
  rewrite batch_loop_done by lia; simpl; rewrite drop_0, (drop_ge pcm), app_nil_r, firstn_all by lia.
  eexists; split; [reflexivity|].
  rewrite batch_loop_done by (rewrite ?length_map; lia); simpl.
  rewrite drop_0, (drop_ge out), app_nil_r, take_ge, map_map by (rewrite ?length_map; lia); f_equal.
  induction Hc as [|c codes Hc _ IH] in pcm, out, Hp, Ho |- *; [done|]; simpl; f_equal.
  - unfold in_u8 in Hc; apply Z.eqb_eq.
    by_range 256 0 c (fun c => linear2alaw (i16 (alaw2linear (u8 c))) =? c).
  - apply (IH (tail pcm) (tail out)); destruct pcm, out; simpl in *; lia.
Qed.

(** The transcoding tables are read in range for every byte, and a
    transcoded code decodes to within 1/8 of the original sample plus 8. *)
Theorem transcode_error c :
  in_u8 c ->
  (exists a, ulaw2alaw c = Done a /\
     8 * Z.abs (alaw2linear a - ulaw2linear c) <= Z.abs (ulaw2linear c) + 64) /\
  (exists u, alaw2ulaw c = Done u /\
     8 * Z.abs (ulaw2linear u - alaw2linear c) <= Z.abs (alaw2linear c) + 64).
Proof.
  intros H; unfold in_u8 in H; split.
  - cut (match ulaw2alaw c with
         | Done a => 8 * Z.abs (alaw2linear a - ulaw2linear c) <=? Z.abs (ulaw2linear c) + 64
         | _ => false end = true).
    { destruct (ulaw2alaw c) as [a| |]; try done; intros E%Z.leb_le; eauto. }
    by_range 256 0 c (fun c => match ulaw2alaw c with
      | Done a => 8 * Z.abs (alaw2linear a - ulaw2linear c) <=? Z.abs (ulaw2linear c) + 64
      | _ => false end).
  - cut (match alaw2ulaw c with
         | Done a => 8 * Z.abs (ulaw2linear a - alaw2linear c) <=? Z.abs (alaw2linear c) + 64
         | _ => false end = true).
    { destruct (alaw2ulaw c) as [a| |]; try done; intros E%Z.leb_le; eauto. }
    by_range 256 0 c (fun c => match alaw2ulaw c with
      | Done a => 8 * Z.abs (ulaw2linear a - alaw2linear c) <=? Z.abs (alaw2linear c) + 64
      | _ => false end).
Qed.

(** ** Concrete instances *)

Lemma codes_stable_witness : linear2alaw (alaw2linear 0xD5) = 0xD5 /\
  linear2ulaw (ulaw2linear 0x7F) = 0xFF.
Proof.
  exact (conj (proj1 (codes_stable 0xD5 ltac:(split; done)))
              (proj2 (codes_stable 0x7F ltac:(split; done)))).
Defined.
Lemma codec_error_witness : 32 * Z.abs (ulaw_codec 1000 - 1000) <= Z.abs 1000 + 132.
Proof. exact (proj2 (codec_error 1000 ltac:(lia))). Defined.
Lemma codec_monotone_witness : ulaw_codec (-5) <= ulaw_codec 300.
Proof. exact (proj1 (codec_monotone (-5) 300 ltac:(lia) ltac:(lia) ltac:(lia))). Defined.
Lemma alaw_small_negative_witness : alaw_codec (-3) = -248.
Proof. apply alaw_small_negative; lia. Defined.
Lemma batch_spec_witness : batch ulaw2linear [0; 0; 7] [0xFF; 0x80] 2 = Done [0; 32124; 7].
Proof. rewrite (batch_spec ulaw2linear [0; 0; 7] [0xFF; 0x80] 2 ltac:(lia)); reflexivity. Defined.
Lemma batch_alaw_roundtrip_witness :
  exists pcm', batch_alaw2linear [0; 0] [0xD5; 0x2A] 2 = Done pcm' /\
    batch_linear2alaw [0; 0] pcm' 2 = Done [0xD5; 0x2A].
Proof.
  apply (batch_alaw_roundtrip [0xD5; 0x2A] [0; 0] [0; 0]);
    [repeat constructor; done|reflexivity|reflexivity].
Defined.
Lemma transcode_error_witness : exists a, ulaw2alaw 0x3C = Done a.
Proof. destruct (transcode_error 0x3C ltac:(split; done)) as [(a & H & _) _]; exists a; exact H. Defined.

End G711.
