(* ===== verification/Bits.v ===== *)
(** MSB-first bit readers over a byte buffer: the functions [u] and [Ue] that
    gles/Media/h264wh.cpp and (as [u_265], [Ue_265]) gles/Media/h265wh.cpp
    define with the same bodies, in a reader monad over the start bit; and
    their specification against a list of bits. *)
From S2P Require Import Prelude.

Module Bits.

(** A computation that advances the start bit. *)
Definition reader (A : Type) : Type := Z -> outcome (A * Z).
Definition ret {A} (a : A) : reader A := fun pos => Done (a, pos).
Definition rbind {A B} (m : reader A) (k : A -> reader B) : reader B :=
  fun pos => match m pos with
             | Done (a, pos') => k a pos'
             | Fault => Fault
             | OutOfFuel => OutOfFuel
             end.
Declare Scope reader_scope.
Delimit Scope reader_scope with reader.
Notation "x <~ m ; k" := (rbind m (fun x => k))
  (at level 60, m at level 60, k at level 200, only parsing) : reader_scope.
Open Scope reader_scope.

Section Readers.
Context (buf : bytes) (nLen : Z).

(** [buf[n / 8] & (0x80 >> (n % 8))]. *)
Definition bit_at (n : Z) : outcome bool :=
  match znth buf (n / 8) with
  | Some b => Done (negb (Z.land b (Z.shiftr 0x80 (n mod 8)) =? 0))
  | None => Fault
  end.

(** The loop that shifts [n] bits into [dwRet]. *)
Fixpoint read_loop (n : nat) (dwRet : Z) : reader Z := fun pos =>
  match n with
  | O => Done (dwRet, pos)
  | S n =>
      let* b := bit_at pos in
      read_loop n (u32 (u32 (Z.shiftl dwRet 1) + Z.b2z b)) (u32 (pos + 1))
  end.

Definition u (BitCount : Z) : reader Z := read_loop (Z.to_nat BitCount) 0.

(** The zero-counting loop; it reads one bit per iteration, so a fuel of one
    more than the bits of the buffer is never exhausted. *)
Fixpoint zeros_loop (fuel : nat) (nZeroNum : Z) : reader Z := fun pos =>
  match fuel with
  | O => OutOfFuel
  | S fuel =>
      if pos <? u32 (nLen * 8) then
        let* b := bit_at pos in
        if b then Done (nZeroNum, pos)
        else zeros_loop fuel (u32 (nZeroNum + 1)) (u32 (pos + 1))
      else Done (nZeroNum, pos)
  end.
Definition zeros_fuel : nat := S (8 * length buf).

(** [Ue]: [(1 << nZeroNum) - 1] overflows [int] from 31 zeros on. *)
Definition Ue : reader Z :=
  nZeroNum <~ zeros_loop zeros_fuel 0;
  _ <~ (fun pos => Done (tt, u32 (pos + 1)));
  dwRet <~ read_loop (Z.to_nat nZeroNum) 0;
  if 31 <=? nZeroNum then fun _ => Fault
  else ret (u32 (Z.shiftl 1 nZeroNum - 1 + dwRet)).

(** [Se]: [ceil] of half the code, negated for even codes. *)
Definition Se : reader Z :=
  UeVal <~ Ue;
  let nValue := - ((- i32 UeVal) / 2) in
  ret (if Z.rem (i32 UeVal) 2 =? 0 then - nValue else nValue).
End Readers.

(** ** Specification: the buffer as a list of bits *)

Definition byte_bits (b : Z) : list bool :=
  map (fun k => Z.testbit b k) [7; 6; 5; 4; 3; 2; 1; 0].
Definition bits_of (buf : bytes) : list bool := flat_map byte_bits buf.

Fixpoint value (acc : Z) (bs : list bool) : Z :=
  match bs with [] => acc | b :: bs => value (2 * acc + Z.b2z b) bs end.

(** The [n] low bits of [x], most significant first. *)
Fixpoint msb (n : nat) (x : Z) : list bool :=
  match n with O => [] | S n => Z.testbit x (Z.of_nat n) :: msb n x end.

(** The Exp-Golomb code of [v]. *)
Definition ue_bits (v : Z) : list bool :=
  let n := Z.to_nat (Z.log2 (v + 1)) in
  replicate n false ++ true :: msb n (v + 1).
Definition se_code (v : Z) : Z := if 0 <? v then 2 * v - 1 else - 2 * v.
Definition se_bits (v : Z) : list bool := ue_bits (se_code v).

(** The bits at [pos] are [bs]. *)
Definition at_bits (buf : bytes) (pos : Z) (bs : list bool) : Prop :=
  0 <= pos /\ exists rest, drop (Z.to_nat pos) (bits_of buf) = bs ++ rest.

Lemma bits_of_length buf : length (bits_of buf) = (8 * length buf)%nat.
Proof. induction buf as [|b buf IH]; [done|]; unfold bits_of in *; simpl in *; lia. Qed.

Lemma land_pow2 b k : 0 <= k -> negb (Z.land b (2 ^ k) =? 0) = Z.testbit b k.
Proof.
  intros Hk; destruct (Z.testbit b k) eqn:E.
  - apply negb_true_iff, Z.eqb_neq; intros H.
    apply (f_equal (fun z => Z.testbit z k)) in H.
    rewrite Z.land_spec, E, Z.pow2_bits_true, Z.bits_0 in H by lia; done.
  - apply negb_false_iff, Z.eqb_eq, Z.bits_inj'; intros j Hj.
    rewrite Z.land_spec, Z.bits_0, Z.pow2_bits_eqb by lia.
    destruct (k =? j) eqn:Ekj; [apply Z.eqb_eq in Ekj; subst; rewrite E|apply andb_false_r]; done.
Qed.

Lemma shiftr_80 k : 0 <= k < 8 -> Z.shiftr 0x80 k = 2 ^ (7 - k).
Proof.
  intros H; apply Z.eqb_eq, (forall_range_spec 8 0 (fun k => Z.shiftr 0x80 k =? 2 ^ (7 - k)));
    [done|lia].
Qed.

Lemma bits_of_lookup buf i j :
  (j < 8)%nat -> bits_of buf !! (8 * i + j)%nat =
  match buf !! i with Some b => Some (Z.testbit b (7 - Z.of_nat j)) | None => None end.
Proof.
  intros Hj; revert i; induction buf as [|b buf IH]; intros i; [done|].
  change (bits_of (b :: buf)) with (byte_bits b ++ bits_of buf); destruct i as [|i].
  - do 8 (destruct j as [|j]; [done|]); lia.
  - rewrite lookup_app_r by (simpl; lia).
    replace (8 * S i + j - length (byte_bits b))%nat with (8 * i + j)%nat by (simpl; lia).
    apply IH.
Qed.

Lemma bit_at_spec buf pos :
  0 <= pos ->
  bit_at buf pos = match bits_of buf !! Z.to_nat pos with Some b => Done b | None => Fault end.
Proof.
  intros H; unfold bit_at, znth.
  replace (pos / 8 <? 0) with false by dlia.
  replace (Z.to_nat pos) with (8 * Z.to_nat (pos / 8) + Z.to_nat (pos mod 8))%nat by dlia.
  rewrite bits_of_lookup by dlia.
  destruct (buf !! Z.to_nat (pos / 8)); [|done].
  pose proof (Z.mod_pos_bound pos 8 ltac:(lia)).
  rewrite shiftr_80, land_pow2 by lia; do 2 f_equal; lia.
Qed.

Lemma at_bits_bit buf pos b bs :
  at_bits buf pos (b :: bs) -> bit_at buf pos = Done b /\ at_bits buf (pos + 1) bs.
Proof.
  intros [H (rest & E)]; rewrite bit_at_spec by done; split.
  - replace (bits_of buf !! Z.to_nat pos) with (Some b); [done|].
    rewrite <- (Nat.add_0_r (Z.to_nat pos)), <- lookup_drop, E; done.
  - split; [lia|]; exists rest.
    replace (Z.to_nat (pos + 1)) with (Z.to_nat pos + 1)%nat by lia.
    rewrite <- drop_drop, E; done.
Qed.

Lemma at_bits_app buf pos bs cs :
  at_bits buf pos (bs ++ cs) ->
  at_bits buf pos bs /\ at_bits buf (pos + zlen bs) cs.
Proof.
  intros [H (rest & E)]; split; (split; [unfold zlen; lia|]).
  - exists (cs ++ rest); rewrite app_assoc; done.
  - exists rest; unfold zlen.
    replace (Z.to_nat (pos + Z.of_nat (length bs))) with (Z.to_nat pos + length bs)%nat by lia.
    rewrite <- drop_drop, E, <- app_assoc, drop_app_length; done.
Qed.

Lemma at_bits_bound buf pos bs : bs <> [] -> at_bits buf pos bs -> pos + zlen bs <= 8 * zlen buf.
Proof.
  intros Hne [H (rest & E)]; apply (f_equal length) in E.
  rewrite length_drop, bits_of_length, length_app in E; unfold zlen.
  destruct bs; [done|]; simpl in *; lia.
Qed.

Lemma value_bound acc bs : 0 <= acc -> 0 <= value acc bs < (acc + 1) * 2 ^ zlen bs.
Proof.
  revert acc; induction bs as [|b bs IH]; intros acc H; simpl.
  - unfold zlen; simpl; lia.
  - specialize (IH (2 * acc + Z.b2z b)); unfold zlen in *; simpl length.
    rewrite Nat2Z.inj_succ, Z.pow_succ_r by lia.
    destruct b; simpl Z.b2z in *; nia.
Qed.

Lemma value_msb acc n x : 0 <= acc -> value acc (msb n x) = acc * 2 ^ Z.of_nat n + x mod 2 ^ Z.of_nat n.
Proof.
  revert acc; induction n as [|n IH]; intros acc H; cbn [msb value].
  - rewrite Z.mod_1_r; lia.
  - rewrite IH by (destruct (Z.testbit _ _); simpl; lia).
    rewrite Nat2Z.inj_succ, Z.pow_succ_r by lia.
    rewrite (Z.mul_comm 2 (2 ^ Z.of_nat n)), (Z.rem_mul_r x (2 ^ Z.of_nat n) 2) by lia.
    rewrite <- Z.shiftr_div_pow2, <- Z.bit0_mod, Z.shiftr_spec, Z.add_0_l by lia; nia.
Qed.

Lemma msb_length n x : length (msb n x) = n.
Proof. induction n; simpl; auto. Qed.

Lemma msb_mod n m x : (n <= m)%nat -> msb n x = msb n (x mod 2 ^ Z.of_nat m).
Proof.
  induction n as [|n IH]; intros H; simpl; [done|].
  rewrite Z.mod_pow2_bits_low, <- IH by lia; done.
Qed.

(** ** The readers meet the specification *)

Section Spec.
Context (buf : bytes) (nLen : Z).
Hypothesis Hsmall : 8 * zlen buf < 2 ^ 31.

Lemma read_loop_spec bs acc pos :
  at_bits buf pos bs -> 0 <= acc -> (acc + 1) * 2 ^ zlen bs <= 2 ^ 32 -> bs <> [] ->
  read_loop buf (length bs) acc pos = Done (value acc bs, pos + zlen bs).
Proof.
  revert acc pos; induction bs as [|b bs IH]; intros acc pos Hat Hacc Hb Hne; [done|].
  pose proof (at_bits_bound buf pos (b :: bs) ltac:(done) Hat) as Hbound.
  apply at_bits_bit in Hat as Hat'; destruct Hat' as [Hbit Hat'].
  assert (2 ^ zlen (b :: bs) = 2 * 2 ^ zlen bs) as Hpow.
  { unfold zlen; simpl length; rewrite Nat2Z.inj_succ, Z.pow_succ_r; lia. }
  assert (0 < 2 ^ zlen bs) by (apply Z.pow_pos_nonneg; unfold zlen; lia).
  cbn [read_loop length]; rewrite Hbit; cbn [obind].
  assert (u32 (u32 (Z.shiftl acc 1) + Z.b2z b) = 2 * acc + Z.b2z b) as ->.
  { rewrite Z.shiftl_mul_pow2 by lia.
    rewrite (u32_small (acc * 2 ^ 1)), u32_small by (destruct b; simpl Z.b2z; nia).
    lia. }
  destruct Hat as [Hpos _].
  assert (zlen (b :: bs) = 1 + zlen bs) as Hlen by (unfold zlen; simpl length; lia).
  rewrite u32_small by (unfold zlen in *; lia).
  destruct bs as [|b' bs'].
  - simpl; rewrite Hlen; unfold zlen; simpl; repeat f_equal; lia.
  - rewrite IH; try done; [rewrite Hlen, Z.add_assoc; done|destruct b; simpl; lia|].
    rewrite Hpow in Hb; destruct b; simpl Z.b2z; nia.
Qed.
(** [m] consumes the bits [bs] and returns [a], wherever they stand. *)
Definition parses {A} (m : reader A) (bs : list bool) (a : A) : Prop :=
  forall pos, at_bits buf pos bs -> m pos = Done (a, pos + zlen bs).

Lemma parses_ret {A} (a : A) : parses (ret a) [] a.
Proof. intros pos _; unfold ret, zlen; simpl; rewrite Z.add_0_r; done. Qed.

Lemma parses_bind {A B} (m : reader A) (k : A -> reader B) bs cs a b :
  parses m bs a -> parses (k a) cs b -> parses (rbind m k) (bs ++ cs) b.
Proof.
  intros Hm Hk pos [H1 H2]%at_bits_app; unfold rbind.
  rewrite (Hm _ H1), (Hk _ H2); unfold zlen; rewrite length_app; do 2 f_equal; lia.
Qed.

Lemma parses_nil_l {A B} (m : reader A) (k : A -> reader B) cs a b :
  parses m [] a -> parses (k a) cs b -> parses (rbind m k) cs b.
Proof. intros Hm Hk; exact (parses_bind m k [] cs a b Hm Hk). Qed.

Lemma parses_u n x :
  (n <= 32)%nat -> 0 <= x < 2 ^ Z.of_nat n -> parses (u buf (Z.of_nat n)) (msb n x) x.
Proof.
  intros Hn Hx pos Hat; unfold u; rewrite Nat2Z.id.
  destruct n as [|n].
  - replace x with 0 by (simpl in Hx; lia); simpl; unfold zlen; simpl; rewrite Z.add_0_r; done.
  - pose proof (read_loop_spec (msb (S n) x) 0 pos Hat ltac:(lia)) as E.
    rewrite msb_length in E; rewrite E; [|..|done].
    + rewrite value_msb, Z.mul_0_l, Z.mod_small by lia; done.
    + unfold zlen; rewrite msb_length, Z.add_0_l, Z.mul_1_l.
      apply (Z.pow_le_mono_r 2 _ 32); lia.
Qed.

Lemma zeros_loop_spec n fuel nz pos r :
  at_bits buf pos (replicate n false ++ true :: r) -> 8 * zlen buf <= u32 (nLen * 8) ->
  (n < fuel)%nat -> 0 <= nz -> nz + Z.of_nat n < 2 ^ 32 ->
  zeros_loop buf nLen fuel nz pos = Done (nz + Z.of_nat n, pos + Z.of_nat n).
Proof.
  intros Hat Hl; revert fuel nz pos Hat; induction n as [|n IH]; intros [|fuel] nz pos Hat Hf Hnz Hb;
    [lia| |lia|]; simpl in Hat; cbn [zeros_loop];
    pose proof (at_bits_bound buf pos (_ :: _) ltac:(done) Hat) as Hbound;
    unfold zlen in Hbound; simpl length in Hbound; rewrite ?Nat2Z.inj_succ in Hbound; fold (zlen buf) in Hbound;
    destruct (at_bits_bit _ _ _ _ Hat) as [-> Hat']; cbn [obind];
    replace (pos <? u32 (nLen * 8)) with true by lia.
  - rewrite !Z.add_0_r; done.
  - destruct Hat as [Hpos _].
    rewrite (u32_small (nz + 1)), (u32_small (pos + 1)) by lia.
    rewrite IH by (done || lia); do 2 f_equal; lia.
Qed.

Lemma ue_bits_length v : 0 <= v -> zlen (ue_bits v) = 2 * Z.log2 (v + 1) + 1.
Proof.
  intros H; pose proof (Z.log2_nonneg (v + 1)); unfold ue_bits, zlen.
  rewrite length_app, length_replicate; simpl; rewrite msb_length; lia.
Qed.

Hypothesis Hlen : 8 * zlen buf <= u32 (nLen * 8).

Lemma parses_ue v : 0 <= v < 2 ^ 31 - 1 -> parses (Ue buf nLen) (ue_bits v) v.
Proof.
  intros Hv pos Hat; pose proof (ue_bits_length v ltac:(lia)) as Hlv.
  pose proof (Z.log2_spec (v + 1) ltac:(lia)) as [Hl1 Hl2].
  assert (0 <= Z.log2 (v + 1) < 31) as Hlog.
  { split; [apply Z.log2_nonneg|apply Z.log2_lt_pow2; lia]. }
  set (n := Z.log2 (v + 1)) in *; unfold Ue, rbind.
  pose proof (at_bits_bound buf pos (ue_bits v)
    ltac:(intros E; rewrite E in Hlv; unfold zlen in Hlv; simpl in Hlv; lia) Hat) as Hbd.
  unfold ue_bits in Hat; fold n in Hat.
  assert (Z.to_nat n < zeros_fuel buf)%nat as Hfuel.
  { destruct Hat as [Hp _]; unfold zeros_fuel, zlen in *; lia. }
  rewrite (zeros_loop_spec _ _ 0 pos _ Hat Hlen Hfuel) by lia.
  rewrite Z.add_0_l, Z2Nat.id by lia.
  apply at_bits_app in Hat as [[Hpos _] Hat].
  unfold zlen at 1 in Hat; rewrite length_replicate in Hat.
  apply at_bits_bit in Hat as [_ Hat]; rewrite Z2Nat.id in Hat by lia.
  rewrite u32_small by lia.
  assert (read_loop buf (Z.to_nat n) 0 (pos + n + 1) =
            Done ((v + 1) mod 2 ^ n, pos + n + 1 + n)) as E.
  { pose proof (parses_u (Z.to_nat n) ((v + 1) mod 2 ^ n)) as Hu.
    assert (msb (Z.to_nat n) (v + 1) = msb (Z.to_nat n) ((v + 1) mod 2 ^ n)) as Em.
    { rewrite (msb_mod _ (Z.to_nat n)), Z2Nat.id by lia; done. }
    rewrite Em in Hat; rewrite Z2Nat.id in Hu by lia; unfold u in Hu.
    rewrite Hu; [unfold zlen; rewrite msb_length; do 2 f_equal; lia|lia| |done].
    apply Z.mod_pos_bound; lia. }
  rewrite E; replace (31 <=? n) with false by lia; unfold ret; do 2 f_equal; [|lia].
  rewrite Z.shiftl_1_l.
  assert ((v + 1) mod 2 ^ n = v + 1 - 2 ^ n) as ->.
  { symmetry; apply (Z.mod_unique_pos _ _ 1); rewrite <- ?Z.add_1_r, ?Z.pow_add_r in Hl2; lia. }
  rewrite u32_small; lia.
Qed.

Lemma parses_se v : - 2 ^ 30 < v < 2 ^ 30 -> parses (Se buf nLen) (se_bits v) v.
Proof.
  intros Hv; unfold Se, se_bits, se_code; rewrite <- (app_nil_r (ue_bits _)).
  eapply parses_bind; [apply parses_ue; case_bool; lia|].
  replace (if _ =? 0 then _ else _) with v; [apply parses_ret|].
  rewrite i32_small by (case_bool; lia).
  destruct (0 <? v) eqn:E.
  - replace (Z.rem (2 * v - 1) 2 =? 0) with false by dlia; dlia.
  - replace (Z.rem (- 2 * v) 2 =? 0) with true by dlia; dlia.
Qed.
End Spec.

(** ** The readers always return *)

(** From any non-negative position [m] ends, at a non-negative position. *)
Definition total {A} (m : reader A) : Prop :=
  forall pos, 0 <= pos ->
    match m pos with Done (_, pos') => 0 <= pos' | Fault => True | OutOfFuel => False end.

Lemma total_ret {A} (a : A) : total (ret a).
Proof. intros pos; done. Qed.
Lemma total_fault {A} : total (fun _ => @Fault (A * Z)).
Proof. intros pos; done. Qed.
Lemma total_bind {A B} (m : reader A) (k : A -> reader B) :
  total m -> (forall a, total (k a)) -> total (rbind m k).
Proof.
  intros Hm Hk pos Hp; unfold rbind; specialize (Hm pos Hp).
  destruct (m pos) as [[a pos']| |]; try done; by apply Hk.
Qed.
Lemma total_if {A} (b : bool) (m1 m2 : reader A) : total m1 -> total m2 -> total (if b then m1 else m2).
Proof. destruct b; auto. Qed.

Lemma total_read_loop buf n acc : total (read_loop buf n acc).
Proof.
  revert acc; induction n as [|n IH]; intros acc pos Hp; simpl; [done|].
  destruct (bit_at buf pos) eqn:E; simpl; [apply IH, u32_range|done|].
  unfold bit_at in E; destruct (znth _ _); done.
Qed.
Lemma total_u buf n : total (u buf n).
Proof. apply total_read_loop. Qed.

Lemma zeros_loop_total buf nLen fuel nz pos :
  8 * zlen buf < 2 ^ 31 -> 0 <= pos -> 8 * zlen buf < pos + Z.of_nat fuel -> (0 < fuel)%nat ->
  match zeros_loop buf nLen fuel nz pos with
  | Done (_, pos') => 0 <= pos' | Fault => True | OutOfFuel => False end.
Proof.
  intros Hs; revert nz pos; induction fuel as [|fuel IH]; intros nz pos Hp Hf Hpos; [lia|]; simpl.
  destruct (pos <? _); [|done]; rewrite bit_at_spec by done.
  destruct (bits_of buf !! Z.to_nat pos) as [b|] eqn:E; simpl; [|done].
  apply lookup_lt_Some in E; rewrite bits_of_length in E; unfold zlen in *.
  destruct b; [done|]; rewrite (u32_small (pos + 1)) by lia; apply IH; lia.
Qed.

Lemma total_Ue buf nLen : 8 * zlen buf < 2 ^ 31 -> total (Ue buf nLen).
Proof.
  intros Hs; apply total_bind.
  - intros pos Hp; apply zeros_loop_total; try done; unfold zeros_fuel, zlen; lia.
  - intros n; apply total_bind; [intros pos _; apply u32_range|intros _].
    apply total_bind; [apply total_read_loop|intros d].
    apply total_if; [apply total_fault|apply total_ret].
Qed.
Lemma total_Se buf nLen : 8 * zlen buf < 2 ^ 31 -> total (Se buf nLen).
Proof. intros Hs; apply total_bind; [by apply total_Ue|intros; apply total_ret]. Qed.

#[export] Hint Resolve total_ret total_fault total_bind total_if total_u total_Ue total_Se : gles.

End Bits.
