(* ===== verification/H264.v ===== *)
(** gles/Media/h264wh.cpp: the H.264 sequence parameter set parser and the
    scan of a stream for its picture size.  [buf] is the memory from the parsed
    NAL unit to the end of the stream: reading past it is [Fault]. *)
From S2P Require Import Prelude Bits.

Module H264.
Import Bits.
Open Scope reader_scope.

(** ** Tables; a pointer to a row sees the rows behind it *)

Definition default_scaling4 : list Z :=
  [6; 13; 20; 28; 13; 20; 28; 32; 20; 28; 32; 37; 28; 32; 37; 42;
   10; 14; 20; 24; 14; 20; 24; 27; 20; 24; 27; 30; 24; 27; 30; 34].
Definition default_scaling8 : list Z :=
  [6; 10; 13; 16; 18; 23; 25; 27; 10; 11; 16; 18; 23; 25; 27; 29;
   13; 16; 18; 23; 25; 27; 29; 31; 16; 18; 23; 25; 27; 29; 31; 33;
   18; 23; 25; 27; 29; 31; 33; 36; 23; 25; 27; 29; 31; 33; 36; 38;
   25; 27; 29; 31; 33; 36; 38; 40; 27; 29; 31; 33; 36; 38; 40; 42;
   9; 13; 15; 17; 19; 21; 22; 24; 13; 13; 17; 19; 21; 22; 24; 25;
   15; 17; 19; 21; 22; 24; 25; 27; 17; 19; 21; 22; 24; 25; 27; 28;
   19; 21; 22; 24; 25; 27; 28; 30; 21; 22; 24; 25; 27; 28; 30; 32;
   22; 24; 25; 27; 28; 30; 32; 33; 24; 25; 27; 28; 30; 32; 33; 35].
Definition ff_zigzag_direct : list Z :=
  [0; 1; 8; 16; 9; 2; 3; 10; 17; 24; 32; 25; 18; 11; 4; 5;
   12; 19; 26; 33; 40; 48; 41; 34; 27; 20; 13; 6; 7; 14; 21; 28;
   35; 42; 49; 56; 57; 50; 43; 36; 29; 22; 15; 23; 30; 37; 44; 51;
   58; 59; 52; 45; 38; 31; 39; 46; 53; 60; 61; 54; 47; 55; 62; 63].
Definition zigzag_scan : list Z :=
  [0 + 0 * 4; 1 + 0 * 4; 0 + 1 * 4; 0 + 2 * 4; 1 + 1 * 4; 2 + 0 * 4; 3 + 0 * 4; 2 + 1 * 4;
   1 + 2 * 4; 0 + 3 * 4; 1 + 3 * 4; 2 + 2 * 4; 3 + 1 * 4; 3 + 2 * 4; 2 + 3 * 4; 3 + 3 * 4; 0].
Definition row4 (i : nat) : list Z := drop (16 * i) default_scaling4.
Definition row8 (i : nat) : list Z := drop (64 * i) default_scaling8.

(** [memcpy(_, src, n)]. *)
Definition memcpy (src : list Z) (n : nat) : reader (list Z) :=
  if (n <=? length src)%nat then ret (take n src) else fun _ => Fault.

Section Parser.
Context (buf : bytes) (nLen : Z).

(** The loop of [decode_scaling_list], [n] iterations from [i]. *)
Fixpoint scaling_loop (n i : nat) (size : nat) (scan : list Z) (last next : Z)
    (factors jvt_list : list Z) : reader (list Z) :=
  match n with
  | O => ret factors
  | S n =>
      next <~ (if next =? 0 then ret next
               else d <~ Se buf nLen; ret (Z.land (last + d) 0xff));
      if (Nat.eqb i 0) && (next =? 0) then memcpy jvt_list size
      else
        let last := if next =? 0 then last else next in
        scaling_loop n (S i) size scan last next
          (zset factors (zget scan (Z.of_nat i)) last) jvt_list
  end.

Definition decode_scaling_list (size : nat) (jvt_list fallback_list : list Z) : reader (list Z) :=
  let scan := if Nat.eqb size 16 then zigzag_scan else ff_zigzag_direct in
  b <~ u buf 1;
  if b =? 0 then memcpy fallback_list size
  else scaling_loop size 0 size scan 8 8 (replicate size 0) jvt_list.

(** The scaling matrices: [fallback] points at rows of the 4x4 table for the
    third list, of size 64. *)
Definition scaling_matrices (chroma_format_idc : Z) : reader unit :=
  let fallback0 := row4 0 in let fallback1 := row8 1 in
  let fallback2 := row4 0 in let fallback3 := row8 1 in
  m40 <~ decode_scaling_list 16 (row4 0) fallback0;
  m41 <~ decode_scaling_list 16 (row4 0) m40;
  _ <~ decode_scaling_list 16 (row4 0) m41;
  m43 <~ decode_scaling_list 16 (row4 1) fallback1;
  m44 <~ decode_scaling_list 16 (row4 1) m43;
  _ <~ decode_scaling_list 16 (row4 1) m44;
  m80 <~ decode_scaling_list 64 (row8 0) fallback2;
  m83 <~ decode_scaling_list 64 (row8 1) fallback3;
  if chroma_format_idc =? 3 then
    m81 <~ decode_scaling_list 64 (row8 0) m80;
    m84 <~ decode_scaling_list 64 (row8 1) m83;
    _ <~ decode_scaling_list 64 (row8 0) m81;
    _ <~ decode_scaling_list 64 (row8 1) m84;
    ret tt
  else ret tt.

Fixpoint skip_se (n : nat) : reader unit :=
  match n with
  | O => ret tt
  | S n => _ <~ Se buf nLen; skip_se n
  end.

(** The high-profile fields; [false] is [return false]. *)
Definition high_fields : reader bool :=
  chroma_format_idc <~ Ue buf nLen;
  if 3 <? chroma_format_idc then ret false
  else
    residual <~ (if chroma_format_idc =? 3 then u buf 1 else ret 0);
    if negb (residual =? 0) then ret false
    else
      luma <~ Ue buf nLen;
      chroma <~ Ue buf nLen;
      if (14 <? u32 (luma + 8)) || (14 <? u32 (chroma + 8)) || negb (chroma =? luma)
      then ret false
      else
        _ <~ u buf 1;
        seq_scaling_matrix_present_flag <~ u buf 1;
        if seq_scaling_matrix_present_flag =? 0 then ret true
        else _ <~ scaling_matrices chroma_format_idc; ret true.

Definition pic_order_fields : reader unit :=
  pic_order_cnt_type <~ Ue buf nLen;
  if pic_order_cnt_type =? 0 then _ <~ Ue buf nLen; ret tt
  else if pic_order_cnt_type =? 1 then
    _ <~ u buf 1;
    _ <~ Se buf nLen;
    _ <~ Se buf nLen;
    n <~ Ue buf nLen;
    skip_se (Z.to_nat n)
  else ret tt.

(** [(x + 1) * 16] in [int]. *)
Definition mbs16 (x : Z) : reader Z :=
  if (x + 1) * 16 <? 2 ^ 31 then ret ((x + 1) * 16) else fun _ => Fault.

Definition size_fields : reader (option (Z * Z)) :=
  _ <~ Ue buf nLen;
  _ <~ pic_order_fields;
  _ <~ Ue buf nLen;
  _ <~ u buf 1;
  w <~ Ue buf nLen;
  h <~ Ue buf nLen;
  width <~ mbs16 w;
  height <~ mbs16 h;
  ret (Some (width, height)).

(** [h264_decode_seq_parameter_set]: [Some (w, h)] is return value 1 with the
    two out parameters stored, [None] is 0 with nothing stored. *)
Definition parse_sps : reader (option (Z * Z)) :=
  _ <~ u buf 1;
  _ <~ u buf 2;
  nal_unit_type <~ u buf 5;
  if nal_unit_type =? 7 then
    profile_idc <~ u buf 8;
    _ <~ u buf 1; _ <~ u buf 1; _ <~ u buf 1; _ <~ u buf 1; _ <~ u buf 1; _ <~ u buf 1;
    _ <~ u buf 2;
    _ <~ u buf 8;
    _ <~ Ue buf nLen;
    ok <~ (if (profile_idc =? 100) || (profile_idc =? 110) || (profile_idc =? 122)
              || (profile_idc =? 144)
           then high_fields else ret true);
    if ok then size_fields else ret None
  else ret None.

Definition h264_decode_seq_parameter_set : outcome (option (Z * Z)) :=
  let* '(r, _) := parse_sps 0 in Done r.
End Parser.

(** ** [GetWidthHeight] *)

Definition starts_with (stream : bytes) (i : nat) (code : list Z) : bool :=
  bool_decide (take (length code) (drop i stream) = code).

(** The two tests of one iteration; the state is the pair of out parameters,
    [None] a [return -1]. *)
Definition try_code (stream : bytes) (stream_len : Z) (code : bytes) (i : nat) (out : option (Z * Z))
  : outcome (option (Z * Z) * bool) :=
  if starts_with stream i code then
    let* r := h264_decode_seq_parameter_set (drop (i + length code) stream) stream_len in
    match r with
    | Some wh => Done (Some wh, true)
    | None => Done (out, false)
    end
  else Done (out, true).

Fixpoint scan_loop (n i : nat) (stream : bytes) (stream_len : Z) (out : option (Z * Z))
  : outcome (Z * option (Z * Z)) :=
  match n with
  | O => Done (0, out)
  | S n =>
      let* '(out, ok) := try_code stream stream_len [0; 0; 0; 1] i out in
      if negb ok then Done (-1, out)
      else
        let* '(out, ok) := try_code stream stream_len [0; 0; 1] i out in
        if negb ok then Done (-1, out)
        else scan_loop n (S i) stream stream_len out
  end.

(** The caller passes at least [stream_len] bytes.  Result: the return value and what the out parameters were last set to. *)
Definition GetWidthHeight (stream : bytes) (stream_len : Z) : outcome (Z * option (Z * Z)) :=
  scan_loop (Z.to_nat (stream_len - 4)) 0 stream stream_len None.

(** ** Specification: the syntax a parameter set is printed with *)














Section RoundTrip.
Context (buf : bytes) (nLen : Z).
Hypothesis Hsmall : 8 * zlen buf < 2 ^ 31.
Hypothesis Hlen : 8 * zlen buf <= u32 (nLen * 8).

Abbreviation parses := (parses buf).

Lemma parses_u1 b : parses (u buf 1) [b] (Z.b2z b).
Proof.
  replace [b] with (msb 1 (Z.b2z b)) by (destruct b; done).
  apply (parses_u _ Hsmall 1); [lia|destruct b; simpl; lia].
Qed.

Lemma parses_u_n (n : nat) x :
  (n <= 32)%nat -> 0 <= x < 2 ^ Z.of_nat n -> parses (u buf (Z.of_nat n)) (msb n x) x.
Proof. apply parses_u, Hsmall. Qed.













End RoundTrip.

(** ** Totality *)

Section Total.
Context (buf : bytes) (nLen : Z).
Hypothesis Hsmall : 8 * zlen buf < 2 ^ 31.

Lemma total_memcpy src n : total (memcpy src n).
Proof. unfold memcpy; auto with gles. Qed.

Lemma total_scaling_loop n i size scan last next factors jvt :
  total (scaling_loop buf nLen n i size scan last next factors jvt).
Proof.
  revert i last next factors; induction n as [|n IH]; intros; simpl; auto with gles.
  apply total_bind; [auto 6 with gles|].
  intros; apply total_if; [apply total_memcpy|apply IH].
Qed.

Lemma total_scaling_list size jvt fb : total (decode_scaling_list buf nLen size jvt fb).
Proof.
  apply total_bind; [auto with gles|intros; apply total_if; [apply total_memcpy|]].
  apply total_scaling_loop.
Qed.

Lemma total_skip_se n : total (skip_se buf nLen n).
Proof. induction n; simpl; auto with gles. Qed.

#[local] Hint Resolve total_scaling_list total_skip_se : gles.

Ltac total_solve :=
  repeat first
    [ apply total_ret | apply total_fault | apply total_scaling_list | apply total_skip_se
    | apply total_u | apply total_Ue, Hsmall | apply total_Se, Hsmall
    | apply total_if | apply total_bind; [|intros ?] ].

Lemma total_sps : total (parse_sps buf nLen).
Proof. unfold parse_sps; total_solve. Qed.
End Total.

Lemma decode_total buf nLen :
  8 * zlen buf < 2 ^ 31 -> h264_decode_seq_parameter_set buf nLen <> OutOfFuel.
Proof.
  intros H; pose proof (total_sps buf nLen H 0 ltac:(lia)) as Ht.
  unfold h264_decode_seq_parameter_set; destruct (parse_sps buf nLen 0) as [[r p]| |]; done.
Qed.

Lemma zlen_drop_le {A} n (l : list A) : zlen (drop n l) <= zlen l.
Proof. unfold zlen; rewrite length_drop; lia. Qed.

Lemma try_code_total stream len code i out :
  8 * zlen stream < 2 ^ 31 -> try_code stream len code i out <> OutOfFuel.
Proof.
  intros H; unfold try_code; destruct (starts_with _ _ _); [|done].
  pose proof (decode_total (drop (i + length code) stream) len) as Hd.
  pose proof (zlen_drop_le (i + length code) stream).
  destruct (h264_decode_seq_parameter_set _ _) as [[wh|]| |]; simpl; try done.
  exfalso; apply Hd; lia || done.
Qed.

(** The first byte of a NAL unit decides. *)
Lemma not_sps_byte b rest nLen :
  0 <= b < 256 -> Z.land b 31 <> 7 -> 8 * zlen (b :: rest) < 2 ^ 31 ->
  h264_decode_seq_parameter_set (b :: rest) nLen = Done None.
Proof.
  intros Hb Hne Hs; set (buf := b :: rest) in *.
  assert (at_bits buf 0 (byte_bits b)) as Hat.
  { split; [lia|]; exists (bits_of rest); done. }
  assert (byte_bits b = [Z.testbit b 7] ++ msb 2 (Z.shiftr b 5) ++ msb 5 b) as E.
  { unfold byte_bits; cbn [msb map app]; rewrite !Z.shiftr_spec by lia; done. }
  rewrite E in Hat.
  apply at_bits_app in Hat as [H1 Hat]; apply at_bits_app in Hat as [H2 H3].
  rewrite (msb_mod 2 2) in H2, H3 by lia; rewrite (msb_mod 5 5) in H3 by lia.
  unfold h264_decode_seq_parameter_set, parse_sps, rbind.
  rewrite (parses_u1 buf Hs _ 0 H1).
  pose proof (parses_u_n buf Hs 2 _ ltac:(lia) (Z.mod_pos_bound _ (2 ^ 2) ltac:(lia)) _ H2) as E2.
  pose proof (parses_u_n buf Hs 5 _ ltac:(lia) (Z.mod_pos_bound _ (2 ^ 5) ltac:(lia)) _ H3) as E5.
  change (Z.of_nat 2) with 2 in E2, E5; change (Z.of_nat 5) with 5 in E5; rewrite E2, E5.
  rewrite <- Z.land_ones by lia; change (Z.ones 5) with 31.
  replace (Z.land b 31 =? 7) with false by lia; done.
Qed.

(** ** Properties *)


(** [GetWidthHeight] always returns: for every stream, however corrupt, the
    scan and each parse end (with a value or an out-of-range access) within the
    fuel the bit count gives. *)
Theorem GetWidthHeight_terminates stream len :
  8 * zlen stream < 2 ^ 31 -> GetWidthHeight stream len <> OutOfFuel.
Proof.
  intros H; unfold GetWidthHeight; generalize (Z.to_nat (len - 4)), 0%nat, (@None (Z * Z)).
  intros n; induction n as [|n IH]; intros i out; simpl; [done|].
  pose proof (try_code_total stream len [0; 0; 0; 1] i out H) as H4.
  destruct (try_code _ _ _ _ _) as [[out4 []]| |]; simpl; try done.
  pose proof (try_code_total stream len [0; 0; 1] i out4 H) as H3.
  destruct (try_code _ _ _ _ _) as [[out3 []]| |]; simpl; done || apply IH.
Qed.

(** A stream with any other NAL unit (a PPS, a slice) behind a start code
    never gives success, even when a parameter set before it was parsed and the
    size stored: the scan goes on and fails at the first NAL unit that is not a
    parameter set. *)
Theorem other_nal_never_succeeds stream len j b rest out :
  8 * zlen stream < 2 ^ 31 -> 0 <= b < 256 -> Z.land b 31 <> 7 ->
  drop j stream = 0 :: 0 :: 1 :: b :: rest -> Z.of_nat j < len - 4 ->
  GetWidthHeight stream len <> Done (0, out).
Proof.
  intros Hs Hb Hne Hj Hlen; unfold GetWidthHeight.
  assert (forall n i o, (i <= j < i + n)%nat ->
            scan_loop n i stream len o <> Done (0, out)) as Hgen; [|apply Hgen; lia].
  intros n; induction n as [|n IH]; intros i o Hi; [lia|]; simpl.
  destruct (try_code stream len [0; 0; 0; 1] i o) as [[o4 []]| |]; simpl; try done.
  destruct (decide (i = j)) as [->|Hij].
  - assert (try_code stream len [0; 0; 1] j o4 = Done (o4, false)) as ->; [|done].
    unfold try_code, starts_with; rewrite bool_decide_true by (rewrite Hj; done).
    replace (drop (j + length [0; 0; 1]) stream) with (b :: rest)
      by (rewrite <- drop_drop, Hj; done).
    rewrite not_sps_byte; try done.
    apply (f_equal zlen) in Hj; pose proof (zlen_drop_le j stream).
    unfold zlen in *; simpl in *; lia.
  - destruct (try_code stream len [0; 0; 1] i o4) as [[o3 []]| |]; simpl; try done.
    apply IH; lia.
Qed.

Definition is_fault {A} (o : outcome A) : bool := match o with Fault => true | _ => false end.
Lemma is_fault_true {A} (o : outcome A) : is_fault o = true -> o = Fault.
Proof. by destruct o. Qed.

(** The bit readers have no end: a parameter set cut off by the end of the
    stream is parsed past it. *)
Theorem truncated_sps_overreads b :
  0 <= b < 256 -> Z.land b 31 = 7 -> GetWidthHeight [0; 0; 0; 1; b] 5 = Fault.
Proof.
  intros H1 H2.
  assert (forall_range 256 0 (fun b => negb (Z.land b 31 =? 7) ||
    is_fault (GetWidthHeight [0; 0; 0; 1; b] 5)) = true) as H by (vm_compute; reflexivity).
  apply (fun H => forall_range_spec 256 0 _ H b) in H; [|simpl; lia].
  apply is_fault_true; apply orb_prop in H as [H|H]; [|exact H].
  rewrite H2 in H; discriminate H.
Qed.

(** The fallback of the first 8x8 scaling list is a row of the 4x4 table:
    a scaling matrix whose lists are all absent, the commonest kind, copies 64
    bytes out of a 32-byte table. *)
Theorem absent_scaling_lists_overread buf nLen c pos :
  8 * zlen buf < 2 ^ 31 -> at_bits buf pos (replicate 7 false) ->
  scaling_matrices buf nLen c pos = Fault.
Proof.
  intros Hs Hat.
  assert (forall size jvt fb p bs, (size <= length fb)%nat -> at_bits buf p (false :: bs) ->
    decode_scaling_list buf nLen size jvt fb p = Done (take size fb, p + 1) /\
    at_bits buf (p + 1) bs) as Hstep.
  { intros size jvt fb p bs Hle H; change (false :: bs) with ([false] ++ bs) in H.
    apply at_bits_app in H as [Hb H']; split; [|exact H'].
    unfold decode_scaling_list, rbind; rewrite (parses_u1 buf Hs false p Hb); simpl.
    unfold memcpy; apply Nat.leb_le in Hle; rewrite Hle; done. }
  unfold scaling_matrices, rbind; simpl replicate in Hat.
  do 6 (edestruct Hstep as [E Hat']; [|exact Hat|rewrite E; clear E Hat; rename Hat' into Hat];
    [simpl; lia|]).
  unfold decode_scaling_list, rbind.
  rewrite (parses_u1 buf Hs false _ Hat); done.
Qed.

(** ** Concrete instances: a 640x480 baseline set, alone and before a PPS *)

Definition demo_nal : bytes := [0x67; 0x42; 0; 0x1e; 0xab; 0x40; 0x50; 0x1e; 0xd0; 0x0f; 0x08].
Definition demo_stream : bytes := [0; 0; 0; 1] ++ demo_nal ++ [0; 0; 0; 1; 0x68; 0xce; 0x38; 0x80].

Example demo_size : GetWidthHeight ([0; 0; 0; 1] ++ demo_nal) 15 = Done (0, Some (640, 480)).
Proof. vm_compute; done. Qed.
Example demo_stream_fails : GetWidthHeight demo_stream 23 = Done (-1, Some (640, 480)).
Proof. vm_compute; done. Qed.

Example later_profile_misread :
  h264_decode_seq_parameter_set [103; 100; 0; 31; 172; 218; 1; 64; 22; 192] 10 = Done (Some (1280, 720)) /\
  h264_decode_seq_parameter_set [103; 244; 0; 31; 172; 218; 1; 64; 22; 192] 10 <> Done (Some (1280, 720)).
Proof. split; vm_compute; done. Qed.


Lemma GetWidthHeight_terminates_witness : GetWidthHeight demo_stream 23 <> OutOfFuel.
Proof. apply GetWidthHeight_terminates; vm_compute; done. Defined.

Lemma other_nal_never_succeeds_witness :
  GetWidthHeight demo_stream 23 <> Done (0, Some (640, 480)).
Proof.
  apply (other_nal_never_succeeds demo_stream 23 16 0x68 [0xce; 0x38; 0x80]);
    vm_compute; done || (split; discriminate || reflexivity) || discriminate.
Defined.

Lemma truncated_sps_overreads_witness : GetWidthHeight [0; 0; 0; 1; 0x67] 5 = Fault.
Proof. apply (truncated_sps_overreads 0x67); [lia|reflexivity]. Defined.

Lemma absent_scaling_lists_overread_witness : scaling_matrices [0; 0] 2 1 4 = Fault.
Proof.
  apply (absent_scaling_lists_overread [0; 0] 2 1 4); [vm_compute; done|].
  split; [lia|]; exists (replicate 5 false); reflexivity.
Defined.

End H264.
