(* ===== verification/H265.v ===== *)
(** gles/Media/h265wh.cpp: the start code search, the emulation prevention
    removal and the H.265 sequence parameter set parser.  Pointers into the
    stream are offsets; a byte outside the stream, or of the local buffer that
    was never written, is [Fault]. *)
From S2P Require Import Prelude Bits.

Module H265.
Import Bits.
Open Scope reader_scope.

(** ** Start codes *)

Definition byte_at (m : bytes) (p : Z) : outcome Z :=
  match znth m p with Some b => Done b | None => Fault end.

(** The first loop: up to three bytes through the 32-bit [state]; the flag says
    that it returned [p]. *)
Fixpoint prefix_loop (n : nat) (m : bytes) (p end_ state : Z) : outcome (Z * Z * bool) :=
  match n with
  | O => Done (p, state, false)
  | S n =>
      let tmp := u32 (Z.shiftl state 8) in
      let* b := byte_at m p in
      let state := u32 (tmp + b) in
      let p := p + 1 in
      if (tmp =? 0x100) || (p =? end_) then Done (p, state, true)
      else prefix_loop n m p end_ state
  end.

(** The second loop; it advances by at least one byte. *)
Fixpoint skip_loop (fuel : nat) (m : bytes) (p end_ : Z) : outcome Z :=
  if end_ <=? p then Done p
  else match fuel with
  | O => OutOfFuel
  | S fuel =>
      let* b1 := byte_at m (p - 1) in
      if 1 <? b1 then skip_loop fuel m (p + 3) end_
      else
        let* b2 := byte_at m (p - 2) in
        if negb (b2 =? 0) then skip_loop fuel m (p + 2) end_
        else
          let* b3 := byte_at m (p - 3) in
          if negb (Z.lor b3 (b1 - 1) =? 0) then skip_loop fuel m (p + 1) end_
          else Done (p + 1)
  end.

Definition avpriv_find_start_code (m : bytes) (p end_ state : Z) : outcome Z :=
  if end_ <=? p then Done end_
  else
    let* '(p, _, stop) := prefix_loop 3 m p end_ state in
    if stop then Done p
    else
      let* p := skip_loop (length m) m p end_ in
      Done (Z.min p end_ - 4 + 4).

(** ** The parameter set *)

Definition Ue_265 : bytes -> Z -> reader Z := Ue.
Definition u_265 (BitCount : Z) (buf : bytes) : reader Z := u buf BitCount.

(** [*startbit += n]. *)
Definition skip (n : Z) : reader unit := fun pos => Done (tt, u32 (pos + n)).

Section Parser.
Context (buf : bytes) (ulLen : Z).

Fixpoint sub_layer_flags (n : nat) : reader (list (bool * bool)) :=
  match n with
  | O => ret []
  | S n =>
      p <~ u_265 1 buf;
      l <~ u_265 1 buf;
      rest <~ sub_layer_flags n;
      ret ((negb (p =? 0), negb (l =? 0)) :: rest)
  end.

Fixpoint sub_layer_skips (flags : list (bool * bool)) : reader unit :=
  match flags with
  | [] => ret tt
  | (p, l) :: flags =>
      _ <~ (if p then skip 88 else ret tt);
      _ <~ (if l then skip 8 else ret tt);
      sub_layer_skips flags
  end.

Fixpoint repeat_skip (n : nat) (k : Z) : reader unit :=
  match n with O => ret tt | S n => _ <~ skip k; repeat_skip n k end.

Definition profile_tier_level (sps_max_sub_layers_minus1 : Z) : reader unit :=
  let n := sps_max_sub_layers_minus1 - 1 in
  _ <~ skip 96;
  flags <~ sub_layer_flags (Z.to_nat n);
  _ <~ (if 0 <? n then repeat_skip (Z.to_nat (8 - n)) 2 else ret tt);
  sub_layer_skips flags.

(** [sps_d]: [None] is return value 0. *)
Definition sps_fields : reader (option (Z * Z)) :=
  sps_video_parameter_set_id <~ u_265 4 buf;
  if 16 <=? sps_video_parameter_set_id then ret None
  else
    m <~ u_265 3 buf;
    let sps_max_sub_layers_minus1 := m + 1 in
    if 7 <? sps_max_sub_layers_minus1 then ret None
    else
      _ <~ u_265 1 buf;
      _ <~ profile_tier_level sps_max_sub_layers_minus1;
      sps_seq_parameter_set_id <~ Ue_265 buf ulLen;
      if 32 <=? sps_seq_parameter_set_id then ret None
      else
        chroma_format_id <~ Ue_265 buf ulLen;
        if negb (chroma_format_id =? 1) then ret None
        else
          nWidth <~ Ue_265 buf ulLen;
          nHeight <~ Ue_265 buf ulLen;
          ret (Some (i32 nWidth, i32 nHeight)).

Definition sps_d : outcome (option (Z * Z)) :=
  let* '(r, _) := sps_fields 0 in Done r.
End Parser.

(** ** [H265GetWidthHeight] *)

(** The loop that copies [buf[2 .. nDSize)] into [dBuffer] without the
    emulation prevention bytes. *)
Fixpoint unescape (l : bytes) : bytes :=
  match l with
  | [] => []
  | x :: t =>
      match t with
      | y :: w :: t' =>
          if (x =? 0) && (y =? 0) && (w =? 3) then x :: y :: unescape t' else x :: unescape t
      | _ => x :: unescape t
      end
  end.

(** The outer loop: the offset of the parameter set's header byte. *)
Fixpoint find_sps (fuel : nat) (m : bytes) (buf buf_end : Z) : outcome (option Z) :=
  match fuel with
  | O => OutOfFuel
  | S fuel =>
      let* q := avpriv_find_start_code m buf buf_end (2 ^ 32 - 1) in
      let buf := q - 1 in
      if buf_end <=? buf + 2 then Done None
      else
        let* b := byte_at m buf in
        let nul_unit_type := Z.land (Z.shiftr b 1) 0x3f in
        let* _ := byte_at m (buf + 1) in
        if nul_unit_type =? 33 then Done (Some buf)
        else find_sps fuel m buf buf_end
  end.

Definition H265GetWidthHeight (stream : bytes) (stream_len : Z) : outcome (Z * option (Z * Z)) :=
  let buf_end := stream_len - 1 in
  let* found := find_sps (S (length stream)) stream 0 buf_end in
  match found with
  | None => Done (-1, None)
  | Some buf =>
      let src_length := buf_end - buf in
      let nDSize := if 256 <? src_length then 256 else src_length in
      let* src := load stream buf nDSize in
      let dBuffer := unescape (drop 2 src) in
      let* r := sps_d dBuffer (zlen dBuffer) in
      match r with
      | Some wh => Done (0, Some wh)
      | None => Done (-1, None)
      end
  end.

(** ** Specification *)

(** A start code 00 00 01 at offset [k]. *)
Definition code_at (m : bytes) (k : Z) : Prop :=
  znth m k = Some 0 /\ znth m (k + 1) = Some 0 /\ znth m (k + 2) = Some 1.

(** Emulation prevention as an encoder performs it; [z] counts the zeros just
    written, up to two. *)
Fixpoint escape (z : nat) (l : bytes) : bytes :=
  match l with
  | [] => []
  | x :: l =>
      if (Nat.eqb z 2) && (x <=? 3) then 3 :: x :: escape (if x =? 0 then 1 else 0) l
      else x :: escape (if x =? 0 then S z else 0) l
  end.

Record sps265 := mkSps265 {
  v_vps : Z; v_sub_layers : list (bool * bool * list bool * list bool); v_nesting : bool;
  v_general : list bool; v_pad : list bool; v_id : Z; v_chroma : Z; v_planes : bool; v_width : Z; v_height : Z
}.

Definition layer_flags (l : bool * bool * list bool * list bool) : list bool :=
  let '(p, v, _, _) := l in [p; v].
Definition layer_bits (l : bool * bool * list bool * list bool) : list bool :=
  let '(p, v, pb, vb) := l in (if p then pb else []) ++ (if v then vb else []).
Definition layer_ok (l : bool * bool * list bool * list bool) : Prop :=
  let '(p, v, pb, vb) := l in length pb = 88%nat /\ length vb = 8%nat.

Definition profile_bits (s : sps265) : list bool :=
  v_general s ++ flat_map layer_flags (v_sub_layers s) ++ v_pad s ++
  flat_map layer_bits (v_sub_layers s).

Definition sps265_bits (s : sps265) : list bool :=
  msb 4 (v_vps s) ++ msb 3 (zlen (v_sub_layers s)) ++ [v_nesting s] ++ profile_bits s ++
  ue_bits (v_id s) ++ ue_bits (v_chroma s) ++ (if v_chroma s =? 3 then [v_planes s] else []) ++ ue_bits (v_width s) ++ ue_bits (v_height s).

(** The padding of the sub-layer flags to eight pairs, absent with no sub-layer. *)
Definition pad_length (n : nat) : nat := if (n =? 0)%nat then 0 else 2 * (8 - n).

Record sps265_ok (s : sps265) : Prop := {
  ok_vps : 0 <= v_vps s < 16;
  ok_layers : Forall layer_ok (v_sub_layers s);
  ok_nlayers : (length (v_sub_layers s) <= 6)%nat;
  ok_general : length (v_general s) = 96%nat;
  ok_pad : length (v_pad s) = pad_length (length (v_sub_layers s));
  ok_id : 0 <= v_id s < 32;
  ok_chroma : 0 <= v_chroma s <= 3;
  ok_width : 0 <= v_width s < 2 ^ 31 - 1;
  ok_height : 0 <= v_height s < 2 ^ 31 - 1
}.

(** ** Lemmas: emulation prevention *)

Lemma unescape_other x t : x <> 0 -> unescape (x :: t) = x :: unescape t.
Proof.
  intros H; simpl; destruct t as [|y [|w t]]; try done.
  replace (x =? 0) with false by lia; done.
Qed.
Lemma unescape_zero_other y t : y <> 0 -> unescape (0 :: y :: t) = 0 :: unescape (y :: t).
Proof. intros H; simpl; destruct t as [|w t]; [done|]; replace (y =? 0) with false by lia; done. Qed.
Lemma unescape_zeros_other w t :
  w <> 3 -> w <> 0 -> unescape (0 :: 0 :: w :: t) = 0 :: 0 :: unescape (w :: t).
Proof.
  intros H1 H2; rewrite <- unescape_zero_other by done.
  cbn [unescape]; replace (w =? 3) with false by lia; done.
Qed.

Lemma unescape_escape_gen l :
  unescape (escape 0 l) = l /\ unescape (0 :: escape 1 l) = 0 :: l /\
  unescape (0 :: 0 :: escape 2 l) = 0 :: 0 :: l.
Proof.
  induction l as [|x l (IH0 & IH1 & IH2)]; [done|]; cbn [escape Nat.eqb andb].
  destruct (x =? 0) eqn:E.
  - apply Z.eqb_eq in E; subst x; split_and!; try done.
    change (0 <=? 3) with true; cbn [andb]; cbn iota.
    change (unescape (0 :: 0 :: 3 :: 0 :: escape 1 l)) with (0 :: 0 :: unescape (0 :: escape 1 l)).
    rewrite IH1; done.
  - apply Z.eqb_neq in E; split_and!.
    + rewrite unescape_other, IH0; done.
    + rewrite unescape_zero_other, unescape_other, IH0; done.
    + destruct (x <=? 3) eqn:E3; cbn [andb]; cbn iota.
      * change (unescape (0 :: 0 :: 3 :: x :: escape 0 l)) with (0 :: 0 :: unescape (x :: escape 0 l)).
        rewrite unescape_other, IH0; done.
      * rewrite unescape_zeros_other, unescape_other, IH0 by lia; done.
Qed.

Lemma unescape_escape l : unescape (escape 0 l) = l.
Proof. apply unescape_escape_gen. Qed.

(** Whatever follows, an escaped payload comes back first. *)
Lemma unescape_prefix_gen l t :
  (exists t', unescape (escape 0 l ++ t) = l ++ t') /\ (exists t', unescape (0 :: escape 1 l ++ t) = 0 :: l ++ t') /\
  (exists t', unescape (0 :: 0 :: escape 2 l ++ t) = 0 :: 0 :: l ++ t').
Proof.
  induction l as [|x l ((t0 & IH0) & (t1 & IH1) & (t2 & IH2))]; cbn [escape Nat.eqb andb app].
  - split_and!; [by eexists| |].
    + destruct t as [|y [|w t]]; [by exists []|by exists [y]|]; cbn [unescape]; change (0 =? 0) with true; cbn [andb].
      destruct ((y =? 0) && (w =? 3)) eqn:E; [|by eexists].
      apply andb_prop in E as [->%Z.eqb_eq _]; by eexists.
    + destruct t as [|w t]; [by exists []|]; destruct (decide (w = 3)) as [->|]; [by eexists|].
      destruct (decide (w = 0)) as [->|]; [|rewrite unescape_zeros_other by done; by eexists].
      cbn [unescape]; change (0 =? 0) with true; cbn [andb Z.eqb]; destruct t as [|v t]; [by eexists|].
      change (0 =? 3) with false; cbn [andb]; destruct (v =? 3); by eexists.
  - destruct (x =? 0) eqn:E.
    + apply Z.eqb_eq in E; subst x; split_and!; [by eexists|by eexists|].
      change (0 <=? 3) with true; cbn [andb]; cbn iota; cbn [app].
      change (unescape (0 :: 0 :: 3 :: 0 :: escape 1 l ++ t)) with (0 :: 0 :: unescape (0 :: escape 1 l ++ t)).
      rewrite IH1; by eexists.
    + apply Z.eqb_neq in E; split_and!.
      * rewrite unescape_other, IH0 by done; by eexists.
      * rewrite unescape_zero_other, unescape_other, IH0 by done; by eexists.
      * destruct (x <=? 3) eqn:E3; cbn [andb]; cbn iota; cbn [app].
        -- change (unescape (0 :: 0 :: 3 :: x :: escape 0 l ++ t)) with (0 :: 0 :: unescape (x :: escape 0 l ++ t)).
           rewrite unescape_other, IH0 by done; by eexists.
        -- rewrite unescape_zeros_other, unescape_other, IH0 by lia; by eexists.
Qed.
Lemma unescape_prefix l t : exists t', unescape (escape 0 l ++ t) = l ++ t'.
Proof. apply unescape_prefix_gen. Qed.

Lemma unescape_length l : (length (unescape l) <= length l)%nat.
Proof.
  assert (forall n l, (length l <= n)%nat -> (length (unescape l) <= length l)%nat) as H; [|by eapply H].
  clear l; intros n; induction n as [|n IH]; intros [|x t] Hl; simpl in *; try lia.
  pose proof (IH t ltac:(lia)).
  destruct t as [|y [|w t]]; simpl in *; try lia.
  pose proof (IH t ltac:(lia)).
  destruct ((x =? 0) && (y =? 0) && (w =? 3)); simpl in *; lia.
Qed.

(** ** Lemmas: the start code search *)

Lemma byte_at_some m p b : byte_at m p = Done b <-> znth m p = Some b.
Proof. unfold byte_at; destruct (znth m p); naive_solver. Qed.

Lemma znth_some {A} (m : list A) p : 0 <= p < zlen m -> exists b, znth m p = Some b.
Proof.
  intros H; unfold znth, zlen in *; replace (p <? 0) with false by lia.
  apply lookup_lt_is_Some_2; lia.
Qed.

Lemma znth_byte m p b : Forall (fun b => 0 <= b < 256) m -> znth m p = Some b -> 0 <= b < 256.
Proof.
  unfold znth; destruct (p <? 0); [done|]; intros Hm E; exact (Forall_lookup_1 _ _ _ _ Hm E).
Qed.

(** No code before the position is missed: none starts in [lo, p - 3). *)
Definition no_code (m : bytes) (lo hi : Z) : Prop :=
  forall k, lo <= k < hi -> ~ code_at m k.

Lemma no_code_extend m lo hi hi' :
  no_code m lo hi -> (forall k, hi <= k < hi' -> ~ code_at m k) -> no_code m lo hi'.
Proof. intros H1 H2 k Hk; destruct (Z.lt_ge_cases k hi); [apply H1|apply H2]; lia. Qed.

Lemma skip_loop_spec fuel m lo p end_ :
  Forall (fun b => 0 <= b < 256) m -> 3 <= p -> lo <= p - 3 -> end_ <= zlen m ->
  end_ - p < Z.of_nat fuel -> no_code m lo (p - 3) ->
  exists q, skip_loop fuel m p end_ = Done q /\
    ((end_ <= q /\ no_code m lo (end_ - 3)) \/
     (q <= end_ /\ code_at m (q - 4) /\ lo <= q - 4 /\ no_code m lo (q - 4))).
Proof.
  intros Hm; revert p; induction fuel as [|fuel IH]; intros p Hp Hlo Hend Hf Hno; simpl.
  { destruct (end_ <=? p) eqn:E; [|lia]. exists p; split; [done|left; split; [lia|]].
    intros k Hk; apply Hno; lia. }
  destruct (end_ <=? p) eqn:E.
  { exists p; split; [done|left; split; [lia|]]; intros k Hk; apply Hno; lia. }
  destruct (znth_some m (p - 1)) as [b1 E1]; [lia|].
  destruct (znth_some m (p - 2)) as [b2 E2]; [lia|].
  destruct (znth_some m (p - 3)) as [b3 E3]; [lia|].
  pose proof (znth_byte _ _ _ Hm E1) as Hb1; pose proof (znth_byte _ _ _ Hm E3) as Hb3.
  rewrite (proj2 (byte_at_some m _ _) E1); cbn [obind].
  (* the window at p - 3, p - 2 or p - 1 cannot be a code *)
  assert (Hwin : forall n, (0 < n)%nat ->
    (forall k, p - 3 <= k < p - 3 + Z.of_nat n -> ~ code_at m k) ->
    exists q, skip_loop fuel m (p + Z.of_nat n) end_ = Done q /\
    ((end_ <= q /\ no_code m lo (end_ - 3)) \/
     (q <= end_ /\ code_at m (q - 4) /\ lo <= q - 4 /\ no_code m lo (q - 4)))).
  { intros n Hn Hk; apply IH; try lia.
    eapply no_code_extend; [exact Hno|]; intros k Hk'; apply Hk; lia. }
  destruct (1 <? b1) eqn:Eb1.
  { apply (Hwin 3%nat); [lia|]; intros k Hk (K1 & K2 & K3).
    assert (k = p - 3 \/ k = p - 2 \/ k = p - 1) as [->|[->| ->]] by lia;
      [replace (p - 3 + 2) with (p - 1) in K3 by lia
      |replace (p - 2 + 1) with (p - 1) in K2 by lia|]; simplify_eq; lia. }
  rewrite (proj2 (byte_at_some m _ _) E2); cbn [obind].
  destruct (b2 =? 0) eqn:Eb2; cbn [negb]; cbn iota.
  2:{ apply (Hwin 2%nat); [lia|]; intros k Hk (K1 & K2 & K3).
      assert (k = p - 3 \/ k = p - 2) as [->| ->] by lia;
        [replace (p - 3 + 1) with (p - 2) in K2 by lia|]; simplify_eq; lia. }
  rewrite (proj2 (byte_at_some m _ _) E3); cbn [obind].
  destruct (Z.lor b3 (b1 - 1) =? 0) eqn:Eor; cbn [negb]; cbn iota.
  - apply Z.eqb_eq, Z.lor_eq_0_iff in Eor as [-> Eb].
    exists (p + 1); split; [done|right]; replace (p + 1 - 4) with (p - 3) by lia.
    split_and!; try lia; [|done].
    unfold code_at; replace (p - 3 + 1) with (p - 2) by lia; replace (p - 3 + 2) with (p - 1) by lia.
    split_and!; [done|rewrite E2; f_equal; lia|rewrite E1; f_equal; lia].
  - apply (Hwin 1%nat); [lia|]; intros k Hk (K1 & K2 & K3).
    assert (k = p - 3) as -> by lia.
    replace (p - 3 + 2) with (p - 1) in K3 by lia; simplify_eq.
Qed.

(** The state keeps its top byte set, so it never is 0x100 after a shift. *)
Lemma shifted_state d : 1 <= d <= 2 ^ 16 -> u32 (Z.shiftl (2 ^ 32 - d) 8) = 2 ^ 32 - 256 * d.
Proof.
  intros H; rewrite Z.shiftl_mul_pow2 by lia; unfold u32; symmetry.
  apply (Z.mod_unique_pos _ _ 255); lia.
Qed.

Lemma prefix_loop_spec n m p end_ d B :
  Forall (fun b => 0 <= b < 256) m -> 0 <= p < end_ -> end_ <= zlen m ->
  1 <= d <= B -> B * 256 ^ Z.of_nat n <= 2 ^ 24 ->
  exists q st stop, prefix_loop n m p end_ (2 ^ 32 - d) = Done (q, st, stop) /\
    ((stop = true /\ q = end_ /\ end_ <= p + Z.of_nat n) \/
     (stop = false /\ q = p + Z.of_nat n /\ q < end_)).
Proof.
  intros Hm; revert p d B; induction n as [|n IH]; intros p d B Hp Hend Hd HB.
  { exists p, (2 ^ 32 - d), false; split; [done|right; lia]. }
  rewrite Nat2Z.inj_succ, Z.pow_succ_r in HB by lia.
  assert (1 <= 256 ^ Z.of_nat n) by (apply (Z.pow_le_mono_r 256 0); lia).
  assert (B <= 2 ^ 16) by nia.
  cbn [prefix_loop]; rewrite shifted_state by lia.
  destruct (znth_some m p) as [b Eb]; [lia|]; pose proof (znth_byte _ _ _ Hm Eb) as Hb.
  rewrite (proj2 (byte_at_some m _ _) Eb); cbn [obind].
  replace (2 ^ 32 - 256 * d =? 0x100) with false by lia; cbn [orb].
  destruct (p + 1 =? end_) eqn:E; [do 3 eexists; split; [done|left; lia]|].
  rewrite u32_small by lia; replace (2 ^ 32 - 256 * d + b) with (2 ^ 32 - (256 * d - b)) by lia.
  destruct (IH (p + 1) (256 * d - b) (256 * B)) as (q & st & stop & -> & H'); try lia.
  exists q, st, stop; split; [done|]; destruct H' as [H'|H']; [left|right]; lia.
Qed.

Lemma skip_loop_past fuel m p end_ : end_ <= p -> skip_loop fuel m p end_ = Done p.
Proof. intros H; destruct fuel; simpl; replace (end_ <=? p) with true by lia; done. Qed.

(** ** The search as the callers use it *)

Lemma find_start_code_spec m p end_ :
  Forall (fun b => 0 <= b < 256) m -> 0 <= p -> end_ <= zlen m -> p < end_ ->
  exists q, avpriv_find_start_code m p end_ (2 ^ 32 - 1) = Done q /\ p < q /\
    ((q = end_ /\ no_code m p (end_ - 3)) \/
     (q <= end_ /\ code_at m (q - 4) /\ p <= q - 4 /\ no_code m p (q - 4))).
Proof.
  intros Hm Hp Hend Hlt; unfold avpriv_find_start_code.
  replace (end_ <=? p) with false by lia.
  destruct (prefix_loop_spec 3 m p end_ 1 1 Hm ltac:(lia) Hend ltac:(lia) ltac:(simpl; lia))
    as (q & st & stop & -> & [(-> & -> & Hn)|(-> & -> & Hn)]); cbn [obind].
  - exists end_; split_and!; try done; left; split; [done|]; intros k Hk; lia.
  - destruct (skip_loop_spec (length m) m p (p + Z.of_nat 3) end_) as (q & -> & H); try done; try lia.
    { unfold zlen in *; lia. }
    { intros k Hk; lia. }
    cbn [obind]; eexists; split; [done|]; rewrite Z.sub_add.
    destruct H as [[H1 H2]|(H1 & H2 & H3 & H4)].
    + rewrite Z.min_r by lia; split; [lia|left; done].
    + rewrite Z.min_l by lia; split; [lia|right; done].
Qed.

(** ** Lemmas: the parameter set *)

Section RoundTrip.
Context (buf : bytes) (ulLen : Z).
Hypothesis Hsmall : 8 * zlen buf < 2 ^ 31.
Hypothesis Hlen : 8 * zlen buf <= u32 (ulLen * 8).

Abbreviation parses := (parses buf).

Lemma parses_flag b : parses (u_265 1 buf) [b] (Z.b2z b).
Proof.
  replace [b] with (msb 1 (Z.b2z b)) by (destruct b; done).
  apply (parses_u _ Hsmall 1); [lia|destruct b; simpl; lia].
Qed.

Lemma parses_skip_bits n bs : 0 < n -> zlen bs = n -> parses (skip n) bs tt.
Proof.
  intros Hn Hl pos Hat; unfold skip; rewrite Hl.
  assert (bs <> []) as Hne by (intros ->; unfold zlen in Hl; simpl in Hl; lia).
  pose proof (at_bits_bound _ _ _ Hne Hat); destruct Hat as [Hp _].
  rewrite u32_small by lia; done.
Qed.

Lemma parses_skip_or (b : bool) n bs :
  0 < n -> zlen bs = n -> parses (if b then skip n else ret tt) (if b then bs else []) tt.
Proof. destruct b; [apply parses_skip_bits|intros; apply parses_ret]. Qed.

Lemma parses_repeat_skip n k bs :
  0 < k -> zlen bs = Z.of_nat n * k -> parses (repeat_skip n k) bs tt.
Proof.
  intros Hk; revert bs; induction n as [|n IH]; intros bs Hl; simpl repeat_skip.
  - destruct bs; [apply parses_ret|unfold zlen in Hl; simpl in Hl; lia].
  - rewrite <- (take_drop (Z.to_nat k) bs).
    assert (Z.to_nat k <= length bs)%nat by (unfold zlen in Hl; nia).
    eapply parses_bind; [apply parses_skip_bits; [done|]|apply IH];
      unfold zlen in *; rewrite ?length_take, ?length_drop; nia.
Qed.

Lemma parses_sub_flags layers :
  parses (sub_layer_flags buf (length layers)) (flat_map layer_flags layers)
    (map (fun l => (l.1.1.1, l.1.1.2)) layers).
Proof.
  induction layers as [|[[[p v] pb] vb] layers IH]; cbn [sub_layer_flags length flat_map map];
    [apply parses_ret|].
  change (layer_flags (p, v, pb, vb) ++ flat_map layer_flags layers)
    with ([p] ++ [v] ++ flat_map layer_flags layers).
  eapply parses_bind; [apply parses_flag|].
  eapply parses_bind; [apply parses_flag|].
  rewrite <- (app_nil_r (flat_map _ _)).
  eapply parses_bind; [exact IH|].
  destruct p, v; apply parses_ret.
Qed.

Lemma parses_sub_skips layers :
  Forall layer_ok layers ->
  parses (sub_layer_skips (map (fun l => (l.1.1.1, l.1.1.2)) layers))
    (flat_map layer_bits layers) tt.
Proof.
  induction 1 as [|[[[p v] pb] vb] layers [H1 H2] _ IH];
    cbn [sub_layer_skips flat_map map layer_bits fst snd]; [apply parses_ret|].
  rewrite <- app_assoc.
  eapply parses_bind; [apply parses_skip_or; [lia|unfold zlen; lia]|].
  eapply parses_bind; [apply parses_skip_or; [lia|unfold zlen; lia]|exact IH].
Qed.

Lemma parses_profile s :
  sps265_ok s ->
  parses (profile_tier_level buf (zlen (v_sub_layers s) + 1))
    (profile_bits s) tt.
Proof.
  intros [Hv Hls Hn Hg Hp _ _ _]; unfold profile_tier_level, profile_bits.
  rewrite Z.add_simpl_r; unfold zlen at 1 2; rewrite Nat2Z.id.
  eapply parses_bind; [apply parses_skip_bits; [lia|unfold zlen; lia]|].
  eapply parses_bind; [apply parses_sub_flags|].
  eapply parses_bind; [|apply (parses_sub_skips _ Hls)].
  unfold pad_length, zlen in *.
  destruct (length (v_sub_layers s)) as [|n]; simpl in Hp.
  - destruct (v_pad s); [apply parses_ret|done].
  - replace (0 <? Z.of_nat (S n)) with true by lia.
    apply parses_repeat_skip; [lia|]; unfold zlen; lia.
Qed.

(** The fields up to the chroma format decide. *)
Definition size_of265 (s : sps265) : option (Z * Z) :=
  if v_chroma s =? 1 then Some (v_width s, v_height s) else None.
Lemma parses_sps265 s :
  sps265_ok s -> exists bs cs, sps265_bits s = bs ++ cs /\ parses (sps_fields buf ulLen) bs (size_of265 s).
Proof.
  intros Hs; pose proof (parses_profile s Hs) as Hprof; destruct Hs as [Hv Hls Hn Hg Hp Hi Hc Hw Hh].
  set (head := msb 4 (v_vps s) ++ msb 3 (zlen (v_sub_layers s)) ++ [v_nesting s] ++ profile_bits s ++ ue_bits (v_id s) ++ ue_bits (v_chroma s)).
  set (tail := ue_bits (v_width s) ++ ue_bits (v_height s)).
  assert (forall bs, parses (if negb (v_chroma s =? 1) then ret None
             else nWidth <~ Ue_265 buf ulLen; nHeight <~ Ue_265 buf ulLen; ret (Some (i32 nWidth, i32 nHeight))) bs (size_of265 s) ->
    parses (sps_fields buf ulLen) (head ++ bs) (size_of265 s)) as Hk.
  { intros bs Hb; unfold sps_fields, head; rewrite <- !app_assoc.
    eapply parses_bind; [apply (parses_u _ Hsmall 4); [lia|simpl; lia]|].
    replace (16 <=? v_vps s) with false by lia.
    eapply parses_bind; [apply (parses_u _ Hsmall 3); [lia|unfold zlen; simpl; lia]|].
    cbv zeta; replace (7 <? zlen (v_sub_layers s) + 1) with false by (unfold zlen; lia).
    eapply parses_bind; [apply parses_flag|].
    eapply parses_bind; [exact Hprof|].
    eapply parses_bind; [apply parses_ue; [done|done|lia]|].
    replace (32 <=? v_id s) with false by lia.
    eapply parses_bind; [apply parses_ue; [done|done|lia]|exact Hb]. }
  unfold size_of265 in *; destruct (v_chroma s =? 1) eqn:E; cbn [negb] in Hk.
  - exists (head ++ tail), []; split; [unfold sps265_bits, head, tail; replace (v_chroma s =? 3) with false by lia; by rewrite app_nil_r, <- !app_assoc|].
    apply Hk; unfold tail; eapply parses_bind; [apply parses_ue; [done|done|lia]|].
    rewrite <- (app_nil_r (ue_bits (v_height s))).
    eapply parses_bind; [apply parses_ue; [done|done|lia]|].
    rewrite !i32_small by lia; apply parses_ret.
  - exists (head ++ []), ((if v_chroma s =? 3 then [v_planes s] else []) ++ tail).
    split; [unfold sps265_bits, head, tail; by rewrite app_nil_r, <- !app_assoc|apply Hk, parses_ret].
Qed.
End RoundTrip.

(** ** Properties *)

(** The skipping start code search agrees with the naive one: from the
    initial state it returns the offset just behind the first 00 00 01 xx that
    lies before the end, and the end exactly when there is none. *)
Theorem start_code_search m p end_ :
  Forall (fun b => 0 <= b < 256) m -> 0 <= p -> end_ <= zlen m -> p < end_ ->
  exists q, avpriv_find_start_code m p end_ (2 ^ 32 - 1) = Done q /\ p < q /\
    ((q = end_ /\ no_code m p (end_ - 3)) \/
     (q <= end_ /\ code_at m (q - 4) /\ p <= q - 4 /\ no_code m p (q - 4))).
Proof. apply find_start_code_spec. Qed.

(** Removing the emulation prevention bytes undoes their insertion for every
    payload, and never lengthens its input: what is copied from at most 256
    bytes fits [dBuffer]. *)
Theorem unescape_inverts l : unescape (escape 0 l) = l /\ zlen (unescape l) <= zlen l.
Proof.
  split; [apply unescape_escape|]; pose proof (unescape_length l); unfold zlen; lia.
Qed.

(** The type of the unit whose header is at [k]. *)
Definition unit_type (m : bytes) (k : Z) : option Z :=
  (fun b => Z.land (Z.shiftr b 1) 0x3f) <$> znth m k.

(** Units of other types are passed over. *)
Lemma find_sps_first m fuel p k b :
  Forall (fun b => 0 <= b < 256) m -> 0 <= p <= k -> k + 6 < zlen m -> k - p < Z.of_nat fuel -> code_at m k ->
  znth m (k + 3) = Some b -> Z.land (Z.shiftr b 1) 0x3f = 33 ->
  (forall i, i < k -> code_at m i -> unit_type m (i + 3) <> Some 33) ->
  find_sps fuel m p (zlen m - 1) = Done (Some (k + 3)).
Proof.
  intros Hm; revert p; induction fuel as [|fuel IH]; intros p Hp Hk Hf Hc Hb Ht Hno; [lia|]; cbn [find_sps].
  destruct (find_start_code_spec m p (zlen m - 1) Hm ltac:(lia) ltac:(lia) ltac:(lia)) as (q & -> & Hq & H); cbn [obind].
  assert (q <= zlen m - 1 /\ code_at m (q - 4) /\ p <= q - 4 <= k) as (Hqe & Hqc & Hqp).
  { destruct H as [[-> Hn]|(H1 & H2 & H3 & H4)]; [exfalso; apply (Hn k); [lia|done]|split_and!; try done].
    destruct (Z.lt_ge_cases k (q - 4)); [exfalso; apply (H4 k); [lia|done]|lia]. }
  replace (zlen m - 1 <=? q - 1 + 2) with false by lia.
  destruct (znth_some m (q - 1)) as [c Ec]; [lia|]; destruct (znth_some m (q - 1 + 1)) as [c' Ec']; [lia|].
  rewrite (proj2 (byte_at_some m _ _) Ec), (proj2 (byte_at_some m _ _) Ec'); cbn [obind].
  destruct (decide (q - 4 = k)) as [E|E].
  - replace (q - 1) with (k + 3) in * by lia; rewrite Hb in Ec; injection Ec as <-; by rewrite Ht.
  - assert (Z.land (Z.shiftr c 1) 0x3f <> 33) as Hne.
    { intros Hc33; apply (Hno (q - 4)); [lia|done|]; unfold unit_type; replace (q - 4 + 3) with (q - 1) by lia.
      rewrite Ec; cbn; by rewrite Hc33. }
    replace (Z.land (Z.shiftr c 1) 0x3f =? 33) with false by lia.
    apply IH; try done; [|lia]; split; [lia|].
    destruct Hc as (K1 & K2 & K3), Hqc as (Q1 & Q2 & Q3).
    destruct (decide (q - 4 = k - 1)) as [E1|]; [rewrite E1 in Q3; replace (k - 1 + 2) with (k + 1) in Q3 by lia; congruence|].
    destruct (decide (q - 4 = k - 2)) as [E2|]; [rewrite E2 in Q3; replace (k - 2 + 2) with k in Q3 by lia; congruence|lia].
Qed.

(** C14: end to end: in a stream whose first parameter set unit holds a printed set (any
    sub-layer structure, chroma format and identifiers) that an encoder escaped, whatever
    units come before it and whatever follows, a set of the 4:2:0 format gives success and
    the picture size it was printed with, any other -1 with nothing stored.  The escaped
    bytes up to the size have to lie within the first 254 behind the unit's header, which
    are all the code copies, and at least one byte has to follow, since it leaves out the
    last one of the stream. *)
Theorem h265_roundtrip pre rbsp h1 h2 rest s :
  let stream := pre ++ [0; 0; 1; h1; h2] ++ escape 0 rbsp ++ rest in
  Forall (fun b => 0 <= b < 256) stream -> zlen (escape 0 rbsp) <= 254 -> rest <> [] ->
  Z.land (Z.shiftr h1 1) 0x3f = 33 ->
  (forall i, i < zlen pre -> code_at stream i -> unit_type stream (i + 3) <> Some 33) ->
  sps265_ok s -> at_bits rbsp 0 (sps265_bits s) ->
  H265GetWidthHeight stream (zlen stream) =
    Done (if v_chroma s =? 1 then (0, Some (v_width s, v_height s)) else (-1, None)).
Proof.
  intros stream Hm Hl Hr Hh Hfirst Hs Hat; unfold H265GetWidthHeight.
  destruct rest as [|last rest] using rev_ind; [done|clear IHrest Hr].
  set (tl := [0; 0; 1; h1; h2] ++ escape 0 rbsp ++ rest ++ [last]) in stream.
  assert (zlen stream = zlen pre + 6 + zlen (escape 0 rbsp) + zlen rest) as Hsl
    by (unfold stream, tl, zlen; rewrite !length_app; simpl; lia).
  pose proof (unescape_length (escape 0 rbsp)) as Hul; rewrite unescape_escape in Hul.
  assert (sps265_bits s <> []) as Hne by (unfold sps265_bits; done).
  pose proof (at_bits_bound _ _ _ Hne Hat) as Hbd.
  assert (96 <= zlen (sps265_bits s)) as H96.
  { unfold sps265_bits, profile_bits, zlen; rewrite !length_app, (ok_general s Hs); lia. }
  assert (forall l : bytes, 0 <= zlen l) as Hz0 by (intros; unfold zlen; lia).
  pose proof (Hz0 pre); pose proof (Hz0 rest).
  assert (forall i b, znth ([0; 0; 1; h1; h2]) i = Some b -> znth stream (zlen pre + i) = Some b) as Hz.
  { intros i b; unfold znth; destruct (i <? 0) eqn:Ei; [done|]; intros Hi.
    replace (zlen pre + i <? 0) with false by lia; unfold stream, tl; rewrite lookup_app_r by (unfold zlen; lia).
    replace (Z.to_nat (zlen pre + i) - length pre)%nat with (Z.to_nat i) by (unfold zlen; lia); by apply lookup_app_l_Some. }
  assert (forall i, drop (Z.to_nat (zlen pre + Z.of_nat i)) stream = drop i tl) as Hd.
  { intros i; unfold stream; rewrite drop_app_ge by (unfold zlen; lia); f_equal; unfold zlen; lia. }
  rewrite (find_sps_first stream (S (length stream)) 0 (zlen pre) h1 Hm);
    [|lia|unfold zlen in *; lia|unfold zlen in *; lia| |by apply (Hz 3)|done|done].
  2: { split_and!; [rewrite <- (Z.add_0_r (zlen pre)); by apply (Hz 0)|by apply (Hz 1)|by apply (Hz 2)]. }
  cbn [obind]; set (n := if 256 <? _ then 256 else _).
  assert (zlen (h1 :: h2 :: escape 0 rbsp) <= n <= zlen stream - 1 - (zlen pre + 3) /\ n <= 256) as [Hn H256]
    by (unfold n; case_bool; unfold zlen in *; cbn [length]; lia).
  assert (exists t, load stream (zlen pre + 3) n = Done (h1 :: h2 :: escape 0 rbsp ++ t)) as [t Et].
  { unfold load; replace (inb stream (zlen pre + 3) n) with true by (symmetry; apply inb_spec; unfold zlen in *; lia).
    change 3 with (Z.of_nat 3); rewrite Hd.
    change (drop 3 tl) with ((h1 :: h2 :: escape 0 rbsp) ++ rest ++ [last]).
    rewrite take_app_ge by (unfold zlen in *; lia); by eexists. }
  destruct (load_done_len _ _ _ _ Et) as (Ln & _).
  rewrite Et; cbn [obind]; change (drop 2 (h1 :: h2 :: escape 0 rbsp ++ t)) with (escape 0 rbsp ++ t).
  destruct (unescape_prefix rbsp t) as [t' E].
  assert (zlen (rbsp ++ t') <= 256) as Hsz
    by (rewrite <- E; pose proof (unescape_length (escape 0 rbsp ++ t)); unfold zlen in *; cbn [length] in Ln; lia).
  rewrite E; unfold sps_d.
  destruct (parses_sps265 (rbsp ++ t') (zlen (rbsp ++ t')) ltac:(lia) ltac:(pose proof (Hz0 (rbsp ++ t')); rewrite u32_small; lia) s Hs)
    as (bs & cs & Eb & Hp); rewrite Eb in Hat; apply at_bits_app in Hat as [Hat _].
  rewrite (Hp 0); [by unfold size_of265; destruct (v_chroma s =? 1)|].
  destruct Hat as (Hpos & r & Hr); split; [done|].
  exists (r ++ bits_of t'); unfold bits_of in *; change (Z.to_nat 0) with O in *; rewrite drop_0 in *; rewrite flat_map_app; by rewrite Hr, <- app_assoc.
Qed.

(** ** Totality *)

Lemma total_skip n : total (skip n).
Proof. intros pos _; apply u32_range. Qed.
Lemma total_sub_flags buf n : total (sub_layer_flags buf n).
Proof.
  induction n as [|n IH]; simpl; [apply total_ret|].
  do 2 (apply total_bind; [apply total_u|intros ?]).
  apply total_bind; [exact IH|intros; apply total_ret].
Qed.
Lemma total_sub_skips fl : total (sub_layer_skips fl).
Proof.
  induction fl as [|[p l] fl IH]; simpl; [apply total_ret|].
  do 2 (apply total_bind; [apply total_if; [apply total_skip|apply total_ret]|intros ?]); exact IH.
Qed.
Lemma total_repeat_skip n k : total (repeat_skip n k).
Proof.
  induction n; simpl; [apply total_ret|apply total_bind; [apply total_skip|done]].
Qed.
Lemma total_sps265 buf ulLen : 8 * zlen buf < 2 ^ 31 -> total (sps_fields buf ulLen).
Proof.
  intros H; unfold sps_fields, profile_tier_level, u_265, Ue_265.
  repeat first
    [ apply total_ret | apply total_u | apply total_Ue, H | apply total_skip
    | apply total_sub_flags | apply total_sub_skips | apply total_repeat_skip
    | apply total_if | apply total_bind; [|intros ?] ].
Qed.

Lemma sps_d_total buf ulLen : 8 * zlen buf < 2 ^ 31 -> sps_d buf ulLen <> OutOfFuel.
Proof.
  intros H; pose proof (total_sps265 buf ulLen H 0 ltac:(lia)) as Ht.
  unfold sps_d; destruct (sps_fields buf ulLen 0) as [[r p]| |]; done.
Qed.

Lemma find_sps_total fuel m p end_ :
  Forall (fun b => 0 <= b < 256) m -> 0 <= p -> end_ <= zlen m -> end_ - p < Z.of_nat fuel ->
  (0 < fuel)%nat ->
  exists r, find_sps fuel m p end_ = Done r /\ forall k, r = Some k -> 0 <= k /\ k + 2 < end_.
Proof.
  intros Hm; revert p; induction fuel as [|fuel IH]; intros p Hp Hend Hf Hpos; [lia|].
  cbn [find_sps]; destruct (Z.lt_ge_cases p end_) as [Hlt|Hge].
  - destruct (find_start_code_spec m p end_ Hm Hp Hend Hlt) as (q & -> & Hq & H); cbn [obind].
    destruct (end_ <=? q - 1 + 2) eqn:E; [eexists; split; [done|done]|].
    destruct (znth_some m (q - 1)) as [b Eb]; [lia|].
    destruct (znth_some m (q - 1 + 1)) as [b' Eb']; [lia|].
    rewrite (proj2 (byte_at_some m _ _) Eb), (proj2 (byte_at_some m _ _) Eb'); cbn [obind].
    destruct (_ =? 33); [eexists; split; [done|]; intros k [= <-]; lia|].
    destruct H as [[-> _]|(Hq2 & _ & Hq3 & _)]; [lia|]; apply IH; lia.
  - unfold avpriv_find_start_code; replace (end_ <=? p) with true by lia; cbn [obind].
    replace (end_ <=? end_ - 1 + 2) with true by lia; eexists; split; [done|done].
Qed.

(** [H265GetWidthHeight] ends on every stream of bytes: the outer loop
    advances past each start code, and the parser never runs out of fuel. *)
Theorem H265GetWidthHeight_terminates stream len :
  Forall (fun b => 0 <= b < 256) stream -> len <= zlen stream ->
  H265GetWidthHeight stream len <> OutOfFuel.
Proof.
  intros Hm Hl; unfold H265GetWidthHeight.
  destruct (find_sps_total (S (length stream)) stream 0 (len - 1) Hm)
    as ([k|] & -> & Hk); [lia|lia|unfold zlen in *; lia|lia| |done]; cbn [obind].
  specialize (Hk k eq_refl).
  set (n := if 256 <? len - 1 - k then 256 else len - 1 - k).
  assert (n <= 256) as Hn by (unfold n; case_bool; lia).
  destruct (load stream k n) as [src| |] eqn:E; cbn [obind]; try done.
  - destruct (load_done_len _ _ _ _ E) as (Hs & _).
    pose proof (unescape_length (drop 2 src)) as Hu; rewrite length_drop in Hu.
    pose proof (sps_d_total (unescape (drop 2 src)) (zlen (unescape (drop 2 src)))
      ltac:(unfold zlen in *; lia)).
    destruct (sps_d _ _) as [[]| |]; done.
  - unfold load in E; destruct (inb _ _ _); done.
Qed.

(** ** Concrete instances: 1920x1088 with one sub-layer *)

Definition demo265 : sps265 :=
  mkSps265 0 [(true, true, replicate 88 false, replicate 8 true)] true
    (replicate 96 false) (replicate 14 true) 0 1 false 1920 1088.

(** Pack bits into bytes, zero-padded. *)
Fixpoint pack (n : nat) (bs : list bool) : bytes :=
  match n with
  | O => []
  | S n => value 0 (take 8 (bs ++ replicate 8 false)) :: pack n (drop 8 bs)
  end.
Definition demo_rbsp : bytes := Eval vm_compute in pack 36 (sps265_bits demo265).

Lemma demo265_ok : sps265_ok demo265.
Proof. constructor; simpl; try lia; repeat constructor. Qed.
Lemma demo265_at : at_bits demo_rbsp 0 (sps265_bits demo265).
Proof.
  split; [lia|]; exists (drop (length (sps265_bits demo265)) (bits_of demo_rbsp)).
  vm_compute; reflexivity.
Qed.

Lemma all_bytes (l : bytes) :
  forallb (fun b => (0 <=? b) && (b <? 256)) l = true -> Forall (fun b => 0 <= b < 256) l.
Proof. intros H; apply List.Forall_forall; intros b Hb; rewrite forallb_forall in H; specialize (H b Hb); lia. Qed.

(** A video parameter set before it and a picture parameter set behind it. *)
Definition demo_before : bytes := [0; 0; 0; 1; 0x40; 1; 9; 0].
Definition demo_stream265 : bytes :=
  Eval vm_compute in demo_before ++ [0; 0; 1; 0x42; 1] ++ escape 0 demo_rbsp ++ [0; 0; 0; 1; 0x44; 1].
Lemma demo_first i : i < zlen demo_before -> code_at demo_stream265 i -> unit_type demo_stream265 (i + 3) <> Some 33.
Proof.
  intros Hi (C & _ & C3); destruct (Z.lt_ge_cases i 0) as [Hn|Hn]; [unfold znth in C; by replace (i <? 0) with true in C by lia|].
  change (zlen demo_before) with 8 in Hi.
  assert (i = 0 \/ i = 1 \/ i = 2 \/ i = 3 \/ i = 4 \/ i = 5 \/ i = 6 \/ i = 7) as [->|[->|[->|[->|[->|[->|[->| ->]]]]]]] by lia;
    vm_compute in C3; try discriminate C3; vm_compute; discriminate.
Qed.

Lemma h265_roundtrip_witness :
  H265GetWidthHeight demo_stream265 (zlen demo_stream265) = Done (0, Some (1920, 1088)).
Proof.
  apply (h265_roundtrip demo_before demo_rbsp 0x42 1 [0; 0; 0; 1; 0x44; 1] demo265);
    [apply all_bytes; vm_compute; done|vm_compute; discriminate|done|done|apply demo_first|apply demo265_ok|apply demo265_at].
Defined.

Lemma start_code_search_witness :
  exists q, avpriv_find_start_code [9; 0; 0; 1; 0x42; 1; 7; 7] 0 7 (2 ^ 32 - 1) = Done q /\ 0 < q.
Proof.
  destruct (start_code_search [9; 0; 0; 1; 0x42; 1; 7; 7] 0 7
    ltac:(apply all_bytes; done) ltac:(lia) ltac:(vm_compute; discriminate) ltac:(lia))
    as (q & H1 & H2 & _); exists q; exact (conj H1 H2).
Defined.

Lemma H265GetWidthHeight_terminates_witness : H265GetWidthHeight [0; 0; 1; 0x40; 1] 5 <> OutOfFuel.
Proof.
  apply H265GetWidthHeight_terminates; [apply all_bytes; done|vm_compute; discriminate].
Defined.

End H265.
