(* ===== verification/SmartLink.v ===== *)
(** smartLink/com_app_jagles_smartlink_SmartLink.c: Wi-Fi credentials sent as
    the lengths of broadcast datagrams.  The static variables are a record, the
    socket calls are arguments, and the lengths handed to [sendto] are recorded. *)
From S2P Require Import Prelude.

Module SmartLink.

(** The variables the functions share; [sent] is the record of datagram
    lengths in sending order. *)
Record state := mkState {
  sendto_ret : Z;
  shibai : Z;
  fabao : bool;
  sent : list Z
}.

(** The result and [errno] of the k-th [sendto]. *)
Definition network := nat -> Z * Z.

Section Net.
Context (net : network).

Definition smart_link_sendto (sendbuf_length : Z) (s : state) : state :=
  let errno := snd (net (length (sent s) - 1)%nat) in
  let '(s, errno) :=
    if fabao s
    then (mkState (fst (net (length (sent s)))) 0 (fabao s) (sent s ++ [sendbuf_length]),
          snd (net (length (sent s))))
    else (s, errno) in
  if sendto_ret s <? 0 then mkState (sendto_ret s) errno false (sent s) else s.

Fixpoint send_all (lens : list Z) (s : state) : state :=
  match lens with [] => s | n :: lens => send_all lens (smart_link_sendto n s) end.

Definition baotou (packet_num : Z) : list Z :=
  [276; 341; 276; 341; 276; 341; 342 + packet_num; 1302 + packet_num;
   342 + packet_num; 1302 + packet_num].
Definition smart_link_send_baotou (packet_num : Z) (s : state) : state :=
  send_all (baotou packet_num) s.

(** [strncpy(message_cun, message, 45)] into the zero-initialised array: [None]
    when no terminator fits, where [strlen] runs past the array. *)
Definition message_cun (message : list Z) : option (list Z) :=
  if (length message <? 45)%nat then Some message else None.

(** The two entries of [message_int] for a character. *)
Definition digits (il : Z) : Z * Z := (cdiv (il - 32) 10, cmod (il - 32) 10).

(** The four datagrams of character [i]. *)
Definition char_packets (i : Z) (il : Z) : list Z :=
  let '(hi, lo) := digits il in
  [402 + 20 * i + hi; 402 + 20 * i + hi; 402 + 20 * i + 10 + lo; 402 + 20 * i + 10 + lo].

Fixpoint send_chars (i : Z) (m : list Z) (s : state) : state :=
  match m with [] => s | il :: m => send_chars (i + 1) m (send_all (char_packets i il) s) end.

Definition nk_smart_link_send (message : list Z) (s : state) : outcome (state * Z) :=
  match message_cun message with
  | None => Fault
  | Some m =>
      let packet_num := zlen m - 1 in
      let s := smart_link_send_baotou packet_num s in
      let s := send_chars 0 m s in
      Done (s, shibai s)
  end.

(** [nk_smart_link_init] from the results of [get_brd_addr], [socket] and
    [setsockopt]. *)
Definition nk_smart_link_init (brd sock opt : Z) (s : state) : state * Z :=
  let s := mkState (sendto_ret s) (shibai s) true (sent s) in
  if negb (brd =? 0) then (s, 1)
  else if sock <? 0 then (s, 2)
  else if negb (opt =? 0) then (s, 3)
  else (s, 0).

(** The third component counts [close] calls by [nk_smart_link_quit]. *)
Definition JA_smartlink_sendpacket (brd sock opt : Z) (msg : list Z) (s : state)
  : outcome (state * Z * Z) :=
  let '(s, ret) := nk_smart_link_init brd sock opt s in
  if ret =? 0 then let* '(s, ret) := nk_smart_link_send msg s in Done (s, ret, 1)
  else Done (s, ret, if negb (ret =? 1) then 1 else 0).
End Net.

(** ** Specification: what a receiver does with observed lengths *)

(** All lengths of a message, in order. *)
Fixpoint body (i : Z) (m : list Z) : list Z :=
  match m with [] => [] | il :: m => char_packets i il ++ body (i + 1) m end.
Definition transmission (m : list Z) : list Z := baotou (zlen m - 1) ++ body 0 m.

(** Decimal digit [k] as some datagram of the capture shows it. *)
Fixpoint capture_digit (k : Z) (lens : list Z) : option Z :=
  match lens with
  | [] => None
  | n :: lens => if (n - 402) / 10 =? k then Some ((n - 402) mod 10) else capture_digit k lens
  end.
Definition capture_char (lens : list Z) (i : Z) : option Z :=
  match capture_digit (2 * i) lens, capture_digit (2 * i + 1) lens with
  | Some hi, Some lo => Some (32 + 10 * hi + lo)
  | _, _ => None
  end.

Definition printable (c : Z) : Prop := 32 <= c <= 131.

(** ** Lemmas *)

Definition all_sent (net : network) : Prop := forall k, 0 <= fst (net k).

Lemma send_all_ok net lens s :
  all_sent net -> fabao s = true ->
  let s' := send_all net lens s in
  sent s' = sent s ++ lens /\ fabao s' = true /\ (lens <> [] -> shibai s' = 0) /\
  (lens = [] -> shibai s' = shibai s).
Proof.
  intros Hn; revert s; induction lens as [|n lens IH]; intros s Hf; simpl.
  - rewrite app_nil_r; done.
  - assert (smart_link_sendto net n s =
            mkState (fst (net (length (sent s)))) 0 true (sent s ++ [n])) as ->.
    { unfold smart_link_sendto; rewrite Hf; cbn [sendto_ret fst snd].
      pose proof (Hn (length (sent s))).
      replace (fst (net (length (sent s))) <? 0) with false by lia; done. }
    destruct (IH (mkState (fst (net (length (sent s)))) 0 true (sent s ++ [n])) eq_refl)
      as (-> & H2 & H3 & H4).
    simpl; rewrite <- app_assoc; split_and!; try done.
    intros _; destruct lens; [by apply H4|by apply H3].
Qed.

Lemma send_all_app net a b s : send_all net (a ++ b) s = send_all net b (send_all net a s).
Proof. revert s; induction a; intros; simpl; auto. Qed.

Lemma send_chars_body net i m s : send_chars net i m s = send_all net (body i m) s.
Proof.
  revert i s; induction m as [|c m IH]; intros i s; cbn [send_chars body]; [done|].
  rewrite IH, send_all_app; done.
Qed.

Lemma digits_range c : printable c -> let '(hi, lo) := digits c in
  0 <= hi <= 9 /\ 0 <= lo <= 9 /\ c = 32 + 10 * hi + lo.
Proof. unfold printable, digits, cdiv, cmod; intros; dlia. Qed.

(** Every datagram of the body shows one digit of one character. *)
Lemma body_digit i m n :
  Forall printable m -> In n (body i m) ->
  exists j c, znth m j = Some c /\ 0 <= j /\
    (((n - 402) / 10 = 2 * (i + j) /\ (n - 402) mod 10 = fst (digits c)) \/
     ((n - 402) / 10 = 2 * (i + j) + 1 /\ (n - 402) mod 10 = snd (digits c))).
Proof.
  intros Hm; revert i; induction Hm as [|c m Hc Hm IH]; intros i Hin; [done|].
  cbn [body] in Hin; apply in_app_iff in Hin as [Hin|Hin].
  - exists 0, c; split_and!; [done|lia|].
    pose proof (digits_range c Hc) as Hd; unfold char_packets in Hin.
    destruct (digits c) as [hi lo]; simpl in *.
    destruct Hin as [<-|[<-|[<-|[<-|[]]]]]; [left|left|right|right]; dlia.
  - destruct (IH (i + 1) Hin) as (j & c' & Hj & Hj0 & H); exists (j + 1), c'; split_and!.
    + unfold znth in *; replace (j + 1 <? 0) with false by lia.
      replace (j <? 0) with false in Hj by lia.
      replace (Z.to_nat (j + 1)) with (S (Z.to_nat j)) by lia; done.
    + lia.
    + destruct H as [[H1 H2]|[H1 H2]]; [left|right]; (split; [lia|done]).
Qed.

Lemma capture_digit_some k lens d :
  (exists n, In n lens /\ (n - 402) / 10 = k) ->
  (forall n, In n lens -> (n - 402) / 10 = k -> (n - 402) mod 10 = d) ->
  capture_digit k lens = Some d.
Proof.
  induction lens as [|n lens IH]; intros (n' & Hin & Hk) H; [done|]; simpl.
  destruct ((n - 402) / 10 =? k) eqn:E.
  - f_equal; apply H; [by left|lia].
  - destruct Hin as [->|Hin]; [lia|]; apply IH; [eauto|]; intros; apply H; [by right|done].
Qed.

Lemma body_in i m j c n :
  znth m j = Some c -> In n (char_packets (i + j) c) -> In n (body i m).
Proof.
  revert i j; induction m as [|d m IH]; intros i j Hj Hn; unfold znth in Hj;
    destruct (j <? 0) eqn:Ej; try done; cbn [body]; apply in_app_iff.
  destruct (Z.eq_dec j 0) as [->|Hne].
  - simpl in Hj; simplify_eq; rewrite Z.add_0_r in Hn; by left.
  - right; apply (IH (i + 1) (j - 1)); [|replace (i + 1 + (j - 1)) with (i + j) by lia; done].
    unfold znth; replace (j - 1 <? 0) with false by lia.
    replace (Z.to_nat j) with (S (Z.to_nat (j - 1))) in Hj by lia; done.
Qed.

(** Once a send has failed nothing more is sent and the error stays. *)
Lemma send_all_stopped net lens s e :
  fabao s = false -> sendto_ret s < 0 -> shibai s = e ->
  snd (net (length (sent s) - 1)%nat) = e ->
  sent (send_all net lens s) = sent s /\ shibai (send_all net lens s) = e /\
  fabao (send_all net lens s) = false.
Proof.
  revert s; induction lens as [|n lens IH]; intros s Hf Hr Hs He; simpl; [done|].
  assert (smart_link_sendto net n s = s) as ->; [|by apply IH].
  unfold smart_link_sendto; rewrite Hf; replace (sendto_ret s <? 0) with true by lia.
  destruct s; simpl in *; subst; done.
Qed.

Lemma send_all_fails net lens s k e :
  fabao s = true -> (length (sent s) <= k < length (sent s) + length lens)%nat ->
  (forall j, (length (sent s) <= j)%nat -> (j < k)%nat -> 0 <= fst (net j)) ->
  fst (net k) < 0 -> snd (net k) = e ->
  sent (send_all net lens s) = sent s ++ take (S k - length (sent s)) lens /\
  shibai (send_all net lens s) = e /\ fabao (send_all net lens s) = false.
Proof.
  revert s; induction lens as [|n lens IH]; intros s Hf Hk Hok Hbad He; simpl in Hk; [lia|].
  cbn [send_all]; set (l := length (sent s)) in *.
  destruct (decide (l = k)) as [El|Hne].
  - assert (smart_link_sendto net n s =
            mkState (fst (net k)) e false (sent s ++ [n])) as ->.
    { unfold smart_link_sendto; rewrite Hf; fold l; rewrite El; cbn [sendto_ret fst snd sent].
      replace (fst (net k) <? 0) with true by lia; rewrite He; done. }
    destruct (send_all_stopped net lens (mkState (fst (net k)) e false (sent s ++ [n])) e)
      as (-> & H2 & H3); try done.
    { simpl; rewrite length_app; fold l; simpl; replace (l + 1 - 1)%nat with k by lia; done. }
    replace (S k - l)%nat with 1%nat by lia; done.
  - assert (smart_link_sendto net n s =
            mkState (fst (net l)) 0 true (sent s ++ [n])) as ->.
    { unfold smart_link_sendto; rewrite Hf; fold l; cbn [sendto_ret fst snd sent].
      pose proof (Hok l ltac:(lia) ltac:(lia)).
      replace (fst (net l) <? 0) with false by lia; done. }
    assert (length (sent s ++ [n]) = S l) as El by (rewrite length_app; simpl; lia).
    destruct (IH (mkState (fst (net l)) 0 true (sent s ++ [n]))) as (H1 & H2 & H3);
      cbn [sent fabao]; rewrite ?El; try done; [lia|intros j Hj1 Hj2; apply Hok; lia|].
    cbn [sent] in H1; rewrite H1, El; split; [|done].
    rewrite <- app_assoc; f_equal.
    replace (S k - l)%nat with (S (S k - S l))%nat by lia; done.
Qed.

(** ** Properties *)

Lemma send_transmission_ok net m s :
  all_sent net -> fabao s = true -> (length m < 45)%nat ->
  exists s', nk_smart_link_send net m s = Done (s', 0) /\ sent s' = sent s ++ transmission m.
Proof.
  intros Hn Hf Hm; unfold nk_smart_link_send, message_cun.
  replace (length m <? 45)%nat with true by (symmetry; apply Nat.ltb_lt; done).
  rewrite send_chars_body; unfold smart_link_send_baotou.
  destruct (send_all_ok net (baotou (zlen m - 1)) s Hn Hf) as (E1 & F1 & Z1 & _).
  set (s1 := send_all net (baotou (zlen m - 1)) s) in *.
  destruct (send_all_ok net (body 0 m) s1 Hn F1) as (E2 & F2 & Z2 & Z2').
  exists (send_all net (body 0 m) s1); split.
  - do 2 f_equal; destruct (body 0 m) eqn:E; [rewrite Z2' by done; by apply Z1|by apply Z2].
  - rewrite E2, E1, <- app_assoc; done.
Qed.

(** With a working network, sending a message of at most 44 characters puts
    exactly its transmission on the wire (ten header datagrams, four per
    character) and returns 0. *)
Theorem send_transmission net m s :
  all_sent net -> fabao s = true -> (length m < 45)%nat ->
  exists s', nk_smart_link_send net m s = Done (s', 0) /\ sent s' = sent s ++ transmission m.
Proof. apply send_transmission_ok. Qed.

(** C40: a message whose characters all have codes from 32 to 131 can be read off the
    lengths alone: whatever part of the body is captured, in whatever order and with
    whatever repetitions, as long as one of each pair of equal datagrams arrives every
    character is recovered. *)
Theorem capture_recovers m lens i c :
  Forall printable m -> (forall n, In n lens <-> In n (body 0 m)) ->
  znth m i = Some c -> capture_char lens i = Some c.
Proof.
  intros Hm Hl Hc.
  assert (0 <= i) as Hi by (unfold znth in Hc; destruct (i <? 0) eqn:E; [done|lia]).
  assert (printable c) as Hpc.
  { unfold znth in Hc; destruct (i <? 0); [done|]; exact (Forall_lookup_1 _ _ _ _ Hm Hc). }
  pose proof (digits_range c Hpc) as Hd.
  assert (forall n, In n (char_packets i c) -> In n lens) as Hin.
  { intros n Hn; apply Hl; apply (body_in 0 m i c); rewrite ?Z.add_0_l; done. }
  unfold char_packets in Hin; destruct (digits c) as [hi lo] eqn:Ed.
  unfold capture_char.
  rewrite (capture_digit_some (2 * i) lens hi), (capture_digit_some (2 * i + 1) lens lo).
  - f_equal; lia.
  - exists (402 + 20 * i + 10 + lo); split; [apply Hin; simpl; auto|dlia].
  - intros n Hn Hk; apply Hl, (body_digit 0 m n Hm) in Hn as (j & c' & Hj & Hj0 & H).
    destruct H as [[H1 H2]|[H1 H2]]; [lia|]; replace j with i in Hj by lia.
    rewrite H2; simplify_eq; rewrite Ed; done.
  - exists (402 + 20 * i + hi); split; [apply Hin; simpl; auto|dlia].
  - intros n Hn Hk; apply Hl, (body_digit 0 m n Hm) in Hn as (j & c' & Hj & Hj0 & H).
    destruct H as [[H1 H2]|[H1 H2]]; [|lia]; replace j with i in Hj by lia.
    rewrite H2; simplify_eq; rewrite Ed; done.
Qed.

(** Every datagram of a transmission of 1 to 44 printable characters lies in
    the 2000-byte buffer, and no body length can be taken for a header length. *)
Theorem transmission_bounds m n :
  Forall printable m -> (1 <= length m < 45)%nat -> In n (transmission m) ->
  0 < n <= 1345 /\ (In n (body 0 m) -> ~ In n (baotou (zlen m - 1))).
Proof.
  intros Hm Hlen; unfold transmission.
  assert (In n (body 0 m) -> 402 <= n <= 1301) as Hb.
  { intros Hn; apply (body_digit 0 m n Hm) in Hn as (j & c & Hj & Hj0 & H).
    assert (j < 44) as Hj44.
    { unfold znth in Hj; replace (j <? 0) with false in Hj by lia.
      apply lookup_lt_Some in Hj; lia. }
    dlia. }
  rewrite in_app_iff; intros [Hn|Hn].
  - split; [|intros H%Hb]; unfold baotou, zlen in *; simpl in Hn |- *; lia.
  - apply Hb in Hn as Hr; split; [lia|]; intros _; unfold baotou, zlen; simpl; lia.
Qed.

(** A failing [sendto] stops the transmission: nothing is sent after the
    first datagram refused by the network, and the error number is returned. *)
Theorem failure_stops net m s k e :
  fabao s = true -> sent s = [] -> (length m < 45)%nat ->
  (k < length (transmission m))%nat ->
  (forall j, (j < k)%nat -> 0 <= fst (net j)) -> fst (net k) < 0 -> snd (net k) = e ->
  exists s', nk_smart_link_send net m s = Done (s', e) /\
    sent s' = take (S k) (transmission m) /\ fabao s' = false.
Proof.
  intros Hf Hs Hm Hk Hok Hbad He; unfold nk_smart_link_send, message_cun.
  replace (length m <? 45)%nat with true by (symmetry; apply Nat.ltb_lt; done).
  rewrite send_chars_body; unfold smart_link_send_baotou.
  rewrite <- send_all_app; fold (transmission m).
  destruct (send_all_fails net (transmission m) s k e) as (E1 & E2 & E3);
    rewrite ?Hs; try done; [split; [apply Nat.le_0_l|exact Hk]|intros j _ Hj; by apply Hok|].
  rewrite Hs in E1; eexists; split; [rewrite E2; reflexivity|]; split; [|done].
  exact E1.
Qed.

(** The whole call: the return code tells which step failed; the socket is
    closed exactly once unless the broadcast address lookup failed, and only
    then is nothing closed. *)
Theorem sendpacket_codes net brd sock opt m s :
  all_sent net -> (length m < 45)%nat ->
  exists s' ret closes,
    JA_smartlink_sendpacket net brd sock opt m s = Done (s', ret, closes) /\
    (ret = 1 <-> brd <> 0) /\ (ret = 2 <-> brd = 0 /\ sock < 0) /\
    (ret = 3 <-> brd = 0 /\ 0 <= sock /\ opt <> 0) /\
    (ret = 0 -> sent s' = sent s ++ transmission m) /\
    (ret <> 0 -> sent s' = sent s) /\
    closes = (if ret =? 1 then 0 else 1).
Proof.
  intros Hn Hm; unfold JA_smartlink_sendpacket, nk_smart_link_init.
  destruct (brd =? 0) eqn:Eb; cbn [negb]; cbn iota beta zeta.
  2:{ do 3 eexists; split; [reflexivity|]; cbn [sent]; split_and!; try done; lia. }
  destruct (sock <? 0) eqn:Es.
  { do 3 eexists; split; [reflexivity|]; cbn [sent]; split_and!; try done; lia. }
  destruct (opt =? 0) eqn:Eo; cbn [negb]; cbn iota beta zeta.
  2:{ do 3 eexists; split; [reflexivity|]; cbn [sent]; split_and!; try done; lia. }
  set (s0 := mkState (sendto_ret s) (shibai s) true (sent s)).
  destruct (send_transmission_ok net m s0 Hn eq_refl Hm) as (s' & E & Hs).
  change (0 =? 0) with true; cbn iota; rewrite E; cbn [obind].
  do 3 eexists; split; [reflexivity|]; split_and!; try done; lia.
Qed.

(** ** Concrete instances *)

Definition demo_net : network := fun _ => (1, 0).
Definition demo_state : state := mkState 0 0 true [].
Definition demo_msg : list Z := [65; 58; 32; 49].

Lemma demo_printable : Forall printable demo_msg.
Proof. repeat constructor; done. Qed.

Example demo_sent :
  nk_smart_link_send demo_net [65] demo_state =
  Done (mkState 1 0 true [276; 341; 276; 341; 276; 341; 342; 1302; 342; 1302;
                          405; 405; 415; 415], 0).
Proof. vm_compute; reflexivity. Qed.

Lemma send_transmission_witness :
  exists s', nk_smart_link_send demo_net demo_msg demo_state = Done (s', 0) /\
    sent s' = transmission demo_msg.
Proof. apply (send_transmission demo_net demo_msg demo_state); [done|done|simpl; lia]. Defined.

Lemma capture_recovers_witness : capture_char (rev (body 0 demo_msg)) 1 = Some 58.
Proof.
  apply (capture_recovers demo_msg); [apply demo_printable| |done].
  intros n; symmetry; apply in_rev.
Defined.

Lemma transmission_bounds_witness : 0 < 405 <= 1345.
Proof.
  apply (transmission_bounds [65] 405); [repeat constructor; done|simpl; lia|vm_compute; auto 20].
Defined.

Lemma failure_stops_witness :
  exists s', nk_smart_link_send (fun k => if Nat.eqb k 2 then (-1, 101) else (1, 0))
    demo_msg demo_state = Done (s', 101) /\ sent s' = [276; 341; 276] /\ fabao s' = false.
Proof.
  apply (failure_stops (fun k => if Nat.eqb k 2 then (-1, 101) else (1, 0)) demo_msg demo_state 2 101);
    try done; [simpl; lia|simpl; lia|].
  intros j Hj; do 2 (destruct j as [|j]; [done|]); lia.
Defined.

Lemma sendpacket_codes_witness :
  exists s' closes, JA_smartlink_sendpacket demo_net 0 3 0 demo_msg demo_state = Done (s', 0, closes).
Proof.
  destruct (sendpacket_codes demo_net 0 3 0 demo_msg demo_state ltac:(done) ltac:(simpl; lia))
    as (s' & ret & cl & E & _); vm_compute in E; injection E as <- <- <-.
  do 2 eexists; vm_compute; reflexivity.
Defined.

End SmartLink.
