(* ===== verification/GLESMath.v ===== *)
(** gles/GLES/GLESMath.c: the vector and matrix routines behind every screen.
    The definitions are generic in a scalar type with C's float operations
    ([Scalar]) and the libm functions ([Trig]); [ksInvert] takes the floats and
    the doubles it mixes as two such types ([Wide]).  The theorems are about the
    instance at the real numbers, so they are exact and leave rounding aside,
    unless they name the binary32 instance, which evaluates the same definitions
    with rounding. *)
From Stdlib Require Import Rbase R_sqrt Rtrigo1 Lra SpecFloat.
From S2P Require Import Prelude Float32.

Module GLESMath.

Class Scalar (F : Type) := {
  fzero : F; fone : F;
  fadd : F -> F -> F; fsub : F -> F -> F; fmul : F -> F -> F; fdiv : F -> F -> F;
  fopp : F -> F;
  feqb : F -> F -> bool; fleb : F -> F -> bool;
  fsqrt : F -> F
}.
Class Trig (F : Type) := { fsin : F -> F; fcos : F -> F; ftan : F -> F; fpi : F }.

Declare Scope scalar_scope.
Delimit Scope scalar_scope with sc.
Infix "+" := fadd : scalar_scope.
Infix "-" := fsub : scalar_scope.
Infix "*" := fmul : scalar_scope.
Infix "/" := fdiv : scalar_scope.
Notation "- x" := (fopp x) : scalar_scope.
Notation "0" := fzero : scalar_scope.
Notation "1" := fone : scalar_scope.

Record KSVec3 (F : Type) := mkVec { x : F; y : F; z : F }.
Arguments mkVec {F} _ _ _.
Arguments x {F} _.
Arguments y {F} _.
Arguments z {F} _.

(** [m.ij] is [m[i][j]]. *)
Record KSMatrix4 (F : Type) := mkMat {
  m00 : F; m01 : F; m02 : F; m03 : F;
  m10 : F; m11 : F; m12 : F; m13 : F;
  m20 : F; m21 : F; m22 : F; m23 : F;
  m30 : F; m31 : F; m32 : F; m33 : F
}.
Arguments mkMat {F} _ _ _ _ _ _ _ _ _ _ _ _ _ _ _ _.
Arguments m00 {F} _. Arguments m01 {F} _. Arguments m02 {F} _. Arguments m03 {F} _.
Arguments m10 {F} _. Arguments m11 {F} _. Arguments m12 {F} _. Arguments m13 {F} _.
Arguments m20 {F} _. Arguments m21 {F} _. Arguments m22 {F} _. Arguments m23 {F} _.
Arguments m30 {F} _. Arguments m31 {F} _. Arguments m32 {F} _. Arguments m33 {F} _.

Record KSMatrix3 (F : Type) := mkMat3 {
  n00 : F; n01 : F; n02 : F;
  n10 : F; n11 : F; n12 : F;
  n20 : F; n21 : F; n22 : F
}.
Arguments mkMat3 {F} _ _ _ _ _ _ _ _ _.

(** [ksNextPot] on 32-bit unsigned integers. *)
Definition ksNextPot (n : Z) : Z :=
  let n := u32 (n - 1) in
  let n := Z.lor n (Z.shiftr n 1) in
  let n := Z.lor n (Z.shiftr n 2) in
  let n := Z.lor n (Z.shiftr n 4) in
  let n := Z.lor n (Z.shiftr n 8) in
  let n := Z.lor n (Z.shiftr n 16) in
  u32 (n + 1).

Section Ops.
Context {F : Type} `{Scalar F}.
Local Open Scope scalar_scope.

(** Small integer constants of the source, such as [2.0f] and [360.0f]. *)
Fixpoint fpos (p : positive) : F :=
  match p with
  | xH => 1
  | xO p => fpos p + fpos p
  | xI p => fpos p + fpos p + 1
  end.
Definition two : F := fpos 2.

Definition ksVectorLength (v : KSVec3 F) : F := fsqrt (x v * x v + y v * y v + z v * z v).

Definition ksCrossProduct (a b : KSVec3 F) : KSVec3 F :=
  mkVec (y a * z b - z a * y b) (z a * x b - x a * z b) (x a * y b - y b * x a).

Definition ksVectorSubtract (a b : KSVec3 F) : KSVec3 F :=
  mkVec (x a - x b) (y a - y b) (z a - z b).

Definition ksVectorNormalize (v : KSVec3 F) : KSVec3 F :=
  let length := ksVectorLength v in
  if feqb length 0 then v
  else
    let length := 1 / length in
    mkVec (x v * length) (y v * length) (z v * length).

Definition ksScale (r : KSMatrix4 F) (sx sy sz : F) : KSMatrix4 F :=
  mkMat (m00 r * sx) (m01 r * sx) (m02 r * sx) (m03 r * sx)
        (m10 r * sy) (m11 r * sy) (m12 r * sy) (m13 r * sy)
        (m20 r * sz) (m21 r * sz) (m22 r * sz) (m23 r * sz)
        (m30 r) (m31 r) (m32 r) (m33 r).

Definition ksTranslate (r : KSMatrix4 F) (tx ty tz : F) : KSMatrix4 F :=
  mkMat (m00 r) (m01 r) (m02 r) (m03 r)
        (m10 r) (m11 r) (m12 r) (m13 r)
        (m20 r) (m21 r) (m22 r) (m23 r)
        (m30 r + (m00 r * tx + m10 r * ty + m20 r * tz))
        (m31 r + (m01 r * tx + m11 r * ty + m21 r * tz))
        (m32 r + (m02 r * tx + m12 r * ty + m22 r * tz))
        (m33 r + (m03 r * tx + m13 r * ty + m23 r * tz)).

(** One row of [tmp]: row [(a0, a1, a2, a3)] of the left matrix times [b]. *)
Definition row_mul (a0 a1 a2 a3 : F) (b : KSMatrix4 F) : F * F * F * F :=
  (a0 * m00 b + a1 * m10 b + a2 * m20 b + a3 * m30 b,
   a0 * m01 b + a1 * m11 b + a2 * m21 b + a3 * m31 b,
   a0 * m02 b + a1 * m12 b + a2 * m22 b + a3 * m32 b,
   a0 * m03 b + a1 * m13 b + a2 * m23 b + a3 * m33 b).

Definition ksMatrixMultiply (a b : KSMatrix4 F) : KSMatrix4 F :=
  let '(t00, t01, t02, t03) := row_mul (m00 a) (m01 a) (m02 a) (m03 a) b in
  let '(t10, t11, t12, t13) := row_mul (m10 a) (m11 a) (m12 a) (m13 a) b in
  let '(t20, t21, t22, t23) := row_mul (m20 a) (m21 a) (m22 a) (m23 a) b in
  let '(t30, t31, t32, t33) := row_mul (m30 a) (m31 a) (m32 a) (m33 a) b in
  mkMat t00 t01 t02 t03 t10 t11 t12 t13 t20 t21 t22 t23 t30 t31 t32 t33.

Definition ksCopyMatrix4 (src : KSMatrix4 F) : KSMatrix4 F := src.

Definition ksTranspose (s : KSMatrix4 F) : KSMatrix4 F :=
  mkMat (m00 s) (m10 s) (m20 s) (m30 s)
        (m01 s) (m11 s) (m21 s) (m31 s)
        (m02 s) (m12 s) (m22 s) (m32 s)
        (m03 s) (m13 s) (m23 s) (m33 s).

Definition ksMatrix4ToMatrix3 (s : KSMatrix4 F) : KSMatrix3 F :=
  mkMat3 (m00 s) (m01 s) (m02 s) (m10 s) (m11 s) (m12 s) (m20 s) (m21 s) (m22 s).

Definition ksMatrixLoadIdentity : KSMatrix4 F :=
  mkMat 1 0 0 0  0 1 0 0  0 0 1 0  0 0 0 1.
(** [ksInvert]: the cofactor expressions [inv[k]] with [m[4*i+j] = m.ij]. *)
Definition inv0 (r : KSMatrix4 F) : F :=
  m11 r * m22 r * m33 r
  - m11 r * m23 r * m32 r
  - m21 r * m12 r * m33 r
  + m21 r * m13 r * m32 r
  + m31 r * m12 r * m23 r
  - m31 r * m13 r * m22 r.
Definition inv1 (r : KSMatrix4 F) : F :=
  -m01 r * m22 r * m33 r
  + m01 r * m23 r * m32 r
  + m21 r * m02 r * m33 r
  - m21 r * m03 r * m32 r
  - m31 r * m02 r * m23 r
  + m31 r * m03 r * m22 r.
Definition inv2 (r : KSMatrix4 F) : F :=
  m01 r * m12 r * m33 r
  - m01 r * m13 r * m32 r
  - m11 r * m02 r * m33 r
  + m11 r * m03 r * m32 r
  + m31 r * m02 r * m13 r
  - m31 r * m03 r * m12 r.
Definition inv3 (r : KSMatrix4 F) : F :=
  -m01 r * m12 r * m23 r
  + m01 r * m13 r * m22 r
  + m11 r * m02 r * m23 r
  - m11 r * m03 r * m22 r
  - m21 r * m02 r * m13 r
  + m21 r * m03 r * m12 r.
Definition inv4 (r : KSMatrix4 F) : F :=
  -m10 r * m22 r * m33 r
  + m10 r * m23 r * m32 r
  + m20 r * m12 r * m33 r
  - m20 r * m13 r * m32 r
  - m30 r * m12 r * m23 r
  + m30 r * m13 r * m22 r.
Definition inv5 (r : KSMatrix4 F) : F :=
  m00 r * m22 r * m33 r
  - m00 r * m23 r * m32 r
  - m20 r * m02 r * m33 r
  + m20 r * m03 r * m32 r
  + m30 r * m02 r * m23 r
  - m30 r * m03 r * m22 r.
Definition inv6 (r : KSMatrix4 F) : F :=
  -m00 r * m12 r * m33 r
  + m00 r * m13 r * m32 r
  + m10 r * m02 r * m33 r
  - m10 r * m03 r * m32 r
  - m30 r * m02 r * m13 r
  + m30 r * m03 r * m12 r.
Definition inv7 (r : KSMatrix4 F) : F :=
  m00 r * m12 r * m23 r
  - m00 r * m13 r * m22 r
  - m10 r * m02 r * m23 r
  + m10 r * m03 r * m22 r
  + m20 r * m02 r * m13 r
  - m20 r * m03 r * m12 r.
Definition inv8 (r : KSMatrix4 F) : F :=
  m10 r * m21 r * m33 r
  - m10 r * m23 r * m31 r
  - m20 r * m11 r * m33 r
  + m20 r * m13 r * m31 r
  + m30 r * m11 r * m23 r
  - m30 r * m13 r * m21 r.
Definition inv9 (r : KSMatrix4 F) : F :=
  -m00 r * m21 r * m33 r
  + m00 r * m23 r * m31 r
  + m20 r * m01 r * m33 r
  - m20 r * m03 r * m31 r
  - m30 r * m01 r * m23 r
  + m30 r * m03 r * m21 r.
Definition inv10 (r : KSMatrix4 F) : F :=
  m00 r * m11 r * m33 r
  - m00 r * m13 r * m31 r
  - m10 r * m01 r * m33 r
  + m10 r * m03 r * m31 r
  + m30 r * m01 r * m13 r
  - m30 r * m03 r * m11 r.
Definition inv11 (r : KSMatrix4 F) : F :=
  -m00 r * m11 r * m23 r
  + m00 r * m13 r * m21 r
  + m10 r * m01 r * m23 r
  - m10 r * m03 r * m21 r
  - m20 r * m01 r * m13 r
  + m20 r * m03 r * m11 r.
Definition inv12 (r : KSMatrix4 F) : F :=
  -m10 r * m21 r * m32 r
  + m10 r * m22 r * m31 r
  + m20 r * m11 r * m32 r
  - m20 r * m12 r * m31 r
  - m30 r * m11 r * m22 r
  + m30 r * m12 r * m21 r.
Definition inv13 (r : KSMatrix4 F) : F :=
  m00 r * m21 r * m32 r
  - m00 r * m22 r * m31 r
  - m20 r * m01 r * m32 r
  + m20 r * m02 r * m31 r
  + m30 r * m01 r * m22 r
  - m30 r * m02 r * m21 r.
Definition inv14 (r : KSMatrix4 F) : F :=
  -m00 r * m11 r * m32 r
  + m00 r * m12 r * m31 r
  + m10 r * m01 r * m32 r
  - m10 r * m02 r * m31 r
  - m30 r * m01 r * m12 r
  + m30 r * m02 r * m11 r.
Definition inv15 (r : KSMatrix4 F) : F :=
  m00 r * m11 r * m22 r
  - m00 r * m12 r * m21 r
  - m10 r * m01 r * m22 r
  + m10 r * m02 r * m21 r
  + m20 r * m01 r * m12 r
  - m20 r * m02 r * m11 r.

Definition ksFrustum (result : KSMatrix4 F) (left right bottom top nearZ farZ : F) : KSMatrix4 F :=
  let deltaX := right - left in
  let deltaY := top - bottom in
  let deltaZ := farZ - nearZ in
  if fleb nearZ 0 || fleb farZ 0 || fleb deltaX 0 || fleb deltaY 0 || fleb deltaZ 0
  then result
  else
    let frust :=
      mkMat (two * nearZ / deltaX) 0 0 0
            0 (two * nearZ / deltaY) 0 0
            ((right + left) / deltaX) ((top + bottom) / deltaY) (- (nearZ + farZ) / deltaZ) (- (1))
            0 0 (- two * nearZ * farZ / deltaZ) 0 in
    ksMatrixMultiply frust result.

Definition ksOrtho (result : KSMatrix4 F) (left right bottom top nearZ farZ : F) : KSMatrix4 F :=
  let deltaX := right - left in
  let deltaY := top - bottom in
  let deltaZ := farZ - nearZ in
  if feqb deltaX 0 || feqb deltaY 0 || feqb deltaZ 0 then result
  else
    let ortho :=
      mkMat (two / deltaX) 0 0 0
            0 (two / deltaY) 0 0
            0 0 (- two / deltaZ) 0
            (- (right + left) / deltaX) (- (top + bottom) / deltaY) (- (nearZ + farZ) / deltaZ) 1 in
    ksMatrixMultiply ortho result.

Definition ksLookAt (eye target up : KSVec3 F) : KSMatrix4 F :=
  let forward := ksVectorNormalize (ksVectorSubtract target eye) in
  let side := ksVectorNormalize (ksCrossProduct up forward) in
  let up2 := ksVectorNormalize (ksCrossProduct side forward) in
  let result :=
    mkMat (x side) (y side) (z side) 0
          (x up2) (y up2) (z up2) 0
          (- x forward) (- y forward) (- z forward) 0
          0 0 0 1 in
  let transMat := ksTranslate ksMatrixLoadIdentity (- x eye) (- y eye) (- z eye) in
  ksMatrixMultiply result transMat.

Context `{Trig F}.

(** The matrix [rotMat] for a unit axis. *)
Definition rotMat (sinAngle cosAngle x y z : F) : KSMatrix4 F :=
  let xx := x * x in let yy := y * y in let zz := z * z in
  let xy := x * y in let yz := y * z in let zx := z * x in
  let xs := x * sinAngle in let ys := y * sinAngle in let zs := z * sinAngle in
  let oneMinusCos := 1 - cosAngle in
  mkMat (oneMinusCos * xx + cosAngle) (oneMinusCos * xy - zs) (oneMinusCos * zx + ys) 0
        (oneMinusCos * xy + zs) (oneMinusCos * yy + cosAngle) (oneMinusCos * yz - xs) 0
        (oneMinusCos * zx - ys) (oneMinusCos * yz + xs) (oneMinusCos * zz + cosAngle) 0
        0 0 0 1.

Definition ksRotate (result : KSMatrix4 F) (angle x y z : F) : KSMatrix4 F :=
  let mag := fsqrt (x * x + y * y + z * z) in
  let sinAngle := fsin (angle * fpi / fpos 180) in
  let cosAngle := fcos (angle * fpi / fpos 180) in
  if fleb mag 0 then result
  else ksMatrixMultiply (rotMat sinAngle cosAngle (x / mag) (y / mag) (z / mag)) result.

Definition ksPerspective (result : KSMatrix4 F) (fovy aspect nearZ farZ : F) : KSMatrix4 F :=
  let frustumH := ftan (fovy / fpos 360 * fpi) * nearZ in
  let frustumW := frustumH * aspect in
  ksFrustum result (- frustumW) frustumW (- frustumH) frustumH nearZ farZ.

End Ops.

(** The inverse: the cofactors are computed in floats and stored as doubles, in which
    the determinant and the quotients are computed; [widen] and [narrow] are C's
    conversions between the two types. *)
Class Wide (F D : Type) := { widen : F -> D; narrow : D -> F }.
Section Invert.
Context {F D : Type} `{Scalar F} `{Scalar D} `{Wide F D}.
Local Open Scope scalar_scope.
Definition det (r : KSMatrix4 F) : D :=
  widen (m00 r) * widen (inv0 r) + widen (m01 r) * widen (inv4 r) + widen (m02 r) * widen (inv8 r) + widen (m03 r) * widen (inv12 r).

(** The returned flag and [out], unchanged when the determinant is zero. *)
Definition ksInvert (out r : KSMatrix4 F) : KSMatrix4 F * Z :=
  if feqb (det r) 0 then (out, 0%Z)
  else
    let d := 1 / det r in
    let q c := narrow (widen c * d) in
    (mkMat (q (inv0 r)) (q (inv1 r)) (q (inv2 r)) (q (inv3 r))
           (q (inv4 r)) (q (inv5 r)) (q (inv6 r)) (q (inv7 r))
           (q (inv8 r)) (q (inv9 r)) (q (inv10 r)) (q (inv11 r))
           (q (inv12 r)) (q (inv13 r)) (q (inv14 r)) (q (inv15 r)), 1%Z).
End Invert.

(** ** The two instances *)

#[global, refine] Instance R_Scalar : Scalar R := {|
  fzero := IZR 0; fone := IZR 1; fadd := Rplus; fsub := Rminus; fmul := Rmult; fdiv := Rdiv;
  fopp := Ropp;
  feqb := fun a b => if Req_dec_T a b then true else false;
  fleb := fun a b => if Rle_dec a b then true else false;
  fsqrt := sqrt |}.
Defined.
#[global] Instance R_Trig : Trig R := {| fsin := sin; fcos := cos; ftan := tan; fpi := PI |}.

#[global] Instance F32_Scalar : Scalar spec_float := {|
  fzero := F32.of_Z 0; fone := F32.of_Z 1; fadd := F32.add; fsub := F32.sub; fmul := F32.mul;
  fdiv := F32.div; fopp := SFopp; feqb := SFeqb; fleb := SFleb;
  fsqrt := SFsqrt F32.prec F32.emax |}.

#[global] Instance R_Wide : Wide R R := {| widen := id; narrow := id |}.
(** The doubles, beside the floats: not an instance, since both are [spec_float]. *)
Definition F64_Scalar : Scalar spec_float := {|
  fzero := F64.of_Z 0; fone := F64.of_Z 1; fadd := F64.add; fsub := F64.sub; fmul := F64.mul;
  fdiv := F64.div; fopp := SFopp; feqb := SFeqb; fleb := SFleb;
  fsqrt := SFsqrt F64.prec F64.emax |}.
Definition F_Wide : Wide spec_float spec_float := {| widen := F64.of_float; narrow := F64.to_float |}.
(** [ksInvert] as compiled, with its floats and doubles. *)
Definition invert32 : KSMatrix4 spec_float -> KSMatrix4 spec_float -> KSMatrix4 spec_float * Z :=
  @ksInvert spec_float spec_float F32_Scalar F64_Scalar F_Wide.

(** ** Lemmas *)

Local Open Scope R_scope.

Abbreviation Mat := (KSMatrix4 R).
Abbreviation Vec := (KSVec3 R).
Abbreviation I4 := (@ksMatrixLoadIdentity R R_Scalar).

Ltac mat_ring :=
  unfold ksMatrixMultiply, row_mul, ksTranspose, ksTranslate, ksScale, ksMatrixLoadIdentity;
  simpl; f_equal; ring.

Lemma mult_assoc (a b c : Mat) :
  ksMatrixMultiply (ksMatrixMultiply a b) c = ksMatrixMultiply a (ksMatrixMultiply b c).
Proof. mat_ring. Qed.
Lemma mult_id_l (a : Mat) : ksMatrixMultiply I4 a = a.
Proof. destruct a; mat_ring. Qed.
Lemma mult_id_r (a : Mat) : ksMatrixMultiply a I4 = a.
Proof. destruct a; mat_ring. Qed.
Lemma transpose_mult (a b : Mat) :
  ksTranspose (ksMatrixMultiply a b) = ksMatrixMultiply (ksTranspose b) (ksTranspose a).
Proof. mat_ring. Qed.
Lemma transpose_involutive (a : Mat) : ksTranspose (ksTranspose a) = a.
Proof. destruct a; reflexivity. Qed.

(** Every entry times a scalar. *)
Definition scale_all (a : Mat) (d : R) : Mat :=
  mkMat (m00 a * d) (m01 a * d) (m02 a * d) (m03 a * d)
        (m10 a * d) (m11 a * d) (m12 a * d) (m13 a * d)
        (m20 a * d) (m21 a * d) (m22 a * d) (m23 a * d)
        (m30 a * d) (m31 a * d) (m32 a * d) (m33 a * d).
Definition adjugate (r : Mat) : Mat :=
  mkMat (inv0 r) (inv1 r) (inv2 r) (inv3 r) (inv4 r) (inv5 r) (inv6 r) (inv7 r)
        (inv8 r) (inv9 r) (inv10 r) (inv11 r) (inv12 r) (inv13 r) (inv14 r) (inv15 r).

Lemma mult_scale_r (a b : Mat) d :
  ksMatrixMultiply a (scale_all b d) = scale_all (ksMatrixMultiply a b) d.
Proof. unfold scale_all; mat_ring. Qed.
Lemma mult_scale_l (a b : Mat) d :
  ksMatrixMultiply (scale_all a d) b = scale_all (ksMatrixMultiply a b) d.
Proof. unfold scale_all; mat_ring. Qed.

Ltac cofactors :=
  unfold adjugate, det, inv0, inv1, inv2, inv3, inv4, inv5, inv6, inv7, inv8, inv9, inv10,
    inv11, inv12, inv13, inv14, inv15, scale_all.

Lemma mult_adjugate (r : Mat) : ksMatrixMultiply r (adjugate r) = scale_all I4 (det r).
Proof. destruct r; cofactors; mat_ring. Qed.
Lemma adjugate_mult (r : Mat) : ksMatrixMultiply (adjugate r) r = scale_all I4 (det r).
Proof. destruct r; cofactors; mat_ring. Qed.

Lemma scale_inverse d : d <> 0 -> scale_all (scale_all I4 d) (1 / d) = I4.
Proof. intros H; unfold scale_all, ksMatrixLoadIdentity; simpl; f_equal; field; done. Qed.

(** A point as a row vector, the convention of the matrices: [v * M]. *)
Definition apply (p : R * R * R * R) (m : Mat) : R * R * R * R :=
  let '(a0, a1, a2, a3) := p in row_mul a0 a1 a2 a3 m.

Definition translation (tx ty tz : R) : Mat := mkMat 1 0 0 0 0 1 0 0 0 0 1 0 tx ty tz 1.
Definition scaling (sx sy sz : R) : Mat := mkMat sx 0 0 0 0 sy 0 0 0 0 sz 0 0 0 0 1.

Lemma rot_orthogonal s c a b d :
  s * s + c * c = 1 -> a * a + b * b + d * d = 1 ->
  ksMatrixMultiply (rotMat s c a b d) (ksTranspose (rotMat s c a b d)) = I4.
Proof.
  intros Hs Hu; unfold rotMat, ksMatrixMultiply, row_mul, ksTranspose, ksMatrixLoadIdentity; simpl.
  assert (Hc : c * c = 1 - s * s) by lra.
  assert (Hd : d * d = 1 - a * a - b * b) by lra.
  f_equal; ring [Hc Hd].
Qed.

Lemma sqrt_unit (a b c : R) :
  let m := sqrt (a * a + b * b + c * c) in
  0 < m -> (a / m) * (a / m) + (b / m) * (b / m) + (c / m) * (c / m) = 1.
Proof.
  intros m Hm.
  assert (m * m = a * a + b * b + c * c) as E by (apply sqrt_sqrt; nra).
  replace ((a / m) * (a / m) + (b / m) * (b / m) + (c / m) * (c / m))
    with ((a * a + b * b + c * c) / (m * m)) by (field; lra).
  rewrite <- E; field; lra.
Qed.

(** ** Bit smearing *)

Section NextPot.
Local Open Scope Z_scope.

(** [r] has bit [k] when one of the bits [k .. k+m-1] of [n] is set. *)
Definition smeared (n : Z) (m : nat) (r : Z) : Prop :=
  0 <= r /\ forall k, 0 <= k ->
    Z.testbit r k = existsb (fun j => Z.testbit n (k + Z.of_nat j)) (seq 0 m).

Lemma existsb_seq_app f m1 m2 s :
  existsb f (seq s (m1 + m2)) = existsb f (seq s m1) || existsb f (seq (s + m1) m2).
Proof. rewrite seq_app, existsb_app; done. Qed.

Lemma existsb_ext (f g : nat -> bool) l : (forall j, f j = g j) -> existsb f l = existsb g l.
Proof. intros H; induction l as [|j l IH]; simpl; [done|]; rewrite H, IH; done. Qed.

Lemma existsb_seq_shift f m d : existsb (fun j => f (d + j)%nat) (seq 0 m) = existsb f (seq d m).
Proof.
  assert (forall s, existsb (fun j => f (d + j)%nat) (seq s m) = existsb f (seq (d + s) m)) as H.
  { induction m as [|m IH]; intros s; simpl; [done|]; rewrite IH, Nat.add_succ_r; done. }
  rewrite H, Nat.add_0_r; done.
Qed.

Lemma smear_step n m r :
  smeared n m r -> smeared n (m + m) (Z.lor r (Z.shiftr r (Z.of_nat m))).
Proof.
  intros [Hr H]; split; [apply Z.lor_nonneg; split; [done|apply Z.shiftr_nonneg; done]|].
  intros k Hk; rewrite Z.lor_spec, Z.shiftr_spec, !H by lia.
  rewrite existsb_seq_app, Nat.add_0_l; f_equal.
  rewrite <- (existsb_seq_shift _ m m); apply existsb_ext; intros j; f_equal; lia.
Qed.

(** Thirty-two smeared positions fill everything below the leading bit. *)
Lemma smeared_ones n r : 0 < n < 2 ^ 32 -> smeared n 32 r -> r = 2 ^ (Z.log2 n + 1) - 1.
Proof.
  intros Hn [Hr H].
  assert (0 <= Z.log2 n < 32) as Hl by (split; [apply Z.log2_nonneg|apply Z.log2_lt_pow2; lia]).
  replace (2 ^ (Z.log2 n + 1) - 1) with (Z.ones (Z.log2 n + 1)) by (rewrite Z.ones_equiv; lia).
  apply Z.bits_inj'; intros k Hk; rewrite H by done.
  destruct (Z.lt_ge_cases k (Z.log2 n + 1)).
  - rewrite Z.ones_spec_low by lia; apply existsb_exists.
    exists (Z.to_nat (Z.log2 n - k)); split; [apply in_seq; lia|].
    rewrite Z2Nat.id by lia; replace (k + (Z.log2 n - k)) with (Z.log2 n) by lia.
    apply Z.bit_log2; lia.
  - rewrite Z.ones_spec_high by lia; apply not_true_iff_false; intros E.
    apply existsb_exists in E as (j & _ & E).
    rewrite Z.bits_above_log2 in E; [done|lia|lia].
Qed.

Lemma smeared_self n : 0 <= n -> smeared n 1 n.
Proof.
  intros H; split; [done|]; intros k Hk; simpl; rewrite orb_false_r, Z.add_0_r; done.
Qed.

Lemma smear_all n :
  0 <= n ->
  let n1 := Z.lor n (Z.shiftr n 1) in let n2 := Z.lor n1 (Z.shiftr n1 2) in
  let n3 := Z.lor n2 (Z.shiftr n2 4) in let n4 := Z.lor n3 (Z.shiftr n3 8) in
  smeared n 32 (Z.lor n4 (Z.shiftr n4 16)).
Proof.
  intros Hn n1 n2 n3 n4.
  apply (smear_step n 16), (smear_step n 8), (smear_step n 4), (smear_step n 2), (smear_step n 1).
  by apply smeared_self.
Qed.

(** [ksNextPot] rounds up to a power of two: for 1 <= n <= 2^31 the result is
    the least power of two that is not below [n]. *)
Theorem next_pot n :
  1 <= n <= 2 ^ 31 ->
  exists k, 0 <= k <= 31 /\ ksNextPot n = 2 ^ k /\ n <= 2 ^ k /\
    forall j, 0 <= j -> n <= 2 ^ j -> 2 ^ k <= 2 ^ j.
Proof.
  intros Hn; unfold ksNextPot; rewrite (u32_small (n - 1)) by lia.
  destruct (Z.eq_dec n 1) as [->|Hne].
  { exists 0; split_and!; try lia; try done; intros j Hj _; apply Z.pow_le_mono_r; lia. }
  pose proof (smeared_ones (n - 1) _ ltac:(lia) (smear_all (n - 1) ltac:(lia))) as E.
  cbv zeta in E |- *; rewrite E; clear E.
  pose proof (Z.log2_spec (n - 1) ltac:(lia)) as [H1 H2].
  assert (0 <= Z.log2 (n - 1) < 31) as Hl.
  { split; [apply Z.log2_nonneg|apply Z.log2_lt_pow2; lia]. }
  rewrite <- Z.add_1_r in H2; rewrite Z.sub_add.
  assert (2 ^ (Z.log2 (n - 1) + 1) <= 2 ^ 31) by (apply Z.pow_le_mono_r; lia).
  exists (Z.log2 (n - 1) + 1); rewrite u32_small by lia; split_and!; try lia.
  intros j Hj Hle; apply Z.pow_le_mono_r; [lia|].
  assert (Z.log2 (n - 1) < j); [|lia]; apply Z.log2_lt_pow2; lia.
Qed.
End NextPot.

Lemma fle_false a b : b < a -> @fleb R R_Scalar a b = false.
Proof. intros H; simpl; destruct (Rle_dec a b); [lra|done]. Qed.
Lemma feq_false a b : a <> b -> @feqb R R_Scalar a b = false.
Proof. intros H; simpl; destruct (Req_dec_T a b); done. Qed.
Lemma feq_true a b : a = b -> @feqb R R_Scalar a b = true.
Proof. intros ->; simpl; destruct (Req_dec_T b b); done. Qed.

(** ** Properties *)

(** Matrix multiplication is associative with the identity as its unit, and
    transposition is an involution that reverses products. *)
Theorem multiply_algebra (a b c : Mat) :
  ksMatrixMultiply (ksMatrixMultiply a b) c = ksMatrixMultiply a (ksMatrixMultiply b c) /\
  ksMatrixMultiply I4 a = a /\ ksMatrixMultiply a I4 = a /\
  ksTranspose (ksTranspose a) = a /\
  ksTranspose (ksMatrixMultiply a b) = ksMatrixMultiply (ksTranspose b) (ksTranspose a).
Proof.
  split_and!; [apply mult_assoc|apply mult_id_l|apply mult_id_r|apply transpose_involutive
    |apply transpose_mult].
Qed.

(** The in-place [ksTranslate] and [ksScale] are multiplications from the
    left by the translation and the scaling matrix. *)
Theorem translate_scale_spec (r : Mat) a b c :
  ksTranslate r a b c = ksMatrixMultiply (translation a b c) r /\
  ksScale r a b c = ksMatrixMultiply (scaling a b c) r.
Proof. destruct r; unfold translation, scaling; split; mat_ring. Qed.

(** C34: in exact arithmetic, over the reals, [ksInvert] returns 1 and the two-sided
    inverse exactly when the determinant is not zero, and otherwise 0 with the output
    untouched; in floats the determinant may underflow, as in [tiny_not_inverted]. *)
Theorem invert_spec (out r : Mat) :
  (det r <> 0 -> exists inv, ksInvert out r = (inv, 1%Z) /\
     ksMatrixMultiply r inv = I4 /\ ksMatrixMultiply inv r = I4) /\
  (det r = 0 -> ksInvert out r = (out, 0%Z)).
Proof.
  unfold ksInvert; split; intros H; [rewrite feq_false by exact H|rewrite feq_true by exact H; done].
  exists (scale_all (adjugate r) (1 / det r)); split; [reflexivity|].
  rewrite mult_scale_r, mult_scale_l, mult_adjugate, adjugate_mult, scale_inverse; done.
Qed.

(** [ksRotate] multiplies from the left by an orthogonal matrix (its inverse
    is its transpose), whatever the length of the axis, so lengths and angles
    are kept; a zero axis leaves the matrix alone. *)
Theorem rotate_orthogonal (r : Mat) angle a b c :
  (a = 0 /\ b = 0 /\ c = 0 -> ksRotate r angle a b c = r) /\
  (~ (a = 0 /\ b = 0 /\ c = 0) ->
     exists q, ksRotate r angle a b c = ksMatrixMultiply q r /\
       ksMatrixMultiply q (ksTranspose q) = I4).
Proof.
  unfold ksRotate; simpl; split; intros H.
  - destruct H as (-> & -> & ->).
    replace (0 * 0 + 0 * 0 + 0 * 0) with 0 by ring; rewrite sqrt_0.
    destruct (Rle_dec 0 0); [done|lra].
  - assert (0 < a * a + b * b + c * c) as Hpos.
    { destruct (Req_dec_T a 0), (Req_dec_T b 0), (Req_dec_T c 0); nra || (exfalso; tauto). }
    apply sqrt_lt_R0 in Hpos.
    destruct (Rle_dec _ 0) as [Hle|_]; [lra|].
    eexists; split; [reflexivity|].
    apply rot_orthogonal; [|apply sqrt_unit; done].
    pose proof (sin2_cos2 (angle * PI / fpos 180)) as E; unfold Rsqr in E; exact E.
Qed.

(** [ksFrustum] maps the viewing frustum to the clip cube: the point at
    fraction [(u, v)] of the cross-section at depth [t] has clip coordinates
    [t(2u-1), t(2v-1)] and [w = t], and the near and far planes go to [-w] and
    [w]; an empty or inverted frustum leaves the matrix alone. *)
Theorem frustum_spec (l r b t n f u v : R) :
  (0 < n -> 0 < f -> l < r -> b < t -> n < f ->
   let at_depth d := apply (d / n * (l + u * (r - l)), d / n * (b + v * (t - b)), - d, 1)
                       (ksFrustum I4 l r b t n f) in
   at_depth n = (n * (2 * u - 1), n * (2 * v - 1), - n, n) /\
   at_depth f = (f * (2 * u - 1), f * (2 * v - 1), f, f)) /\
  (n <= 0 \/ f <= 0 \/ r <= l \/ t <= b \/ f <= n ->
   forall m : Mat, ksFrustum m l r b t n f = m).
Proof.
  unfold ksFrustum; split.
  - intros Hn Hf Hx Hy Hz.
    rewrite !fle_false by (simpl; lra); cbn [orb]; cbv zeta.
    rewrite mult_id_r; unfold apply, row_mul, two; simpl.
    split; repeat f_equal; field; lra.
  - intros H m.
    assert (fleb n fzero || fleb f fzero || fleb (fsub r l) fzero || fleb (fsub t b) fzero
            || fleb (fsub f n) fzero = true) as ->; [|done].
    simpl; repeat destruct (Rle_dec _ _); try reflexivity; exfalso; lra.
Qed.

(** [ksOrtho] maps the view box to the clip cube, near plane to -1 and far
    plane to 1, and leaves the matrix alone for an empty box. *)
Theorem ortho_spec (l r b t n f u v : R) :
  (l <> r -> b <> t -> n <> f ->
   let at_depth d := apply (l + u * (r - l), b + v * (t - b), - d, 1) (ksOrtho I4 l r b t n f) in
   at_depth n = (2 * u - 1, 2 * v - 1, -1, 1) /\ at_depth f = (2 * u - 1, 2 * v - 1, 1, 1)) /\
  (l = r \/ b = t \/ n = f -> forall m : Mat, ksOrtho m l r b t n f = m).
Proof.
  unfold ksOrtho; split.
  - intros Hx Hy Hz.
    rewrite !feq_false by (simpl; lra); cbn [orb]; cbv zeta.
    rewrite mult_id_r; unfold apply, row_mul, two; simpl.
    split; repeat f_equal; field; lra.
  - intros H m.
    assert (feqb (fsub r l) fzero || feqb (fsub t b) fzero || feqb (fsub f n) fzero = true)
      as ->; [|done].
    simpl; repeat destruct (Req_dec_T _ _); try reflexivity; exfalso; lra.
Qed.

(** The third component of [ksCrossProduct] is identically zero (its second
    term repeats the first), so it is the cross product only of vectors whose
    cross product lies in the xy-plane, and in general is not orthogonal to its
    arguments. *)
Theorem cross_product_flat (a b : Vec) :
  z (ksCrossProduct a b) = 0 /\
  (x a * y b <> y a * x b -> z (ksCrossProduct a b) <> x a * y b - y a * x b) /\
  (exists c d : Vec, x c * x (ksCrossProduct c d) + y c * y (ksCrossProduct c d)
                      + z c * z (ksCrossProduct c d) <> 0).
Proof.
  simpl; split_and!; [ring|intros H E; apply H; lra|].
  exists (mkVec 1 1 1), (mkVec 0 1 0); simpl; lra.
Qed.

Example next_pot_640 : ksNextPot 640 = 1024%Z /\ ksNextPot 1 = 1%Z /\ ksNextPot 0 = 0%Z.
Proof. vm_compute; done. Qed.

(** The binary32 instance evaluates: a translation of the scaled identity. *)
Example f32_translate :
  m30 (ksTranslate (ksScale (@ksMatrixLoadIdentity _ F32_Scalar) (F32.of_Z 2) (F32.of_Z 2)
         (F32.of_Z 1)) (F32.of_Z 3) (F32.of_Z 1) (F32.of_Z 0)) = F32.of_Z 6.
Proof. vm_compute; reflexivity. Qed.

(** In the floats of the code powers of two on a diagonal are inverted exactly; the
    cofactors of 1e-16 times the identity vanish, and so does its determinant: 0 is
    returned for a matrix that has an inverse. *)
Definition flt32 (n : Z) : spec_float := F32.of_Z n.
Definition diagonal (a b c d : spec_float) : KSMatrix4 spec_float :=
  let o := flt32 0%Z in mkMat a o o o  o b o o  o o c o  o o o d.
Definition same32 (r r' : KSMatrix4 spec_float) : bool :=
  let l (r : KSMatrix4 spec_float) := [m00 r; m01 r; m02 r; m03 r; m10 r; m11 r; m12 r; m13 r; m20 r; m21 r; m22 r; m23 r; m30 r; m31 r; m32 r; m33 r] in
  forallb (fun '(a, b) => SFeqb a b) (zip (l r) (l r')).
Example powers_inverted :
  let q n := F32.div (flt32 1%Z) (flt32 n) in
  let '(inv, ok) := invert32 (diagonal (flt32 0%Z) (flt32 0%Z) (flt32 0%Z) (flt32 0%Z))
                             (diagonal (flt32 2%Z) (flt32 4%Z) (flt32 8%Z) (flt32 1%Z)) in
  same32 inv (diagonal (q 2%Z) (q 4%Z) (q 8%Z) (q 1%Z)) = true /\ ok = 1%Z.
Proof. vm_compute; split; reflexivity. Qed.
Theorem tiny_not_inverted out : let tiny := F32.div (flt32 1%Z) (flt32 10000000000000000%Z) in
  invert32 out (diagonal tiny tiny tiny tiny) = (out, 0%Z) /\ SFltb (flt32 0%Z) tiny = true.
Proof. vm_compute; split; reflexivity. Qed.

Lemma next_pot_witness : exists k, ksNextPot 640 = (2 ^ k)%Z.
Proof. destruct (next_pot 640 ltac:(lia)) as (k & _ & H & _); exists k; exact H. Defined.

Lemma invert_spec_witness : exists inv : Mat, ksInvert I4 I4 = (inv, 1%Z).
Proof.
  destruct (proj1 (invert_spec I4 I4)) as (i & H & _); [cofactors; simpl; lra|].
  exists i; exact H.
Defined.
Lemma rotate_orthogonal_witness : ksRotate I4 90 0 0 0 = I4.
Proof. apply (proj1 (rotate_orthogonal I4 90 0 0 0)); auto. Defined.
Lemma frustum_spec_witness : ksFrustum I4 (-1) 1 (-1) 1 2 1 = I4.
Proof. apply (proj2 (frustum_spec (-1) 1 (-1) 1 2 1 0 0)); lra. Defined.
Lemma ortho_spec_witness : ksOrtho I4 1 1 0 1 0 1 = I4.
Proof. apply (proj2 (ortho_spec 1 1 0 1 0 1 0 0)); auto. Defined.
Lemma cross_product_flat_witness :
  z (ksCrossProduct (mkVec 1 0 0) (mkVec 0 1 0)) <> 1 * 1 - 0 * 0.
Proof. exact (proj1 (proj2 (cross_product_flat (mkVec 1 0 0) (mkVec 0 1 0))) ltac:(simpl; lra)). Defined.

End GLESMath.
