(* ===== verification/P2PConnector.v ===== *)
(** The peer-to-peer session layer: JAP2PManager (gles/Network/JAP2PManager.cpp
    and .h) and its kp2p implementation JAP2PConnector2
    (gles/Network/JAP2PConnector2.cpp).  A connector is a record; the kp2p SDK is
    a parameter that answers each call from the calls made so far, and calls and
    callbacks are recorded in order.  Pointers are integers, 0 is null; the
    mutexes count locks minus unlocks. *)
From stdpp Require Import gmap.
From S2P Require Import Prelude LinkedList.

Module P2P.

(** ** Data *)

Definition CTX_TYPE_LIVE : Z := 0.
Definition CTX_TYPE_PLAYBACk : Z := 1.
Definition CTX_TYPE_TALK : Z := 2.
Definition CTX_TYPE_GLOBAL : Z := 3.
Definition UNSET : Z := 0x12345678.
Definition JA_CONNECT_ERROR_UNKNOW : Z := 100.
Definition KCP_P2P : Z := 1.
Definition JAP2P_REC_FILES_MAX : Z := 200.

(** [NEWP2PCTX]. *)
Record NEWP2PCTX := mkCtx { ctx : Z; index : Z; type : Z }.
#[global] Instance NEWP2PCTX_eq_dec : EqDecision NEWP2PCTX.
Proof. solve_decision. Defined.

(** A fixed-size character array filled by [strncpy]: the bytes stored before
    the first terminator; full when as long as the array. *)
Abbreviation cstr := (list Z).

(** Calls into the kp2p SDK. *)
Inductive call :=
| KCreate
| KClose (h : Z)
| KConnect2 (h : Z) (devid ipaddr : option cstr) (port : Z) (verify : cstr)
| KConnect (h : Z) (devid ipaddr : option cstr) (port : Z)
| KLogin (h : Z) (user pwd : cstr)
| KOpenStream (h channel stream : Z)
| KCloseStream (h channel stream : Z)
| KPtzCtrl (h channel action p1 p2 : Z)
| KRemoteSetup (h : Z) (buf : cstr)
| KFindStart (h chn_count : Z) (chn : list Z) (start end_ type : Z)
| KFindCount (h : Z)
| KFindNext (h : Z)
| KFindStop (h : Z)
| KPlayStart (h chn_count : Z) (chn : list Z) (start end_ type : Z)
| KPlayPause (h : Z)
| KPlayContinue (h : Z)
| KPlayStop (h : Z)
| KSearch
| KTalkCall (h channel : Z)
| KTalkSend (h : Z) (data : cstr)
| KTalkHangup (h : Z).

(** What the application sees: callbacks invoked with a context. *)
Inductive event :=
| EvCall (c : call)
| EvConnect (conn_type : cstr) (ctx : Z)
| EvDisconnect (ret ctx : Z)
| EvLoginResult (ret ctx : Z)
| EvPtzResult (ret ctx : Z)
| EvOpenChannel (channel stream ctx : Z)
| EvRecvFrame (media_type frame_type size ctx : Z)
| EvRecvFrameEx (frame_type channel ctx : Z)
| EvRecvRecFrame (frame_type channel timestamp gentime ctx : Z)
| EvVconRecv2 (size ctx : Z)
| EvP2PError (size ctx : Z).

Record rec_file := mkRec {
  r_channel : Z; r_type : Z; r_begin_time : Z; r_end_time : Z; r_quality : Z
}.

(** The members of JAP2PManager and JAP2PConnector2 that the methods use, the
    lock balance and the trace. *)
Record conn := mkConn {
  mHandle : Z;
  mConnectResult : Z;
  mLoginResult : Z;
  mPlayChannel : Z;
  mDoneDisconnect : bool;
  _ctx : list NEWP2PCTX;
  mDeviceID : cstr;
  mIP : cstr;
  mPort : Z;
  mUse : Z;
  _lock : Z;
  trace : list event
}.

(** ** State updates *)

Definition set_handle (c : conn) (h : Z) : conn :=
  mkConn h (mConnectResult c) (mLoginResult c) (mPlayChannel c) (mDoneDisconnect c) (_ctx c)
    (mDeviceID c) (mIP c) (mPort c) (mUse c) (_lock c) (trace c).
Definition set_results (c : conn) (cr lr : Z) : conn :=
  mkConn (mHandle c) cr lr (mPlayChannel c) (mDoneDisconnect c) (_ctx c)
    (mDeviceID c) (mIP c) (mPort c) (mUse c) (_lock c) (trace c).
Definition set_done (c : conn) (b : bool) : conn :=
  mkConn (mHandle c) (mConnectResult c) (mLoginResult c) (mPlayChannel c) b (_ctx c)
    (mDeviceID c) (mIP c) (mPort c) (mUse c) (_lock c) (trace c).
Definition set_ctx (c : conn) (l : list NEWP2PCTX) : conn :=
  mkConn (mHandle c) (mConnectResult c) (mLoginResult c) (mPlayChannel c) (mDoneDisconnect c) l
    (mDeviceID c) (mIP c) (mPort c) (mUse c) (_lock c) (trace c).
Definition set_play (c : conn) (ch : Z) : conn :=
  mkConn (mHandle c) (mConnectResult c) (mLoginResult c) ch (mDoneDisconnect c) (_ctx c)
    (mDeviceID c) (mIP c) (mPort c) (mUse c) (_lock c) (trace c).
Definition set_addr (c : conn) (d i : cstr) (p : Z) : conn :=
  mkConn (mHandle c) (mConnectResult c) (mLoginResult c) (mPlayChannel c) (mDoneDisconnect c)
    (_ctx c) d i p (mUse c) (_lock c) (trace c).
Definition set_use (c : conn) (n : Z) : conn :=
  mkConn (mHandle c) (mConnectResult c) (mLoginResult c) (mPlayChannel c) (mDoneDisconnect c)
    (_ctx c) (mDeviceID c) (mIP c) (mPort c) n (_lock c) (trace c).
Definition set_lock (c : conn) (n : Z) : conn :=
  mkConn (mHandle c) (mConnectResult c) (mLoginResult c) (mPlayChannel c) (mDoneDisconnect c)
    (_ctx c) (mDeviceID c) (mIP c) (mPort c) (mUse c) n (trace c).
Definition emit (c : conn) (e : event) : conn :=
  mkConn (mHandle c) (mConnectResult c) (mLoginResult c) (mPlayChannel c) (mDoneDisconnect c)
    (_ctx c) (mDeviceID c) (mIP c) (mPort c) (mUse c) (_lock c) (trace c ++ [e]).

Definition Lock (c : conn) : conn := set_lock c (_lock c + 1).
Definition UnLock (c : conn) : conn := set_lock c (_lock c - 1).

(** ** JAP2PManager *)

(** [strncpy(mDeviceID, devid, 20)] and [strncpy(mIP, ipaddr, 80)]. *)
Definition copy_addr (c : conn) (devid ipaddr : option cstr) (port : Z) : conn :=
  set_addr c
    (match devid with Some d => take 20 d | None => mDeviceID c end)
    (match ipaddr with Some i => take 80 i | None => mIP c end)
    (if port =? 0 then mPort c else i16 port).

Definition UpdateProperty (c : conn) (devid ipaddr : option cstr) (port : Z) : conn :=
  copy_addr c devid ipaddr port.

(** [tolower] on the ASCII letters, and [strcasecmp(a, b) == 0]. *)
Definition tolower (ch : Z) : Z := if (65 <=? ch) && (ch <=? 90) then ch + 32 else ch.
Definition strcaseeq (a b : cstr) : bool := bool_decide (map tolower a = map tolower b).

(** Reading a full array runs into the member behind it: [mDeviceID] into [mIP],
    [mIP] into [mPort]. *)
Definition ip_string (c : conn) : outcome cstr :=
  if (length (mIP c) <? 80)%nat then Done (mIP c) else Fault.
Definition devid_string (c : conn) : outcome cstr :=
  if (length (mDeviceID c) <? 20)%nat then Done (mDeviceID c)
  else let* ip := ip_string c in Done (mDeviceID c ++ ip).

Definition CompareConnectStr (c : conn) (devid ipaddr : cstr) (port : Z) : outcome bool :=
  let* d := devid_string c in
  match d with
  | [] =>
      let* i := ip_string c in
      match i with
      | [] => Done false
      | _ => Done (strcaseeq ipaddr i && (mPort c =? port))
      end
  | _ => Done (strcaseeq devid d)
  end.

Definition UpdateUse (c : conn) (add : bool) : conn :=
  let n := if add then mUse c + 1 else mUse c - 1 in
  set_use c (if n <? 0 then 0 else n).

Definition GetUse (c : conn) : Z := mUse c.
Definition GetHandle (c : conn) : Z := mHandle c.

(** ** JAP2PConnector2 *)

(** The table [ptzexch]: (JA_PTZ_CMD, kp2p action). *)
Definition ptzexch : list (Z * Z) :=
  [(0, 2); (1, 3); (2, 4); (3, 5); (8, 1); (9, 6); (10, 7); (11, 8); (12, 9); (13, 10);
   (14, 11); (15, 0); (26, 12); (28, 13); (29, 15); (30, 14)].
Fixpoint ptz_lookup (t : list (Z * Z)) (cmd : Z) : Z :=
  match t with
  | [] => 0
  | (old, new) :: t => if old =? cmd then new else ptz_lookup t cmd
  end.
Definition getnewptzcmd (cmd : Z) : Z := ptz_lookup ptzexch cmd.

(** The context list: [GetCtx] returns the first match, null when there is none;
    [DelCtx] unlinks the first match. *)
Definition matches (channel t : Z) (e : NEWP2PCTX) : bool :=
  (index e =? channel) && (type e =? t).

Fixpoint find_ctx (channel t : Z) (l : list NEWP2PCTX) : Z :=
  match l with
  | [] => 0
  | e :: l => if matches channel t e then ctx e else find_ctx channel t l
  end.
Definition GetCtx (c : conn) (channel t : Z) : Z := find_ctx channel t (_ctx c).

Definition AddCtx (c : conn) (p channel t : Z) : conn :=
  if GetCtx c channel t =? p then c
  else set_ctx c (CList.insert (-1) (mkCtx p channel t) (_ctx c)).

(** The first element that satisfies [f], and the list without it. *)
Fixpoint extract (f : NEWP2PCTX -> bool) (l : list NEWP2PCTX) : option NEWP2PCTX * list NEWP2PCTX :=
  match l with
  | [] => (None, [])
  | e :: l =>
      if f e then (Some e, l)
      else let '(r, l') := extract f l in (r, e :: l')
  end.
Definition DelCtx (c : conn) (channel t : Z) : conn :=
  set_ctx c (snd (extract (matches channel t) (_ctx c))).

Section Sdk.
(** The SDK's answer to a call, given the events so far. *)
Context (sdk : list event -> call -> Z).

Definition kcall (c : conn) (k : call) : conn * Z :=
  (emit c (EvCall k), sdk (trace c) k).

Definition createP2PHandle (c : conn) (p : Z) : conn * Z :=
  let c := Lock c in
  if negb (mHandle c =? 0) && negb (mDoneDisconnect c) then (UnLock c, mHandle c)
  else
    let c :=
      if mDoneDisconnect c && negb (mHandle c =? 0)
      then set_done (fst (kcall c (KClose (mHandle c)))) false
      else c in
    let c := AddCtx c p 0 CTX_TYPE_GLOBAL in
    let '(c, h) := kcall c KCreate in
    (UnLock (set_handle c h), h).

Definition connect2 (c : conn) (devid ipaddr : option cstr) (port : Z) (verify : cstr)
  : conn * Z :=
  if mHandle c =? 0 then (c, -1)
  else
    let h := mHandle c in
    let c := Lock c in
    if negb (mConnectResult c =? UNSET) then (UnLock c, mConnectResult c)
    else
      let c := copy_addr c devid ipaddr port in
      let '(c, ret) := kcall c (KConnect2 h devid ipaddr port verify) in
      (UnLock (set_results c ret (mLoginResult c)), ret).

Definition connect3 (c : conn) (devid ipaddr : option cstr) (port : Z) : conn * Z :=
  if mHandle c =? 0 then (c, -1)
  else
    let h := mHandle c in
    let c := Lock c in
    if negb (mConnectResult c =? UNSET) then (UnLock c, mConnectResult c)
    else
      let c := copy_addr c devid ipaddr port in
      let '(c, ret) := kcall c (KConnect h devid ipaddr port) in
      (UnLock (set_results c ret (mLoginResult c)), ret).

(** [has_cb]: the application set [OnDisconnect]. *)
Fixpoint notify_disconnect (c : conn) (ret : Z) (has_cb : bool) (l : list NEWP2PCTX) : conn :=
  match l with
  | [] => c
  | e :: l =>
      notify_disconnect
        (if negb (type e =? CTX_TYPE_GLOBAL) && has_cb then emit c (EvDisconnect ret (ctx e)) else c)
        ret has_cb l
  end.
Definition ResetConnection (c : conn) (ret : Z) (has_cb : bool) : conn :=
  let c := notify_disconnect c ret has_cb (_ctx c) in
  set_done (set_results c UNSET UNSET) true.

Definition closeP2P (c : conn) : conn :=
  if mHandle c =? 0 then c
  else
    let c := Lock c in
    let '(c, _) := kcall c (KClose (mHandle c)) in
    UnLock (set_ctx (set_results (set_handle c 0) UNSET UNSET) []).

Definition loginP2P (c : conn) (user pwd : cstr) : conn * Z :=
  if mHandle c =? 0 then (c, JA_CONNECT_ERROR_UNKNOW)
  else
    let h := mHandle c in
    let c := Lock c in
    if negb (mLoginResult c =? UNSET) then (UnLock c, mLoginResult c)
    else
      let '(c, ret) := kcall c (KLogin h user pwd) in
      (UnLock (set_results c (mConnectResult c) ret), ret).

Definition openChannel (c : conn) (nChannelId nStreamId bOpen p : Z) : conn * Z :=
  if mHandle c =? 0 then (c, -1)
  else
    let h := mHandle c in
    let c := Lock c in
    if bOpen =? 1 then
      let '(old, rest) := extract
        (fun e => (ctx e =? p) && (type e =? CTX_TYPE_LIVE) && negb (index e =? nChannelId)) (_ctx c) in
      let c :=
        match old with
        | None => c
        | Some e =>
            let c := set_ctx c rest in
            let '(c, _) := kcall c (KCloseStream h (index e) 1) in
            fst (kcall c (KCloseStream h (index e) 0))
        end in
      let c := AddCtx c p nChannelId CTX_TYPE_LIVE in
      let '(c, ret) := kcall c (KOpenStream h nChannelId nStreamId) in
      (UnLock c, ret)
    else
      let c := DelCtx c nChannelId CTX_TYPE_LIVE in
      let '(c, ret) := kcall c (KCloseStream h nChannelId nStreamId) in
      (UnLock c, ret).

(** The methods that forward one call under the lock. *)
Definition locked_call (c : conn) (k : call) : conn * Z :=
  let '(c, ret) := kcall (Lock c) k in (UnLock c, ret).

Definition ptzCtrl (c : conn) (nChannel act param1 param2 : Z) : conn * Z :=
  if mHandle c =? 0 then (c, -1)
  else locked_call c (KPtzCtrl (mHandle c) nChannel (getnewptzcmd act) param1 param2).
Definition getChannelCnt (c : conn) : Z := if mHandle c =? 0 then -1 else 0.
Definition vconCreate (c : conn) (appName : cstr) : Z := 0.
Definition vconSend (c : conn) (buf : cstr) : conn * Z :=
  if mHandle c =? 0 then (c, -1) else locked_call c (KRemoteSetup (mHandle c) buf).
Definition vconDestroy (c : conn) (vcon_handle : Z) : Z := 0.
Definition findFileTaskStart (c : conn) (chn : list Z) (chn_count start end_ t : Z) : conn * Z :=
  if mHandle c =? 0 then (c, -1)
  else locked_call c (KFindStart (mHandle c) chn_count chn start end_ (u8 t)).
Definition findFileCnt (c : conn) (h : Z) : conn * Z := locked_call c (KFindCount h).
Definition findFileTaskClose (c : conn) (h : Z) : conn * Z :=
  if h =? 0 then (c, -2) else locked_call c (KFindStop h).
Definition playBackPause (c : conn) (h : Z) : conn * Z :=
  if h =? 0 then (c, -2) else locked_call c (KPlayPause h).
Definition playBackContinue (c : conn) (h : Z) : conn * Z :=
  if h =? 0 then (c, -2) else locked_call c (KPlayContinue h).
Definition playBackSeek (c : conn) (h : Z) : Z := if h =? 0 then -2 else -1.
Definition searchDevice (c : conn) : conn * Z := locked_call c KSearch.
Definition call_ (c : conn) (chn : Z) : conn * Z :=
  if mHandle c =? 0 then (c, -1) else locked_call c (KTalkCall (mHandle c) chn).
Definition talkSend (c : conn) (data : cstr) : conn * Z :=
  if mHandle c =? 0 then (c, -1) else locked_call c (KTalkSend (mHandle c) data).
Definition pullAlarm (c : conn) (t ch ticket : Z) : Z := -1.
Definition hangup (c : conn) : conn * Z :=
  if mHandle c =? 0 then (c, -1) else locked_call c (KTalkHangup (mHandle c)).

(** [*chn] is the first channel: an empty array is an out-of-range read. *)
Definition playBackStart (c : conn) (chn : list Z) (chn_count start end_ t p : Z)
  : outcome (conn * Z) :=
  if mHandle c =? 0 then Done (c, -1)
  else match chn with
  | [] => Fault
  | ch :: _ =>
      let h := mHandle c in
      let c := AddCtx (set_play (Lock c) ch) p ch CTX_TYPE_PLAYBACk in
      let '(c, ret) := kcall c (KPlayStart h chn_count chn start end_ (u8 t)) in
      Done (UnLock c, ret)
  end.
Definition playBackStop (c : conn) (h : Z) : conn * Z :=
  if h =? 0 then (c, -2)
  else
    let c := DelCtx (Lock c) (mPlayChannel c) CTX_TYPE_PLAYBACk in
    let '(c, ret) := kcall c (KPlayStop h) in
    (UnLock c, ret).

(** [findFileNext]: [recs] is what the SDK returns; copying more records than
    the member array holds runs past it.  The file list, or [None] for null. *)
Definition findFileNext (c : conn) (h : Z) (recs : option (list rec_file))
  : outcome (conn * option (list rec_file)) :=
  if h =? 0 then Done (c, None)
  else
    let c := fst (locked_call c (KFindNext h)) in
    match recs with
    | None => Done (c, None)
    | Some rs => if JAP2P_REC_FILES_MAX <? zlen rs then Fault else Done (c, Some rs)
    end.
End Sdk.

(** ** The registry of connectors and the SDK's callbacks *)

(** [g_ListManager] (addresses), [g_listLock], [g_InitP2P_V2], the live objects
    by address, and the number of [kp2p_init] calls. *)
Record world := mkWorld {
  g_ListManager : list Z;
  g_listLock : Z;
  g_InitP2P_V2 : bool;
  heap : gmap Z conn;
  inits : Z
}.

Definition new_conn : conn := mkConn 0 UNSET UNSET 0 false [] [] [] 0 0 0 [].

(** The constructor for the object at address [this]. *)
Definition JAP2PConnector2 (w : world) (this : Z) : world :=
  mkWorld (CList.insert (-1) this (g_ListManager w)) (g_listLock w) (g_InitP2P_V2 w)
    (<[this := new_conn]> (heap w))
    (if g_InitP2P_V2 w then inits w else inits w + 1).

(** The destructor: closes, and the loop removes the first occurrence of [this].
    The world without the object, and the object's last trace. *)
Definition destroy (sdk : list event -> call -> Z) (w : world) (this : Z)
  : outcome (world * list event) :=
  match heap w !! this with
  | None => Fault
  | Some c =>
      let c := if mHandle c =? 0 then c else closeP2P sdk c in
      let i := CList.search this (g_ListManager w) in
      let* l := CList.remove i (g_ListManager w) in
      Done (mkWorld l (g_listLock w) (g_InitP2P_V2 w) (delete this (heap w)) (inits w), trace c)
  end.

(** [GetP2PConnector(mgn)] unlocks [g_listLock] when it finds [mgn]. *)
Definition GetP2PConnector_ptr (w : world) (mgn : Z) : world * bool :=
  if 0 <=? CList.search mgn (g_ListManager w)
  then (mkWorld (g_ListManager w) (g_listLock w - 1) (g_InitP2P_V2 w) (heap w) (inits w), true)
  else (w, false).

(** [GetP2PConnector(handle)]: the first listed connector with that handle. *)
Fixpoint find_handle (h : gmap Z conn) (handle : Z) (l : list Z) : outcome Z :=
  match l with
  | [] => Done 0
  | a :: l =>
      match h !! a with
      | None => Fault
      | Some c => if mHandle c =? handle then Done a else find_handle h handle l
      end
  end.
Definition GetP2PConnector_handle (w : world) (handle : Z) : outcome Z :=
  find_handle (heap w) handle (g_ListManager w).

Definition put (w : world) (a : Z) (c : conn) : world :=
  mkWorld (g_ListManager w) (g_listLock w) (g_InitP2P_V2 w) (<[a := c]> (heap w)) (inits w).

(** The frame of every SDK callback but one: nothing for an unlisted connector,
    else [body] on the object. *)
Definition guarded (w : world) (mgn : Z) (body : conn -> conn) : outcome world :=
  let '(w, found) := GetP2PConnector_ptr w mgn in
  if found then
    match heap w !! mgn with
    | None => Fault
    | Some c => Done (put w mgn (body c))
    end
  else Done w.

(** [cb] says which application callback is set. *)
Definition OnKConnect (w : world) (mgn : Z) (cb : bool) (conn_type : cstr) : outcome world :=
  guarded w mgn (fun c =>
    if cb then emit c (EvConnect conn_type (GetCtx c 0 CTX_TYPE_GLOBAL)) else c).
Definition OnKDisconnect (w : world) (mgn : Z) (cb : bool) (ret : Z) : outcome world :=
  guarded w mgn (fun c =>
    if cb then ResetConnection (emit c (EvDisconnect ret (GetCtx c 0 CTX_TYPE_GLOBAL))) ret cb
    else c).
Definition OnKLoginResult (w : world) (mgn : Z) (cb : bool) (ret : Z) : outcome world :=
  guarded w mgn (fun c =>
    if cb then emit c (EvLoginResult ret (GetCtx c 0 CTX_TYPE_GLOBAL)) else c).
Definition OnKOpenChannel (w : world) (mgn : Z) (cb : bool) (channel stream : Z) : outcome world :=
  guarded w mgn (fun c =>
    if cb then emit c (EvOpenChannel channel stream (GetCtx c (i32 channel) CTX_TYPE_LIVE)) else c).
Definition OnKRecvFrame (w : world) (mgn : Z) (cb : bool) (media_type frame_type size : Z)
  : outcome world :=
  guarded w mgn (fun c =>
    if cb then emit c (EvRecvFrame media_type frame_type size (GetCtx c 0 CTX_TYPE_LIVE)) else c).
Definition OnKRecvFrameEx (w : world) (mgn : Z) (cb : bool) (frame_type channel : Z)
  : outcome world :=
  guarded w mgn (fun c =>
    if cb then
      let channel := if frame_type =? 15 then 0 else channel in
      emit c (EvRecvFrameEx frame_type channel (GetCtx c (i32 channel) CTX_TYPE_LIVE))
    else c).
Definition OnKRecvRecFrame (w : world) (mgn : Z) (cb : bool) (frame_type channel time_stamp : Z)
  : outcome world :=
  guarded w mgn (fun c =>
    if cb then
      emit c (EvRecvRecFrame frame_type channel time_stamp (u32 (time_stamp / 1000))
                (GetCtx c (i32 channel) CTX_TYPE_PLAYBACk))
    else c).
Definition OnKVconRecv (w : world) (mgn : Z) (cb : bool) (size : Z) : outcome world :=
  guarded w mgn (fun c =>
    if cb then emit c (EvVconRecv2 size (GetCtx c 0 CTX_TYPE_GLOBAL)) else c).
Definition OnKRemoteSetup (w : world) (mgn : Z) (cb : bool) (size : Z) : outcome world :=
  guarded w mgn (fun c =>
    if cb then emit c (EvVconRecv2 size (GetCtx c 0 CTX_TYPE_GLOBAL)) else c).
Definition OnKP2PError (w : world) (mgn : Z) (cb : bool) (size : Z) : outcome world :=
  guarded w mgn (fun c =>
    if cb then emit c (EvP2PError size (GetCtx c 0 CTX_TYPE_GLOBAL)) else c).

(** [OnKPtzResult]: the guard [!GetP2PConnector(mgn) && cb] dereferences an
    unlisted [mgn], and calls the callback without a test when it is null. *)
Definition OnKPtzResult (w : world) (mgn : Z) (cb : bool) (ret : Z) : outcome world :=
  let '(w, found) := GetP2PConnector_ptr w mgn in
  match heap w !! mgn with
  | None => Fault
  | Some c =>
      if negb found && cb then Done w
      else if cb then Done (put w mgn (emit c (EvPtzResult ret (GetCtx c 0 CTX_TYPE_GLOBAL))))
      else Fault
  end.

(** ** Sessions: sequences of operations between two resets *)

Inductive op :=
| OpConnect2 (devid ipaddr : option cstr) (port : Z) (verify : cstr)
| OpConnect3 (devid ipaddr : option cstr) (port : Z)
| OpLogin (user pwd : cstr)
| OpOpen (channel stream bOpen ctx : Z)
| OpPtz (channel act p1 p2 : Z)
| OpSend (buf : cstr).

Definition step (sdk : list event -> call -> Z) (c : conn) (o : op) : conn * Z :=
  match o with
  | OpConnect2 d i p v => connect2 sdk c d i p v
  | OpConnect3 d i p => connect3 sdk c d i p
  | OpLogin u p => loginP2P sdk c u p
  | OpOpen ch st b p => openChannel sdk c ch st b p
  | OpPtz ch a p1 p2 => ptzCtrl sdk c ch a p1 p2
  | OpSend b => vconSend sdk c b
  end.
Fixpoint run (sdk : list event -> call -> Z) (c : conn) (os : list op) : conn :=
  match os with [] => c | o :: os => run sdk (fst (step sdk c o)) os end.

Definition is_connect (e : event) : bool :=
  match e with EvCall (KConnect2 _ _ _ _ _) | EvCall (KConnect _ _ _ _) => true | _ => false end.
Definition is_login (e : event) : bool :=
  match e with EvCall (KLogin _ _ _) => true | _ => false end.
Definition count (f : event -> bool) (l : list event) : nat := length (List.filter f l).

(** ** Lemmas *)

Lemma count_app f a b : count f (a ++ b) = (count f a + count f b)%nat.
Proof. unfold count; rewrite List.filter_app, length_app; done. Qed.

Lemma find_ctx_app ch t a b :
  find_ctx ch t (a ++ b) =
  if existsb (matches ch t) a then find_ctx ch t a else find_ctx ch t b.
Proof.
  induction a as [|e a IH]; simpl; [done|].
  destruct (matches ch t e); simpl; [done|exact IH].
Qed.

Lemma find_ctx_none ch t l : existsb (matches ch t) l = false -> find_ctx ch t l = 0.
Proof.
  induction l as [|e l IH]; simpl; [done|].
  destruct (matches ch t e); simpl; [done|exact IH].
Qed.

Lemma matches_self p ch t : matches ch t (mkCtx p ch t) = true.
Proof. unfold matches; simpl; rewrite !Z.eqb_refl; done. Qed.

Lemma AddCtx_ctx c p ch t :
  _ctx (AddCtx c p ch t) = if GetCtx c ch t =? p then _ctx c else _ctx c ++ [mkCtx p ch t].
Proof. unfold AddCtx; case_bool; [done|]; simpl; apply CList.insert_append. Qed.

(** The parts of the state that the context list operations and the SDK calls
    leave alone. *)
Definition session (c : conn) : Z * Z * Z * bool :=
  (mHandle c, mConnectResult c, mLoginResult c, mDoneDisconnect c).

Lemma AddCtx_session c p ch t :
  session (AddCtx c p ch t) = session c /\ trace (AddCtx c p ch t) = trace c /\
  _lock (AddCtx c p ch t) = _lock c.
Proof. unfold AddCtx; case_bool; done. Qed.

Lemma matches_iff ch t e : matches ch t e = true <-> index e = ch /\ type e = t.
Proof. unfold matches; rewrite andb_true_iff, !Z.eqb_eq; done. Qed.

(** [extract] splits the list at the first match. *)
Lemma extract_spec f l :
  match extract f l with
  | (Some e, rest) => exists a b, l = a ++ e :: b /\ rest = a ++ b /\ f e = true /\
                        existsb f a = false
  | (None, rest) => rest = l /\ existsb f l = false
  end.
Proof.
  induction l as [|e l IH]; simpl; [done|].
  destruct (f e) eqn:E; [exists [], l; done|].
  destruct (extract f l) as [[e'|] rest].
  - destruct IH as (a & b & -> & -> & H1 & H2); exists (e :: a), b; simpl; rewrite E; done.
  - destruct IH as [-> ->]; done.
Qed.

(** ** Connecting and logging in *)

Lemma openChannel_session sdk c ch st b p :
  let c' := fst (openChannel sdk c ch st b p) in
  mHandle c' = mHandle c /\ mDoneDisconnect c' = mDoneDisconnect c /\ _lock c' = _lock c /\
  exists new, trace c' = trace c ++ new /\
  ((mConnectResult c' = mConnectResult c /\ count is_connect new = O) \/
   (mConnectResult c = UNSET /\ mConnectResult c' <> UNSET /\ count is_connect new = 1%nat)) /\
  ((mLoginResult c' = mLoginResult c /\ count is_login new = O) \/
   (mLoginResult c = UNSET /\ mLoginResult c' <> UNSET /\ count is_login new = 1%nat)).
Proof.
  unfold openChannel; destruct (mHandle c =? 0).
  { simpl; split_and!; try done; exists []; rewrite app_nil_r; auto. }
  destruct (b =? 1).
  - destruct (extract _ _) as [[e|] rest]; simpl fst.
    + match goal with |- context [AddCtx ?c1 ?q ?x ?t] =>
        pose proof (AddCtx_session c1 q x t) as (H1 & H2 & H3); set (c2 := AddCtx c1 q x t) in * end.
      unfold session in H1; simpl in *; simplify_eq.
      split_and!; try congruence; try (rewrite H3; lia).
      eexists; split; [rewrite H2, <- !app_assoc; reflexivity|]; split; left; split; congruence || done.
    + match goal with |- context [AddCtx ?c1 ?q ?x ?t] =>
        pose proof (AddCtx_session c1 q x t) as (H1 & H2 & H3); set (c2 := AddCtx c1 q x t) in * end.
      unfold session in H1; simpl in *; simplify_eq.
      split_and!; try congruence; try (rewrite H3; lia).
      eexists; split; [rewrite H2; reflexivity|]; split; left; split; congruence || done.
  - simpl; split_and!; try done; try lia.
    eexists; split; [reflexivity|]; split; left; done.
Qed.

Section Once.
Context (sdk : list event -> call -> Z).
Hypothesis Hsdk : forall tr k, sdk tr k <> UNSET.

(** What one step does to the session: handle and flags stay, the locks balance,
    and a connect or login is issued only while its result is unset. *)
Lemma step_session c o :
  let c' := fst (step sdk c o) in
  mHandle c' = mHandle c /\ mDoneDisconnect c' = mDoneDisconnect c /\ _lock c' = _lock c /\
  exists new, trace c' = trace c ++ new /\
  ((mConnectResult c' = mConnectResult c /\ count is_connect new = O) \/
   (mConnectResult c = UNSET /\ mConnectResult c' <> UNSET /\ count is_connect new = 1%nat)) /\
  ((mLoginResult c' = mLoginResult c /\ count is_login new = O) \/
   (mLoginResult c = UNSET /\ mLoginResult c' <> UNSET /\ count is_login new = 1%nat)).
Proof.
  destruct o as [d i p v|d i p|us pw|ch st b p|ch a p1 p2|bf]; cbn [step].
  - unfold connect2; destruct (mHandle c =? 0); [simpl; split_and!; try done; exists []; rewrite app_nil_r; auto|].
    simpl mConnectResult; destruct (mConnectResult c =? UNSET) eqn:E; cbn [negb];
      simpl; split_and!; try done; try lia; [|exists []; rewrite app_nil_r; auto].
    eexists; split; [reflexivity|]; split; [right|left; done].
    split_and!; [lia|apply Hsdk|done].
  - unfold connect3; destruct (mHandle c =? 0); [simpl; split_and!; try done; exists []; rewrite app_nil_r; auto|].
    simpl mConnectResult; destruct (mConnectResult c =? UNSET) eqn:E; cbn [negb];
      simpl; split_and!; try done; try lia; [|exists []; rewrite app_nil_r; auto].
    eexists; split; [reflexivity|]; split; [right|left; done].
    split_and!; [lia|apply Hsdk|done].
  - unfold loginP2P; destruct (mHandle c =? 0); [simpl; split_and!; try done; exists []; rewrite app_nil_r; auto|].
    simpl mLoginResult; destruct (mLoginResult c =? UNSET) eqn:E; cbn [negb];
      simpl; split_and!; try done; try lia; [|exists []; rewrite app_nil_r; auto].
    eexists; split; [reflexivity|]; split; [left; done|right].
    split_and!; [lia|apply Hsdk|done].
  - apply openChannel_session.
  - unfold ptzCtrl; destruct (mHandle c =? 0); simpl; split_and!; try done; try lia;
      [exists []; rewrite app_nil_r; auto|].
    eexists; split; [reflexivity|]; split; left; done.
  - unfold vconSend; destruct (mHandle c =? 0); simpl; split_and!; try done; try lia;
      [exists []; rewrite app_nil_r; auto|].
    eexists; split; [reflexivity|]; split; left; done.
Qed.
End Once.


(** ** The live contexts as a map from channels to contexts *)

Definition live (l : list NEWP2PCTX) : list (Z * Z) :=
  omap (fun e => if type e =? CTX_TYPE_LIVE then Some (index e, ctx e) else None) l.
Definition live_map (c : conn) : gmap Z Z := list_to_map (live (_ctx c)).

(** Each live context sits on one channel, each live channel has one context. *)
Definition Routing (c : conn) : Prop :=
  NoDup (live (_ctx c)).*1 /\ NoDup (live (_ctx c)).*2.

Lemma live_app a b : live (a ++ b) = live a ++ live b.
Proof. apply omap_app. Qed.

Lemma live_elem l k v : (k, v) ∈ live l <-> exists e, e ∈ l /\ type e = CTX_TYPE_LIVE /\ index e = k /\ ctx e = v.
Proof.
  unfold live; rewrite list_elem_of_omap; split.
  - intros (e & H1 & H2); destruct (Z.eqb_spec (type e) CTX_TYPE_LIVE); simplify_eq; exists e; done.
  - intros (e & H1 & H2 & <- & <-); exists e; rewrite H2; done.
Qed.

Lemma GetCtx_live c ch : GetCtx c ch CTX_TYPE_LIVE = default 0 (live_map c !! ch).
Proof.
  unfold GetCtx, live_map; induction (_ctx c) as [|e l IH]; [done|].
  cbn [find_ctx]; unfold live; cbn [omap list_omap]; fold (live l).
  unfold matches; destruct (type e =? CTX_TYPE_LIVE) eqn:E.
  - rewrite andb_true_r; simpl; destruct (Z.eqb_spec (index e) ch) as [->|N].
    + rewrite lookup_insert; simpl; case_decide; done.
    + rewrite lookup_insert_ne by done; exact IH.
  - rewrite andb_false_r; exact IH.
Qed.

Lemma live_map_spec c k v : Routing c -> (live_map c !! k = Some v <-> (k, v) ∈ live (_ctx c)).
Proof. intros [H _]; symmetry; apply elem_of_list_to_map; done. Qed.

(** Removing a live element from the list. *)
Lemma live_remove a e b :
  type e = CTX_TYPE_LIVE -> live (a ++ e :: b) = live a ++ (index e, ctx e) :: live b.
Proof. intros H; rewrite live_app; unfold live at 2; cbn [omap list_omap]; rewrite H; done. Qed.

Lemma NoDup_mid {A} (a b : list A) x : NoDup (a ++ x :: b) -> NoDup (a ++ b) /\ x ∉ a ++ b.
Proof.
  intros H; assert (HP : NoDup (x :: a ++ b)) by (rewrite Permutation_middle; exact H).
  apply list.NoDup_cons in HP; tauto.
Qed.

(** What [openChannel] leaves in the context list. *)
Definition evicts (p ch : Z) (e : NEWP2PCTX) : bool :=
  (ctx e =? p) && (type e =? CTX_TYPE_LIVE) && negb (index e =? ch).

Lemma open_ctx sdk c ch st p :
  mHandle c <> 0 ->
  let rest := snd (extract (evicts p ch) (_ctx c)) in
  _ctx (fst (openChannel sdk c ch st 1 p)) =
  if find_ctx ch CTX_TYPE_LIVE rest =? p then rest else rest ++ [mkCtx p ch CTX_TYPE_LIVE].
Proof.
  intros Hh rest; unfold openChannel; apply Z.eqb_neq in Hh; rewrite Hh; rewrite Z.eqb_refl.
  fold (evicts p ch); pose proof (extract_spec (evicts p ch) (_ctx c)) as HE.
  subst rest; simpl; destruct (extract (evicts p ch) (_ctx c)) as [[e|] rest]; simpl.
  - rewrite AddCtx_ctx; done.
  - destruct HE as [-> _]; rewrite AddCtx_ctx; done.
Qed.

Lemma evicts_iff p ch e :
  evicts p ch e = true <-> ctx e = p /\ type e = CTX_TYPE_LIVE /\ index e <> ch.
Proof. unfold evicts; rewrite !andb_true_iff, negb_true_iff, !Z.eqb_eq, Z.eqb_neq; tauto. Qed.

Lemma existsb_false_elem {A} (f : A -> bool) l x : existsb f l = false -> x ∈ l -> f x = false.
Proof.
  intros H Hx; destruct (f x) eqn:E; [|done].
  assert (existsb f l = true) by (apply existsb_exists; exists x; rewrite <- list_elem_of_In; done).
  congruence.
Qed.

(** Taking the first live element that satisfies [f] out of the list. *)
Lemma extract_live f l :
  (forall e, f e = true -> type e = CTX_TYPE_LIVE) ->
  NoDup (live l).*1 -> NoDup (live l).*2 ->
  NoDup (live (snd (extract f l))).*1 /\ NoDup (live (snd (extract f l))).*2 /\
  match fst (extract f l) with
  | Some e => f e = true /\
      (forall k v, (k, v) ∈ live (snd (extract f l)) <-> (k, v) ∈ live l /\ k <> index e) /\
      (forall k v, (k, v) ∈ live (snd (extract f l)) <-> (k, v) ∈ live l /\ v <> ctx e)
  | None => snd (extract f l) = l /\ existsb f l = false
  end.
Proof.
  intros Hf H1 H2; pose proof (extract_spec f l) as HE.
  destruct (extract f l) as [[e|] rest]; simpl.
  - destruct HE as (a & b & -> & -> & He & _); pose proof (Hf e He) as Ht.
    rewrite live_remove in H1, H2 |- * by done; rewrite live_app.
    rewrite fmap_app, fmap_cons in H1, H2.
    apply NoDup_mid in H1 as [H1 N1], H2 as [H2 N2].
    rewrite <- fmap_app in H1, H2, N1, N2; do 3 (split; [done|]).
    assert (NK : forall k v, (k, v) ∈ live a ++ live b -> k <> index e /\ v <> ctx e).
    { intros k v Hk; split; intros ->; [apply N1|apply N2];
        apply list_elem_of_fmap; eexists; (split; [|exact Hk]); done. }
    setoid_rewrite elem_of_app; setoid_rewrite elem_of_cons; setoid_rewrite elem_of_app in NK.
    split; intros k v; (split; [intros Hk; pose proof (NK k v Hk); tauto|]);
      intros [[?|[Heq|?]] Hv]; try tauto; simplify_eq; tauto.
  - destruct HE as [-> HE]; done.
Qed.

(** The live pairs left after evicting [p] from its other channel. *)
Lemma evict_live l p ch :
  NoDup (live l).*1 -> NoDup (live l).*2 ->
  let rest := snd (extract (evicts p ch) l) in
  NoDup (live rest).*1 /\ NoDup (live rest).*2 /\
  forall k v, (k, v) ∈ live rest <-> (k, v) ∈ live l /\ (v <> p \/ k = ch).
Proof.
  intros H1 H2 rest; subst rest.
  destruct (extract_live (evicts p ch) l) as (N1 & N2 & HE); [|done..|].
  { intros e He; apply evicts_iff in He; tauto. }
  split_and!; [done..|]; destruct (fst (extract (evicts p ch) l)) as [e|]; intros k v.
  - destruct HE as (He & HE1 & HE2); apply evicts_iff in He as (Hc & Ht & Hi); subst p; split.
    + intros Hk; apply HE2 in Hk; tauto.
    + intros [Hin [Hv| ->]]; [apply HE2|apply HE1]; auto.
  - destruct HE as [-> HE]; split; [|tauto].
    intros Hk; split; [done|]; destruct (decide (v = p)) as [->|]; [right|tauto].
    apply live_elem in Hk as (e & Hin & Ht & <- & <-).
    pose proof (existsb_false_elem _ _ _ HE Hin) as HF.
    destruct (decide (index e = ch)); [done|exfalso].
    rewrite (proj2 (evicts_iff (ctx e) ch e)) in HF; done.
Qed.

Lemma NoDup_append {A} (l : list A) x : NoDup l -> x ∉ l -> NoDup (l ++ [x]).
Proof.
  intros H Hn; apply list.NoDup_app; split_and!; [done| |apply list.NoDup_singleton].
  intros y Hy Hx; apply list_elem_of_singleton in Hx as ->; done.
Qed.

(** The pairs after [openChannel(ch, .., 1, p)]. *)
Lemma open_live sdk c ch st p :
  mHandle c <> 0 -> p <> 0 -> Routing c ->
  (forall q, live_map c !! ch = Some q -> q = p) ->
  let c' := fst (openChannel sdk c ch st 1 p) in
  Routing c' /\
  forall k v, (k, v) ∈ live (_ctx c') <-> (k, v) = (ch, p) \/ (k, v) ∈ live (_ctx c) /\ v <> p.
Proof.
  intros Hh Hp HR Hfree c'; unfold Routing at 1; subst c'; rewrite open_ctx by done.
  pose proof (evict_live (_ctx c) p ch (proj1 HR) (proj2 HR)) as (N1 & N2 & HE).
  set (rest := snd (extract (evicts p ch) (_ctx c))) in *.
  assert (Hch : forall v, (ch, v) ∈ live rest -> v = p).
  { intros v Hv; apply HE in Hv as [Hv _]; apply Hfree, live_map_spec; done. }
  pose proof (GetCtx_live (set_ctx c rest) ch) as HG; unfold GetCtx, live_map in HG; simpl in HG.
  rewrite HG; destruct (list_to_map (live rest) !! ch) as [q|] eqn:EQ.
  - apply elem_of_list_to_map in EQ; [|done]; pose proof (Hch _ EQ) as ->.
    simpl; rewrite Z.eqb_refl; split; [done|]; intros k v; rewrite HE; split.
    + intros [Hin [?| ->]]; [tauto|]; left; f_equal; apply Hch, HE; tauto.
    + intros [Heq|?]; [simplify_eq; apply HE; done|tauto].
  - assert (Hp' : (default 0 (None : option Z) =? p) = false) by (apply Z.eqb_neq; simpl; congruence); rewrite Hp'.
    apply not_elem_of_list_to_map in EQ.
    rewrite live_app; unfold live at 2 4 6; simpl; rewrite !fmap_app; split; [split|].
    + apply NoDup_append; done.
    + apply NoDup_append; [done|]; intros Hin; apply list_elem_of_fmap in Hin as ([k v] & Hv & Hin).
      simpl in *; subst v; pose proof (proj1 (HE k p) Hin) as [_ [?| ->]]; [done|].
      apply EQ, list_elem_of_fmap; exists (ch, p); done.
    + intros k v; rewrite elem_of_app, list_elem_of_singleton, HE; split; [|tauto].
      intros [[Hin [?| ->]]|?]; [tauto| |tauto]; exfalso.
      apply EQ, list_elem_of_fmap; exists (ch, v); split; [done|]; apply HE; tauto.
Qed.

(** C8: opening a channel refines the update of a routing table.  When no other
    viewer holds channel [ch], opening it for context [p] leaves the table of
    live channels with [p] on [ch] and nowhere else, every other viewer where
    it was, and the table's shape (one context per channel, one channel per
    context) intact: the frames of each channel reach the viewer that opened it
    last. *)
Theorem open_refines sdk c ch st p :
  mHandle c <> 0 -> p <> 0 -> Routing c ->
  (forall q, live_map c !! ch = Some q -> q = p) ->
  let c' := fst (openChannel sdk c ch st 1 p) in
  Routing c' /\
  live_map c' = <[ch := p]> (filter (fun kv => snd kv <> p) (live_map c)) /\
  GetCtx c' ch CTX_TYPE_LIVE = p /\
  forall ch', ch' <> ch -> GetCtx c ch' CTX_TYPE_LIVE <> p ->
    GetCtx c' ch' CTX_TYPE_LIVE = GetCtx c ch' CTX_TYPE_LIVE.
Proof.
  intros Hh Hp HR Hfree c'; pose proof (open_live sdk c ch st p Hh Hp HR Hfree) as [HR' HL].
  fold c' in HR', HL.
  assert (HM : live_map c' = <[ch := p]> (filter (fun kv => snd kv <> p) (live_map c))).
  { apply map_eq; intros k; apply option_eq; intros v.
    rewrite live_map_spec, HL by done; destruct (decide (k = ch)) as [->|N].
    - rewrite lookup_insert; case_decide; [|done]; split; [|naive_solver].
      intros [?|[Hv Hn]]; [naive_solver|]; apply live_map_spec in Hv; [|done].
      apply Hfree in Hv; done.
    - rewrite lookup_insert_ne, map_lookup_filter_Some, live_map_spec by done; naive_solver. }
  split_and!; [done|done| |].
  - rewrite GetCtx_live, HM, lookup_insert; case_decide; done.
  - intros ch' N Hq; rewrite GetCtx_live in Hq |- *; rewrite GetCtx_live, HM, lookup_insert_ne by done.
    destruct (live_map c !! ch') as [q|] eqn:E; simpl in *.
    + replace (filter _ (live_map c) !! ch') with (Some q); [done|]; symmetry.
      apply map_lookup_filter_Some; done.
    + replace (filter _ (live_map c) !! ch') with (None : option Z); [done|]; symmetry.
      apply map_lookup_filter_None; left; done.
Qed.

Definition sdk_ok (tr : list event) (k : call) : Z := match k with KCreate => 100 + zlen tr | _ => 0 end.
Definition conn1 : conn := fst (openChannel sdk_ok (set_handle new_conn 9) 2 0 1 77).

Lemma open_refines_witness :
  GetCtx (fst (openChannel sdk_ok conn1 3 0 1 77)) 3 CTX_TYPE_LIVE = 77 /\
  live_map (fst (openChannel sdk_ok conn1 3 0 1 77)) = <[3 := 77]> (filter (fun kv => snd kv <> 77) (live_map conn1)).
Proof.
  pose proof (open_refines sdk_ok conn1 3 0 77) as H.
  destruct H as (_ & H1 & H2 & _); [done|done| | |done].
  - split; vm_compute; repeat constructor; set_solver.
  - intros q; vm_compute; done.
Defined.

(** Closing a channel removes it, and only it, from the routing table, and
    its frames go to nobody. *)
Theorem close_refines sdk c ch st b p :
  mHandle c <> 0 -> b <> 1 -> Routing c ->
  let c' := fst (openChannel sdk c ch st b p) in
  Routing c' /\ live_map c' = delete ch (live_map c) /\ GetCtx c' ch CTX_TYPE_LIVE = 0.
Proof.
  intros Hh Hb HR c'.
  assert (HC : _ctx c' = snd (extract (matches ch CTX_TYPE_LIVE) (_ctx c))).
  { subst c'; unfold openChannel; apply Z.eqb_neq in Hh, Hb; rewrite Hh, Hb; done. }
  assert (HR' : Routing c' /\ forall k v, (k, v) ∈ live (_ctx c') <-> (k, v) ∈ live (_ctx c) /\ k <> ch).
  { unfold Routing at 1; rewrite HC; destruct HR as [H1 H2].
    destruct (extract_live (matches ch CTX_TYPE_LIVE) (_ctx c)) as (N1 & N2 & HE); [|done..|].
    { intros e He; apply matches_iff in He; tauto. }
    split; [done|]; destruct (fst (extract _ _)) as [e|]; [|destruct HE as [HE HF]].
    - destruct HE as (He & HE & _); apply matches_iff in He as [<- _]; exact HE.
    - rewrite HE; intros k v; split; [|tauto]; intros Hk; split; [done|]; intros ->.
      apply live_elem in Hk as (e & Hin & Ht & Hi & _).
      pose proof (existsb_false_elem _ _ _ HF Hin) as HF'.
      rewrite (proj2 (matches_iff _ _ _)) in HF'; done. }
  destruct HR' as [HR' HL].
  assert (HM : live_map c' = delete ch (live_map c)).
  { apply map_eq; intros k; apply option_eq; intros v.
    rewrite lookup_delete_Some, !live_map_spec, HL by done; naive_solver. }
  split_and!; [done|done|]; rewrite GetCtx_live, HM, lookup_delete; case_decide; done.
Qed.

Lemma close_refines_witness :
  live_map (fst (openChannel sdk_ok conn1 2 0 0 77)) = delete 2 (live_map conn1).
Proof.
  apply (close_refines sdk_ok conn1 2 0 0 77); [done|done|].
  split; vm_compute; repeat constructor; set_solver.
Defined.

(** ** Sessions *)

Section Session.
Context (sdk : list event -> call -> Z).
Hypothesis Hsdk : forall tr k, sdk tr k <> UNSET.

(** A result [r] that one step may set, then the rest of the run: the calls add
    up to at most one, and to one exactly when the result changes. *)
Lemma once_compose (r r1 r' : Z) (n1 n2 : nat) :
  (r1 = r /\ n1 = O) \/ (r = UNSET /\ r1 <> UNSET /\ n1 = 1%nat) ->
  (n2 <= if (r1 =? UNSET)%Z then 1 else 0)%nat -> (n2 = 1%nat <-> r' <> r1) ->
  (n1 + n2 <= if (r =? UNSET)%Z then 1 else 0)%nat /\ ((n1 + n2)%nat = 1%nat <-> r' <> r).
Proof.
  intros [[-> ->]|(-> & H1 & ->)] H2 H3; [done|].
  rewrite Z.eqb_refl; destruct (Z.eqb_spec r1 UNSET) as [?|_]; [done|].
  assert (n2 = O) as -> by lia; destruct H3 as [_ H3].
  assert (r' = r1) as -> by (destruct (Z.eq_dec r' r1); [done|by apply H3 in n]).
  done.
Qed.

(** However many viewers call connect2, connect3, loginP2P, openChannel,
    ptzCtrl and vconSend on one connector, in whatever order, the SDK gets at
    most one connect and one login between two resets, and none once a result
    is recorded; every call leaves the lock as it found it and the handle
    unchanged. *)
Theorem connect_once os c :
  let c' := run sdk c os in
  mHandle c' = mHandle c /\ _lock c' = _lock c /\
  exists new, trace c' = trace c ++ new /\
  (count is_connect new <= if (mConnectResult c =? UNSET)%Z then 1 else 0)%nat /\
  (count is_login new <= if (mLoginResult c =? UNSET)%Z then 1 else 0)%nat /\
  (count is_connect new = 1%nat <-> mConnectResult c' <> mConnectResult c) /\
  (count is_login new = 1%nat <-> mLoginResult c' <> mLoginResult c).
Proof.
  revert c; induction os as [|o os IH]; intros c c'; subst c'.
  - simpl; do 2 (split; [done|]); exists []; rewrite app_nil_r; split; [done|].
    repeat case_match; unfold count; simpl; lia.
  - cbn [run]; pose proof (step_session sdk Hsdk c o) as (H1 & _ & H2 & n1 & H3 & HC & HL).
    set (c1 := fst (step sdk c o)) in *.
    destruct (IH c1) as (I1 & I2 & n2 & I3 & IC & IL & JC & JL).
    do 2 (split; [congruence|]); exists (n1 ++ n2); rewrite I3, H3, app_assoc, !count_app.
    destruct (once_compose _ _ _ _ _ HC IC JC), (once_compose _ _ _ _ _ HL IL JL); done.
Qed.
End Session.

Definition sdk_neg (tr : list event) (k : call) : Z := match k with KCreate => 7 | _ => -3 end.
Lemma connect_once_witness :
  (forall tr k, sdk_neg tr k <> UNSET) /\
  exists new, trace (run sdk_neg (set_handle new_conn 9)
     [OpConnect2 None None 80 []; OpLogin [] []; OpConnect3 None None 80; OpLogin [] []]) = new /\
  (count is_connect new <= 1)%nat.
Proof.
  assert (H : forall tr k, sdk_neg tr k <> UNSET) by (intros tr []; discriminate).
  split; [exact H|].
  destruct (connect_once sdk_neg H
     [OpConnect2 None None 80 []; OpLogin [] []; OpConnect3 None None 80; OpLogin [] []]
     (set_handle new_conn 9)) as (_ & _ & new & H1 & H2 & _).
  exists new; split; [exact H1|exact H2].
Defined.

(** A connector without a handle is inert: every operation that needs the
    handle fails with its error code, calls nothing and changes nothing; once
    closed, closing again does nothing. *)
Theorem closed_inert sdk c :
  mHandle c = 0 ->
  (forall os, run sdk c os = c) /\
  (forall d i p v, connect2 sdk c d i p v = (c, -1)) /\
  (forall u w, loginP2P sdk c u w = (c, JA_CONNECT_ERROR_UNKNOW)) /\
  (forall ch st b p, openChannel sdk c ch st b p = (c, -1)) /\
  closeP2P sdk c = c.
Proof.
  intros H; apply Z.eqb_eq in H.
  assert (HS : forall o, fst (step sdk c o) = c).
  { intros []; simpl; unfold connect2, connect3, loginP2P, openChannel, ptzCtrl, vconSend;
      rewrite H; done. }
  split.
  - intros os; induction os as [|o os IH]; [done|]; simpl; rewrite HS; exact IH.
  - unfold connect2, loginP2P, openChannel, closeP2P; rewrite H; done.
Qed.

Lemma closed_inert_witness : run sdk_ok new_conn [OpConnect2 None None 80 []; OpLogin [] []] = new_conn.
Proof. apply (closed_inert sdk_ok new_conn); reflexivity. Defined.

(** The close operation undoes a session: the handle is released with one
    SDK call, results and contexts are reset, the lock is balanced. *)
Theorem close_resets sdk c :
  mHandle c <> 0 ->
  let c' := closeP2P sdk c in
  trace c' = trace c ++ [EvCall (KClose (mHandle c))] /\ mHandle c' = 0 /\ _ctx c' = [] /\
  mConnectResult c' = UNSET /\ mLoginResult c' = UNSET /\ _lock c' = _lock c /\
  forall ch t, GetCtx c' ch t = 0.
Proof.
  intros H c'; subst c'; unfold closeP2P; apply Z.eqb_neq in H; rewrite H; simpl.
  split_and!; try done; lia.
Qed.

Lemma close_resets_witness : GetCtx (closeP2P sdk_ok conn1) 2 CTX_TYPE_LIVE = 0.
Proof. apply (close_resets sdk_ok conn1); done. Defined.

Lemma create_live sdk c p :
  mHandle c <> 0 -> mDoneDisconnect c = false -> createP2PHandle sdk c p = (c, mHandle c).
Proof.
  intros H1 H2; unfold createP2PHandle; simpl; rewrite H2.
  apply Z.eqb_neq in H1; rewrite H1; simpl; unfold UnLock, Lock, set_lock; simpl.
  f_equal; destruct c; simpl; f_equal; lia.
Qed.

Lemma create_fresh sdk c p :
  mHandle c = 0 ->
  let '(c', h) := createP2PHandle sdk c p in
  h = sdk (trace c) KCreate /\ trace c' = trace c ++ [EvCall KCreate] /\
  mHandle c' = h /\ mDoneDisconnect c' = mDoneDisconnect c.
Proof.
  intros H; unfold createP2PHandle; simpl mHandle; simpl mDoneDisconnect; rewrite H; simpl.
  rewrite andb_false_r; pose proof (AddCtx_session (Lock c) p 0 CTX_TYPE_GLOBAL) as (HS & HT & HL).
  unfold session in HS; simpl in *; simplify_eq; rewrite HT; done.
Qed.

Lemma create_stale sdk c p :
  mHandle c <> 0 -> mDoneDisconnect c = true ->
  let '(c', h) := createP2PHandle sdk c p in
  h = sdk (trace c ++ [EvCall (KClose (mHandle c))]) KCreate /\
  trace c' = trace c ++ [EvCall (KClose (mHandle c)); EvCall KCreate] /\
  mHandle c' = h /\ mDoneDisconnect c' = false.
Proof.
  intros H1 H2; unfold createP2PHandle; simpl mHandle; simpl mDoneDisconnect; rewrite H2.
  apply Z.eqb_neq in H1; rewrite H1; cbn [negb andb].
  match goal with |- context [AddCtx ?c1 ?q ?x ?t] =>
    pose proof (AddCtx_session c1 q x t) as (HS & HT & HL) end.
  unfold session in HS; simpl in *; simplify_eq; rewrite HT, <- app_assoc; done.
Qed.

(** CreateP2PHandle is shared: while the session is not marked as
    disconnected, a second viewer gets the existing handle and the SDK is not
    called; after a disconnect the dead handle is closed and replaced.  But
    closing does not clear the mark: after a disconnect and a close, the first
    viewer's new handle [h1] is still marked, and the second viewer's
    createP2PHandle closes it. *)
Theorem create_shares_until_stale sdk c p q ret cb :
  (mHandle c <> 0 -> mDoneDisconnect c = false -> createP2PHandle sdk c p = (c, mHandle c)) /\
  (let '(c1, h1) := createP2PHandle sdk (closeP2P sdk (ResetConnection c ret cb)) p in
   let '(c2, h2) := createP2PHandle sdk c1 q in
   h1 <> 0 ->
   trace c2 = trace c1 ++ [EvCall (KClose h1); EvCall KCreate] /\
   h2 = sdk (trace c1 ++ [EvCall (KClose h1)]) KCreate).
Proof.
  split; [apply create_live|].
  set (c0 := closeP2P sdk (ResetConnection c ret cb)).
  assert (H0 : mHandle c0 = 0 /\ mDoneDisconnect c0 = true).
  { subst c0; unfold closeP2P, ResetConnection; simpl.
    destruct (Z.eqb_spec (mHandle (notify_disconnect c ret cb (_ctx c))) 0); done. }
  destruct H0 as [E1 E2]; pose proof (create_fresh sdk c0 p E1) as H1.
  destruct (createP2PHandle sdk c0 p) as [c1 h1]; destruct H1 as (_ & _ & H1 & H2).
  destruct (createP2PHandle sdk c1 q) as [c2 h2] eqn:E; intros Hh; rewrite <- H1 in Hh.
  pose proof (create_stale sdk c1 q Hh (eq_trans H2 E2)) as H3; rewrite E, H1 in H3; tauto.
Qed.

Lemma create_shares_until_stale_witness :
  mHandle conn1 <> 0 /\ mDoneDisconnect conn1 = false /\
  createP2PHandle sdk_ok conn1 5 = (conn1, mHandle conn1).
Proof.
  assert (H1 : mHandle conn1 <> 0) by done; assert (H2 : mDoneDisconnect conn1 = false) by done.
  split; [done|split; [done|]]; apply (create_shares_until_stale sdk_ok conn1 5 6 0 true); done.
Defined.

(** A channel that one viewer watches is never routed to another: however
    often a second viewer [q] opens it, the frames keep going to the first,
    while each call appends one more context to the list. *)
Theorem second_viewer_starved sdk c ch st p q n :
  mHandle c <> 0 -> p <> q -> GetCtx c ch CTX_TYPE_LIVE = p -> p <> 0 ->
  existsb (evicts q ch) (_ctx c) = false ->
  let c' := Nat.iter n (fun c => fst (openChannel sdk c ch st 1 q)) c in
  GetCtx c' ch CTX_TYPE_LIVE = p /\ length (_ctx c') = (length (_ctx c) + n)%nat.
Proof.
  intros Hh Hq HG Hp HE c'.
  cut (mHandle c' <> 0 /\ GetCtx c' ch CTX_TYPE_LIVE = p /\ existsb (evicts q ch) (_ctx c') = false /\
       length (_ctx c') = (length (_ctx c) + n)%nat); [tauto|]; subst c'.
  induction n as [|n IH]; [simpl; split_and!; try done; lia|].
  rewrite Nat.iter_succ; destruct IH as (I1 & I2 & I3 & I4).
  set (c1 := Nat.iter n _ c) in *; cbv beta.
  pose proof (open_ctx sdk c1 ch st q I1) as HO.
  pose proof (extract_spec (evicts q ch) (_ctx c1)) as HX.
  destruct (extract _ _) as [[e|] rest]; simpl in HO.
  { destruct HX as (a & b & HX & _ & He & _); rewrite HX, existsb_app in I3; simpl in I3.
    rewrite He, orb_true_r in I3; done. }
  destruct HX as [-> _]; unfold GetCtx in I2; rewrite I2 in HO.
  rewrite (proj2 (Z.eqb_neq p q) Hq) in HO; unfold GetCtx; rewrite HO.
  split_and!.
  - rewrite (proj1 (openChannel_session sdk c1 ch st 1 q)); done.
  - rewrite find_ctx_app; destruct (existsb (matches ch CTX_TYPE_LIVE) (_ctx c1)) eqn:EX; [done|].
    rewrite find_ctx_none in I2 by done; congruence.
  - rewrite existsb_app, I3; simpl; rewrite orb_false_r; unfold evicts; simpl.
    rewrite !Z.eqb_refl; done.
  - rewrite length_app, I4; simpl; lia.
Qed.

Lemma second_viewer_starved_witness :
  GetCtx (Nat.iter 3 (fun c => fst (openChannel sdk_ok c 2 0 1 88)) conn1) 2 CTX_TYPE_LIVE = 77.
Proof. apply (second_viewer_starved sdk_ok conn1 2 0 77 88 3); done. Defined.

(** ** The registry *)

Inductive callback :=
| CbConnect (conn_type : cstr)
| CbDisconnect (ret : Z)
| CbLoginResult (ret : Z)
| CbPtzResult (ret : Z)
| CbOpenChannel (channel stream : Z)
| CbRecvFrame (media_type frame_type size : Z)
| CbRecvFrameEx (frame_type channel : Z)
| CbRecvRecFrame (frame_type channel time_stamp : Z)
| CbVconRecv (size : Z)
| CbRemoteSetup (size : Z)
| CbP2PError (size : Z).

Definition deliver (w : world) (mgn : Z) (cb : bool) (k : callback) : outcome world :=
  match k with
  | CbConnect s => OnKConnect w mgn cb s
  | CbDisconnect r => OnKDisconnect w mgn cb r
  | CbLoginResult r => OnKLoginResult w mgn cb r
  | CbPtzResult r => OnKPtzResult w mgn cb r
  | CbOpenChannel ch st => OnKOpenChannel w mgn cb ch st
  | CbRecvFrame mt ft s => OnKRecvFrame w mgn cb mt ft s
  | CbRecvFrameEx ft ch => OnKRecvFrameEx w mgn cb ft ch
  | CbRecvRecFrame ft ch ts => OnKRecvRecFrame w mgn cb ft ch ts
  | CbVconRecv s => OnKVconRecv w mgn cb s
  | CbRemoteSetup s => OnKRemoteSetup w mgn cb s
  | CbP2PError s => OnKP2PError w mgn cb s
  end.

Definition world0 : world := mkWorld [] 0 false ∅ 0.

(** Creation at a fresh address, deletion of a live object, and the callbacks
    but [OnKPtzResult], for any address.  [n] counts the callbacks that found
    their connector. *)
Inductive reach (sdk : list event -> call -> Z) : world -> Z -> Prop :=
| reach_init : reach sdk world0 0
| reach_new w n this : reach sdk w n -> heap w !! this = None ->
    reach sdk (JAP2PConnector2 w this) n
| reach_delete w n this w' tr : reach sdk w n -> destroy sdk w this = Done (w', tr) ->
    reach sdk w' n
| reach_op w n a c c' : reach sdk w n -> heap w !! a = Some c -> reach sdk (put w a c') n
| reach_cb w n mgn cb k w' : reach sdk w n -> (forall r, k <> CbPtzResult r) ->
    deliver w mgn cb k = Done w' ->
    reach sdk w' (if bool_decide (mgn ∈ g_ListManager w) then n + 1 else n).

(** The registry lists exactly the live objects. *)
Definition Registry (w : world) : Prop :=
  NoDup (g_ListManager w) /\ forall a, a ∈ g_ListManager w <-> is_Some (heap w !! a).

Lemma search_found (mgn : Z) (l : list Z) : (0 <=? CList.search mgn l) = bool_decide (mgn ∈ l).
Proof.
  unfold CList.search; destruct (CList.search_from_spec 0 mgn l) as [[-> H]|(pre & post & -> & H & ->)].
  - rewrite bool_decide_eq_false_2; done.
  - rewrite bool_decide_eq_true_2 by set_solver; unfold zlen; lia.
Qed.

Lemma deliver_guarded w mgn cb k :
  (forall r, k <> CbPtzResult r) -> exists body, deliver w mgn cb k = guarded w mgn body.
Proof. destruct k; intros H; try (eexists; reflexivity); destruct (H ret); done. Qed.

Lemma guarded_spec w mgn body :
  Registry w ->
  if bool_decide (mgn ∈ g_ListManager w) then
    exists c, heap w !! mgn = Some c /\
      guarded w mgn body = Done (mkWorld (g_ListManager w) (g_listLock w - 1) (g_InitP2P_V2 w)
                                   (<[mgn := body c]> (heap w)) (inits w))
  else guarded w mgn body = Done w.
Proof.
  intros [_ HR]; unfold guarded, GetP2PConnector_ptr; rewrite search_found.
  case_bool_decide as H; [|done]; apply HR in H as [c Hc]; exists c; simpl; rewrite Hc; done.
Qed.

Lemma Registry_update l g b h i a c c' :
  Registry (mkWorld l g b h i) -> h !! a = Some c -> forall g' i', Registry (mkWorld l g' b (<[a := c']> h) i').
Proof.
  intros [H1 H2] Ha g' i'; split; [done|]; intros x; rewrite H2; simpl.
  rewrite lookup_insert_is_Some; destruct (decide (a = x)) as [->|]; [|naive_solver].
  rewrite Ha; naive_solver.
Qed.

Lemma destroy_spec sdk w this :
  Registry w -> is_Some (heap w !! this) ->
  exists w' tr, destroy sdk w this = Done (w', tr) /\ Registry w' /\
    heap w' = delete this (heap w) /\ g_listLock w' = g_listLock w.
Proof.
  intros [HN HR] Hs; pose proof (proj2 (HR this) Hs) as Hin; destruct Hs as [c Hc].
  unfold destroy; rewrite Hc.
  destruct (CList.search_remove this (g_ListManager w)) as [[? _]|(pre & post & HL & Hp & _ & ->)];
    [done|]; simpl; do 2 eexists; split; [done|]; split; [|done].
  rewrite HL in HN; apply NoDup_mid in HN as [HN Hn]; split; simpl; [done|].
  intros a; specialize (HR a); rewrite HL in HR; rewrite lookup_delete_is_Some, <- HR.
  rewrite !elem_of_app, elem_of_cons; rewrite elem_of_app in Hn; naive_solver.
Qed.

Lemma reach_Registry sdk w n : reach sdk w n -> Registry w /\ g_listLock w = - n.
Proof.
  induction 1 as [|w n this _ [[HN HR] HL] Hf|w n this w' tr _ [HR HL] Hd|w n a c c' _ [HR HL] Ha
                  |w n mgn cb k w' _ [HR HL] Hk Hd].
  - split; [split; [constructor|]|done]; intros a; simpl; rewrite lookup_empty.
    split; [intros H; inversion H|intros []; done].
  - split; [|done]; unfold JAP2PConnector2; rewrite CList.insert_append.
    assert (this ∉ g_ListManager w) by (rewrite HR, Hf; intros []; done).
    split; simpl; [apply NoDup_append; done|].
    intros a; rewrite lookup_insert_is_Some, elem_of_app, list_elem_of_singleton, HR.
    destruct (decide (this = a)); naive_solver.
  - destruct (heap w !! this) as [c|] eqn:E; [|unfold destroy in Hd; rewrite E in Hd; done].
    destruct (destroy_spec sdk w this HR) as (w2 & tr2 & E2 & ? & _ & ?); [done|].
    rewrite E2 in Hd; simplify_eq; split; [done|lia].
  - split; [|done]; destruct w; eapply Registry_update; done.
  - destruct (deliver_guarded w mgn cb k Hk) as [body Hb]; rewrite Hb in Hd.
    pose proof (guarded_spec w mgn body HR) as HG; case_bool_decide.
    + destruct HG as (c & Hc & HG); rewrite HG in Hd; simplify_eq; simpl; split; [|lia].
      destruct w; eapply Registry_update; done.
    + rewrite HG in Hd; simplify_eq; done.
Qed.

(** C33: through every interleaving of construction, destruction, method calls
    and SDK callbacks, the registry lists exactly the live connectors, so no
    callback but OnKPtzResult touches a deleted one: on a live connector it runs
    on that object, otherwise it does nothing.  But each callback that finds its
    connector unlocks the registry's mutex without having locked it: after [n]
    of them the lock balance is [-n]. *)
Theorem registry_safe sdk w n mgn cb k :
  reach sdk w n -> (forall r, k <> CbPtzResult r) ->
  (forall a, a ∈ g_ListManager w <-> is_Some (heap w !! a)) /\
  g_listLock w = - n /\
  match heap w !! mgn with
  | None => deliver w mgn cb k = Done w
  | Some c => exists w' c', deliver w mgn cb k = Done w' /\ heap w' = <[mgn := c']> (heap w) /\
                g_ListManager w' = g_ListManager w
  end /\
  (is_Some (heap w !! mgn) -> exists w' tr, destroy sdk w mgn = Done (w', tr) /\
     heap w' = delete mgn (heap w) /\ mgn ∉ g_ListManager w').
Proof.
  intros HW Hk; pose proof (reach_Registry _ _ _ HW) as [HR HL]; pose proof HR as [_ HE].
  split; [exact HE|]; split; [exact HL|]; split.
  - destruct (deliver_guarded w mgn cb k Hk) as [body ->].
    pose proof (guarded_spec w mgn body HR) as HG; case_bool_decide as Hin.
    + destruct HG as (c & -> & ->); do 2 eexists; split; [done|]; split; done.
    + rewrite HE in Hin; destruct (heap w !! mgn) eqn:E; [destruct Hin; eauto|exact HG].
  - intros Hs; destruct (destroy_spec sdk w mgn HR Hs) as (w' & tr & -> & [_ HE'] & Hh & _).
    exists w', tr; split; [done|]; split; [done|]; rewrite HE', Hh, lookup_delete_is_Some; tauto.
Qed.

Definition world1 : world := JAP2PConnector2 world0 5.
Lemma registry_safe_witness :
  deliver world1 6 true (CbDisconnect 3) = Done world1 /\
  exists w' tr, destroy sdk_ok world1 5 = Done (w', tr) /\ 5 ∉ g_ListManager w'.
Proof.
  assert (HW : reach sdk_ok world1 0) by (apply reach_new; [apply reach_init|done]).
  split.
  - pose proof (registry_safe sdk_ok world1 0 6 true (CbDisconnect 3) HW) as H.
    assert (E : heap world1 !! 6 = None) by reflexivity; rewrite E in H; apply H; discriminate.
  - destruct (registry_safe sdk_ok world1 0 5 true (CbDisconnect 3) HW) as (_ & _ & _ & H); [discriminate|].
    destruct (H (ltac:(eexists; vm_compute; reflexivity))) as (w' & tr & H1 & _ & H2); eauto.
Defined.

(** OnKPtzResult has its guard the wrong way round: for a connector that has
    been deleted, where the other callbacks return, it reads the deleted object;
    for a live one it calls the application's callback even when none is set. *)
Theorem ptz_result_unguarded sdk w n mgn ret :
  reach sdk w n ->
  match heap w !! mgn with
  | None => forall cb, OnKPtzResult w mgn cb ret = Fault
  | Some c => OnKPtzResult w mgn false ret = Fault /\
      exists w', OnKPtzResult w mgn true ret = Done w' /\
        heap w' = <[mgn := emit c (EvPtzResult ret (GetCtx c 0 CTX_TYPE_GLOBAL))]> (heap w)
  end.
Proof.
  intros HW; pose proof (reach_Registry _ _ _ HW) as [[_ HE] _].
  unfold OnKPtzResult, GetP2PConnector_ptr; rewrite search_found; specialize (HE mgn).
  destruct (heap w !! mgn) as [c|] eqn:E.
  - rewrite bool_decide_eq_true_2 by (apply HE; eauto); simpl; rewrite E; eauto.
  - rewrite bool_decide_eq_false_2 by (rewrite HE; intros []; done); rewrite E; done.
Qed.

Lemma ptz_result_unguarded_witness :
  OnKPtzResult world1 6 true 0 = Fault /\ OnKPtzResult world1 5 false 0 = Fault.
Proof.
  assert (HW : reach sdk_ok world1 0) by (apply reach_new; [apply reach_init|done]).
  split.
  - pose proof (ptz_result_unguarded sdk_ok world1 0 6 0 HW) as H.
    assert (E : heap world1 !! 6 = None) by reflexivity; rewrite E in H; apply H.
  - pose proof (ptz_result_unguarded sdk_ok world1 0 5 0 HW) as H.
    assert (E : heap world1 !! 5 = Some new_conn) by reflexivity; rewrite E in H; apply H.
Defined.

Lemma notify_spec c ret l :
  notify_disconnect c ret true l =
  mkConn (mHandle c) (mConnectResult c) (mLoginResult c) (mPlayChannel c) (mDoneDisconnect c) (_ctx c)
    (mDeviceID c) (mIP c) (mPort c) (mUse c) (_lock c)
    (trace c ++ map (fun e => EvDisconnect ret (ctx e))
       (List.filter (fun e => negb (type e =? CTX_TYPE_GLOBAL)) l)).
Proof.
  revert c; induction l as [|e l IH]; intros c; simpl.
  - rewrite app_nil_r; destruct c; done.
  - rewrite IH; destruct (type e =? CTX_TYPE_GLOBAL); simpl; [done|]; rewrite <- app_assoc; done.
Qed.

(** A disconnect reaches every viewer of the connector once, the global
    context first and then the others in the order they joined, and makes the
    session connectable again: the next connect and login go to the SDK.  The
    contexts, and so the routing, survive. *)
Theorem disconnect_notifies sdk w n mgn c ret :
  reach sdk w n -> heap w !! mgn = Some c ->
  exists w' c', OnKDisconnect w mgn true ret = Done w' /\ heap w' !! mgn = Some c' /\
  trace c' = trace c ++ EvDisconnect ret (GetCtx c 0 CTX_TYPE_GLOBAL) ::
    map (fun e => EvDisconnect ret (ctx e))
      (List.filter (fun e => negb (type e =? CTX_TYPE_GLOBAL)) (_ctx c)) /\
  mConnectResult c' = UNSET /\ mLoginResult c' = UNSET /\ mDoneDisconnect c' = true /\
  _ctx c' = _ctx c /\ mHandle c' = mHandle c /\
  (mHandle c <> 0 -> forall d i p v,
     count is_connect (trace (fst (connect2 sdk c' d i p v))) = S (count is_connect (trace c'))).
Proof.
  intros HW Hc; pose proof (reach_Registry _ _ _ HW) as [HR _].
  unfold OnKDisconnect; match goal with |- context [guarded w mgn ?b] =>
    pose proof (guarded_spec w mgn b HR) as HG end.
  rewrite bool_decide_eq_true_2 in HG by (apply HR; eauto).
  destruct HG as (c0 & Hc0 & ->); rewrite Hc in Hc0; simplify_eq.
  do 2 eexists; split; [done|]; split; [simpl; rewrite lookup_insert; case_decide; done|].
  unfold ResetConnection; rewrite notify_spec; simpl; rewrite <- app_assoc; split; [done|].
  split_and!; try done; intros Hh d i p v; unfold connect2; simpl.
  apply Z.eqb_neq in Hh; rewrite Hh; simpl; rewrite count_app; unfold count at 2; simpl; lia.
Qed.

Lemma disconnect_notifies_witness :
  exists w' c', OnKDisconnect world1 5 true 3 = Done w' /\ heap w' !! 5 = Some c' /\
  trace c' = [EvDisconnect 3 0].
Proof.
  assert (HW : reach sdk_ok world1 0) by (apply reach_new; [apply reach_init|done]).
  destruct (disconnect_notifies sdk_ok world1 0 5 new_conn 3 HW) as (w' & c' & H1 & H2 & H3 & _);
    [vm_compute; reflexivity|]; exists w', c'; split; [exact H1|split; [exact H2|exact H3]].
Defined.

(** Looking a connection up by address: after connecting to an IP address
    and port, the same address matches iff the port is below 32768, because the
    port is kept in a signed short and compared with the unsigned one. *)
Theorem port_lookup c ip p :
  ip <> [] -> (length ip < 80)%nat -> 0 < p < 65536 ->
  CompareConnectStr (UpdateProperty c (Some []) (Some ip) p) [] ip p = Done (p <? 32768).
Proof.
  intros Hne Hlen Hp; unfold CompareConnectStr.
  assert (HI : ip_string (UpdateProperty c (Some []) (Some ip) p) = Done ip).
  { unfold ip_string, UpdateProperty, copy_addr; simpl mIP; rewrite take_ge by lia.
    rewrite (proj2 (Nat.ltb_lt _ _) Hlen); done. }
  rewrite HI; unfold devid_string; simpl; destruct ip as [|b ip]; [done|]; f_equal.
  unfold strcaseeq; rewrite bool_decide_eq_true_2 by done; simpl.
  replace (p =? 0) with false by lia; unfold i16, signed; destruct (p <? 32768) eqn:E; dlia.
Qed.

Lemma port_lookup_witness :
  CompareConnectStr (UpdateProperty new_conn (Some []) (Some [49]) 9101) [] [49] 9101 = Done true /\
  CompareConnectStr (UpdateProperty new_conn (Some []) (Some [49]) 50000) [] [49] 50000 = Done false.
Proof. split; rewrite port_lookup; done || (simpl; lia). Defined.

End P2P.
