(* ===== verification/P2PLegacy.v ===== *)
(** The older peer-to-peer implementation of JAP2PManager: JAP2PConnector
    (gles/Network/JAP2PConnector.cpp), which forwards to the ja_p2p library
    (libjnnat.h).  The library is a parameter that answers each call from the
    calls made so far; calls are recorded in order.  Pointers are integers, 0 is
    null.  The connector has no lock and no context list: callbacks carry the
    context copied from the constructor's argument. *)
From stdpp Require Import base list.
From S2P Require Import Prelude P2PConnector.

Module Legacy.
Import P2P.

Definition UDX_P2P : Z := 0.

Inductive lcall :=
| LCreate
| LConnect (devid : option cstr) (connType : Z)
| LConnect2 (h : Z) (devid ipaddr : option cstr) (port : Z) (verify : cstr)
| LConnect3 (h : Z) (devid ipaddr : option cstr) (port : Z)
| LClose (h : Z)
| LLogin (h : Z) (user pwd : cstr)
| LOpenChannel (h channel stream bOpen : Z)
| LPtzCtrl (h channel act bStart p1 p2 : Z)
| LChannelCount (h : Z)
| LVconCreate (h : Z) (appName : cstr)
| LVconSend (vcon : Z) (buf : cstr)
| LVconDestroy (vcon : Z)
| LFindStart (h chn_count : Z) (chn : list Z) (start end_ type : Z)
| LFindCount (h : Z)
| LFindNext (h : Z)
| LFindClose (h : Z)
| LPlayStart (h chn_count : Z) (chn : list Z) (start end_ type ctx : Z)
| LPlayPause (h : Z)
| LPlayContinue (h : Z)
| LPlaySeek (h start end_ type : Z)
| LPlayStop (h : Z)
| LSearch
| LCall (h channel : Z)
| LTalkSend (h : Z) (data : cstr)
| LHangup (h : Z)
| LPullAlarm (h type channel ticket : Z).

(** The members; [ctx] is [mOutCallback->ctx]. *)
Record lconn := mkL {
  l_handle : Z;
  l_deviceID : cstr;
  l_ip : cstr;
  l_port : Z;
  l_use : Z;
  l_ctx : Z;
  l_calls : list lcall
}.

(** The constructor; [garbage] is the content of the uninitialised [mHandle]. *)
Definition JAP2PConnector (garbage ctx : Z) : lconn := mkL garbage [] [] 0 0 ctx [].

Definition l_set_handle (c : lconn) (h : Z) : lconn :=
  mkL h (l_deviceID c) (l_ip c) (l_port c) (l_use c) (l_ctx c) (l_calls c).
Definition l_set_addr (c : lconn) (d i : cstr) (p : Z) : lconn :=
  mkL (l_handle c) d i p (l_use c) (l_ctx c) (l_calls c).
Definition l_set_use (c : lconn) (n : Z) : lconn :=
  mkL (l_handle c) (l_deviceID c) (l_ip c) (l_port c) n (l_ctx c) (l_calls c).

(** [strcpy] of an optional string over the array [old] of [size] bytes; the
    terminator needs a byte too. *)
Definition strcpy_opt (size : nat) (s : option cstr) (old : cstr) : outcome cstr :=
  match s with
  | None => Done old
  | Some s => if (length s <? size)%nat then Done s else Fault
  end.

(** [strcpy(mIP, ipaddr)] under the test [strlen(ipaddr) <= 80]. *)
Definition copy_ip_checked (ipaddr : option cstr) (old : cstr) : outcome cstr :=
  match ipaddr with
  | Some s => if (length s <=? 80)%nat then strcpy_opt 80 (Some s) old else Done old
  | None => Done old
  end.

Section Lib.
Context (lib : list lcall -> lcall -> Z).

Definition lcall_ (c : lconn) (k : lcall) : lconn * Z :=
  (mkL (l_handle c) (l_deviceID c) (l_ip c) (l_port c) (l_use c) (l_ctx c) (l_calls c ++ [k]),
   lib (l_calls c) k).

(** A forwarded call guarded by the session handle, or by the task handle [h]. *)
Definition forward (c : lconn) (k : Z -> lcall) : lconn * Z :=
  if l_handle c =? 0 then (c, -1) else lcall_ c (k (l_handle c)).
Definition forward_h (c : lconn) (h : Z) (k : lcall) : lconn * Z :=
  if h =? 0 then (c, -2) else lcall_ c k.

Definition createP2PHandle (c : lconn) (ctx : Z) : lconn * Z :=
  let '(c, h) := lcall_ c LCreate in (l_set_handle c h, h).

Definition connect (c : lconn) (devid : option cstr) (connType : Z) : outcome (lconn * Z) :=
  let '(c, h) := lcall_ c (LConnect devid connType) in
  let* d := strcpy_opt 20 devid (l_deviceID c) in
  let c := l_set_addr c d (l_ip c) (l_port c) in
  Done (l_set_handle c h, h).

Definition connect2 (c : lconn) (devid ipaddr : option cstr) (port : Z) (verify : cstr)
  : outcome (lconn * Z) :=
  if l_handle c =? 0 then Done (c, -1)
  else
    let* d := strcpy_opt 20 devid (l_deviceID c) in
    let* i := copy_ip_checked ipaddr (l_ip c) in
    let c := l_set_addr c d i (if port =? 0 then l_port c else i16 port) in
    Done (lcall_ c (LConnect2 (l_handle c) devid ipaddr port verify)).

Definition connect3 (c : lconn) (devid ipaddr : option cstr) (port : Z) : outcome (lconn * Z) :=
  if l_handle c =? 0 then Done (c, -1)
  else
    let* d := strcpy_opt 20 devid (l_deviceID c) in
    let* i := strcpy_opt 80 ipaddr (l_ip c) in
    let c := l_set_addr c d i (if port =? 0 then l_port c else i16 port) in
    Done (lcall_ c (LConnect3 (l_handle c) devid ipaddr port)).

Definition closeP2P (c : lconn) : lconn :=
  if l_handle c =? 0 then c else fst (lcall_ c (LClose (l_handle c))).
Definition loginP2P (c : lconn) (user pwd : cstr) : lconn * Z :=
  forward c (fun h => LLogin h user pwd).
Definition openChannel (c : lconn) (ch st bOpen ctx : Z) : lconn * Z :=
  forward c (fun h => LOpenChannel h ch st bOpen).

Definition JA_PTZ_CMD_STOP : Z := 15.
Definition ptzCtrl (c : lconn) (ch act bStart p1 p2 : Z) : lconn * Z :=
  if l_handle c =? 0 then (c, -1)
  else
    let act := if bStart =? 0 then
                 if negb (JA_PTZ_CMD_STOP =? act) then JA_PTZ_CMD_STOP else act
               else act in
    let bStart := if JA_PTZ_CMD_STOP =? act then 0 else bStart in
    lcall_ c (LPtzCtrl (l_handle c) ch act bStart p1 p2).

Definition getChannelCnt (c : lconn) : lconn * Z := forward c LChannelCount.
Definition vconCreate (c : lconn) (appName : cstr) : lconn * Z :=
  forward c (fun h => LVconCreate h appName).
Definition vconSend (c : lconn) (h : Z) (buf : cstr) : lconn * Z := forward_h c h (LVconSend h buf).
Definition vconDestroy (c : lconn) (h : Z) : lconn * Z := forward_h c h (LVconDestroy h).
Definition findFileTaskStart (c : lconn) (chn : list Z) (chn_count start end_ t : Z) : lconn * Z :=
  forward c (fun h => LFindStart h chn_count chn start end_ t).
Definition findFileCnt (c : lconn) (h : Z) : lconn * Z := forward_h c h (LFindCount h).

(** [recs] is what the library returns, [None] for null, which is dereferenced;
    each record gets quality 0. *)
Definition findFileNext (c : lconn) (h : Z) (recs : option (list rec_file))
  : outcome (lconn * option (list rec_file)) :=
  if h =? 0 then Done (c, None)
  else
    let c := fst (lcall_ c (LFindNext h)) in
    match recs with
    | None => Fault
    | Some rs =>
        if JAP2P_REC_FILES_MAX <? zlen rs then Fault
        else Done (c, Some (map (fun r =>
               mkRec (r_channel r) (r_type r) (r_begin_time r) (r_end_time r) 0) rs))
    end.
Definition findFileTaskClose (c : lconn) (h : Z) : lconn * Z := forward_h c h (LFindClose h).
Definition playBackStart (c : lconn) (chn : list Z) (chn_count start end_ t ctx : Z) : lconn * Z :=
  forward c (fun h => LPlayStart h chn_count chn start end_ t ctx).
Definition playBackPause (c : lconn) (h : Z) : lconn * Z := forward_h c h (LPlayPause h).
Definition playBackContinue (c : lconn) (h : Z) : lconn * Z := forward_h c h (LPlayContinue h).
Definition playBackSeek (c : lconn) (h start end_ t : Z) : lconn * Z :=
  forward_h c h (LPlaySeek h start end_ t).
Definition playBackStop (c : lconn) (h : Z) : lconn * Z := forward_h c h (LPlayStop h).
Definition searchDevice (c : lconn) : lconn * Z := lcall_ c LSearch.
Definition call_ (c : lconn) (chn : Z) : lconn * Z := forward c (fun h => LCall h chn).
Definition talkSend (c : lconn) (data : cstr) : lconn * Z := forward c (fun h => LTalkSend h data).
Definition hangup (c : lconn) : lconn * Z := forward c LHangup.
Definition pullAlarm (c : lconn) (t ch ticket : Z) : lconn * Z :=
  forward c (fun h => LPullAlarm h t ch ticket).
End Lib.

(** ** Properties *)

Definition slen (s : option cstr) : Z := match s with Some s => zlen s | None => 0 end.

Lemma strcpy_opt_spec size s old :
  strcpy_opt size s old = if slen s <? Z.of_nat size then Done (default old s)
                          else match s with None => Done old | _ => Fault end.
Proof.
  destruct s as [s|]; simpl; [|case_match; done].
  unfold zlen; destruct (Nat.ltb_spec (length s) size), (Z.ltb_spec (Z.of_nat (length s)) (Z.of_nat size));
    done || lia.
Qed.

Lemma copy_ip_spec ip old :
  copy_ip_checked ip old = if slen ip =? 80 then Fault
                           else Done (if slen ip <? 80 then default old ip else old).
Proof.
  destruct ip as [s|]; simpl; [|done].
  unfold zlen; destruct (Nat.leb_spec (length s) 80); destruct (Nat.ltb_spec (length s) 80),
    (Z.eqb_spec (Z.of_nat (length s)) 80), (Z.ltb_spec (Z.of_nat (length s)) 80); done || lia.
Qed.

(** A session of the older library is opened within bounds except for three
    inputs: a device id of 20 characters or more overruns its array in both
    connect calls, an address of 80 or more overruns connect3, and connect2's
    length test lets exactly 80 characters through, one more than fit; with
    fitting strings both record the address and make one library call. *)
Theorem legacy_connect_bounds lib c d i port v :
  l_handle c <> 0 ->
  (connect2 lib c d i port v = Fault <-> 20 <= slen d \/ slen i = 80) /\
  (connect3 lib c d i port = Fault <-> 20 <= slen d \/ 80 <= slen i) /\
  (slen d < 20 -> slen i < 80 ->
   exists c', connect2 lib c d i port v = Done (c', lib (l_calls c) (LConnect2 (l_handle c) d i port v)) /\
     l_deviceID c' = default (l_deviceID c) d /\ l_ip c' = default (l_ip c) i /\
     l_calls c' = l_calls c ++ [LConnect2 (l_handle c) d i port v]).
Proof.
  intros Hh; apply Z.eqb_neq in Hh; unfold connect2, connect3; rewrite Hh.
  rewrite !strcpy_opt_spec, copy_ip_spec.
  destruct d as [d|], i as [i|]; cbn [slen default];
    repeat (case_match; cbn [obind]); split_and!;
    try (split; intros; (done || lia)); try lia; intros; (lia || (eexists; split; [reflexivity|done])).
Qed.

Definition lib_ok (tr : list lcall) (k : lcall) : Z := 0.
Definition lconn1 : lconn := l_set_handle (JAP2PConnector 0 0) 9.
Lemma legacy_connect_bounds_witness :
  l_handle lconn1 <> 0 /\ connect2 lib_ok lconn1 None (Some (repeat 49 80)) 80 [] = Fault.
Proof.
  split; [done|]; apply (legacy_connect_bounds lib_ok lconn1 None (Some (repeat 49 80)) 80 []);
    [done|right; reflexivity].
Defined.

(** Pan-tilt commands reach the older library normalised: one call, whose
    start flag is 0 exactly when its action is the stop command; a start of
    another action is passed unchanged. *)
Theorem legacy_ptz_normalised lib c ch act bStart p1 p2 :
  l_handle c <> 0 ->
  exists act' b', l_calls (fst (ptzCtrl lib c ch act bStart p1 p2)) =
    l_calls c ++ [LPtzCtrl (l_handle c) ch act' b' p1 p2] /\
  (b' = 0 <-> act' = JA_PTZ_CMD_STOP) /\
  (bStart <> 0 -> act <> JA_PTZ_CMD_STOP -> act' = act /\ b' = bStart) /\
  (bStart = 0 \/ act = JA_PTZ_CMD_STOP -> act' = JA_PTZ_CMD_STOP).
Proof.
  intros Hh; apply Z.eqb_neq in Hh; unfold ptzCtrl; rewrite Hh; do 2 eexists; split; [reflexivity|].
  unfold JA_PTZ_CMD_STOP; destruct (Z.eqb_spec bStart 0), (Z.eqb_spec 15 act); subst; simpl; lia.
Qed.

Lemma legacy_ptz_normalised_witness :
  exists act' b', l_calls (fst (ptzCtrl lib_ok lconn1 2 7 0 1 0)) = [LPtzCtrl 9 2 act' b' 1 0] /\
  act' = JA_PTZ_CMD_STOP.
Proof.
  destruct (legacy_ptz_normalised lib_ok lconn1 2 7 0 1 0) as (a & b & H1 & _ & _ & H2); [done|].
  exists a, b; split; [exact H1|apply H2; left; reflexivity].
Defined.

(** Closing does not forget the handle: a second close reaches the library with
    the handle already closed. *)
Lemma legacy_close_twice lib c :
  l_handle c <> 0 ->
  l_calls (closeP2P lib (closeP2P lib c)) = l_calls c ++ [LClose (l_handle c); LClose (l_handle c)].
Proof.
  intros Hh; apply Z.eqb_neq in Hh; unfold closeP2P; rewrite Hh; simpl; rewrite Hh; simpl.
  rewrite <- app_assoc; done.
Qed.

End Legacy.
