(* ===== verification/P2PManager.v ===== *)
(** The abstract class JAP2PManager (gles/Network/JAP2PManager.h) as an interface:
    its virtual methods and the base-class ones as operations of a type class, the
    laws its users rely on, and the two implementations, JAP2PConnector (UDX) and
    JAP2PConnector2 (KCP), behind one dispatching type. *)
From stdpp Require Import base list.
From S2P Require Import Prelude P2PConnector P2PLegacy.

Module Manager.
Export P2P.

Definition UDX_P2P : Z := 0.
Definition KCP_P2P : Z := 1.

(** Methods that may write out of bounds return [outcome]. *)
Class P2PManager (M : Type) := {
  new_UDX : Z -> M;
  new_KCP : M;
  GetP2PVersion : M -> Z;
  GetUse : M -> Z;
  GetHandle : M -> Z;
  UpdateUse : M -> bool -> M;
  UpdateProperty : M -> cstr -> cstr -> Z -> M;
  CompareConnectStr : M -> cstr -> cstr -> Z -> outcome bool;
  createP2PHandle : M -> Z -> M * Z;
  connect2 : M -> cstr -> cstr -> Z -> cstr -> outcome (M * Z);
  connect3 : M -> cstr -> cstr -> Z -> outcome (M * Z);
  loginP2P : M -> cstr -> cstr -> M * Z;
  closeP2P : M -> M;
  openChannel : M -> Z -> Z -> Z -> Z -> M * Z;
  ptzCtrl : M -> Z -> Z -> Z -> Z -> Z -> M * Z;
  vconCreate : M -> cstr -> M * Z;
  vconSend : M -> Z -> cstr -> M * Z;
  vconDestroy : M -> Z -> M * Z;
  findFileTaskStart : M -> list Z -> Z -> Z -> Z -> Z -> M * Z;
  findFileNext : M -> Z -> outcome (M * option (list rec_file));
  findFileTaskClose : M -> Z -> M * Z;
  playBackStart : M -> list Z -> Z -> Z -> Z -> Z -> Z -> outcome (M * Z);
  playBackPause : M -> Z -> M * Z;
  playBackContinue : M -> Z -> M * Z;
  playBackStop : M -> Z -> M * Z;
  call_ : M -> Z -> M * Z;
  hangup : M -> M * Z;
  talkSend : M -> cstr -> M * Z;
  pullAlarm : M -> Z -> Z -> Z -> M * Z
}.

(** The effect of one method call. *)
Inductive mstep {M} `{P2PManager M} (m : M) : M -> Prop :=
| ms_create c : mstep m (createP2PHandle m c).1
| ms_connect2 d i p v m' r : connect2 m d i p v = Done (m', r) -> mstep m m'
| ms_connect3 d i p m' r : connect3 m d i p = Done (m', r) -> mstep m m'
| ms_login u w : mstep m (loginP2P m u w).1
| ms_close : mstep m (closeP2P m)
| ms_open ch st b c : mstep m (openChannel m ch st b c).1
| ms_ptz ch a b p q : mstep m (ptzCtrl m ch a b p q).1
| ms_vcreate s : mstep m (vconCreate m s).1
| ms_vsend h s : mstep m (vconSend m h s).1
| ms_vdestroy h : mstep m (vconDestroy m h).1
| ms_find chn n s e t : mstep m (findFileTaskStart m chn n s e t).1
| ms_next h m' r : findFileNext m h = Done (m', r) -> mstep m m'
| ms_findclose h : mstep m (findFileTaskClose m h).1
| ms_play chn n s e t c m' r : playBackStart m chn n s e t c = Done (m', r) -> mstep m m'
| ms_pause h : mstep m (playBackPause m h).1
| ms_continue h : mstep m (playBackContinue m h).1
| ms_stop h : mstep m (playBackStop m h).1
| ms_call ch : mstep m (call_ m ch).1
| ms_hangup : mstep m (hangup m).1
| ms_talk s : mstep m (talkSend m s).1
| ms_alarm t ch k : mstep m (pullAlarm m t ch k).1.

(** What users rely on: the kind of a manager is fixed at construction, a KCP
    manager starts unused, only [UpdateUse] moves the use count, and it counts
    by one without going below zero. *)
Class P2PManagerLaws (M : Type) `{P2PManager M} := {
  version_UDX c : GetP2PVersion (new_UDX c) = UDX_P2P;
  version_KCP : GetP2PVersion new_KCP = KCP_P2P;
  use_KCP : GetUse new_KCP = 0;
  use_update m b : GetUse (UpdateUse m b) = Z.max 0 (if b then GetUse m + 1 else GetUse m - 1);
  version_update m b : GetP2PVersion (UpdateUse m b) = GetP2PVersion m;
  use_property m d i p : GetUse (UpdateProperty m d i p) = GetUse m;
  version_property m d i p : GetP2PVersion (UpdateProperty m d i p) = GetP2PVersion m;
  use_step m m' : mstep m m' -> GetUse m' = GetUse m;
  version_step m m' : mstep m m' -> GetP2PVersion m' = GetP2PVersion m;
  compare_stable m b d i p : CompareConnectStr (UpdateUse m b) d i p = CompareConnectStr m d i p
}.

(** ** The two implementations *)

Inductive manager :=
| UDX (c : Legacy.lconn)
| KCP (c : conn).

Section Implementations.
(** The two vendor libraries, the records they return after the calls so far,
    and the uninitialised handle of a new [JAP2PConnector]. *)
Context (lib : list Legacy.lcall -> Legacy.lcall -> Z).
Context (sdk : list event -> call -> Z).
Context (lrecs : list Legacy.lcall -> Z -> option (list rec_file)).
Context (recs : list event -> Z -> option (list rec_file)).
Context (garbage : Z).

Definition both {A} (m : manager) (f : Legacy.lconn -> Legacy.lconn * A) (g : conn -> conn * A)
  : manager * A :=
  match m with
  | UDX c => let '(c, r) := f c in (UDX c, r)
  | KCP c => let '(c, r) := g c in (KCP c, r)
  end.
Definition both_o {A} (m : manager) (f : Legacy.lconn -> outcome (Legacy.lconn * A))
    (g : conn -> outcome (conn * A)) : outcome (manager * A) :=
  match m with
  | UDX c => let* '(c, r) := f c in Done (UDX c, r)
  | KCP c => let* '(c, r) := g c in Done (KCP c, r)
  end.

(** The base class reads the same members in both classes. *)
Definition base (m : manager) : conn :=
  match m with
  | UDX c => mkConn (Legacy.l_handle c) 0 0 0 false [] (Legacy.l_deviceID c) (Legacy.l_ip c)
               (Legacy.l_port c) (Legacy.l_use c) 0 []
  | KCP c => c
  end.
Definition with_base (m : manager) (b : conn) : manager :=
  match m with
  | UDX c => UDX (Legacy.l_set_use (Legacy.l_set_addr c (mDeviceID b) (mIP b) (mPort b)) (mUse b))
  | KCP _ => KCP b
  end.

#[global] Instance manager_P2PManager : P2PManager manager := {|
  new_UDX c := UDX (Legacy.JAP2PConnector garbage c);
  new_KCP := KCP new_conn;
  GetP2PVersion m := match m with UDX _ => UDX_P2P | KCP _ => KCP_P2P end;
  GetUse m := P2P.GetUse (base m);
  GetHandle m := P2P.GetHandle (base m);
  UpdateUse m b := with_base m (P2P.UpdateUse (base m) b);
  UpdateProperty m d i p := with_base m (P2P.UpdateProperty (base m) (Some d) (Some i) p);
  CompareConnectStr m := P2P.CompareConnectStr (base m);
  createP2PHandle m x := both m (fun c => Legacy.createP2PHandle lib c x)
    (fun c => P2P.createP2PHandle sdk c x);
  connect2 m d i p v := both_o m (fun c => Legacy.connect2 lib c (Some d) (Some i) p v)
    (fun c => Done (P2P.connect2 sdk c (Some d) (Some i) p v));
  connect3 m d i p := both_o m (fun c => Legacy.connect3 lib c (Some d) (Some i) p)
    (fun c => Done (P2P.connect3 sdk c (Some d) (Some i) p));
  loginP2P m u w := both m (fun c => Legacy.loginP2P lib c u w) (fun c => P2P.loginP2P sdk c u w);
  closeP2P m := match m with
    | UDX c => UDX (Legacy.closeP2P lib c) | KCP c => KCP (P2P.closeP2P sdk c) end;
  openChannel m ch st b x := both m (fun c => Legacy.openChannel lib c ch st b x)
    (fun c => P2P.openChannel sdk c ch st b x);
  ptzCtrl m ch a b p q := both m (fun c => Legacy.ptzCtrl lib c ch a b p q)
    (fun c => P2P.ptzCtrl sdk c ch a p q);
  vconCreate m s := both m (fun c => Legacy.vconCreate lib c s) (fun c => (c, P2P.vconCreate c s));
  vconSend m h s := both m (fun c => Legacy.vconSend lib c h s) (fun c => P2P.vconSend sdk c s);
  vconDestroy m h := both m (fun c => Legacy.vconDestroy lib c h)
    (fun c => (c, P2P.vconDestroy c h));
  findFileTaskStart m chn n s e t := both m (fun c => Legacy.findFileTaskStart lib c chn n s e t)
    (fun c => P2P.findFileTaskStart sdk c chn n s e t);
  findFileNext m h := both_o m (fun c => Legacy.findFileNext lib c h (lrecs (Legacy.l_calls c) h))
    (fun c => P2P.findFileNext sdk c h (recs (trace c) h));
  findFileTaskClose m h := both m (fun c => Legacy.findFileTaskClose lib c h)
    (fun c => P2P.findFileTaskClose sdk c h);
  playBackStart m chn n s e t x := both_o m (fun c => Done (Legacy.playBackStart lib c chn n s e t x))
    (fun c => P2P.playBackStart sdk c chn n s e t x);
  playBackPause m h := both m (fun c => Legacy.playBackPause lib c h)
    (fun c => P2P.playBackPause sdk c h);
  playBackContinue m h := both m (fun c => Legacy.playBackContinue lib c h)
    (fun c => P2P.playBackContinue sdk c h);
  playBackStop m h := both m (fun c => Legacy.playBackStop lib c h)
    (fun c => P2P.playBackStop sdk c h);
  call_ m ch := both m (fun c => Legacy.call_ lib c ch) (fun c => P2P.call_ sdk c ch);
  hangup m := both m (Legacy.hangup lib) (P2P.hangup sdk);
  talkSend m s := both m (fun c => Legacy.talkSend lib c s) (fun c => P2P.talkSend sdk c s);
  pullAlarm m t ch k := both m (fun c => Legacy.pullAlarm lib c t ch k) (fun c => (c, P2P.pullAlarm c t ch k))
|}.
End Implementations.

Section Laws.
Context (lib : list Legacy.lcall -> Legacy.lcall -> Z).
Context (sdk : list event -> call -> Z).
Context (lrecs : list Legacy.lcall -> Z -> option (list rec_file)).
Context (recs : list event -> Z -> option (list rec_file)).
Context (garbage : Z).
#[local] Instance ops : P2PManager manager := manager_P2PManager lib sdk lrecs recs garbage.

Lemma AddCtx_use c p ch t : mUse (AddCtx c p ch t) = mUse c.
Proof. unfold AddCtx; case_bool; done. Qed.

Ltac unfold_methods :=
  unfold both, both_o, Legacy.createP2PHandle, Legacy.connect2, Legacy.connect3, Legacy.loginP2P,
    Legacy.closeP2P, Legacy.openChannel, Legacy.ptzCtrl, Legacy.vconCreate, Legacy.vconSend,
    Legacy.vconDestroy, Legacy.findFileTaskStart, Legacy.findFileNext, Legacy.findFileTaskClose,
    Legacy.playBackStart, Legacy.playBackPause, Legacy.playBackContinue, Legacy.playBackStop,
    Legacy.call_, Legacy.hangup, Legacy.talkSend, Legacy.pullAlarm, Legacy.forward, Legacy.forward_h,
    Legacy.lcall_, P2P.createP2PHandle, P2P.connect2, P2P.connect3, P2P.loginP2P, P2P.closeP2P,
    P2P.openChannel, P2P.ptzCtrl, P2P.vconSend, P2P.findFileTaskStart, P2P.findFileNext,
    P2P.findFileTaskClose, P2P.playBackStart, P2P.playBackPause, P2P.playBackContinue,
    P2P.playBackStop, P2P.call_, P2P.hangup, P2P.talkSend, locked_call, kcall in *.

(** Every method keeps the use count of either implementation. *)
Lemma mstep_use (m m' : manager) :
  mstep m m' -> GetUse m' = GetUse m /\ GetP2PVersion m' = GetP2PVersion m.
Proof.
  intros HS; destruct HS; destruct m; simpl in *; unfold_methods;
    repeat first [progress simplify_eq | progress simpl in *
      | match goal with H : obind _ _ = Done _ |- _ => obinv H end | case_match];
    unfold P2P.GetUse, DelCtx in *; simpl; rewrite ?AddCtx_use; simpl; try done.
Qed.

#[export] Instance manager_laws : P2PManagerLaws manager.
Proof.
  split; try (intros; apply mstep_use; assumption); try done.
  - intros [] []; simpl; unfold P2P.GetUse, P2P.UpdateUse; simpl; case_match; lia.
  - intros [] b; done.
  - intros []; done.
  - intros []; done.
  - intros [] b d i p; done.
Qed.
End Laws.
End Manager.
