(* ===== verification/JAConnect.v ===== *)
(** One viewer of a device: JAConnect (gles/Network/JAConnect.cpp and .h).  The
    task queue, the connection procedure with its fallback from the newer to the
    older peer-to-peer library, the use counting of shared connectors, live view
    and playback, the callbacks of the peer-to-peer layer, and the pacing of
    frames.  The peer-to-peer managers are reached through the interface of
    P2PManager; what the application and the decoder see is a list of actions.
    Not here: the decode loop (DecodeThread), and what the callbacks of the network do
    with frames, recordings and sound (Receive). *)
From stdpp Require Import gmap.
From S2P Require Import Prelude LinkedList P2PConnector P2PLegacy P2PManager.

Module JA.
Import Manager.

(** ** Strings *)

Definition colon : Z := 58.
Fixpoint strchr (s : cstr) (ch : Z) : bool :=
  match s with [] => false | x :: s => if x =? ch then true else strchr s ch end.

(** [strtok]: delimiters are skipped, the token runs to the next one.  The token
    and what the next call continues with; [None] for null. *)
Fixpoint skip_delim (d : Z) (s : cstr) : cstr :=
  match s with x :: s' => if x =? d then skip_delim d s' else s | [] => [] end.
Fixpoint token (d : Z) (s : cstr) : cstr * cstr :=
  match s with
  | [] => ([], [])
  | x :: s => if x =? d then ([], s) else let '(t, r) := token d s in (x :: t, r)
  end.
Definition strtok (d : Z) (s : cstr) : option (cstr * cstr) :=
  match skip_delim d s with [] => None | s => Some (token d s) end.

(** [atoi]; a value outside int is undefined. *)
Definition isspace (ch : Z) : bool := ((9 <=? ch) && (ch <=? 13)) || (ch =? 32).
Definition isdigit (ch : Z) : bool := (48 <=? ch) && (ch <=? 57).
Fixpoint skip_space (s : cstr) : cstr :=
  match s with x :: s' => if isspace x then skip_space s' else s | [] => [] end.
Fixpoint number (acc : Z) (s : cstr) : Z :=
  match s with
  | x :: s => if isdigit x then number (10 * acc + (x - 48)) s else acc
  | [] => acc
  end.
Definition atoi (s : cstr) : outcome Z :=
  let v := match skip_space s with
           | x :: s' => if x =? 45 then - number 0 s' else if x =? 43 then number 0 s'
                        else number 0 (x :: s')
           | [] => 0
           end in
  if (-2147483648 <=? v) && (v <=? 2147483647) then Done v else Fault.

(** [strcpy] into an array of [size] bytes. *)
Definition strcpy (size : nat) (s : cstr) : outcome cstr :=
  if (length s <? size)%nat then Done s else Fault.

(** ** Data *)

Definition CMD_CONNECT := 1.
Definition CMD_OPENCHANNEL := 2.
Definition CMD_CLOSECHANNEL := 3.
Definition CMD_PTZSTART := 4.
Definition CMD_PTZSTOP := 5.
Definition CMD_SEARCHREC := 6.
Definition CMD_STARTPLAYBACK := 7.
Definition CMD_STOPPLAYBACK := 8.
Definition CMD_DISCONNECT := 9.
Definition CMD_OPENDATACHANNEL := 10.
Definition CMD_CLOSEDATACHANNEL := 11.
Definition CMD_SENDDATA := 12.
Definition CMD_PLAYBACK_CONTINUE := 13.
Definition CMD_PLAYBACK_PAUSE := 14.
Definition CMD_DESTROY_VCON := 15.
Definition CMD_CALL := 16.
Definition CMD_HANG_UP := 17.
Definition CMD_SEND_AUDIO := 18.
Definition CMD_SEARCH_DEVICE := 19.
Definition CMD_PULL_ALARMMSG := 20.

Definition NET_STATUS_CONNECTING := 0.
Definition NET_STATUS_CONNECTED := 1.
Definition NET_STATUS_CONNECTFAIL := 2.
Definition NET_STATUS_OPENING := 6.
Definition NET_STATUS_DISCONNECTED := 8.
Definition NET_STATUS_CLOSED := 9.
Definition NET_STATUS_AUTHOFAIL := 10.
Definition NET_STATUS_TIMEOUT := 11.
Definition NET_STATUS_ACTIVECLOSED := 12.
Definition NET_STATUS_OPEN_VIDEO := 13.
Definition NET_STATUS_CLOSE_VIDEO := 14.

Definition NET_PLAY_NONE := 0.
Definition NET_PLAY_REAL := 1.
Definition NET_PLAY_RECORD := 2.
Definition PLAYBACK_STATUS_NONE := 0.
Definition PLAYBACK_STATUS_GETDATA := 1.

Definition KP2P_ERR_TIMEOUT := -2.
Definition KP2P_ERR_CLOSE_BY_SELF := -10.
Definition KP2P_ERR_CLOSE_BY_PEER := -11.
Definition KP2P_ERR_RESOLVE_FAILED := -12.
Definition KP2P_ERR_AUTH_FAILED := -20.
Definition KP2P_ERR_AUTH2_FAILED := -22.
Definition JA_RET_TIMEOUT := 2.
Definition JA_RET_FAILED := 3.
Definition JA_RET_CLOSE := 4.
Definition JA_RET_CLOSEBYPEER := 5.

(** [JAConnect_Command]; [audio] is the packet's data, [None] for null. *)
Record command := mkCmd {
  commandNo : Z; ConnectStr : cstr; verifystr : cstr; StartTime : Z; EndTime : Z;
  channelNo : Z; streamNo : Z; ptzCmd : Z; data : cstr; alarmmsg_type : Z; ticket : Z;
  audio : option cstr
}.

(** What the application's callbacks, the decoder and the frame buffer see. *)
Inductive action :=
| AStatus (status_code content_code : Z)
| AResetBuffer
| AResetDecoder
| AClear360
| ASearchData (r : rec_file)
| ASearchEnd
| AVconData (buf : cstr)
| AFreeDistortion
| ASpawnDisconnect.

(** The members of JAConnect, grouped: the parsed address, the session, the
    player, the queue, the strings of the last [Connect], and the actions. *)
Record target := mkT {
  mDeviceID : cstr; mIP : cstr; mPort : Z; mUser : cstr; mPwd : cstr; mVerify : cstr
}.
Record session := mkS {
  mHandle : Z; mP2p : Z; mIsConnected : bool; mRealStatus : Z; mPlaybackHandle : Z;
  mDataHandle : Z; connectNowStates : Z; mAreadyConnected : bool
}.
Record player := mkPl {
  mChannelNo : Z; mStreamNo : Z; mDecodeStatus : Z; mAddBuffer : bool; mRecvIFrame : bool;
  mHasSetP720 : Z; mPlaybackStatus : Z
}.
Record ja := mkJ {
  tgt : target; ses : session; ply : player; mCommand : list command;
  connectStr : cstr; verifyStr : cstr; out : list action
}.

Definition set_tgt (j : ja) (t : target) : ja :=
  mkJ t (ses j) (ply j) (mCommand j) (connectStr j) (verifyStr j) (out j).
Definition set_ses (j : ja) (s : session) : ja :=
  mkJ (tgt j) s (ply j) (mCommand j) (connectStr j) (verifyStr j) (out j).
Definition set_ply (j : ja) (p : player) : ja :=
  mkJ (tgt j) (ses j) p (mCommand j) (connectStr j) (verifyStr j) (out j).
Definition set_cmds (j : ja) (l : list command) : ja :=
  mkJ (tgt j) (ses j) (ply j) l (connectStr j) (verifyStr j) (out j).
Definition set_strs (j : ja) (c v : cstr) : ja :=
  mkJ (tgt j) (ses j) (ply j) (mCommand j) c v (out j).
Definition act (j : ja) (a : action) : ja :=
  mkJ (tgt j) (ses j) (ply j) (mCommand j) (connectStr j) (verifyStr j) (out j ++ [a]).

Definition s_handle (s : session) (h : Z) : session :=
  mkS h (mP2p s) (mIsConnected s) (mRealStatus s) (mPlaybackHandle s) (mDataHandle s)
    (connectNowStates s) (mAreadyConnected s).
Definition s_p2p (s : session) (a : Z) : session :=
  mkS (mHandle s) a (mIsConnected s) (mRealStatus s) (mPlaybackHandle s) (mDataHandle s)
    (connectNowStates s) (mAreadyConnected s).
Definition s_status (s : session) (c : bool) (r : Z) : session :=
  mkS (mHandle s) (mP2p s) c r (mPlaybackHandle s) (mDataHandle s)
    (connectNowStates s) (mAreadyConnected s).
Definition s_playback (s : session) (h : Z) : session :=
  mkS (mHandle s) (mP2p s) (mIsConnected s) (mRealStatus s) h (mDataHandle s)
    (connectNowStates s) (mAreadyConnected s).
Definition s_data (s : session) (h : Z) : session :=
  mkS (mHandle s) (mP2p s) (mIsConnected s) (mRealStatus s) (mPlaybackHandle s) h
    (connectNowStates s) (mAreadyConnected s).
Definition s_now (s : session) (v : Z) : session :=
  mkS (mHandle s) (mP2p s) (mIsConnected s) (mRealStatus s) (mPlaybackHandle s) (mDataHandle s)
    v (mAreadyConnected s).
Definition s_already (s : session) (b : bool) : session :=
  mkS (mHandle s) (mP2p s) (mIsConnected s) (mRealStatus s) (mPlaybackHandle s) (mDataHandle s)
    (connectNowStates s) b.

Definition p_channel (p : player) (ch st : Z) : player :=
  mkPl ch st (mDecodeStatus p) (mAddBuffer p) (mRecvIFrame p) (mHasSetP720 p) (mPlaybackStatus p).
Definition p_decode (p : player) (d : Z) : player :=
  mkPl (mChannelNo p) (mStreamNo p) d (mAddBuffer p) (mRecvIFrame p) (mHasSetP720 p) (mPlaybackStatus p).
Definition p_add (p : player) (b : bool) : player :=
  mkPl (mChannelNo p) (mStreamNo p) (mDecodeStatus p) b (mRecvIFrame p) (mHasSetP720 p) (mPlaybackStatus p).
Definition p_iframe (p : player) (b : bool) : player :=
  mkPl (mChannelNo p) (mStreamNo p) (mDecodeStatus p) (mAddBuffer p) b (mHasSetP720 p) (mPlaybackStatus p).
Definition p_p720 (p : player) (v : Z) : player :=
  mkPl (mChannelNo p) (mStreamNo p) (mDecodeStatus p) (mAddBuffer p) (mRecvIFrame p) v (mPlaybackStatus p).
Definition p_pb (p : player) (v : Z) : player :=
  mkPl (mChannelNo p) (mStreamNo p) (mDecodeStatus p) (mAddBuffer p) (mRecvIFrame p) (mHasSetP720 p) v.

(** A new viewer: the constructor's values. *)
Definition new_ja : ja :=
  mkJ (mkT [] [] 0 [] [] []) (mkS 0 0 false NET_PLAY_NONE 0 0 0 false)
    (mkPl 0 1 0 false false 0 PLAYBACK_STATUS_NONE) [] [] [] [].

(** ** Address strings *)

Definition parse_addr (connstr : cstr) : outcome (cstr * cstr * Z) :=
  if negb (strchr connstr colon) then let* d := strcpy 20 connstr in Done (d, [], 0)
  else match strtok colon connstr with
  | None => Fault
  | Some (lip, rest) =>
      let* i := strcpy 80 lip in
      match strtok colon rest with
      | None => Fault
      | Some (p, _) => let* v := atoi p in Done ([], i, i16 v)
      end
  end.
Definition parse_verify (user : cstr) (verifystr : cstr) : outcome (cstr * cstr * cstr) :=
  if negb (strchr verifystr colon) then let* v := strcpy 200 verifystr in Done (user, [], v)
  else match strtok colon verifystr with
  | None => Fault
  | Some (luser, rest) =>
      let* u := strcpy 20 luser in
      match strtok colon rest with
      | None => Done (u, [], [])
      | Some (p, _) => let* p := strcpy 40 p in Done (u, p, [])
      end
  end.
(** [mUser] is not cleared. *)
Definition ParseConnectString (t : target) (connstr verifystr : cstr) : outcome target :=
  let* '(d, i, p) := parse_addr connstr in
  let* '(u, w, v) := parse_verify (mUser t) verifystr in
  Done (mkT d i p u w v).

(** ** The player *)

Definition DecoderPause (j : ja) : ja :=
  if negb (mDecodeStatus (ply j) =? 0) then set_ply j (p_decode (ply j) 0) else j.
Definition DecoderResume (j : ja) : ja :=
  if mDecodeStatus (ply j) =? 0 then set_ply j (p_decode (ply j) 1) else j.
Definition ResetBuffer (j : ja) : ja := act j AResetBuffer.

Definition DoStatus (j : ja) (status_code content_code : Z) : ja :=
  let j := if status_code =? NET_STATUS_DISCONNECTED then
             let j := set_ses j (s_status (ses j) false NET_PLAY_NONE) in
             let j := act (act (ResetBuffer (DecoderPause j)) AResetDecoder) ASpawnDisconnect in
             set_ses (set_ply j (p_add (ply j) false)) (s_status (ses j) false NET_PLAY_NONE)
           else j in
  act j (AStatus status_code content_code).

(** ** The queue *)

Definition AddCommand (j : ja) (c : command) : outcome ja :=
  let* cs := strcpy 80 (ConnectStr c) in
  let* vs := strcpy 200 (verifystr c) in
  Done (set_cmds j (CList.insert (-1) c (mCommand j))).

Definition cmd0 (no : Z) : command := mkCmd no [] [] 0 0 0 0 0 [] 0 0 None.
Definition cmd_channel (no ch st ptz : Z) : command := mkCmd no [] [] 0 0 ch st ptz [] 0 0 None.

(** ** The managers *)

Section Session.
Context {M : Type} `{P2PManager M}.
(** Where [new] places an object. *)
Context (alloc : gmap Z M -> Z).

(** [g_ListManager] and the live managers. *)
Record net := mkNet { n_list : list Z; n_heap : gmap Z M }.

Definition mget {A} (n : net) (a : Z) (f : M -> A) : outcome A :=
  match n_heap n !! a with None => Fault | Some m => Done (f m) end.
Definition mput (n : net) (a : Z) (m : M) : net := mkNet (n_list n) (<[a := m]> (n_heap n)).
Definition mcall_o {A} (n : net) (a : Z) (f : M -> outcome (M * A)) : outcome (net * A) :=
  match n_heap n !! a with
  | None => Fault
  | Some m => let* '(m, r) := f m in Done (mput n a m, r)
  end.
Definition mcall {A} (n : net) (a : Z) (f : M -> M * A) : outcome (net * A) :=
  mcall_o n a (fun m => Done (f m)).
Definition mupd (n : net) (a : Z) (f : M -> M) : outcome net :=
  match n_heap n !! a with None => Fault | Some m => Done (mput n a (f m)) end.

(** [new]: the constructors append to the list; [delete]: the destructors take
    the first occurrence out. *)
Definition new_ (n : net) (m : M) : net * Z :=
  let a := alloc (n_heap n) in
  (mkNet (CList.insert (-1) a (n_list n)) (<[a := m]> (n_heap n)), a).
Definition unlist (n : net) (a : Z) : outcome net :=
  let i := CList.search a (n_list n) in
  if 0 <=? i then let* l := CList.remove i (n_list n) in Done (mkNet l (n_heap n)) else Done n.
Definition delete_ (n : net) (a : Z) : outcome net :=
  let* n := unlist n a in Done (mkNet (n_list n) (delete a (n_heap n))).

(** The loop of [CreateConnector]: the first KCP manager for this address. *)
Fixpoint find_shared (h : gmap Z M) (d i : cstr) (p : Z) (l : list Z) : outcome (option Z) :=
  match l with
  | [] => Done None
  | a :: l =>
      match h !! a with
      | None => Fault
      | Some m =>
          if GetP2PVersion m =? UDX_P2P then find_shared h d i p l
          else
            let* b := CompareConnectStr m d i (u16 p) in
            if b then Done (Some a) else find_shared h d i p l
      end
  end.
Definition CreateConnector (n : net) (d i : cstr) (p : Z) : outcome (net * Z) :=
  let* r := find_shared (n_heap n) d i p (n_list n) in
  match r with
  | Some a => let* n := mupd n a (fun m => UpdateUse m true) in Done (n, a)
  | None =>
      let '(n, a) := new_ n new_KCP in
      let* n := mupd n a (fun m => UpdateUse m true) in
      let* n := mupd n a (fun m => UpdateProperty m d i p) in
      Done (n, a)
  end.

(** On [mP2p = a]; afterwards [mP2p] is null. *)
Definition DestroyConnector (n : net) (a : Z) : outcome net :=
  if a =? 0 then Done n
  else
    let* v := mget n a GetP2PVersion in
    if v =? UDX_P2P then let* n := mupd n a closeP2P in delete_ n a
    else
      let* use := mget n a GetUse in
      if 1 <? use then mupd n a (fun m => UpdateUse m false)
      else
        let* n := unlist n a in
        let* n := mupd n a closeP2P in
        let* n := mupd n a (fun m => UpdateUse m false) in
        delete_ n a.

(** ** Connection *)

Definition DoDisconnect (n : net) (j : ja) (cmd : bool) : outcome (net * ja) :=
  let j := set_cmds j (List.filter (fun c => commandNo c =? CMD_CONNECT) (mCommand j)) in
  let* '(n, j) :=
    if mDataHandle (ses j) =? 0 then Done (n, j)
    else let* '(n, _) := mcall n (mP2p (ses j)) (fun m => vconDestroy m (mDataHandle (ses j))) in
         Done (n, set_ses j (s_data (ses j) 0)) in
  let* '(n, j) :=
    if mPlaybackHandle (ses j) =? 0 then Done (n, j)
    else let* '(n, _) := mcall n (mP2p (ses j)) (fun m => playBackStop m (mPlaybackHandle (ses j))) in
         Done (n, set_ses j (s_playback (ses j) 0)) in
  let* '(n, j) :=
    if negb (mHandle (ses j) =? 0) && negb (mP2p (ses j) =? 0) then
      let* n := DestroyConnector n (mP2p (ses j)) in
      Done (n, set_ses j (s_p2p (ses j) 0))
    else Done (n, j) in
  let j := if negb (mPlaybackHandle (ses j) =? 0) || negb (mHandle (ses j) =? 0)
           then DecoderPause j else j in
  let j := act j AResetDecoder in
  let j := set_ses (set_ply j (p_add (ply j) false)) (s_status (ses j) false NET_PLAY_NONE) in
  let j := if cmd then DoStatus j NET_STATUS_CLOSED 0 else j in
  let j := set_ses j (s_playback (s_handle (ses j) 0) 0) in
  let j := if negb (mHasSetP720 (ply j) =? 0)
           then act (set_ply j (p_p720 (ply j) 0)) AFreeDistortion else j in
  Done (n, j).

(** The connect call, and the retry with the older library. *)
Definition fallback (ret version : Z) (ip : cstr) : bool :=
  ((ret =? KP2P_ERR_RESOLVE_FAILED) && (version =? KCP_P2P)) || ((ret <? 0) && (0 <? zlen ip)).
Definition connect_any (n : net) (a : Z) (t : target) : outcome (net * Z) :=
  mcall_o n a (fun m =>
    match mVerify t with
    | [] => connect3 m (mDeviceID t) (mIP t) (u16 (mPort t))
    | _ => connect2 m (mDeviceID t) (mIP t) (u16 (mPort t)) (mVerify t)
    end).

(** "RemoteSetup". *)
Definition RemoteSetup : cstr := [82; 101; 109; 111; 116; 101; 83; 101; 116; 117; 112].

(** What the result of the attempt makes of the session. *)
Definition finish (n : net) (j : ja) (ret : Z) : outcome (net * ja) :=
  if ret =? 0 then
    let j := set_ply j (p_add (ply j) true) in
    let j := set_ses j (s_already (s_status (ses j) true (mRealStatus (ses j))) true) in
    let* '(n, h) := mcall n (mP2p (ses j)) (fun m => vconCreate m RemoteSetup) in
    let j := set_ses j (s_now (s_data (ses j) h) NET_STATUS_CONNECTED) in
    Done (n, DoStatus j NET_STATUS_OPENING 0)
  else if (ret =? 1) || (ret =? KP2P_ERR_TIMEOUT) then
    let j := DoStatus j NET_STATUS_TIMEOUT 0 in
    DoDisconnect n (set_ses j (s_now (ses j) NET_STATUS_TIMEOUT)) false
  else if (ret =? 2) || (ret =? KP2P_ERR_AUTH_FAILED) || (ret =? KP2P_ERR_AUTH2_FAILED) then
    let j := set_ses j (s_now (ses j) NET_STATUS_AUTHOFAIL) in
    DoDisconnect n (DoStatus j NET_STATUS_AUTHOFAIL 0) false
  else
    let j := DoStatus j NET_STATUS_CONNECTFAIL 0 in
    DoDisconnect n (set_ses j (s_now (ses j) NET_STATUS_CONNECTFAIL)) false.

(** [this] is the viewer's address. *)
Definition ReConnect (n : net) (j : ja) (this : Z) : outcome (net * ja * Z) :=
  let j := act (DoStatus j NET_STATUS_CONNECTING 0) AClear360 in
  let t := tgt j in
  let* '(n, a) :=
    if 15 <? zlen (mDeviceID t) then Done (new_ n (new_UDX this))
    else CreateConnector n (mDeviceID t) (mIP t) (mPort t) in
  let* '(n, h) := mcall n a (fun m => createP2PHandle m this) in
  let* '(n, ret) := connect_any n a t in
  let* v := mget n a GetP2PVersion in
  let* '(n, a, h, ret) :=
    if fallback ret v (mIP t) then
      let* n := DestroyConnector n a in
      let '(n, a) := new_ n (new_UDX this) in
      let* '(n, h) := mcall n a (fun m => createP2PHandle m 0) in
      let* '(n, ret) := connect_any n a t in
      Done (n, a, h, ret)
    else Done (n, a, h, ret) in
  let j := set_ses j (s_p2p (s_handle (ses j) h) a) in
  let* '(n, ret) :=
    match mVerify t with
    | [] => if ret =? 0 then mcall n a (fun m => loginP2P m (mUser t) (mPwd t)) else Done (n, ret)
    | _ => Done (n, ret)
    end in
  let* '(n, j) := finish n j ret in
  Done (n, j, ret).

Definition DoConnect (n : net) (j : ja) (this : Z) (c : command) : outcome (net * ja * Z) :=
  let* '(n, j) :=
    if connectNowStates (ses j) =? NET_STATUS_CONNECTED then
      let* '(n, j) := DoDisconnect n j false in Done (n, set_ses j (s_now (ses j) 0))
    else Done (n, j) in
  let* t := ParseConnectString (tgt j) (ConnectStr c) (verifystr c) in
  ReConnect n (ResetBuffer (set_tgt j t)) this.

(** ** Live view and playback *)

Definition DoOpenChannel (n : net) (j : ja) (this : Z) (c : command) (bOpen : Z)
  : outcome (net * ja * Z) :=
  if mP2p (ses j) =? 0 then Done (n, j, -2)
  else
    let j := ResetBuffer j in
    let j := if negb (bOpen =? 0) then set_ply j (p_add (p_iframe (ply j) false) true)
             else let j := DecoderPause j in set_ply j (p_add (ply j) false) in
    let j := set_ply j (p_p720 (p_channel (ply j) (channelNo c) (streamNo c)) 0) in
    let* '(n, ret) := mcall n (mP2p (ses j))
                        (fun m => openChannel m (channelNo c) (streamNo c) bOpen this) in
    let j := if ret =? 0 then
               if negb (bOpen =? 0)
               then DecoderResume (set_ses j (s_status (ses j) (mIsConnected (ses j)) NET_PLAY_REAL))
               else set_ses j (s_status (ses j) (mIsConnected (ses j)) NET_PLAY_NONE)
             else j in
    let j := DoStatus j (if negb (bOpen =? 0) then NET_STATUS_OPEN_VIDEO else NET_STATUS_CLOSE_VIDEO) 0 in
    Done (n, j, ret).

(** [fuel] bounds the batches of records; [false] when the loop returns from the
    method. *)
Fixpoint search_loop (fuel : nat) (n : net) (j : ja) (h : Z) : outcome (net * ja * bool) :=
  match fuel with
  | O => OutOfFuel
  | S fuel =>
      if (h =? 0) || (mP2p (ses j) =? 0) then Done (n, j, false)
      else
        let* '(n, recs) := mcall_o n (mP2p (ses j)) (fun m => findFileNext m h) in
        match recs with
        | None | Some [] => Done (n, j, true)
        | Some rs => search_loop fuel n (fold_left (fun j r => act j (ASearchData r)) rs j) h
        end
  end.
Definition DoSearchRec (fuel : nat) (n : net) (j : ja) (c : command) : outcome (net * ja * Z) :=
  if negb (mIsConnected (ses j)) then Done (n, j, -1)
  else
    let* '(n, h) := mcall n (mP2p (ses j)) (fun m =>
      findFileTaskStart m [i8 (channelNo c)] 1 (i32 (StartTime c)) (i32 (EndTime c)) 0xf) in
    if h =? 0 then Done (n, j, -1)
    else
      let* '(n, j, finished) := search_loop fuel n j h in
      if negb finished then Done (n, j, -1)
      else
        let* '(n, _) := mcall n (mP2p (ses j)) (fun m => findFileTaskClose m h) in
        Done (n, act j ASearchEnd, 0).

Definition DoStartPlayback (n : net) (j : ja) (this : Z) (c : command) : outcome (net * ja * Z) :=
  let j := set_ply j (p_channel (ply j) (channelNo c) (mStreamNo (ply j))) in
  if negb (mIsConnected (ses j)) || (mP2p (ses j) =? 0) then Done (n, j, -1)
  else
    let* '(n, h) := mcall_o n (mP2p (ses j)) (fun m =>
      playBackStart m [i8 (channelNo c)] 1 (i32 (StartTime c)) (i32 (StartTime c + 28800)) 0xf this) in
    let j := set_ses j (s_playback (ses j) h) in
    if negb (h =? 0) then
      let j := set_ses j (s_status (ses j) (mIsConnected (ses j)) NET_PLAY_RECORD) in
      let j := set_ply j (p_add (p_iframe (ply j) false) true) in
      Done (n, DecoderResume j, 0)
    else Done (n, j, -2).

Definition DoStopPlayback (n : net) (j : ja) : outcome (net * ja * Z) :=
  let* '(n, j) :=
    if negb (mPlaybackHandle (ses j) =? 0) && negb (mP2p (ses j) =? 0) then
      let* '(n, _) := mcall n (mP2p (ses j)) (fun m => playBackStop m (mPlaybackHandle (ses j))) in
      Done (n, ResetBuffer (DecoderPause (set_ses j (s_playback (ses j) 0))))
    else Done (n, j) in
  Done (n, DoStatus j NET_STATUS_CLOSE_VIDEO 0, 0).

Definition DoPlaybackContinueGetdata (n : net) (j : ja) : outcome (net * ja * Z) :=
  let h := mPlaybackHandle (ses j) in
  if h =? 0 then Done (n, j, -1)
  else let* '(n, r) := mcall n (mP2p (ses j)) (fun m => playBackContinue m h) in Done (n, j, r).
Definition DoPlaybackPauseGetData (n : net) (j : ja) : outcome (net * ja * Z) :=
  let h := mPlaybackHandle (ses j) in
  if h =? 0 then Done (n, j, -1)
  else let* '(n, r) := mcall n (mP2p (ses j)) (fun m => playBackPause m h) in Done (n, j, r).

(** The commands that forward one call when connected. *)
Definition connected_call (n : net) (j : ja) (f : M -> M * Z) : outcome (net * ja * Z) :=
  if negb (mIsConnected (ses j)) then Done (n, j, -1)
  else let* '(n, r) := mcall n (mP2p (ses j)) f in Done (n, j, r).

Definition DoSendData (n : net) (j : ja) (c : command) : outcome (net * ja * Z) :=
  if negb (mIsConnected (ses j)) then Done (n, j, -1)
  else if mP2p (ses j) =? 0 then Done (n, j, -1)
  else let* '(n, r) := mcall n (mP2p (ses j)) (fun m => vconSend m (mDataHandle (ses j)) (data c)) in
       Done (n, j, r).
Definition DoStartPtzAction (n : net) (j : ja) (c : command) : outcome (net * ja * Z) :=
  connected_call n j (fun m => ptzCtrl m (channelNo c) (ptzCmd c) 1 1 0).
Definition DoStopPtzAction (n : net) (j : ja) (c : command) : outcome (net * ja * Z) :=
  connected_call n j (fun m => ptzCtrl m (channelNo c) (ptzCmd c) 0 1 0).
Definition DoCall (n : net) (j : ja) (c : command) : outcome (net * ja * Z) :=
  connected_call n j (fun m => call_ m (channelNo c)).
Definition DoHangUp (n : net) (j : ja) : outcome (net * ja * Z) := connected_call n j hangup.
Definition DoSendAudioPacket (n : net) (j : ja) (c : command) : outcome (net * ja * Z) :=
  if negb (mIsConnected (ses j)) then Done (n, j, -1)
  else match audio c with
  | None => Fault
  | Some d => connected_call n j (fun m => talkSend m d)
  end.
Definition DoSearchDevice (n : net) (j : ja) : outcome (net * ja * Z) := Done (n, j, -1).
Definition DoPullAlarmmsg (n : net) (j : ja) (c : command) : outcome (net * ja * Z) :=
  connected_call n j (fun m => pullAlarm m (alarmmsg_type c) (channelNo c) (ticket c)).

(** ** The task thread *)

(** The switch of [HandleTaskThread]. *)
Definition exec (fuel : nat) (n : net) (j : ja) (this : Z) (c : command) : outcome (net * ja) :=
  let drop_ret (r : outcome (net * ja * Z)) := let* '(n, j, _) := r in Done (n, j) in
  let no := commandNo c in
  if no =? CMD_CONNECT then drop_ret (DoConnect n j this c)
  else if no =? CMD_OPENCHANNEL then
    let* '(n, j, ret) := DoOpenChannel n j this c 1 in
    if negb (ret =? 0) then drop_ret (ReConnect n j this) else Done (n, j)
  else if no =? CMD_CLOSECHANNEL then drop_ret (DoOpenChannel n j this c 0)
  else if no =? CMD_PTZSTART then drop_ret (DoStartPtzAction n j c)
  else if no =? CMD_PTZSTOP then drop_ret (DoStopPtzAction n j c)
  else if no =? CMD_SEARCHREC then drop_ret (DoSearchRec fuel n j c)
  else if no =? CMD_STARTPLAYBACK then drop_ret (DoStartPlayback n j this c)
  else if no =? CMD_STOPPLAYBACK then drop_ret (DoStopPlayback n j)
  else if no =? CMD_DISCONNECT then DoDisconnect n j true
  else if no =? CMD_PLAYBACK_PAUSE then drop_ret (DoPlaybackPauseGetData n j)
  else if no =? CMD_PLAYBACK_CONTINUE then drop_ret (DoPlaybackContinueGetdata n j)
  else if no =? CMD_SENDDATA then drop_ret (DoSendData n j c)
  else if no =? CMD_CALL then drop_ret (DoCall n j c)
  else if no =? CMD_HANG_UP then drop_ret (DoHangUp n j)
  else if no =? CMD_SEND_AUDIO then drop_ret (DoSendAudioPacket n j c)
  else if no =? CMD_SEARCH_DEVICE then drop_ret (DoSearchDevice n j)
  else if no =? CMD_PULL_ALARMMSG then drop_ret (DoPullAlarmmsg n j c)
  else Done (n, j).

(** One turn of the loop: the first command of the queue, if any. *)
Definition task_step (fuel : nat) (n : net) (j : ja) (this : Z) : outcome (net * ja) :=
  match mCommand j with
  | [] => Done (n, j)
  | c :: _ =>
      let* l := CList.remove 0 (mCommand j) in
      let j := set_cmds j l in
      if 0 <? commandNo c then exec fuel n j this c else Done (n, j)
  end.
End Session.

(** ** The public methods: they queue commands *)

Definition Connect (j : ja) (connectstr verifystr : cstr) (channel : Z) : outcome ja :=
  let j := set_ply j (p_channel (ply j) channel (mStreamNo (ply j))) in
  let* c := strcpy 80 connectstr in
  let* v := strcpy 100 verifystr in
  AddCommand (set_strs j c v) (mkCmd CMD_CONNECT connectstr verifystr 0 0 0 0 0 [] 0 0 None).
Definition StopPlayback (j : ja) (ch : Z) : outcome ja :=
  AddCommand j (cmd_channel CMD_STOPPLAYBACK ch 0 0).
Definition OpenChannel (j : ja) (ch st : Z) : outcome ja :=
  let* j := if mRealStatus (ses j) =? NET_PLAY_RECORD then StopPlayback j (mChannelNo (ply j)) else Done j in
  AddCommand (set_ply j (p_channel (ply j) ch st)) (cmd_channel CMD_OPENCHANNEL ch st 0).
Definition CloseChannel (j : ja) (ch st : Z) : outcome ja :=
  AddCommand (set_ply j (p_add (ply j) false)) (cmd_channel CMD_CLOSECHANNEL ch st 0).
Definition OpenDataChannel (j : ja) : outcome ja := AddCommand j (cmd0 CMD_OPENDATACHANNEL).
Definition CloseDataChannel (j : ja) : outcome ja := AddCommand j (cmd0 CMD_CLOSEDATACHANNEL).
Definition SendData (j : ja) (d : cstr) : outcome ja :=
  AddCommand j (mkCmd CMD_SENDDATA [] [] 0 0 0 0 0 d 0 0 None).
Definition SearchRec (j : ja) (s e ch : Z) : outcome ja :=
  AddCommand j (mkCmd CMD_SEARCHREC [] [] s e ch 0 0 [] 0 0 None).
Definition StartPlayback (j : ja) (s ch : Z) : outcome ja :=
  if negb (mIsConnected (ses j)) then Done j
  else
    let* j := if mRealStatus (ses j) =? NET_PLAY_REAL then CloseChannel j (mChannelNo (ply j)) 0 else Done j in
    let* j := if mRealStatus (ses j) =? NET_PLAY_RECORD then StopPlayback j (mChannelNo (ply j)) else Done j in
    AddCommand (set_ply j (p_pb (ply j) PLAYBACK_STATUS_GETDATA))
      (mkCmd CMD_STARTPLAYBACK [] [] s 0 ch 0 0 [] 0 0 None).
Definition PlaybackPauseGetData (j : ja) (ch : Z) : outcome ja :=
  AddCommand j (cmd_channel CMD_PLAYBACK_PAUSE ch 0 0).
Definition PlaybackContinueGetData (j : ja) (ch : Z) : outcome ja :=
  AddCommand j (cmd_channel CMD_PLAYBACK_CONTINUE ch 0 0).
Definition CtrlPTZ (j : ja) (cmd ch : Z) : outcome ja := AddCommand j (cmd_channel CMD_PTZSTART ch 0 cmd).
Definition StopPTZ (j : ja) (ch : Z) : outcome ja := AddCommand j (cmd_channel CMD_PTZSTOP ch 0 15).
Definition Disconnect (j : ja) : outcome ja := AddCommand j (cmd0 CMD_DISCONNECT).
Definition SearchDevice (j : ja) : outcome ja := AddCommand j (cmd0 CMD_SEARCH_DEVICE).
Definition DestroyVcon (j : ja) : outcome ja := AddCommand j (cmd0 CMD_DESTROY_VCON).
Definition PullAlarmmsg (j : ja) (t ch k : Z) : outcome ja :=
  AddCommand j (mkCmd CMD_PULL_ALARMMSG [] [] 0 0 ch 0 0 [] t k None).

(** ** The callbacks of the peer-to-peer layer *)

Definition is_peer_close (ret : Z) : bool := (ret =? JA_RET_CLOSEBYPEER) || (ret =? KP2P_ERR_CLOSE_BY_PEER).

Definition OnDisconnect (j : ja) (ret : Z) : outcome ja :=
  if is_peer_close ret && (connectNowStates (ses j) =? NET_STATUS_AUTHOFAIL) then Done j
  else
    let j := if (ret =? JA_RET_CLOSE) || (ret =? KP2P_ERR_CLOSE_BY_SELF) || (ret =? JA_RET_FAILED)
             then DoStatus j NET_STATUS_ACTIVECLOSED ret else j in
    if (ret =? JA_RET_CLOSEBYPEER) || (ret =? JA_RET_TIMEOUT) || (ret =? KP2P_ERR_CLOSE_BY_PEER)
       || (ret =? KP2P_ERR_TIMEOUT)
    then if mAreadyConnected (ses j)
         then Connect j (connectStr j) (verifyStr j) (mChannelNo (ply j)) else Done j
    else Done j.

Definition OnVconRecv (j : ja) (buf : cstr) : outcome ja := DestroyVcon (act j (AVconData buf)).

(** [OnRecvAlarmMsg]: fragments are gathered in [mVconbuffer], allocated with the
    first fragment's total length; the state is the buffer's size and the bytes
    received, [None] for a null buffer.  A complete message is delivered. *)
Definition OnRecvAlarmMsg (st : option (Z * cstr)) (totalLen : Z) (frag : cstr)
  : outcome (option (Z * cstr) * option cstr) :=
  let '(size, got) := match st with None => (totalLen, []) | Some s => s end in
  if size <? zlen got + zlen frag then Fault
  else
    let got := got ++ frag in
    if zlen got =? totalLen then Done (None, Some got)
    else Done (Some (size, got), None).

(** ** Shared connectors *)

Section Sharing.
Context {M : Type} `{P2PManagerLaws M}.

(** [hs] lists the KCP managers that viewers hold, once per holder. *)
Definition holds (hs : list Z) (a : Z) : nat := length (List.filter (fun b => b =? a) hs).

Record Sharing (n : @net M) (hs : list Z) : Prop := mkSharing {
  sh_nodup : NoDup (n_list n);
  sh_listed a : a ∈ n_list n <-> is_Some (n_heap n !! a);
  sh_use a m : n_heap n !! a = Some m -> GetP2PVersion m <> UDX_P2P -> GetUse m = Z.of_nat (holds hs a);
  sh_used a m : n_heap n !! a = Some m -> GetP2PVersion m <> UDX_P2P -> (0 < holds hs a)%nat;
  sh_live a : a ∈ hs -> exists m, n_heap n !! a = Some m /\ GetP2PVersion m <> UDX_P2P;
  sh_nonnull a : a ∈ hs -> a <> 0
}.

(** Removing one holder. *)
Fixpoint release (a : Z) (hs : list Z) : list Z :=
  match hs with [] => [] | b :: hs => if b =? a then hs else b :: release a hs end.

Lemma holds_cons b hs a : holds (b :: hs) a = ((if (b =? a)%Z then 1 else 0) + holds hs a)%nat.
Proof. unfold holds; simpl; case_match; done. Qed.

Lemma holds_elem hs a : (0 < holds hs a)%nat <-> a ∈ hs.
Proof.
  induction hs as [|b hs IH]; [split; [unfold holds; simpl; lia|intros Hx; inversion Hx]|].
  rewrite holds_cons, elem_of_cons, <- IH; destruct (Z.eqb_spec b a); subst.
  - split; [left; done|lia].
  - split; [right; lia|intros [?|?]; [congruence|lia]].
Qed.

Lemma holds_release hs a b :
  a ∈ hs -> holds (release a hs) b = (holds hs b - if (a =? b)%Z then 1 else 0)%nat.
Proof.
  induction hs as [|c hs IH]; intros Hin; [inversion Hin|]; simpl.
  destruct (Z.eqb_spec c a) as [->|N].
  - rewrite holds_cons; destruct (a =? b); lia.
  - rewrite !holds_cons, IH by set_solver.
    assert (0 < holds hs a)%nat by (apply holds_elem; set_solver).
    destruct (Z.eqb_spec a b) as [->|]; [|destruct (c =? b); lia].
    destruct (Z.eqb_spec c b); [done|lia].
Qed.

Lemma release_sub hs a b : b ∈ release a hs -> b ∈ hs.
Proof.
  induction hs as [|c hs IH]; simpl; [done|].
  destruct (c =? a); rewrite ?elem_of_cons; tauto.
Qed.

Notation isKCP m := (GetP2PVersion m <> UDX_P2P).

Lemma Sharing_update n hs hs' a m m' :
  Sharing n hs -> n_heap n !! a = Some m -> GetP2PVersion m' = GetP2PVersion m ->
  (forall b, b <> a -> holds hs' b = holds hs b) ->
  (isKCP m -> GetUse m' = Z.of_nat (holds hs' a) /\ (0 < holds hs' a)%nat /\ a <> 0) ->
  (a ∈ hs' -> isKCP m) ->
  Sharing (mput n a m') hs'.
Proof.
  intros [S1 S2 S3 S4 S5 S6] Ha HV Ho HU HK; split; simpl; [done| | | | |].
  - intros b; rewrite S2, lookup_insert_is_Some; destruct (decide (a = b)) as [->|]; [|naive_solver].
    rewrite Ha; naive_solver.
  - intros b mb Hb Hk; apply lookup_insert_Some in Hb as [[-> ->]|[N Hb]].
    + rewrite HV in Hk; apply HU; done.
    + rewrite Ho by done; apply S3; done.
  - intros b mb Hb Hk; apply lookup_insert_Some in Hb as [[-> ->]|[N Hb]].
    + rewrite HV in Hk; apply HU; done.
    + rewrite Ho by done; apply (S4 _ mb); done.
  - intros b Hb; destruct (decide (b = a)) as [->|N].
    + exists m'; rewrite lookup_insert, HV; case_decide; [|done]; split; [done|apply HK; done].
    + apply holds_elem in Hb; rewrite Ho in Hb by done; apply holds_elem in Hb.
      destruct (S5 b Hb) as (mb & Hmb & Hk); exists mb; rewrite lookup_insert_ne by done; done.
  - intros b Hb; destruct (decide (b = a)) as [->|N].
    + apply HU, HK; done.
    + apply S6, holds_elem; rewrite <- Ho by done; apply holds_elem; done.
Qed.

(** Method calls and further members of the heap. *)
Lemma Sharing_step n hs a m m' :
  Sharing n hs -> n_heap n !! a = Some m -> mstep m m' -> Sharing (mput n a m') hs.
Proof.
  intros HS Ha Hm; apply (Sharing_update n hs hs a m m' HS Ha).
  - apply version_step; done.
  - done.
  - intros Hk; rewrite (use_step m m' Hm); pose proof (sh_used _ _ HS a m Ha Hk) as Hu.
    split; [apply (sh_use _ _ HS); done|split; [done|]].
    apply (sh_nonnull _ _ HS), holds_elem; done.
  - intros Hin; destruct (sh_live _ _ HS a Hin) as (mb & Hmb & Hk); simplify_eq; done.
Qed.

Lemma find_shared_spec h d i p l a :
  find_shared h d i p l = Done (Some a) -> a ∈ l /\ exists m, h !! a = Some m /\ isKCP m.
Proof.
  induction l as [|b l IH]; simpl; intros HF; [done|].
  destruct (h !! b) as [m|] eqn:Hb; [|done].
  destruct (GetP2PVersion m =? UDX_P2P) eqn:E; [destruct (IH HF); split; [right|]; done|].
  obinv HF; destruct v; [simplify_eq|destruct (IH HF); split; [right|]; done].
  split; [left|exists m; split; [done|lia]].
Qed.

Lemma unlist_spec (n : @net M) a :
  exists l, unlist n a = Done (mkNet l (n_heap n)) /\
    ((a ∉ n_list n /\ l = n_list n) \/
     (exists pre post, n_list n = pre ++ a :: post /\ a ∉ pre /\ l = pre ++ post)).
Proof.
  unfold unlist; destruct (CList.search_remove a (n_list n)) as [[Hn HR]|(pre & post & HL & Hp & HS & HR)].
  - exists (n_list n); split; [|left; done]; rewrite HR; simpl; case_match; destruct n; done.
  - exists (pre ++ post); rewrite HS in *; rewrite HR; split; [|right; exists pre, post; done].
    simpl; unfold zlen; case_match; [done|lia].
Qed.

(** [delete] of an object, listed or not. *)
Lemma delete_spec (n : @net M) a :
  NoDup (n_list n) -> exists l, delete_ n a = Done (mkNet l (delete a (n_heap n))) /\
    NoDup l /\ forall b, b ∈ l <-> b ∈ n_list n /\ b <> a.
Proof.
  intros HN; unfold delete_; destruct (unlist_spec n a) as (l & -> & [[Hn ->]|(pre & post & HL & Hp & ->)]).
  - exists (n_list n); split; [done|]; split; [done|]; intros b; split; [|tauto].
    intros Hb; split; [done|]; intros ->; done.
  - exists (pre ++ post); split; [done|]; rewrite HL in HN |- *.
    apply NoDup_mid in HN as [HN Ha]; split; [done|]; intros b.
    rewrite !elem_of_app, elem_of_cons; rewrite elem_of_app in Ha; naive_solver.
Qed.

(** Taking an object away, when nobody holds it any more. *)
Lemma Sharing_delete n hs hs' l a :
  Sharing n hs -> NoDup l -> (forall b, b ∈ l <-> b ∈ n_list n /\ b <> a) ->
  (forall b, b <> a -> holds hs' b = holds hs b) -> holds hs' a = O ->
  Sharing (mkNet l (delete a (n_heap n))) hs'.
Proof.
  intros [S1 S2 S3 S4 S5 S6] HN HL Ho Ha.
  assert (HI : forall b, b ∈ hs' -> b <> a /\ b ∈ hs).
  { intros b Hb; apply holds_elem in Hb; assert (b <> a) by (intros ->; lia).
    split; [done|]; apply holds_elem; rewrite <- Ho; done. }
  split; simpl; [done| | | | |].
  - intros b; rewrite HL, S2, lookup_delete_is_Some; naive_solver.
  - intros b m Hb Hk; apply lookup_delete_Some in Hb as [N Hb]; rewrite Ho by done; apply S3; done.
  - intros b m Hb Hk; apply lookup_delete_Some in Hb as [N Hb]; rewrite Ho by done; apply (S4 _ m); done.
  - intros b Hb; apply HI in Hb as [N Hb]; destruct (S5 b Hb) as (m & Hm & Hk).
    exists m; rewrite lookup_delete_ne by done; done.
  - intros b Hb; apply S6, HI; done.
Qed.

Lemma unlist_elem (n : @net M) a :
  NoDup (n_list n) -> exists l, unlist n a = Done (mkNet l (n_heap n)) /\ NoDup l /\
    forall b, b ∈ l <-> b ∈ n_list n /\ b <> a.
Proof.
  intros HN; pose proof (delete_spec n a HN) as (l & HD & Hl); unfold delete_ in HD.
  destruct (unlist_spec n a) as (l' & HU & _); rewrite HU in HD; simpl in HD; simplify_eq.
  exists l; done.
Qed.

Lemma destroy_KCP n hs a :
  Sharing n hs -> a ∈ hs ->
  exists n', DestroyConnector n a = Done n' /\ Sharing n' (release a hs) /\
    (is_Some (n_heap n' !! a) <-> a ∈ release a hs).
Proof.
  intros HS Hin; destruct (sh_live _ _ HS a Hin) as (m & Hm & Hk).
  pose proof (sh_nonnull _ _ HS a Hin) as Ha; pose proof (sh_use _ _ HS a m Hm Hk) as HU.
  assert (HR : forall b, holds (release a hs) b = (holds hs b - if (a =? b)%Z then 1 else 0)%nat)
    by (intros b; apply holds_release; done).
  assert (HO : forall b, b <> a -> holds (release a hs) b = holds hs b).
  { intros b N; rewrite HR; destruct (Z.eqb_spec a b); [congruence|lia]. }
  unfold DestroyConnector, mget, mupd; apply Z.eqb_neq in Ha; rewrite Ha, Hm; cbn [obind].
  apply Z.eqb_neq in Hk as Hk'; rewrite Hk'; cbn [obind].
  destruct (1 <? GetUse m) eqn:E.
  - assert (H1 : (1 < holds hs a)%nat) by lia.
    assert (H2 : holds (release a hs) a = (holds hs a - 1)%nat) by (rewrite HR, Z.eqb_refl; done).
    eexists; split; [done|]; split.
    + apply (Sharing_update n hs _ a m _ HS Hm); [apply version_update|exact HO| |done].
      intros _; rewrite use_update, H2; split_and!; [lia|lia|]; apply Z.eqb_neq; done.
    + simpl; rewrite lookup_insert_eq; split; [|eauto]; intros _; apply holds_elem; lia.
  - assert (H1 : holds hs a = 1%nat) by (pose proof (sh_used _ _ HS a m Hm Hk); lia).
    assert (H2 : holds (release a hs) a = O) by (rewrite HR, Z.eqb_refl; lia).
    destruct (unlist_elem n a (sh_nodup _ _ HS)) as (l & -> & Hl & HL).
    simpl; rewrite Hm; simpl; rewrite lookup_insert_eq; simpl.
    unfold mput; simpl; rewrite insert_insert_eq.
    match goal with |- context [delete_ ?n0 a] =>
      destruct (delete_spec n0 a Hl) as (l' & -> & Hl' & HL') end; simpl in *.
    rewrite delete_insert_eq; eexists; split; [done|]; split.
    + apply (Sharing_delete n hs); [done|done| |exact HO|done].
      intros b; rewrite HL', HL; tauto.
    + simpl; rewrite lookup_delete_eq; split; [intros []; done|].
      intros Hx; apply holds_elem in Hx; lia.
Qed.

Lemma destroy_UDX n hs a m :
  Sharing n hs -> a <> 0 -> n_heap n !! a = Some m -> GetP2PVersion m = UDX_P2P ->
  exists n', DestroyConnector n a = Done n' /\ Sharing n' hs /\ n_heap n' !! a = None.
Proof.
  intros HS Ha Hm Hv; unfold DestroyConnector, mget, mupd; apply Z.eqb_neq in Ha; rewrite Ha, Hm.
  cbn [obind]; rewrite Hv, Z.eqb_refl; cbn [obind].
  match goal with |- context [delete_ ?n0 a] =>
    destruct (delete_spec n0 a (sh_nodup _ _ HS)) as (l & -> & Hl & HL) end; simpl in *.
  rewrite delete_insert_eq; eexists; split; [done|]; split; [|apply lookup_delete_eq].
  apply (Sharing_delete n hs); [done|done|exact HL|done|].
  destruct (holds hs a) eqn:E; [done|].
  destruct (sh_live _ _ HS a) as (m' & Hm' & Hk); [apply holds_elem; lia|]; congruence.
Qed.

(** ** Viewers and their holdings *)

Definition kind (n : @net M) (a : Z) : option Z := GetP2PVersion <$> n_heap n !! a.

(** What a viewer whose [mP2p] is [a] holds. *)
Definition held (n : @net M) (a : Z) : list Z :=
  if a =? 0 then [] else
  match kind n a with Some v => if v =? UDX_P2P then [] else [a] | None => [] end.

Lemma Sharing_call {A} n hs a (f : M -> outcome (M * A)) n' r :
  Sharing n hs -> mcall_o n a f = Done (n', r) ->
  (forall m m' r, f m = Done (m', r) -> mstep m m') ->
  Sharing n' hs /\ forall b, kind n' b = kind n b.
Proof.
  intros HS HC Hf; unfold mcall_o in HC; destruct (n_heap n !! a) as [m|] eqn:Hm; [|done].
  obinv HC; destruct v as [m' r']; simplify_eq; apply Hf in E.
  split; [eapply Sharing_step; eassumption|]; intros b; unfold kind; simpl.
  destruct (decide (a = b)) as [->|N]; [|rewrite lookup_insert_ne by done; done].
  rewrite lookup_insert_eq, Hm; simpl; rewrite (version_step m m') by done; done.
Qed.

Lemma held_kind n n' a : (forall b, kind n' b = kind n b) -> held n' a = held n a.
Proof. intros HK; unfold held; rewrite HK; done. Qed.

Lemma destroy_held n hs a :
  Sharing n (held n a ++ hs) -> a <> 0 -> is_Some (kind n a) ->
  exists n', DestroyConnector n a = Done n' /\ Sharing n' hs.
Proof.
  intros HS Ha [v Hv]; pose proof Ha as Ha'; apply Z.eqb_neq in Ha'.
  unfold held in HS; rewrite Ha', Hv in HS; unfold kind in Hv.
  destruct (n_heap n !! a) as [m|] eqn:Hm; [|done]; simpl in Hv; simplify_eq.
  destruct (GetP2PVersion m =? UDX_P2P) eqn:E; simpl in HS.
  - destruct (destroy_UDX n hs a m HS Ha Hm) as (n' & H1 & H2 & _); [lia|eauto].
  - destruct (destroy_KCP n _ a HS) as (n' & H1 & H2 & _); [left|].
    simpl in H2; rewrite Z.eqb_refl in H2; eauto.
Qed.

Lemma mcall_step {A} (f : M -> M * A) :
  (forall m, mstep m (f m).1) -> forall m m' r, Done (f m) = Done (m', r) -> mstep m m'.
Proof. intros Hf m m' r HD; simplify_eq; pose proof (Hf m) as Hm; rewrite HD in Hm; exact Hm. Qed.

Lemma DoStatus_ses j s c : s <> NET_STATUS_DISCONNECTED -> ses (DoStatus j s c) = ses j.
Proof. intros Hs; unfold DoStatus; apply Z.eqb_neq in Hs; rewrite Hs; done. Qed.

Lemma DecoderPause_ses j : ses (DecoderPause j) = ses j.
Proof. unfold DecoderPause; case_match; done. Qed.

Lemma disconnect_shared n hs j cmd n' j' :
  Sharing n (held n (mP2p (ses j)) ++ hs) -> (mP2p (ses j) <> 0 -> is_Some (kind n (mP2p (ses j)))) ->
  DoDisconnect n j cmd = Done (n', j') ->
  Sharing n' (held n' (mP2p (ses j')) ++ hs) /\
  (mP2p (ses j') <> 0 -> is_Some (kind n' (mP2p (ses j')))) /\
  (mHandle (ses j) <> 0 -> mP2p (ses j') = 0).
Proof.
  intros HS HL HD; unfold DoDisconnect in HD; cbv zeta in HD.
  set (j0 := set_cmds j _) in HD; change (ses j) with (ses j0) in *; clearbody j0; clear j; rename j0 into j.
  obinv HD; destruct v as [n1 j1].
  assert (H1 : Sharing n1 (held n1 (mP2p (ses j1)) ++ hs) /\ mP2p (ses j1) = mP2p (ses j) /\
            mHandle (ses j1) = mHandle (ses j) /\ (mP2p (ses j) <> 0 -> is_Some (kind n1 (mP2p (ses j))))).
  { destruct (mDataHandle (ses j) =? 0); [simplify_eq; simpl; auto|]; obinv E; destruct v; simplify_eq; simpl.
    destruct (Sharing_call _ _ _ _ _ _ HS E0) as [HS' HK]; [apply mcall_step; constructor|].
    rewrite (held_kind _ _ _ HK), HK; auto. }
  clear E HS HL; destruct H1 as (HS & HP & HH & HL); rewrite <- HP, <- HH in *; clear HP HH j.
  obinv HD; destruct v as [n2 j2].
  assert (H1 : Sharing n2 (held n2 (mP2p (ses j2)) ++ hs) /\ mP2p (ses j2) = mP2p (ses j1) /\
            mHandle (ses j2) = mHandle (ses j1) /\ (mP2p (ses j1) <> 0 -> is_Some (kind n2 (mP2p (ses j1))))).
  { destruct (mPlaybackHandle (ses j1) =? 0); [simplify_eq; simpl; auto|]; obinv E; destruct v; simplify_eq; simpl.
    destruct (Sharing_call _ _ _ _ _ _ HS E0) as [HS' HK]; [apply mcall_step; constructor|].
    rewrite (held_kind _ _ _ HK), HK; auto. }
  clear E HS HL; destruct H1 as (HS & HP & HH & HL); rewrite <- HP, <- HH in *; clear HP HH j1.
  obinv HD; destruct v as [n3 j3].
  assert (H1 : Sharing n3 (held n3 (mP2p (ses j3)) ++ hs) /\
            (mP2p (ses j3) <> 0 -> is_Some (kind n3 (mP2p (ses j3)))) /\
            (mHandle (ses j2) <> 0 -> mP2p (ses j3) = 0)).
  { destruct (Z.eqb_spec (mHandle (ses j2)) 0) as [E0|E0]; cbn [negb andb] in E; [simplify_eq; split_and!; done || congruence|].
    destruct (Z.eqb_spec (mP2p (ses j2)) 0) as [E1|E1]; cbn [negb andb] in E; [simplify_eq; split_and!; done || congruence|].
    destruct (destroy_held n2 hs _ HS E1 (HL E1)) as (n4 & HD4 & HS4); rewrite HD4 in E; cbn [obind] in E.
    simplify_eq; simpl; split_and!; done || congruence. }
  destruct H1 as (H1 & H2 & H3).
  assert (HE : n' = n3 /\ mP2p (ses j') = mP2p (ses j3)).
  { clear - HD; simpl in HD; injection HD as <- <-; split; [done|].
    unfold DoStatus, DecoderPause; destruct cmd; simpl; repeat (case_match; simpl); done. }
  destruct HE as [-> ->]; split; [exact H1|split; [exact H2|exact H3]].
Qed.

(** A viewer holds the live manager [a]. *)
Definition Has (n : @net M) (a : Z) (hs : list Z) : Prop :=
  Sharing n (held n a ++ hs) /\ a <> 0 /\ is_Some (kind n a).

Lemma Has_call {A} n hs a b (f : M -> outcome (M * A)) n' r :
  Has n a hs -> mcall_o n b f = Done (n', r) ->
  (forall m m' r, f m = Done (m', r) -> mstep m m') -> Has n' a hs.
Proof.
  intros (HS & Ha & HK) HC Hf; destruct (Sharing_call _ _ _ _ _ _ HS HC Hf) as [HS' HK'].
  unfold Has; rewrite (held_kind _ _ _ HK'), HK'; done.
Qed.

Lemma connect_any_step t (m m' : M) r :
  match mVerify t with
  | [] => connect3 m (mDeviceID t) (mIP t) (u16 (mPort t))
  | _ => connect2 m (mDeviceID t) (mIP t) (u16 (mPort t)) (mVerify t)
  end = Done (m', r) -> mstep m m'.
Proof. case_match; intros HC; [eapply ms_connect3|eapply ms_connect2]; exact HC. Qed.

Lemma finish_shared n hs j ret n' j' :
  Has n (mP2p (ses j)) hs -> finish n j ret = Done (n', j') ->
  Sharing n' (held n' (mP2p (ses j')) ++ hs) /\
  (mP2p (ses j') <> 0 -> is_Some (kind n' (mP2p (ses j')))).
Proof.
  intros HH HF; unfold finish in HF.
  assert (HD : forall j0 n' j', mP2p (ses j0) = mP2p (ses j) -> DoDisconnect n j0 false = Done (n', j') ->
            Sharing n' (held n' (mP2p (ses j')) ++ hs) /\
            (mP2p (ses j') <> 0 -> is_Some (kind n' (mP2p (ses j'))))).
  { intros j0 n0 j1 HP HD; destruct HH as (HS & Ha & HK); rewrite <- HP in HS, HK.
    destruct (disconnect_shared _ hs _ _ _ _ HS (fun _ => HK) HD) as (? & ? & _); done. }
  destruct (ret =? 0).
  - obinv HF; destruct v as [n1 h]; simplify_eq; rewrite DoStatus_ses by done; simpl.
    apply (Has_call _ _ (mP2p (ses j)) _ _ _ _ HH) in E; [|apply mcall_step; constructor].
    destruct E as (? & ? & ?); done.
  - destruct (_ || (ret =? KP2P_ERR_TIMEOUT)); [|destruct (_ || (ret =? KP2P_ERR_AUTH2_FAILED))];
      (eapply HD; [|exact HF]); simpl; rewrite ?DoStatus_ses by done; done.
Qed.

(** A shared connector is freed exactly when its last viewer lets go.  While
    the registry's use counts agree with the holds [hs], DestroyConnector on a
    held connector succeeds, gives back one hold, keeps every other viewer's
    connector alive and counted, and deletes the connector exactly when no hold
    is left. *)
Theorem last_viewer_frees n hs a :
  Sharing n hs -> a ∈ hs ->
  exists n', DestroyConnector n a = Done n' /\ Sharing n' (release a hs) /\
    (is_Some (n_heap n' !! a) <-> a ∈ release a hs) /\
    (forall b, b ∈ hs -> b <> a -> exists m, n_heap n' !! b = Some m /\ GetUse m = Z.of_nat (holds hs b)).
Proof.
  intros HS Hin; destruct (destroy_KCP n hs a HS Hin) as (n' & H1 & H2 & H3).
  exists n'; split; [done|]; split; [done|]; split; [done|]; intros b Hb N.
  assert (Hh : holds (release a hs) b = holds hs b).
  { rewrite holds_release by done; destruct (Z.eqb_spec a b); [congruence|lia]. }
  assert (Hb' : b ∈ release a hs).
  { apply holds_elem; rewrite Hh; apply holds_elem; done. }
  destruct (sh_live _ _ H2 b Hb') as (m & Hm & Hk); exists m; split; [done|].
  rewrite (sh_use _ _ H2 b m Hm Hk), Hh; done.
Qed.

Section Alloc.
Context (alloc : gmap Z M -> Z).
Hypothesis alloc_fresh : forall h, h !! alloc h = None.
Hypothesis alloc_nonnull : forall h, alloc h <> 0.

Lemma Sharing_insert n hs m :
  Sharing n hs ->
  let a := alloc (n_heap n) in
  NoDup (CList.insert (-1) a (n_list n)) /\
  (forall b, b ∈ CList.insert (-1) a (n_list n) <-> is_Some (<[a := m]> (n_heap n) !! b)) /\
  a ∉ hs /\ holds hs a = O.
Proof.
  intros HS a; rewrite CList.insert_append.
  assert (Ha : n_heap n !! a = None) by apply alloc_fresh.
  assert (Hl : a ∉ n_list n) by (rewrite (sh_listed _ _ HS), Ha; intros []; done).
  assert (Hh : a ∉ hs).
  { intros Hin; destruct (sh_live _ _ HS a Hin) as (mb & Hmb & _); congruence. }
  split_and!; [apply NoDup_append; [apply HS|done]| |done|].
  - intros b; rewrite lookup_insert_is_Some, elem_of_app, list_elem_of_singleton, (sh_listed _ _ HS).
    destruct (decide (a = b)); naive_solver.
  - destruct (holds hs a) eqn:E; [done|]; destruct Hh; apply holds_elem; lia.
Qed.

Lemma Sharing_new_UDX n hs c :
  Sharing n hs -> Sharing (new_ alloc n (new_UDX c)).1 hs.
Proof.
  intros HS; destruct (Sharing_insert n hs (new_UDX c) HS) as (I1 & I2 & I3 & _).
  destruct HS as [S1 S2 S3 S4 S5 S6]; unfold new_; split; simpl; [done|done| | | |done].
  - intros b mb Hb Hk; apply lookup_insert_Some in Hb as [[<- <-]|[N Hb]]; [|apply S3; done].
    rewrite version_UDX in Hk; done.
  - intros b mb Hb Hk; apply lookup_insert_Some in Hb as [[<- <-]|[N Hb]]; [|apply (S4 _ mb); done].
    rewrite version_UDX in Hk; done.
  - intros b Hb; destruct (S5 b Hb) as (mb & Hmb & Hk); exists mb; rewrite lookup_insert_ne; [done|].
    intros <-; done.
Qed.

Lemma Sharing_new_KCP n hs m :
  Sharing n hs -> isKCP m -> GetUse m = 1 ->
  let a := alloc (n_heap n) in
  Sharing (mkNet (CList.insert (-1) a (n_list n)) (<[a := m]> (n_heap n))) (a :: hs).
Proof.
  intros HS Hk Hu a; destruct (Sharing_insert n hs m HS) as (I1 & I2 & I3 & I4).
  fold a in I1, I2, I3, I4; destruct HS as [S1 S2 S3 S4 S5 S6].
  assert (HO : forall b, b <> a -> holds (a :: hs) b = holds hs b).
  { intros b N; rewrite holds_cons; destruct (Z.eqb_spec a b); [congruence|done]. }
  assert (HA : holds (a :: hs) a = 1%nat) by (rewrite holds_cons, Z.eqb_refl, I4; done).
  split; simpl; [done|done| | | |].
  - intros b mb Hb Hkb; apply lookup_insert_Some in Hb as [[<- <-]|[N Hb]]; [rewrite HA; done|].
    rewrite HO by done; apply S3; done.
  - intros b mb Hb Hkb; apply lookup_insert_Some in Hb as [[<- <-]|[N Hb]]; [rewrite HA; lia|].
    rewrite HO by done; apply (S4 _ mb); done.
  - intros b Hb; destruct (decide (b = a)) as [->|N].
    + exists m; rewrite lookup_insert; case_decide; done.
    + apply elem_of_cons in Hb as [?|Hb]; [done|]; destruct (S5 b Hb) as (mb & Hmb & Hkb).
      exists mb; rewrite lookup_insert_ne by done; done.
  - intros b Hb; apply elem_of_cons in Hb as [->|Hb]; [apply alloc_nonnull|apply S6; done].
Qed.

Lemma Sharing_create n hs d i p n' a :
  Sharing n hs -> CreateConnector alloc n d i p = Done (n', a) ->
  Sharing n' (a :: hs) /\ a <> 0.
Proof.
  intros HS HC; unfold CreateConnector in HC; obinv HC; destruct v as [b|].
  - obinv HC; simplify_eq; destruct (find_shared_spec _ _ _ _ _ _ E) as (Hl & m & Hm & Hk).
    unfold mupd in E0; rewrite Hm in E0; simplify_eq.
    pose proof (sh_used _ _ HS a m Hm Hk) as Hu.
    assert (Ha : a <> 0) by (apply (sh_nonnull _ _ HS), holds_elem; done); split; [|done].
    apply (Sharing_update n hs (a :: hs) a m _ HS Hm); [apply version_update| | |done].
    + intros c N; rewrite holds_cons; destruct (Z.eqb_spec a c); [congruence|done].
    + intros _; rewrite use_update, (sh_use _ _ HS a m Hm Hk), holds_cons, Z.eqb_refl.
      split_and!; [lia|lia|done].
  - destruct (new_ alloc n new_KCP) as [n0 a0] eqn:EN; unfold new_ in EN; simplify_eq.
    obinv HC; simplify_eq; unfold mupd in *; simpl in *; rewrite lookup_insert in E0.
    destruct (decide _); [|done]; simplify_eq; simpl in *.
    rewrite lookup_insert in E1; destruct (decide _); [|done]; simplify_eq.
    split; [|apply alloc_nonnull]; unfold mput; simpl; rewrite !insert_insert_eq.
    apply Sharing_new_KCP; [done| |].
    + rewrite version_property, version_update, version_KCP; done.
    + rewrite use_property, use_update, use_KCP; done.
Qed.

Lemma Has_new_UDX n hs c : Sharing n hs -> let '(n', a) := new_ alloc n (new_UDX c) in Has n' a hs.
Proof.
  intros HS; pose proof (Sharing_new_UDX n hs c HS) as HS'; pose proof (alloc_nonnull (n_heap n)) as Ha.
  unfold new_ in *; unfold Has, held, kind; simpl in *; apply Z.eqb_neq in Ha as Ha'; rewrite Ha'.
  rewrite lookup_insert_eq; simpl; rewrite version_UDX; simpl; split; [done|split; [done|eauto]].
Qed.

Lemma Has_create n hs d i p n' a :
  Sharing n hs -> CreateConnector alloc n d i p = Done (n', a) -> Has n' a hs.
Proof.
  intros HS HC; destruct (Sharing_create _ _ _ _ _ _ _ HS HC) as [HS' Ha].
  destruct (sh_live _ _ HS' a) as (m & Hm & Hk); [left|].
  unfold Has, held, kind; rewrite Hm; simpl; apply Z.eqb_neq in Ha as Ha'; rewrite Ha'.
  apply Z.eqb_neq in Hk; rewrite Hk; split; [done|split; [done|eauto]].
Qed.

(** Connecting takes exactly one hold, or none when it fails, whatever the
    viewer held before. *)
Lemma reconnect_shared n hs j this n' j' ret :
  Sharing n hs -> ReConnect alloc n j this = Done (n', j', ret) ->
  Sharing n' (held n' (mP2p (ses j')) ++ hs) /\
  (mP2p (ses j') <> 0 -> is_Some (kind n' (mP2p (ses j')))).
Proof.
  intros HS HR; unfold ReConnect in HR; cbv zeta in HR.
  obinv HR; destruct v as [n1 a].
  assert (H1 : Has n1 a hs).
  { destruct (15 <? _); [|apply (Has_create _ _ _ _ _ _ _ HS E)].
    pose proof (Has_new_UDX n hs this HS) as HN.
    apply (f_equal (fun o => match o with Done x => x | _ => (n, 0) end)) in E; simpl in E.
    rewrite E in HN; exact HN. }
  clear E; obinv HR; destruct v as [n2 h].
  apply (Has_call _ _ _ _ _ _ _ H1) in E; [|apply mcall_step; constructor].
  clear H1; rename E into H1; obinv HR; destruct v as [n3 ret1].
  apply (Has_call _ _ _ _ _ _ _ H1) in E; [|apply connect_any_step].
  clear H1; rename E into H1; obinv HR; destruct v0 as [[[n4 a4] h4] ret4].
  assert (H2 : Has n4 a4 hs).
  { destruct (fallback _ _ _); [|simplify_eq; exact H1].
    destruct H1 as (HS1 & Ha & HK); destruct (destroy_held _ _ _ HS1 Ha HK) as (n5 & HD & HS5).
    rewrite HD in E0; cbn [obind] in E0; pose proof (Has_new_UDX n5 hs this HS5) as HN.
    destruct (new_ alloc n5 (new_UDX this)) as [n6 a6]; obinv E0; destruct v0 as [n7 h7].
    obinv E0; destruct v0 as [n8 ret8]; simplify_eq.
    eapply Has_call; [|eassumption|apply connect_any_step].
    eapply Has_call; [exact HN|eassumption|apply mcall_step; constructor]. }
  clear E0 H1; obinv HR; destruct v0 as [n5 ret5].
  assert (H3 : Has n5 a4 hs).
  { case_match; [|simplify_eq; done]; destruct (ret4 =? 0); [|simplify_eq; done].
    eapply Has_call; [exact H2|exact E0|apply mcall_step; constructor]. }
  obinv HR; destruct v0 as [n6 j6]; simplify_eq.
  eapply finish_shared; [|eassumption]; exact H3.
Qed.

(** C9: connecting, through any path (a shared connector, a new one, the fallback
    to the older library, a failure) takes exactly the hold that the viewer's
    [mP2p] shows afterwards and leaves the other viewers' holds as they were;
    disconnecting a connected viewer gives its hold back. *)
Theorem connect_disconnect_accounting n hs j this :
  Sharing n hs ->
  (forall n' j' ret, ReConnect alloc n j this = Done (n', j', ret) ->
     Sharing n' (held n' (mP2p (ses j')) ++ hs)) /\
  (forall n1 j1 ret cmd n' j', ReConnect alloc n j this = Done (n1, j1, ret) ->
     mHandle (ses j1) <> 0 -> DoDisconnect n1 j1 cmd = Done (n', j') ->
     mP2p (ses j') = 0 /\ Sharing n' hs).
Proof.
  intros HS; split.
  - intros n' j' ret HR; apply (reconnect_shared _ _ _ _ _ _ _ HS HR).
  - intros n1 j1 ret cmd n' j' HR Hh HD.
    destruct (reconnect_shared _ _ _ _ _ _ _ HS HR) as [HS1 HL1].
    destruct (disconnect_shared _ _ _ _ _ _ HS1 HL1 HD) as (HS2 & _ & HP).
    specialize (HP Hh); split; [done|]; rewrite HP in HS2; exact HS2.
Qed.

(** A failed channel open leaks the connector.  The task thread reacts by
    connecting again without letting go of the connector it holds, so the use
    count rises a second time for the same viewer; when the viewer then
    disconnects, one hold stays for ever and the connector is never freed. *)
Theorem failed_open_leaks fuel n hs j this c n0 j0 e n1 j1 n2 j2 :
  Sharing n (mP2p (ses j) :: hs) -> commandNo c = CMD_OPENCHANNEL ->
  DoOpenChannel n j this c 1 = Done (n0, j0, e) -> e <> 0 ->
  exec alloc fuel n j this c = Done (n1, j1) ->
  DoDisconnect n1 j1 true = Done (n2, j2) -> mP2p (ses j2) = 0 ->
  Sharing n2 (mP2p (ses j) :: hs) /\ is_Some (n_heap n2 !! mP2p (ses j)).
Proof.
  intros HS Hc HO He HE HD HP; unfold exec in HE; rewrite Hc in HE; cbn [Z.eqb] in HE.
  unfold CMD_OPENCHANNEL, CMD_CONNECT in HE; cbn in HE; rewrite HO in HE; cbn [obind] in HE.
  apply Z.eqb_neq in He; rewrite He in HE; cbn [negb] in HE; obinv HE.
  destruct v as [[n3 j3] r]; simplify_eq.
  assert (HS0 : Sharing n0 (mP2p (ses j) :: hs)).
  { unfold DoOpenChannel in HO; destruct (mP2p (ses j) =? 0); [simplify_eq; done|]; cbn [Z.eqb negb] in HO.
    obinv HO; destruct v as [n4 r4]; simplify_eq.
    apply (Sharing_call _ _ _ _ _ _ HS) in E0; [apply E0|apply mcall_step; constructor]. }
  destruct (reconnect_shared _ _ _ _ _ _ _ HS0 E) as [HS1 HL1].
  destruct (disconnect_shared _ _ _ _ _ _ HS1 HL1 HD) as (HS2 & _ & _).
  rewrite HP in HS2; simpl in HS2; split; [done|].
  destruct (sh_live _ _ HS2 (mP2p (ses j))) as (m & Hm & _); [left|rewrite Hm; eauto].
Qed.
End Alloc.
End Sharing.

(** ** A concrete network *)

Module Demo.
Definition lib (tr : list Legacy.lcall) (k : Legacy.lcall) : Z :=
  match k with Legacy.LCreate => 700 | _ => 0 end.
(** Every call succeeds but opening a stream. *)
Definition sdk (tr : list event) (k : call) : Z :=
  match k with KCreate => 800 | KOpenStream _ _ _ => -40 | _ => 0 end.
Definition no_recs1 (tr : list Legacy.lcall) (h : Z) : option (list rec_file) := None.
Definition no_recs2 (tr : list event) (h : Z) : option (list rec_file) := None.
#[export] Instance ops : P2PManager manager := manager_P2PManager lib sdk no_recs1 no_recs2 0.
#[export] Instance laws : P2PManagerLaws manager := manager_laws lib sdk no_recs1 no_recs2 0.

Definition alloc (h : gmap Z manager) : Z := 1 + map_fold (fun k _ acc => Z.max k acc) 0 h.

Lemma alloc_bound (h : gmap Z manager) :
  0 <= map_fold (fun k _ acc => Z.max k acc) 0 h /\
  forall k, is_Some (h !! k) -> k <= map_fold (fun k _ acc => Z.max k acc) 0 h.
Proof.
  apply (map_fold_weak_ind (fun r h => 0 <= r /\ forall k, is_Some (h !! k) -> k <= r)).
  - split; [lia|]; intros k; rewrite lookup_empty; intros []; done.
  - intros i x m r Hi [IH1 IH2]; split; [lia|]; intros k.
    rewrite lookup_insert_is_Some; intros [->|[_ Hk]]; [lia|apply IH2 in Hk; lia].
Qed.

Lemma alloc_fresh h : h !! alloc h = None.
Proof.
  destruct (h !! alloc h) eqn:E; [|done]; destruct (alloc_bound h) as [_ HB].
  specialize (HB (alloc h)); unfold alloc in *; rewrite E in HB; specialize (HB (ltac:(eauto))); lia.
Qed.

Lemma alloc_nonnull h : alloc h <> 0.
Proof. destruct (alloc_bound h); unfold alloc; lia. Qed.

Definition net0 : @net manager := mkNet [] ∅.
Lemma net0_Sharing : Sharing net0 [].
Proof.
  split; simpl; try (intros a m H; rewrite lookup_empty in H; done);
    try (intros a H; inversion H; fail).
  - constructor.
  - intros a; rewrite lookup_empty; split; [intros H; inversion H|intros []; done].
Qed.

(** A viewer asked to connect to device "123456" as "admin". *)
Definition dev : cstr := [49; 50; 51; 52; 53; 54].
Definition cred : cstr := [97; 100; 109; 105; 110; 58].
Definition asked : ja := set_tgt new_ja (mkT dev [] 0 [97; 100; 109; 105; 110] [] []).
Definition connected : @net manager * ja :=
  match ReConnect alloc net0 asked 55 with Done (n, j, _) => (n, j) | _ => (net0, asked) end.
Definition reopened : @net manager * ja :=
  match exec alloc 1 (fst connected) (snd connected) 55 (cmd_channel CMD_OPENCHANNEL 1 0 0) with
  | Done s => s | _ => (net0, asked) end.
Definition gone : @net manager * ja :=
  match DoDisconnect (fst reopened) (snd reopened) true with Done s => s | _ => (net0, asked) end.

Lemma connected_Sharing : Sharing (fst connected) [mP2p (ses (snd connected))].
Proof.
  destruct (reconnect_shared alloc alloc_fresh alloc_nonnull net0 [] asked 55 (fst connected) (snd connected) 0)
    as [HS _]; [apply net0_Sharing|vm_compute; reflexivity|]; exact HS.
Qed.
End Demo.
Import Demo.

Lemma last_viewer_frees_witness :
  exists n', DestroyConnector (fst Demo.connected) 1 = Done n' /\ n_heap n' !! 1 = None.
Proof.
  destruct (last_viewer_frees (fst Demo.connected) [1] 1) as (n' & H1 & _ & H2 & _).
  - exact Demo.connected_Sharing.
  - left.
  - exists n'; split; [exact H1|]; destruct (n_heap n' !! 1) eqn:E; [|done].
    assert (Hx : 1 ∈ release 1 [1]) by (apply H2; eauto); inversion Hx.
Defined.

Lemma connect_disconnect_accounting_witness :
  Sharing (fst Demo.connected) (held (fst Demo.connected) 1 ++ []).
Proof.
  destruct (connect_disconnect_accounting Demo.alloc Demo.alloc_fresh Demo.alloc_nonnull Demo.net0 []
              Demo.asked 55 Demo.net0_Sharing) as [H _].
  apply (H (fst Demo.connected) (snd Demo.connected) 0); vm_compute; reflexivity.
Defined.

Lemma failed_open_leaks_witness :
  Sharing (fst Demo.gone) [1] /\ is_Some (n_heap (fst Demo.gone) !! 1).
Proof.
  apply (failed_open_leaks Demo.alloc Demo.alloc_fresh Demo.alloc_nonnull 1 (fst Demo.connected) []
           (snd Demo.connected) 55 (cmd_channel CMD_OPENCHANNEL 1 0 0)
           (match DoOpenChannel (fst Demo.connected) (snd Demo.connected) 55 (cmd_channel CMD_OPENCHANNEL 1 0 0) 1
            with Done (n, _, _) => n | _ => Demo.net0 end)
           (match DoOpenChannel (fst Demo.connected) (snd Demo.connected) 55 (cmd_channel CMD_OPENCHANNEL 1 0 0) 1
            with Done (_, j, _) => j | _ => Demo.asked end)
           (-40) (fst Demo.reopened) (snd Demo.reopened) (fst Demo.gone) (snd Demo.gone)).
  - exact Demo.connected_Sharing.
  - reflexivity.
  - vm_compute; reflexivity.
  - done.
  - vm_compute; reflexivity.
  - vm_compute; reflexivity.
  - vm_compute; reflexivity.
Defined.

(** ** Outcomes *)

Section Outcome.
Context {M : Type} `{P2PManager M}.

Definition closed_actions (cmd : bool) (p720 : Z) : list action :=
  AResetDecoder :: (if cmd then [AStatus NET_STATUS_CLOSED 0] else []) ++
  (if p720 =? 0 then [] else [AFreeDistortion]).

(** What [DoDisconnect] leaves. *)
Record Closed (j j' : ja) : Prop := mkClosed {
  cl_handle : mHandle (ses j') = 0;
  cl_data : mDataHandle (ses j') = 0;
  cl_playback : mPlaybackHandle (ses j') = 0;
  cl_connected : mIsConnected (ses j') = false;
  cl_real : mRealStatus (ses j') = NET_PLAY_NONE;
  cl_add : mAddBuffer (ply j') = false;
  cl_p720 : mHasSetP720 (ply j') = 0;
  cl_now : connectNowStates (ses j') = connectNowStates (ses j);
  cl_already : mAreadyConnected (ses j') = mAreadyConnected (ses j);
  cl_tgt : tgt j' = tgt j;
  cl_queue : mCommand j' = List.filter (fun c => commandNo c =? CMD_CONNECT) (mCommand j)
}.

Lemma disconnect_closed n j cmd n' j' :
  DoDisconnect n j cmd = Done (n', j') ->
  Closed j j' /\ out j' = out j ++ closed_actions cmd (mHasSetP720 (ply j)).
Proof.
  intros HD; unfold DoDisconnect in HD; cbv zeta in HD.
  obinv HD; destruct v as [n1 j1].
  assert (H1 : mDataHandle (ses j1) = 0 /\ mPlaybackHandle (ses j1) = mPlaybackHandle (ses j) /\
     connectNowStates (ses j1) = connectNowStates (ses j) /\
     mAreadyConnected (ses j1) = mAreadyConnected (ses j) /\ tgt j1 = tgt j /\ ply j1 = ply j /\
     out j1 = out j /\ mCommand j1 = List.filter (fun c => commandNo c =? CMD_CONNECT) (mCommand j)).
  { simpl in E; destruct (Z.eqb_spec (mDataHandle (ses j)) 0); [simplify_eq; done|].
    destruct (mcall _ _ _) as [[]| |]; simpl in E; simplify_eq; done. }
  clear E; destruct H1 as (A1 & A2 & A3 & A4 & A5 & A6 & A7 & A8).
  obinv HD; destruct v as [n2 j2].
  assert (H1 : mDataHandle (ses j2) = 0 /\ mPlaybackHandle (ses j2) = 0 /\
     connectNowStates (ses j2) = connectNowStates (ses j) /\
     mAreadyConnected (ses j2) = mAreadyConnected (ses j) /\ tgt j2 = tgt j /\ ply j2 = ply j /\
     out j2 = out j /\ mCommand j2 = List.filter (fun c => commandNo c =? CMD_CONNECT) (mCommand j)).
  { destruct (Z.eqb_spec (mPlaybackHandle (ses j1)) 0); [simplify_eq; done|].
    destruct (mcall _ _ _) as [[]| |]; simpl in E; simplify_eq; done. }
  clear E A1 A2 A3 A4 A5 A6 A7 A8; destruct H1 as (A1 & A2 & A3 & A4 & A5 & A6 & A7 & A8).
  obinv HD; destruct v as [n3 j3].
  assert (H1 : mDataHandle (ses j3) = 0 /\ 
     connectNowStates (ses j3) = connectNowStates (ses j) /\
     mAreadyConnected (ses j3) = mAreadyConnected (ses j) /\ tgt j3 = tgt j /\ ply j3 = ply j /\
     out j3 = out j /\ mCommand j3 = List.filter (fun c => commandNo c =? CMD_CONNECT) (mCommand j)).
  { destruct (negb (mHandle (ses j2) =? 0) && _); [|simplify_eq; done].
    destruct (DestroyConnector _ _) as [| |]; simpl in E; simplify_eq; done. }
  clear - HD H1; destruct H1 as (A1 & A3 & A4 & A5 & A6 & A7 & A8).
  rewrite <- A6, <- A7; simpl in HD; injection HD as _ <-.
  unfold closed_actions, DoStatus, DecoderPause.
  destruct (Z.eqb_spec (mHasSetP720 (ply j3)) 0) as [E|E], cmd;
    destruct (negb (mPlaybackHandle (ses j3) =? 0) || negb (mHandle (ses j3) =? 0));
    destruct (negb (mDecodeStatus (ply j3) =? 0)); simpl; rewrite ?(proj2 (Z.eqb_neq _ _) E), ?E; simpl;
    (split; [split; simpl; congruence|rewrite <- ?app_assoc; done]).
Qed.

Lemma disconnect_idle n j cmd :
  mHandle (ses j) = 0 -> mDataHandle (ses j) = 0 -> mPlaybackHandle (ses j) = 0 ->
  exists j', DoDisconnect n j cmd = Done (n, j').
Proof.
  intros H1 H2 H3; unfold DoDisconnect; simpl; rewrite H2; cbn [obind Z.eqb]; simpl.
  rewrite H3; simpl; rewrite H1; simpl; eauto.
Qed.

(** The state a failed attempt ends in, by the result code. *)
Definition failure (ret : Z) : Z :=
  if (ret =? 1) || (ret =? KP2P_ERR_TIMEOUT) then NET_STATUS_TIMEOUT
  else if (ret =? 2) || (ret =? KP2P_ERR_AUTH_FAILED) || (ret =? KP2P_ERR_AUTH2_FAILED)
  then NET_STATUS_AUTHOFAIL else NET_STATUS_CONNECTFAIL.

Lemma failure_closed n j ret n' j' j0 s :
  DoDisconnect n j0 false = Done (n', j') ->
  connectNowStates (ses j0) = s -> out j0 = out j ++ [AStatus s 0] -> tgt j0 = tgt j ->
  mCommand j0 = mCommand j -> mHasSetP720 (ply j0) = mHasSetP720 (ply j) -> failure ret = s ->
  mIsConnected (ses j') = false /\ mRealStatus (ses j') = NET_PLAY_NONE /\ mHandle (ses j') = 0 /\
  connectNowStates (ses j') = failure ret /\ mAddBuffer (ply j') = false /\ tgt j' = tgt j /\
  mCommand j' = List.filter (fun c => commandNo c =? CMD_CONNECT) (mCommand j) /\
  out j' = out j ++ AStatus (failure ret) 0 :: closed_actions false (mHasSetP720 (ply j)).
Proof.
  intros HD H1 H2 H3 H4 H5 H6; destruct (disconnect_closed _ _ _ _ _ HD) as [[] HO].
  rewrite HO, H2, <- app_assoc, H5, H6; split_and!; try congruence; done.
Qed.

Lemma finish_outcome n j ret n' j' :
  finish n j ret = Done (n', j') ->
  if ret =? 0 then
    mIsConnected (ses j') = true /\ mAreadyConnected (ses j') = true /\
    connectNowStates (ses j') = NET_STATUS_CONNECTED /\ mAddBuffer (ply j') = true /\
    mP2p (ses j') = mP2p (ses j) /\ mHandle (ses j') = mHandle (ses j) /\ tgt j' = tgt j /\
    mCommand j' = mCommand j /\ out j' = out j ++ [AStatus NET_STATUS_OPENING 0]
  else
    mIsConnected (ses j') = false /\ mRealStatus (ses j') = NET_PLAY_NONE /\ mHandle (ses j') = 0 /\
    connectNowStates (ses j') = failure ret /\ mAddBuffer (ply j') = false /\ tgt j' = tgt j /\
    mCommand j' = List.filter (fun c => commandNo c =? CMD_CONNECT) (mCommand j) /\
    out j' = out j ++ AStatus (failure ret) 0 :: closed_actions false (mHasSetP720 (ply j)).
Proof.
  intros HF; unfold finish in HF; destruct (ret =? 0).
  - obinv HF; destruct v as [n1 h]; simplify_eq; done.
  - destruct (_ || (ret =? KP2P_ERR_TIMEOUT)) eqn:E1;
      [|destruct (_ || (ret =? KP2P_ERR_AUTH2_FAILED)) eqn:E2];
      (eapply failure_closed; [exact HF|reflexivity..|]); unfold failure; rewrite E1, ?E2; done.
Qed.
End Outcome.

Section Total.
Context {M : Type} `{P2PManagerLaws M}.

Lemma Has_mcall {A} (n : @net M) a hs (f : M -> M * A) :
  Has n a hs -> (forall m, mstep m (f m).1) ->
  exists n' r, mcall n a f = Done (n', r) /\ Has n' a hs.
Proof.
  intros H1 Hf; pose proof H1 as (_ & _ & [v Hv]); unfold kind in Hv.
  assert (HE : exists s, mcall n a f = Done s).
  { unfold mcall, mcall_o; destruct (n_heap n !! a); [|done]; simpl; destruct (f m); eauto. }
  destruct HE as [[n' r] HE]; exists n', r; split; [done|].
  eapply Has_call; [exact H1|exact HE|apply mcall_step, Hf].
Qed.

Lemma disconnect_total n hs j cmd :
  Has n (mP2p (ses j)) hs -> exists n' j', DoDisconnect n j cmd = Done (n', j').
Proof.
  intros HH; unfold DoDisconnect; cbv zeta; set (j0 := set_cmds j _); change (ses j) with (ses j0) in HH.
  clearbody j0; clear j; rename j0 into j.
  assert (H1 : exists n1 j1, (if mDataHandle (ses j) =? 0 then Done (n, j)
      else let* '(n, _) := mcall n (mP2p (ses j)) (fun m => vconDestroy m (mDataHandle (ses j))) in
           Done (n, set_ses j (s_data (ses j) 0))) = Done (n1, j1) /\ Has n1 (mP2p (ses j1)) hs).
  { destruct (mDataHandle (ses j) =? 0); [eauto|].
    destruct (Has_mcall n _ _ (fun m => vconDestroy m (mDataHandle (ses j))) HH) as (n' & r & -> & H1);
      [constructor|]; simpl; eauto. }
  destruct H1 as (n1 & j1 & -> & H1); cbn [obind].
  assert (H2 : exists n2 j2, (if mPlaybackHandle (ses j1) =? 0 then Done (n1, j1)
      else let* '(n, _) := mcall n1 (mP2p (ses j1)) (fun m => playBackStop m (mPlaybackHandle (ses j1))) in
           Done (n, set_ses j1 (s_playback (ses j1) 0))) = Done (n2, j2) /\ Has n2 (mP2p (ses j2)) hs).
  { destruct (mPlaybackHandle (ses j1) =? 0); [eauto|].
    destruct (Has_mcall n1 _ _ (fun m => playBackStop m (mPlaybackHandle (ses j1))) H1) as (n' & r & -> & H2);
      [constructor|]; simpl; eauto. }
  destruct H2 as (n2 & j2 & -> & H2); cbn [obind].
  destruct (negb (mHandle (ses j2) =? 0) && _); [|simpl; eauto].
  destruct H2 as (H2 & Ha & HK); destruct (destroy_held _ _ _ H2 Ha HK) as (n3 & -> & _); simpl; eauto.
Qed.
End Total.

(** Disconnecting a viewer that holds a connector always succeeds and leaves
    it closed: no handles, not connected, nothing playing, no frames accepted,
    and of the queued commands only the connects, in their order.  The
    application is told once.  Doing it again touches no connector. *)
Theorem disconnect_closes {M} `{P2PManagerLaws M} n hs j cmd :
  Has n (mP2p (ses j)) hs ->
  exists n' j', DoDisconnect n j cmd = Done (n', j') /\ Closed j j' /\
  out j' = out j ++ closed_actions cmd (mHasSetP720 (ply j)) /\
  forall cmd', exists j'', DoDisconnect n' j' cmd' = Done (n', j'').
Proof.
  intros HH; destruct (disconnect_total n hs j cmd HH) as (n' & j' & HD); exists n', j'; split; [done|].
  destruct (disconnect_closed _ _ _ _ _ HD) as [HCl HO]; split; [done|split; [done|]].
  intros cmd'; destruct HCl; apply disconnect_idle; done.
Qed.

Lemma disconnect_closes_witness :
  exists n' j', DoDisconnect (fst Demo.connected) (snd Demo.connected) true = Done (n', j') /\
    mHandle (ses j') = 0 /\
    out j' = out (snd Demo.connected) ++ [AResetDecoder; AStatus NET_STATUS_CLOSED 0].
Proof.
  destruct (disconnect_closes (fst Demo.connected) [] (snd Demo.connected) true)
    as (n' & j' & H1 & [] & H2 & _).
  - split; [exact Demo.connected_Sharing|]; split; [vm_compute; done|vm_compute; eauto].
  - exists n', j'; split; [exact H1|]; split; [done|exact H2].
Defined.

(** Every connection attempt ends in one of four states, fixed by the result
    code, and the application is told which: success leaves the session
    connected with the attempt's handle and frames accepted; a timeout, a
    refused login and any other failure leave it closed with the queue purged. *)
Theorem connect_outcome {M} `{P2PManager M} alloc n j this n' j' ret :
  ReConnect alloc n j this = Done (n', j', ret) ->
  tgt j' = tgt j /\
  if ret =? 0 then
    mIsConnected (ses j') = true /\ mAreadyConnected (ses j') = true /\
    connectNowStates (ses j') = NET_STATUS_CONNECTED /\ mAddBuffer (ply j') = true /\
    mCommand j' = mCommand j /\
    out j' = out j ++ [AStatus NET_STATUS_CONNECTING 0; AClear360; AStatus NET_STATUS_OPENING 0]
  else
    mIsConnected (ses j') = false /\ mRealStatus (ses j') = NET_PLAY_NONE /\ mHandle (ses j') = 0 /\
    connectNowStates (ses j') = failure ret /\ mAddBuffer (ply j') = false /\
    mCommand j' = List.filter (fun c => commandNo c =? CMD_CONNECT) (mCommand j) /\
    out j' = out j ++ [AStatus NET_STATUS_CONNECTING 0; AClear360; AStatus (failure ret) 0] ++
      closed_actions false (mHasSetP720 (ply j)).
Proof.
  intros HR; unfold ReConnect in HR; cbv zeta in HR.
  obinv HR; destruct v as [n1 a]; obinv HR; destruct v as [n2 h]; obinv HR; destruct v as [n3 r3].
  obinv HR; destruct v0 as [[[n4 a4] h4] r4]; obinv HR; destruct v0 as [n5 r5].
  obinv HR; destruct v0 as [n6 j6]; simplify_eq.
  match goal with HF : finish _ _ _ = _ |- _ => apply finish_outcome in HF; simpl in HF; revert HF end.
  destruct (ret =? 0).
  - intros (? & ? & ? & ? & ? & ? & ? & ? & HO); split_and!; try done; rewrite HO, <- !app_assoc; done.
  - intros (? & ? & ? & ? & ? & ? & ? & HO); split_and!; try done; rewrite HO, <- !app_assoc; done.
Qed.

Lemma connect_outcome_witness :
  mIsConnected (ses (snd Demo.connected)) = true /\
  out (snd Demo.connected) = [AStatus NET_STATUS_CONNECTING 0; AClear360; AStatus NET_STATUS_OPENING 0].
Proof.
  destruct (connect_outcome Demo.alloc Demo.net0 Demo.asked 55 (fst Demo.connected) (snd Demo.connected) 0)
    as (_ & H1 & _ & _ & _ & _ & H2); [vm_compute; reflexivity|].
  split; [exact H1|exact H2].
Defined.

(** ** Address strings *)

Fixpoint decimal (fuel : nat) (p : Z) : cstr :=
  match fuel with
  | O => []
  | S f => if p <? 10 then [48 + p] else decimal f (p / 10) ++ [48 + p mod 10]
  end.

Lemma token_app d s r :
  strchr s d = false -> token d (s ++ r) = (s ++ fst (token d r), snd (token d r)).
Proof.
  induction s as [|x s IH]; simpl; intros Hs; [destruct (token d r); done|].
  destruct (x =? d); [done|]; rewrite IH by done; done.
Qed.

Lemma strtok_app d s r :
  s <> [] -> strchr s d = false -> strtok d (s ++ d :: r) = Some (s, r).
Proof.
  intros Hn Hs; unfold strtok; destruct s as [|x s]; [done|].
  assert (HS : skip_delim d ((x :: s) ++ d :: r) = (x :: s) ++ d :: r).
  { simpl in *; destruct (x =? d); done. }
  rewrite HS; change (Some (token d ((x :: s) ++ d :: r)) = Some (x :: s, r)).
  rewrite token_app by done; cbn [token]; rewrite Z.eqb_refl; cbn [fst snd]; rewrite app_nil_r; done.
Qed.

Lemma strtok_last d s : s <> [] -> strchr s d = false -> strtok d s = Some (s, []).
Proof.
  intros Hn Hs; unfold strtok; destruct s as [|x s]; [done|].
  assert (HS : skip_delim d (x :: s) = x :: s) by (simpl in *; destruct (x =? d); done).
  rewrite HS; pose proof (token_app d (x :: s) [] Hs) as HT; rewrite !app_nil_r in HT; exact (f_equal Some HT).
Qed.

Lemma strchr_app s d r : strchr (s ++ d :: r) d = true.
Proof. induction s as [|x s IH]; simpl; [rewrite Z.eqb_refl; done|]; rewrite IH; case_match; done. Qed.

Lemma strcpy_fits size s : (length s < size)%nat -> strcpy size s = Done s.
Proof. intros Hs; unfold strcpy; apply Nat.ltb_lt in Hs; rewrite Hs; done. Qed.

Lemma number_app acc s t : Forall (fun x => isdigit x = true) s -> number acc (s ++ t) = number (number acc s) t.
Proof.
  intros HF; revert acc; induction HF as [|x s Hx _ IH]; intros acc; simpl; [done|].
  rewrite Hx; apply IH.
Qed.

Lemma decimal_spec f p :
  0 <= p < 10 ^ Z.of_nat f -> (0 < f)%nat ->
  Forall (fun x => isdigit x = true) (decimal f p) /\ number 0 (decimal f p) = p /\ decimal f p <> [].
Proof.
  revert p; induction f as [|f IH]; intros p Hp Hf; [lia|]; simpl.
  destruct (p <? 10) eqn:E.
  - split_and!; [|unfold number, isdigit; case_match; lia|done].
    constructor; [unfold isdigit; lia|constructor].
  - assert (Hf' : (0 < f)%nat) by (destruct f; [simpl in Hp; lia|lia]).
    destruct (IH (p / 10)) as (I1 & I2 & I3); [|done|].
    { rewrite Nat2Z.inj_succ, Z.pow_succ_r in Hp by lia; dlia. }
    assert (HD : isdigit (48 + p mod 10) = true) by (unfold isdigit; dlia).
    split_and!.
    + apply Forall_app; split; [done|constructor; [exact HD|constructor]].
    + rewrite number_app, I2 by done; cbn [number]; rewrite HD; dlia.
    + intros HN; apply app_eq_nil in HN as [_ HN]; done.
Qed.

Lemma digit_plain x : isdigit x = true -> isspace x = false /\ (x =? 45) = false /\ (x =? 43) = false /\ (x =? colon) = false.
Proof. unfold isdigit, isspace, colon; lia. Qed.

Lemma atoi_decimal f p :
  0 <= p < 10 ^ Z.of_nat f -> (0 < f)%nat -> p <= 2147483647 -> atoi (decimal f p) = Done p.
Proof.
  intros Hp Hf Hi; destruct (decimal_spec f p Hp Hf) as (HF & HN & Hne); unfold atoi.
  destruct (decimal f p) as [|x s]; [done|]; apply Forall_cons_1 in HF as [Hx _].
  destruct (digit_plain x Hx) as (H1 & H2 & H3 & _); cbn [skip_space]; rewrite H1, H2, H3, HN.
  replace ((-2147483648 <=? p) && (p <=? 2147483647)) with true by lia; done.
Qed.

Lemma decimal_no_colon s : Forall (fun x => isdigit x = true) s -> strchr s colon = false.
Proof.
  induction 1 as [|x s Hx _ IH]; [done|]; simpl; destruct (digit_plain x Hx) as (_ & _ & _ & ->); exact IH.
Qed.

(** C35: the address a viewer is given is the one it connects to: a device id
    without a colon, or host:port with the port in decimal, whose value is kept
    modulo 2^16 as a signed short; user:password is split at the colon.  But a
    share code without a colon leaves the previous connection's user name in
    place. *)
Theorem parse_roundtrip t conn ver ip port user pwd :
  strchr conn colon = false -> (length conn < 20)%nat ->
  strchr ver colon = false -> (length ver < 200)%nat ->
  strchr ip colon = false -> ip <> [] -> (length ip < 80)%nat -> 0 <= port < 65536 ->
  strchr user colon = false -> user <> [] -> (length user < 20)%nat ->
  strchr pwd colon = false -> pwd <> [] -> (length pwd < 40)%nat ->
  ParseConnectString t conn (user ++ colon :: pwd) = Done (mkT conn [] 0 user pwd []) /\
  ParseConnectString t (ip ++ colon :: decimal 5 port) (user ++ colon :: pwd) =
    Done (mkT [] ip (i16 port) user pwd []) /\
  ParseConnectString t conn ver = Done (mkT conn [] 0 (mUser t) [] ver).
Proof.
  intros Hc Lc Hv Lv Hi Ni Li Hp Hu Nu Lu Hw Nw Lw.
  assert (HV : parse_verify (mUser t) (user ++ colon :: pwd) = Done (user, pwd, [])).
  { unfold parse_verify; rewrite strchr_app; cbn [negb]; rewrite strtok_app by done; rewrite strcpy_fits by done.
    cbn [obind]; rewrite strtok_last, strcpy_fits by done; done. }
  assert (HC : parse_addr conn = Done (conn, [], 0)).
  { unfold parse_addr; rewrite Hc; cbn [negb]; rewrite strcpy_fits by done; done. }
  assert (HA : parse_addr (ip ++ colon :: decimal 5 port) = Done ([], ip, i16 port)).
  { destruct (decimal_spec 5 port) as (HF & _ & Hne); [simpl; lia|lia|].
    unfold parse_addr; rewrite strchr_app; cbn [negb]; rewrite strtok_app by done; rewrite strcpy_fits by done.
    cbn [obind]; rewrite strtok_last by (done || apply decimal_no_colon; done).
    rewrite atoi_decimal by (simpl; lia); done. }
  unfold ParseConnectString; rewrite HC, HA; cbn [obind]; rewrite HV; split; [done|split; [done|]].
  unfold parse_verify; rewrite Hv; cbn [negb]; rewrite strcpy_fits by done; done.
Qed.

Lemma parse_roundtrip_witness :
  ParseConnectString (mkT [] [] 0 [1] [] []) (Demo.dev ++ colon :: decimal 5 9101) ([97] ++ colon :: [98]) =
    Done (mkT [] Demo.dev 9101 [97] [98] []).
Proof.
  apply (parse_roundtrip (mkT [] [] 0 [1] [] []) [1] [2] Demo.dev 9101 [97] [98]);
    try reflexivity; try discriminate; simpl; lia.
Defined.

(** Malformed addresses are not rejected but crash or truncate: a colon with
    nothing after it makes the port parser read a null pointer, a lone colon
    copies from one, a device id of 20 characters or more overruns its array,
    and a password containing a colon is cut there. *)
Theorem parse_malformed u0 ip user p1 p2 conn :
  strchr ip colon = false -> ip <> [] -> (length ip < 80)%nat ->
  strchr user colon = false -> user <> [] -> (length user < 20)%nat ->
  strchr p1 colon = false -> p1 <> [] -> (length p1 < 40)%nat ->
  strchr conn colon = false -> (20 <= length conn)%nat ->
  parse_addr (ip ++ [colon]) = Fault /\ parse_addr [colon] = Fault /\ parse_verify u0 [colon] = Fault /\
  parse_addr conn = Fault /\
  parse_verify u0 (user ++ colon :: p1 ++ colon :: p2) = Done (user, p1, []).
Proof.
  intros Hi Ni Li Hu Nu Lu Hw Nw Lw Hc Lc.
  split; [|split; [done|split; [done|split]]].
  - unfold parse_addr; rewrite strchr_app; cbn [negb]; rewrite strtok_app by done; rewrite strcpy_fits by done.
    done.
  - unfold parse_addr; rewrite Hc; unfold strcpy; destruct (Nat.ltb_spec (length conn) 20); [lia|done].
  - unfold parse_verify; rewrite strchr_app; cbn [negb]; rewrite strtok_app, strcpy_fits by done.
    cbn [obind]; rewrite strtok_app, strcpy_fits by done; done.
Qed.

Lemma parse_malformed_witness : parse_addr ([49] ++ [colon]) = Fault /\ parse_addr (repeat 49 20) = Fault.
Proof.
  split; [apply (parse_malformed [] [49] [97] [98] [] (repeat 49 20))
         |apply (parse_malformed [] [49] [97] [98] [] (repeat 49 20))];
    try reflexivity; try discriminate; simpl; lia.
Defined.

(** ** Callbacks *)

(** The connect command that repeats the last [Connect]. *)
Definition repeat_connect (j : ja) : command :=
  mkCmd CMD_CONNECT (connectStr j) (verifyStr j) 0 0 0 0 0 [] 0 0 None.

Definition lost (ret : Z) : bool :=
  is_peer_close ret || (ret =? JA_RET_TIMEOUT) || (ret =? KP2P_ERR_TIMEOUT).

(** A lost session is reconnected by queueing the last connect again, behind
    the commands already waiting, exactly when the device closed it or it timed
    out, it had once been connected, and (for a close by the device) the last
    attempt was not refused for its password.  A close from this side is only
    reported. *)
Theorem reconnect_policy j ret :
  (length (connectStr j) < 80)%nat -> (length (verifyStr j) < 100)%nat ->
  exists j', OnDisconnect j ret = Done j' /\
  (mCommand j' = mCommand j ++ [repeat_connect j] <->
     lost ret = true /\ mAreadyConnected (ses j) = true /\
     (is_peer_close ret = true -> connectNowStates (ses j) <> NET_STATUS_AUTHOFAIL)) /\
  (mCommand j' = mCommand j ++ [repeat_connect j] \/ mCommand j' = mCommand j) /\
  ((ret = JA_RET_CLOSE \/ ret = KP2P_ERR_CLOSE_BY_SELF \/ ret = JA_RET_FAILED) ->
     mCommand j' = mCommand j /\ out j' = out j ++ [AStatus NET_STATUS_ACTIVECLOSED ret]) /\
  ses j' = ses j.
Proof.
  intros Hc Hv.
  assert (HN : mCommand j <> mCommand j ++ [repeat_connect j]).
  { intros HE; apply (f_equal (@length command)) in HE; rewrite length_app in HE; simpl in HE; lia. }
  assert (HQ : exists j', Connect j (connectStr j) (verifyStr j) (mChannelNo (ply j)) = Done j' /\
            mCommand j' = mCommand j ++ [repeat_connect j] /\ ses j' = ses j /\ out j' = out j).
  { unfold Connect; rewrite (strcpy_fits 80), (strcpy_fits 100) by done; cbn [obind].
    unfold AddCommand; simpl; rewrite (strcpy_fits 80), (strcpy_fits 200) by lia; simpl.
    eexists; split; [done|]; simpl; rewrite CList.insert_append; done. }
  destruct HQ as (j1 & HQ & H1 & H2 & H3); unfold OnDisconnect, lost, is_peer_close.
  unfold JA_RET_CLOSEBYPEER, KP2P_ERR_CLOSE_BY_PEER, JA_RET_CLOSE, KP2P_ERR_CLOSE_BY_SELF, JA_RET_FAILED,
    JA_RET_TIMEOUT, KP2P_ERR_TIMEOUT.
  destruct (Z.eqb_spec ret 5) as [->|N5]; [|destruct (Z.eqb_spec ret (-11)) as [->|N11]];
    [| |destruct (Z.eqb_spec ret 4) as [->|N4]; [|destruct (Z.eqb_spec ret (-10)) as [->|N10];
      [|destruct (Z.eqb_spec ret 3) as [->|N3]; [|destruct (Z.eqb_spec ret 2) as [->|N2];
      [|destruct (Z.eqb_spec ret (-2)) as [->|N22]]]]]]; cbn [orb andb Z.eqb Pos.eqb];
    try (destruct (Z.eqb_spec (connectNowStates (ses j)) NET_STATUS_AUTHOFAIL) as [EA|EA]; cbn [orb andb]);
    try (destruct (mAreadyConnected (ses j)) eqn:EB);
    try (rewrite HQ; exists j1; split; [done|]);
    try (eexists; split; [reflexivity|]);
    (split; [split; intros HH; [try (exfalso; apply HN; exact HH); split_and!; done
                               |try (destruct HH as (? & ? & ?); tauto || discriminate || done)]|]);
    (split; [first [right; reflexivity|left; exact H1]|]); (split; [|done]);
    intros HR; try (exfalso; lia); try (split; reflexivity).
Qed.

Lemma reconnect_policy_witness :
  exists j', OnDisconnect (snd Demo.connected) JA_RET_CLOSEBYPEER = Done j' /\
    mCommand j' = [mkCmd CMD_CONNECT [] [] 0 0 0 0 0 [] 0 0 None].
Proof.
  destruct (reconnect_policy (snd Demo.connected) JA_RET_CLOSEBYPEER) as (j' & H1 & H2 & _);
    [vm_compute; lia|vm_compute; lia|]; exists j'; split; [exact H1|].
  apply H2; split; [reflexivity|split; [reflexivity|]]; intros _; vm_compute; discriminate.
Defined.

(** The fragments of one message, in order; what is delivered. *)
Fixpoint alarm_run (st : option (Z * cstr)) (totalLen : Z) (frags : list cstr)
  : outcome (option (Z * cstr) * list cstr) :=
  match frags with
  | [] => Done (st, [])
  | f :: frags =>
      let* '(st, d) := OnRecvAlarmMsg st totalLen f in
      let* '(st, ds) := alarm_run st totalLen frags in
      Done (st, match d with Some m => m :: ds | None => ds end)
  end.

Lemma zlen_app_ {A} (a b : list A) : zlen (a ++ b) = zlen a + zlen b.
Proof. unfold zlen; rewrite length_app; lia. Qed.
Lemma zlen_nonneg_ {A} (a : list A) : 0 <= zlen a.
Proof. unfold zlen; lia. Qed.

Lemma alarm_some got totalLen frags f :
  f <> [] -> zlen got + zlen (concat frags) + zlen f = totalLen ->
  alarm_run (Some (totalLen, got)) totalLen (frags ++ [f]) = Done (None, [got ++ concat frags ++ f]).
Proof.
  intros Hf; assert (Hf' : 0 < zlen f) by (destruct f; [done|unfold zlen; simpl; lia]).
  revert got; induction frags as [|x frags IH]; intros got HT; simpl in *.
  - unfold zlen at 2 in HT; simpl in HT; unfold OnRecvAlarmMsg; cbv beta iota zeta; rewrite zlen_app_.
    replace (totalLen <? zlen got + zlen f) with false by lia.
    replace (zlen got + zlen f =? totalLen) with true by lia; done.
  - rewrite zlen_app_ in HT; pose proof (zlen_nonneg_ (concat frags)).
    unfold OnRecvAlarmMsg at 1; cbv beta iota zeta; rewrite zlen_app_.
    replace (totalLen <? zlen got + zlen x) with false by lia.
    replace (zlen got + zlen x =? totalLen) with false by lia; cbn [obind].
    rewrite IH by (rewrite zlen_app_; lia); simpl; rewrite <- !app_assoc; done.
Qed.

(** An alarm message is put together from its fragments: however it is cut,
    the application gets it once, whole and in order, with the last fragment, and
    the buffer is free for the next message.  A message longer than its announced
    total length writes past the buffer. *)
Theorem alarm_reassembly frags f totalLen :
  f <> [] ->
  (zlen (concat frags) + zlen f = totalLen ->
   alarm_run None totalLen (frags ++ [f]) = Done (None, [concat frags ++ f])) /\
  (forall got, zlen got < totalLen -> totalLen < zlen got + zlen f ->
   OnRecvAlarmMsg (Some (totalLen, got)) totalLen f = Fault).
Proof.
  intros Hf; split.
  - intros HT; pose proof (alarm_some [] totalLen frags f Hf) as HA; simpl in HA.
    rewrite <- HA by (unfold zlen at 1; simpl; lia); destruct frags; done.
  - intros got _ HT; unfold OnRecvAlarmMsg; cbv beta iota zeta.
    replace (totalLen <? zlen got + zlen f) with true by lia; done.
Qed.

Lemma alarm_reassembly_witness :
  alarm_run None 5 ([[1; 2]; [3]] ++ [[4; 5]]) = Done (None, [[1; 2; 3; 4; 5]]).
Proof. apply (alarm_reassembly [[1; 2]; [3]] [4; 5] 5); [done|reflexivity]. Defined.

(** Starting playback takes any non-zero answer for a playback handle, the
    connectors' error code -1 included: the viewer then reports success and shows
    itself playing a recording.  Only a null answer is an error. *)
Theorem playback_answer {M} `{P2PManager M} (n : @net M) j this c m m' h :
  mIsConnected (ses j) = true -> mP2p (ses j) <> 0 -> n_heap n !! mP2p (ses j) = Some m ->
  playBackStart m [i8 (channelNo c)] 1 (i32 (StartTime c)) (i32 (StartTime c + 28800)) 0xf this = Done (m', h) ->
  exists j' r, DoStartPlayback n j this c = Done (mput n (mP2p (ses j)) m', j', r) /\
  mPlaybackHandle (ses j') = h /\
  (h = 0 -> r = -2 /\ mRealStatus (ses j') = mRealStatus (ses j)) /\
  (h <> 0 -> r = 0 /\ mRealStatus (ses j') = NET_PLAY_RECORD /\ mAddBuffer (ply j') = true /\
     mRecvIFrame (ply j') = false /\ mDecodeStatus (ply j') <> 0).
Proof.
  intros HC HP Hm HS; unfold DoStartPlayback; cbv zeta; apply Z.eqb_neq in HP; simpl.
  rewrite HC, HP; cbn [negb orb]; unfold mcall_o; rewrite Hm, HS; cbn [obind].
  destruct (Z.eqb_spec h 0) as [->|N]; cbn [negb].
  - do 2 eexists; split; [done|]; simpl; done.
  - do 2 eexists; split; [done|]; unfold DecoderResume; simpl.
    destruct (Z.eqb_spec (mDecodeStatus (ply j)) 0); simpl; done.
Qed.

Lemma playback_answer_witness :
  playBackStart (KCP P2P.new_conn) [i8 3] 1 (i32 0) (i32 28800) 0xf 55 = Done (KCP P2P.new_conn, -1) /\
  exists j' r, DoStartPlayback (mkNet [1] {[1 := KCP P2P.new_conn]})
      (set_ses new_ja (mkS 0 1 true 0 0 0 0 false)) 55 (cmd_channel CMD_STARTPLAYBACK 3 0 0)
    = Done (mput (mkNet [1] {[1 := KCP P2P.new_conn]}) 1 (KCP P2P.new_conn), j', r) /\
    r = 0 /\ mRealStatus (ses j') = NET_PLAY_RECORD.
Proof.
  split; [reflexivity|].
  destruct (playback_answer (mkNet [1] {[1 := KCP P2P.new_conn]})
      (set_ses new_ja (mkS 0 1 true 0 0 0 0 false)) 55 (cmd_channel CMD_STARTPLAYBACK 3 0 0)
      (KCP P2P.new_conn) (KCP P2P.new_conn) (-1)) as (j' & r & H1 & _ & _ & H2);
    [reflexivity|done|reflexivity|reflexivity|].
  destruct H2 as (H2 & H3 & _); [done|]; exists j', r; split; [exact H1|split; [exact H2|exact H3]].
Defined.

(** The strings of [Connect]: the stored verification string has half the room
    of the queued one. *)
Lemma connect_bounds j c v ch :
  Connect j c v ch = Fault <-> (80 <= length c \/ 100 <= length v)%nat.
Proof.
  unfold Connect, AddCommand, strcpy; simpl.
  destruct (Nat.ltb_spec (length c) 80), (Nat.ltb_spec (length v) 100),
    (Nat.ltb_spec (length v) 200); simpl; split; intros; (done || lia).
Qed.

End JA.
