(* ===== verification/Pacing.v ===== *)
(** The pacing of decoded frames: JAConnect::preRender
    (gles/Network/JAConnect.cpp).  The state is the pair of 64-bit times the
    method keeps and the real time in microseconds; [clock_ms] reads the real time
    in milliseconds.  How long [usleep] takes and the width of [long] (32 bits on
    the built armeabi-v7a, 64 elsewhere) are parameters. *)
From stdpp Require Import base list.
From S2P Require Import Prelude.

Module Pacing.

Definition ONE_MILLION : Z := 1000000.
Record pace := mkPace {
  mPrevMonoUsec : Z;
  mPrevPresentUsec : Z;
  mFixedFrameDurationUsec : Z;
  now : Z
}.

Definition clock_usec (t : Z) : Z := t / 1000 * 1000.

Section Sleep.
(** The width of [long]. *)
Context (W : Z).
Definition long (x : Z) : Z := signed W x.
Definition fits (x : Z) : bool := (- 2 ^ (W - 1) <=? x) && (x <? 2 ^ (W - 1)).
(** [usleep t d]: the time after sleeping [d] microseconds at time [t]. *)
Context (usleep : Z -> Z -> Z).

(** The waiting loop; [fuel] bounds the sleeps.  The differences of two longs are
    undefined when they overflow. *)
Fixpoint wait (fuel : nat) (desiredUsec : Z) (t : Z) : outcome Z :=
  match fuel with
  | O => OutOfFuel
  | S fuel =>
      let nowUsec := long (u64 (clock_usec t)) in
      if negb (fits (desiredUsec - 100)) then Fault
      else if nowUsec <? desiredUsec - 100 then
        let sleepTimeUsec := desiredUsec - nowUsec in
        if negb (fits sleepTimeUsec) then Fault
        else
          let sleepTimeUsec := if 500000 <? sleepTimeUsec then 500000 else sleepTimeUsec in
          wait fuel desiredUsec (usleep t sleepTimeUsec)
      else Done t
  end.

Definition frame_delta (p : pace) (presentationTimeUsec : Z) : Z :=
  let frameDelta :=
    if negb (mFixedFrameDurationUsec p =? 0) then long (mFixedFrameDurationUsec p)
    else long (presentationTimeUsec - mPrevPresentUsec p) in
  if frameDelta <? 0 then 0
  else if frameDelta =? 0 then frameDelta
  else if 10 * ONE_MILLION <? frameDelta then 5 * ONE_MILLION
  else frameDelta.

Definition preRender (fuel : nat) (p : pace) (presentationTimeUsec : Z) : outcome pace :=
  if mPrevMonoUsec p =? 0 then
    Done (mkPace (u64 (clock_usec (now p))) presentationTimeUsec (mFixedFrameDurationUsec p) (now p))
  else
    let frameDelta := frame_delta p presentationTimeUsec in
    let desiredUsec := long (u64 (mPrevMonoUsec p + frameDelta)) in
    let* t := wait fuel desiredUsec (now p) in
    Done (mkPace (u64 (mPrevMonoUsec p + frameDelta)) (u64 (mPrevPresentUsec p + frameDelta))
            (mFixedFrameDurationUsec p) t).

(** A stream of frames. *)
Fixpoint render (fuel : nat) (p : pace) (frames : list Z) : outcome pace :=
  match frames with
  | [] => Done p
  | f :: frames => let* p := preRender fuel p f in render fuel p frames
  end.

(** ** The waiting loop *)

(** [usleep] suspends for at least the time asked and at most [late] longer; a long
    has 32 to 64 bits. *)
Context (late : Z).
Hypothesis usleep_bounds : forall t d, 0 <= d -> t + d <= usleep t d <= t + d + late.
Hypothesis width : 32 <= W <= 64.

Lemma long_range : 2 ^ 31 <= 2 ^ (W - 1) <= 2 ^ 63.
Proof. split; apply Z.pow_le_mono_r; lia. Qed.
Lemma long_small x : - 2 ^ (W - 1) <= x < 2 ^ (W - 1) -> long x = x.
Proof. intros; apply signed_small; lia. Qed.
Lemma fits_small x : - 2 ^ (W - 1) <= x < 2 ^ (W - 1) -> fits x = true.
Proof. unfold fits; lia. Qed.

Lemma clock_bounds t : clock_usec t <= t < clock_usec t + 1000.
Proof. unfold clock_usec; dlia. Qed.

Lemma clock_mono t t' k : t + 1000 * k <= t' -> clock_usec t + 1000 * k <= clock_usec t'.
Proof. unfold clock_usec; dlia. Qed.

Lemma clock_eq t d : clock_usec t <= d < clock_usec t + 1000 -> clock_usec t = clock_usec d.
Proof. unfold clock_usec; dlia. Qed.

(** The times of the loop stay within the range of [long]. *)
Definition in_range (d t : Z) : Prop := 0 <= t < 2 ^ (W - 1) /\ 0 <= d /\ d + 1000 + late < 2 ^ (W - 1).

Lemma wait_S fuel d t :
  in_range d t ->
  wait (S fuel) d t =
  if clock_usec t <? d - 100
  then wait fuel d (usleep t (if 500000 <? d - clock_usec t then 500000 else d - clock_usec t))
  else Done t.
Proof.
  intros (H1 & H2 & H3); pose proof (clock_bounds t); pose proof long_range.
  assert (0 <= late) by (pose proof (usleep_bounds 0 0); lia).
  assert (0 <= clock_usec t) by (unfold clock_usec; dlia).
  cbn [wait]; rewrite u64_small, long_small by lia; cbv zeta.
  rewrite !fits_small by lia; done.
Qed.

Lemma in_range_sleep d t s :
  in_range d t -> clock_usec t < d - 100 -> 0 <= s <= d - clock_usec t -> in_range d (usleep t s).
Proof.
  intros (H1 & H2 & H3) HC Hs; pose proof (clock_bounds t); pose proof (usleep_bounds t s).
  split; [lia|done].
Qed.

(** Once the real time has passed, the rounded clock follows within ten sleeps. *)
Lemma wait_rounding k d t :
  in_range d t -> d <= t -> 1000 <= t - clock_usec d + 101 * Z.of_nat k ->
  exists t', wait (S k) d t = Done t' /\ d - 100 <= clock_usec t' /\ t <= t' <= Z.max t (d + 1000 + late).
Proof.
  revert t; induction k as [|k IH]; intros t HR Ht Hk; rewrite wait_S by done;
    pose proof (clock_bounds t); pose proof (clock_bounds d).
  - destruct (clock_usec t <? d - 100) eqn:E; [|exists t; split; [done|lia]].
    pose proof (clock_eq t d); lia.
  - destruct (clock_usec t <? d - 100) eqn:E; [|exists t; split; [done|lia]].
    replace (500000 <? d - clock_usec t) with false by lia.
    pose proof (usleep_bounds t (d - clock_usec t)).
    destruct (IH (usleep t (d - clock_usec t))) as (t' & W1 & W2 & W3);
      [apply in_range_sleep; [done|lia..]|lia|lia|].
    exists t'; split; [exact W1|lia].
Qed.

Lemma wait_returns k d t :
  in_range d t -> d - clock_usec t <= 500000 * (Z.of_nat k + 1) ->
  exists t', wait (k + 12) d t = Done t' /\ d - 100 <= clock_usec t' /\ t <= t' <= Z.max t (d + 1000 + late).
Proof.
  revert t; induction k as [|k IH]; intros t HR Hk.
  - change (0 + 12)%nat with (S 11); rewrite wait_S by done.
    destruct (clock_usec t <? d - 100) eqn:E; [|exists t; split; [done|lia]].
    replace (500000 <? d - clock_usec t) with false by lia.
    pose proof (usleep_bounds t (d - clock_usec t)); pose proof (clock_bounds t).
    destruct (wait_rounding 10 d (usleep t (d - clock_usec t))) as (t' & W1 & W2 & W3);
      [apply in_range_sleep; [done|lia..]|lia|pose proof (clock_bounds d); lia|].
    exists t'; split; [exact W1|lia].
  - change (S k + 12)%nat with (S (k + 12)); rewrite wait_S by done.
    destruct (clock_usec t <? d - 100) eqn:E; [|exists t; split; [done|lia]].
    set (s := if 500000 <? d - clock_usec t then 500000 else d - clock_usec t).
    assert (H0 : 0 <= s <= d - clock_usec t) by (subst s; case_match; lia).
    pose proof (usleep_bounds t s (proj1 H0)) as HU.
    assert (Hs : d - clock_usec (usleep t s) <= 500000 * (Z.of_nat k + 1)).
    { subst s; destruct (500000 <? d - clock_usec t) eqn:E2.
      - pose proof (clock_mono t (usleep t 500000) 500); lia.
      - pose proof (clock_bounds (usleep t (d - clock_usec t))); pose proof (clock_bounds t); lia. }
    destruct (IH (usleep t s)) as (t' & W1 & W2 & W3); [apply in_range_sleep; [done|lia..]|done|].
    pose proof (clock_bounds t); exists t'; split; [exact W1|]; lia.
Qed.

Lemma frame_delta_range p f : 0 <= frame_delta p f <= 10 * ONE_MILLION.
Proof. unfold frame_delta, ONE_MILLION; repeat case_match; lia. Qed.

(** The method keeps ahead of the clock by at most the 100 microseconds of the
    loop's tolerance, and the next eleven seconds or so are in the range of [long]. *)
Definition Ready (p : pace) : Prop :=
  0 < mPrevMonoUsec p <= clock_usec (now p) + 100 /\ 0 <= mPrevPresentUsec p < 2 ^ 62 /\
  0 <= now p /\ now p + 10 * ONE_MILLION + late + 2000 < 2 ^ (W - 1).

Lemma preRender_spec p f :
  Ready p ->
  exists t', preRender 32 p f =
    Done (mkPace (mPrevMonoUsec p + frame_delta p f) (mPrevPresentUsec p + frame_delta p f)
            (mFixedFrameDurationUsec p) t') /\
    mPrevMonoUsec p + frame_delta p f - 100 <= clock_usec t' /\
    now p <= t' <= Z.max (now p) (mPrevMonoUsec p + frame_delta p f + 1000 + late).
Proof.
  intros (H1 & H2 & H3 & H4); pose proof (frame_delta_range p f) as HF; unfold ONE_MILLION in *.
  pose proof (clock_bounds (now p)); pose proof long_range.
  assert (0 <= late) by (pose proof (usleep_bounds 0 0); lia).
  unfold preRender; replace (mPrevMonoUsec p =? 0) with false by lia; cbv zeta.
  set (d := frame_delta p f) in *.
  rewrite !u64_small, long_small by lia.
  destruct (wait_returns 20 (mPrevMonoUsec p + d) (now p)) as (t' & W1 & W2 & W3);
    [unfold in_range; lia|lia|].
  exists t'; change (20 + 12)%nat with 32%nat in W1; rewrite W1; done.
Qed.

(** PreRender returns.  From a state the previous call left, it sleeps at most
    32 times whatever the frame's time stamp, never returns more than 100
    microseconds before the frame's time, and leaves a state from which the next
    call returns too; the first call does not wait at all. *)
Theorem preRender_returns p f :
  Ready p ->
  (exists p', preRender 32 p f = Done p' /\
     mPrevMonoUsec p <= mPrevMonoUsec p' <= mPrevMonoUsec p + 10 * ONE_MILLION /\
     mPrevMonoUsec p' <= clock_usec (now p') + 100 /\ now p <= now p' /\
     (now p' + 10 * ONE_MILLION + late + 2000 < 2 ^ (W - 1) -> mPrevPresentUsec p' < 2 ^ 62 -> Ready p')) /\
  preRender 0 (mkPace 0 0 (mFixedFrameDurationUsec p) (now p)) f =
    Done (mkPace (u64 (clock_usec (now p))) f (mFixedFrameDurationUsec p) (now p)).
Proof.
  intros HR; split; [|done]; destruct (preRender_spec p f HR) as (t' & W1 & W2 & W3).
  pose proof (frame_delta_range p f) as HF; destruct HR as (H1 & H2 & H3 & H4).
  eexists; split; [exact W1|]; simpl; unfold Ready; simpl; lia.
Qed.

(** The frames' time stamps rise by at most ten seconds each. *)
Fixpoint steady (f : Z) (frames : list Z) : Prop :=
  match frames with
  | [] => True
  | g :: frames => f <= g <= f + 10 * ONE_MILLION /\ g < 2 ^ 61 /\ steady g frames
  end.

Lemma frame_delta_steady p f :
  mFixedFrameDurationUsec p = 0 ->
  mPrevPresentUsec p <= f <= mPrevPresentUsec p + 10 * ONE_MILLION ->
  frame_delta p f = f - mPrevPresentUsec p.
Proof.
  intros H1 H2; pose proof long_range; unfold frame_delta, ONE_MILLION in *; rewrite H1; simpl negb; cbv iota.
  rewrite long_small by lia; repeat case_match; lia.
Qed.

Lemma steady_le f l g : steady f (l ++ [g]) -> f <= g.
Proof.
  revert f; induction l as [|h l IH]; intros f; cbn [app steady]; [lia|].
  intros (H1 & _ & H2); apply IH in H2; lia.
Qed.

Lemma render_steady base f0 f frames g p :
  0 <= f0 -> Ready p -> mFixedFrameDurationUsec p = 0 -> mPrevPresentUsec p = g ->
  mPrevMonoUsec p = base + (g - f0) -> now p <= base + (g - f0) + 1000 + late ->
  steady g (frames ++ [f]) -> base + (f - f0) + 10 * ONE_MILLION + 2 * late + 3000 < 2 ^ (W - 1) ->
  exists p', render 32 p (frames ++ [f]) = Done p' /\ mPrevPresentUsec p' = f /\
    mPrevMonoUsec p' = base + (f - f0) /\ base + (f - f0) - 100 <= now p'.
Proof.
  intros Hf; revert g p; induction frames as [|h frames IH]; intros g p HR H1 H2 H3 H4 H5 H6; simpl in H5.
  - destruct H5 as (H5 & _ & _); destruct (preRender_spec p f HR) as (t' & W1 & W2 & W3).
    rewrite frame_delta_steady in * by (done || lia).
    cbn [app render]; rewrite W1; cbn [obind render]; eexists; split; [done|]; simpl.
    pose proof (clock_bounds t'); lia.
  - destruct H5 as (H5 & H7 & H8); destruct (preRender_spec p h HR) as (t' & W1 & W2 & W3).
    pose proof (steady_le _ _ _ H8); pose proof HR as (R1 & R2 & R3 & R4).
    rewrite frame_delta_steady in * by (done || lia).
    assert (0 <= late) by (pose proof (usleep_bounds 0 0); lia).
    pose proof (clock_bounds (now p)).
    cbn [app render]; rewrite W1; cbn [obind]; apply (IH h); simpl; try done; try lia.
    unfold Ready; simpl; lia.
Qed.

(** Pacing does not drift.  For a stream whose time stamps rise by at most ten
    seconds a frame, starting at time [t0] with stamp [f0], the frame with stamp
    [f] is scheduled at the start's millisecond plus [f - f0], however long each
    sleep overslept, and is not released more than 100 microseconds early, as long
    as the times fit a [long]: for about 35 minutes of uptime where it has 32 bits. *)
Theorem pacing_no_drift f0 frames t0 f :
  1000 <= t0 -> 0 <= f0 < 2 ^ 61 -> steady f0 (frames ++ [f]) ->
  t0 + (f - f0) + 10 * ONE_MILLION + 2 * late + 3000 < 2 ^ (W - 1) ->
  exists p, render 32 (mkPace 0 0 0 t0) (f0 :: frames ++ [f]) = Done p /\
    mPrevPresentUsec p = f /\ mPrevMonoUsec p = clock_usec t0 + (f - f0) /\
    clock_usec t0 + (f - f0) - 100 <= now p.
Proof.
  intros Ht Hf HS HT; pose proof (clock_bounds t0); pose proof long_range; cbn [render].
  assert (HB : 1000 <= clock_usec t0) by (unfold clock_usec; dlia).
  assert (0 <= late) by (pose proof (usleep_bounds 0 0); lia).
  pose proof (steady_le _ _ _ HS); unfold ONE_MILLION in *.
  unfold preRender at 1; simpl; rewrite u64_small by lia; cbn [obind].
  apply (render_steady (clock_usec t0) f0 f frames f0); simpl; unfold ONE_MILLION; try done; try lia.
  unfold Ready, ONE_MILLION; simpl; lia.
Qed.

(** The player passes time stamps in milliseconds, and frames up to 100
    milliseconds apart are then not paced at all: preRender returns at once. *)
Theorem millisecond_stamps_unpaced p f :
  Ready p -> mFixedFrameDurationUsec p = 0 -> mPrevMonoUsec p <= clock_usec (now p) ->
  mPrevPresentUsec p <= f <= mPrevPresentUsec p + 100 ->
  exists p', preRender 1 p f = Done p' /\ now p' = now p.
Proof.
  intros (R1 & R2 & R3 & R4) H1 H2 H3.
  assert (HD : frame_delta p f = f - mPrevPresentUsec p)
    by (apply frame_delta_steady; unfold ONE_MILLION; lia).
  pose proof (clock_bounds (now p)); pose proof long_range; unfold ONE_MILLION in *.
  assert (0 <= late) by (pose proof (usleep_bounds 0 0); lia).
  unfold preRender; replace (mPrevMonoUsec p =? 0) with false by lia; cbv zeta; rewrite HD.
  rewrite u64_small, long_small by lia.
  rewrite wait_S by (unfold in_range; lia); replace (clock_usec (now p) <? _) with false by lia.
  cbn [obind]; eauto.
Qed.

End Sleep.

(** A sleep that takes 70 microseconds longer than asked. *)
Definition late_sleep (t d : Z) : Z := t + d + 70.
Lemma late_sleep_bounds t d : 0 <= d -> t + d <= late_sleep t d <= t + d + 70.
Proof. unfold late_sleep; lia. Qed.

(** With a 32-bit long, 35 minutes and 47 seconds after boot the clock's reading
    turns negative: a sleep that crosses this point leaves a difference that a long
    cannot hold. *)
Lemma long_wraps : wait 32 (fun t d => t + d + 2000) 2 2147483000 2147480000 = Fault.
Proof. reflexivity. Qed.

Lemma preRender_returns_witness :
  Ready 32 70 (mkPace 5000000 0 0 5000300) /\
  exists p', preRender 32 late_sleep 32 (mkPace 5000000 0 0 5000300) 40000 = Done p' /\
    mPrevMonoUsec p' <= clock_usec (now p') + 100.
Proof.
  assert (HR : Ready 32 70 (mkPace 5000000 0 0 5000300)) by (vm_compute; repeat split; discriminate).
  split; [exact HR|].
  destruct (preRender_returns 32 late_sleep 70 late_sleep_bounds ltac:(lia) (mkPace 5000000 0 0 5000300) 40000 HR)
    as [(p' & H1 & _ & H2 & _) _]; exists p'; split; [exact H1|exact H2].
Defined.

Lemma pacing_no_drift_witness :
  exists p, render 32 late_sleep 32 (mkPace 0 0 0 5000300) [10; 40010; 80010] = Done p /\
    mPrevMonoUsec p = 5000000 + 80000.
Proof.
  destruct (pacing_no_drift 32 late_sleep 70 late_sleep_bounds ltac:(lia) 10 [40010] 5000300 80010) as (p & H1 & _ & H2 & _).
  - lia.
  - lia.
  - simpl; unfold ONE_MILLION; lia.
  - vm_compute; reflexivity.
  - exists p; split; [exact H1|rewrite H2; reflexivity].
Defined.

Lemma millisecond_stamps_unpaced_witness :
  exists p', preRender 32 late_sleep 1 (mkPace 5000000 1000 0 5000300) 1040 = Done p' /\ now p' = 5000300.
Proof.
  apply (millisecond_stamps_unpaced 32 late_sleep 70 late_sleep_bounds ltac:(lia) (mkPace 5000000 1000 0 5000300) 1040).
  - vm_compute; repeat split; discriminate.
  - reflexivity.
  - vm_compute; discriminate.
  - simpl; lia.
Defined.

End Pacing.
