(* ===== verification/Download.v ===== *)
(** Downloading files from a device: the message pool and the download thread of
    ConnectManager (gles/Network/ConnectManager.cpp), with the packed protocol
    structures of gles/Network/JAConnect.h.  The network callback appends to the
    pool, the thread takes complete messages out of it and writes file chunks or
    reports the file list; both run under one lock, so an execution is a sequence
    of deliveries and turns. *)
From stdpp Require Import base list.
From S2P Require Import Prelude.

Module Download.

Definition JA_DEV_FILE_TYPE_LIST : Z := 0.
Definition JA_DEV_FILE_TYPE_VIDEO_MP4 : Z := 1.
Definition JA_DEV_FILE_TYPE_VIDEO_MOV : Z := 2.
Definition JA_DEV_FILE_TYPE_IMAGE_JPG : Z := 3.
Definition JA_DEV_FILE_TYPE_IMAGE_PNG : Z := 4.

Definition minLen : Z := 8.
Definition POOL_SIZE : Z := 1024 * 1024 * 2.
(** [sizeof(ST_JAFILELISTITEM)], packed. *)
Definition ITEM_SIZE : Z := 284.

(** [OnDownloadList] and [OnDownloading]. *)
Inductive devent :=
| OnDownloadList (item_fp : bytes) (item_size : Z) (suffix : bytes) (item_type flag : Z)
| OnDownloading (flag fdsize pos end_ : Z).

(** [f] is the open file's content, [None] for null; [running] says that the
    thread has not left its loop. *)
Record dl := mkDl {
  mDownloadDataPool : bytes;
  mDownloadDataPoolSize : Z;
  mIsDownloading : bool;
  f : option bytes;
  running : bool;
  log : list devent
}.

(** [ntohl] of the word at [off]. *)
Definition be_join (bs : bytes) : Z := le_join (rev bs).
Definition be_split (x : Z) : bytes := rev (le_split 4 x).
Definition ntohl_at (m : bytes) (off : Z) : outcome Z :=
  let* bs := load m off 4 in Done (be_join bs).

Section Disk.
(** Whether [fwrite] succeeds in appending these bytes to the file. *)
Context (fwrite_ok : bytes -> bytes -> bool).

(** [OperateDeviceFile] with a viewer at [idx]: a fresh pool, and the thread opens
    the file when a path was given. *)
Definition OperateDeviceFile (st : dl) (idx : Z) (conn : bool) (path : bytes) : outcome (dl * Z) :=
  if (32 <? idx) || (idx <? 0) then Done (st, -1)
  else if negb (mIsDownloading st) && conn then
    if (length path <? 128)%nat then
      Done (mkDl (repeat 0 (Z.to_nat POOL_SIZE)) (mDownloadDataPoolSize st) true
              (match path with [] => None | _ => Some [] end) true (log st), 0)
    else Fault
  else Done (st, 0).

Definition doOnFileDownloadCallback (st : dl) (data : bytes) : outcome dl :=
  if mIsDownloading st then
    let* m := store (mDownloadDataPool st) (mDownloadDataPoolSize st) data in
    Done (mkDl m (mDownloadDataPoolSize st + zlen data) true (f st) (running st) (log st))
  else Done st.

(** The items of a list message, from the [i]th on. *)
Fixpoint list_items (todo : nat) (i n : Z) (m : bytes) (l : list devent) : outcome (list devent) :=
  match todo with
  | O => Done l
  | S todo =>
      let off := 8 + ITEM_SIZE * i in
      let* t := ntohl_at m off in
      let* s := ntohl_at m (off + 4) in
      let* suffix := load m (off + 12) 16 in
      let* fp := load m (off + 28) 256 in
      list_items todo (i + 1) n m (l ++ [OnDownloadList fp (i32 s) suffix (i32 t)
                                          (if i <? n - 1 then 0 else 1)])
  end.

(** One chunk of a file: the bytes after its 16-byte header are written, an empty
    chunk counts as a failed write. *)
Definition file_frame (st : dl) : outcome dl :=
  let m := mDownloadDataPool st in
  let* ffFrameType := ntohl_at m 8 in
  let* ffFileSize := ntohl_at m 12 in
  let* ffEnd := ntohl_at m 16 in
  let* flag := ntohl_at m 20 in
  let* chunk := load m 24 ffFileSize in
  match f st with
  | None => Fault
  | Some file =>
      if negb (ffFileSize =? 0) && fwrite_ok file chunk then
        let file := file ++ chunk in
        let ev := OnDownloading (i32 flag) (i32 ffFileSize) (zlen file) (i32 ffEnd) in
        if ffEnd =? 1
        then Done (mkDl m (mDownloadDataPoolSize st) false (Some file) (running st) (log st ++ [ev; ev]))
        else Done (mkDl m (mDownloadDataPoolSize st) (mIsDownloading st) (Some file) (running st)
                     (log st ++ [ev]))
      else Done (mkDl m (mDownloadDataPoolSize st) false (f st) (running st) (log st))
  end.

(** The switch on the message type. *)
Definition dispatch (st : dl) (lfileType lDataSize : Z) : outcome dl :=
  let m := mDownloadDataPool st in
  if lfileType =? JA_DEV_FILE_TYPE_LIST then
    (* the count is unsigned; one item more than the pool holds already faults *)
    let n := u64 lDataSize / ITEM_SIZE in
    let* l := list_items (Z.to_nat (Z.min n (zlen m / ITEM_SIZE + 1))) 0 n m (log st) in
    Done (mkDl m (mDownloadDataPoolSize st) false (f st) (running st) l)
  else if (lfileType =? JA_DEV_FILE_TYPE_IMAGE_JPG) || (lfileType =? JA_DEV_FILE_TYPE_IMAGE_PNG)
       || (lfileType =? JA_DEV_FILE_TYPE_VIDEO_MOV) || (lfileType =? JA_DEV_FILE_TYPE_VIDEO_MP4)
  then file_frame st
  else Done st.

(** The [memmove] of what follows the message; its length is unsigned. *)
Definition consume (st : dl) (mixLen : Z) : outcome dl :=
  let moveSize := mDownloadDataPoolSize st - mixLen in
  let* rest := load (mDownloadDataPool st) mixLen moveSize in
  let* m := store (mDownloadDataPool st) 0 rest in
  Done (mkDl m moveSize (mIsDownloading st) (f st) (running st) (log st)).

(** The loop body. *)
Definition iteration (st : dl) : outcome dl :=
  if mDownloadDataPoolSize st <? minLen then Done st
  else
    let* t := ntohl_at (mDownloadDataPool st) 0 in
    let* d := ntohl_at (mDownloadDataPool st) 4 in
    let mixLen := i32 (minLen + i32 d) in
    if mDownloadDataPoolSize st <? mixLen then Done st
    else
      let* st := dispatch st (i32 t) (i32 d) in
      consume st mixLen.

(** A turn of the thread: the body, then the test of the loop. *)
Definition turn (st : dl) : outcome dl :=
  if running st then
    let* st := iteration st in
    if mIsDownloading st then Done st
    else Done (mkDl (mDownloadDataPool st) 0 false (f st) false (log st))
  else Done st.

Inductive sched := Deliver (data : bytes) | Turn.
Fixpoint run (st : dl) (s : list sched) : outcome dl :=
  match s with
  | [] => Done st
  | Deliver d :: s => let* st := doOnFileDownloadCallback st d in run st s
  | Turn :: s => let* st := turn st in run st s
  end.
End Disk.

(** ** The sender's format *)

(** A chunk of a file: type, frame type, operation flag and bytes; [encode] with
    the end mark. *)
Record chunk := mkChunk { c_type : Z; c_frame : Z; c_flag : Z; c_data : bytes }.
Definition encode (last : bool) (c : chunk) : bytes :=
  be_split (c_type c) ++ be_split (16 + zlen (c_data c)) ++ be_split (c_frame c) ++
  be_split (zlen (c_data c)) ++ be_split (if last then 1 else 0) ++ be_split (c_flag c) ++ c_data c.
Fixpoint encode_all (cs : list chunk) : bytes :=
  match cs with
  | [] => []
  | [c] => encode true c
  | c :: cs => encode false c ++ encode_all cs
  end.

Definition good_chunk (c : chunk) : Prop :=
  1 <= c_type c <= 4 /\ 0 <= c_frame c < 2 ^ 32 /\ 0 <= c_flag c < 2 ^ 32 /\
  0 <= zlen (c_data c) < 2 ^ 30.

(** ** The abstract transfer *)

(** What a download promises: bytes wait until a whole chunk is there, a turn
    appends one chunk to the file, and the transfer ends after the last chunk or
    at the first chunk that cannot be written. *)
Record xfer := mkXfer {
  x_pend : bytes;
  x_todo : list chunk;
  x_out : bytes;
  x_live : bool;
  x_log : list devent
}.

Definition is_nil {A} (l : list A) : bool := match l with [] => true | _ => false end.

Section Transfer.
Context (fwrite_ok : bytes -> bytes -> bool).

Definition x_deliver (x : xfer) (d : bytes) : outcome xfer :=
  if x_live x then
    if POOL_SIZE <? zlen (x_pend x) + zlen d then Fault
    else Done (mkXfer (x_pend x ++ d) (x_todo x) (x_out x) true (x_log x))
  else Done x.

Definition progress (last : bool) (c : chunk) (pos : Z) : list devent :=
  let ev := OnDownloading (i32 (c_flag c)) (zlen (c_data c)) pos (if last then 1 else 0) in
  if last then [ev; ev] else [ev].

Definition x_turn (x : xfer) : xfer :=
  match x_live x, x_todo x with
  | true, c :: cs =>
      let msg := encode (is_nil cs) c in
      if zlen (x_pend x) <? zlen msg then x
      else
        let pend := drop (length msg) (x_pend x) in
        if negb (zlen (c_data c) =? 0) && fwrite_ok (x_out x) (c_data c) then
          let out := x_out x ++ c_data c in
          mkXfer pend cs out (negb (is_nil cs)) (x_log x ++ progress (is_nil cs) c (zlen out))
        else mkXfer pend cs (x_out x) false (x_log x)
  | _, _ => x
  end.

Fixpoint x_run (x : xfer) (s : list sched) : outcome xfer :=
  match s with
  | [] => Done x
  | Deliver d :: s => let* x := x_deliver x d in x_run x s
  | Turn :: s => x_run (x_turn x) s
  end.
End Transfer.

Definition deliveries (s : list sched) : bytes :=
  concat (map (fun a => match a with Deliver d => d | Turn => [] end) s).

(** The state once the thread has opened the file, and its abstract counterpart. *)
Definition start : dl := mkDl (repeat 0 (Z.to_nat POOL_SIZE)) 0 true (Some []) true [].
Definition x_start (cs : list chunk) : xfer := mkXfer [] cs [] true [].

(** The configurations related by the refinement. *)
Definition relate (st : dl) (x : xfer) : Prop :=
  f st = Some (x_out x) /\ log st = x_log x /\
  mIsDownloading st = x_live x /\ running st = x_live x /\
  (x_live x = true ->
   mDownloadDataPoolSize st = zlen (x_pend x) /\ zlen (mDownloadDataPool st) = POOL_SIZE /\
   take (length (x_pend x)) (mDownloadDataPool st) = x_pend x).

(** ** Reading messages back *)

Lemma be_split_length x : length (be_split x) = 4%nat.
Proof. unfold be_split; rewrite length_rev; apply le_split_length. Qed.

Lemma be_join_split x : 0 <= x < 2 ^ 32 -> be_join (be_split x) = x.
Proof.
  intros; unfold be_join, be_split; rewrite rev_involutive.
  by apply le_join_split_small.
Qed.

Lemma ntohl_app (a c : bytes) x off :
  off = zlen a -> 0 <= x < 2 ^ 32 -> ntohl_at (a ++ be_split x ++ c) off = Done x.
Proof.
  intros; unfold ntohl_at; erewrite load_app; cbn [obind].
  - by rewrite be_join_split.
  - done.
  - unfold zlen; by rewrite be_split_length.
Qed.

Lemma encode_zlen last c : zlen (encode last c) = 24 + zlen (c_data c).
Proof. unfold encode, zlen; rewrite !length_app, !be_split_length; lia. Qed.

Lemma encode_all_cons c cs : encode_all (c :: cs) = encode (is_nil cs) c ++ encode_all cs.
Proof. destruct cs; cbn [encode_all is_nil]; [by rewrite app_nil_r|done]. Qed.

(** The two leading words of a message are those of any buffer that starts with
    its first eight bytes. *)
Lemma header_read last c m :
  good_chunk c -> take 8 m = take 8 (encode last c) ->
  ntohl_at m 0 = Done (c_type c) /\ ntohl_at m 4 = Done (16 + zlen (c_data c)).
Proof.
  intros (? & ? & ? & ?) Htk.
  assert (exists c', m = be_split (c_type c) ++ be_split (16 + zlen (c_data c)) ++ c') as (c' & ->).
  { exists (drop 8 m). rewrite <- (take_drop 8 m) at 1. rewrite Htk. unfold encode.
    rewrite take_app_ge by (rewrite be_split_length; lia).
    rewrite be_split_length, take_app_length' by (rewrite be_split_length; done).
    by rewrite <- app_assoc. }
  split; [by apply (ntohl_app []); [|lia]|].
  apply ntohl_app; [unfold zlen; by rewrite be_split_length|lia].
Qed.

(** Two lists with the same continuation agree on a common prefix length. *)
Lemma prefix_take {A} (a b c d : list A) n :
  a ++ b = c ++ d -> (n <= length a)%nat -> (n <= length c)%nat -> take n a = take n c.
Proof.
  intros H Ha Hc. rewrite <- (take_app_le a b n), H by lia. by apply take_app_le.
Qed.

Section Refinement.
Context (fwrite_ok : bytes -> bytes -> bool).

(** A complete chunk at the head of the pool is written or stops the transfer. *)
Lemma file_frame_spec last c r q dlg file run lg :
  good_chunk c ->
  file_frame fwrite_ok (mkDl (encode last c ++ r) q dlg (Some file) run lg) =
    Done (if negb (zlen (c_data c) =? 0) && fwrite_ok file (c_data c)
          then mkDl (encode last c ++ r) q (if last then false else dlg) (Some (file ++ c_data c)) run
                 (lg ++ progress last c (zlen (file ++ c_data c)))
          else mkDl (encode last c ++ r) q false (Some file) run lg).
Proof.
  intros (? & ? & ? & ?); unfold file_frame; cbn [mDownloadDataPool f].
  assert (forall A B C D E F G : bytes, (A ++ B ++ C ++ D ++ E ++ F ++ G) ++ r =
    (A ++ B) ++ C ++ D ++ E ++ F ++ G ++ r) as Hass by (intros; by rewrite <- !app_assoc).
  unfold encode; rewrite !Hass.
  set (h := be_split (c_type c) ++ be_split (16 + zlen (c_data c))).
  assert (zlen h = 8) as Hh by (unfold h, zlen; rewrite length_app, !be_split_length; done).
  rewrite (ntohl_app h) by lia; cbn [obind].
  rewrite (app_assoc h), (ntohl_app (h ++ _))
    by (unfold zlen in *; rewrite ?length_app, ?be_split_length; lia); cbn [obind].
  rewrite (app_assoc (h ++ _)), (ntohl_app ((h ++ _) ++ _))
    by (unfold zlen in *; rewrite ?length_app, ?be_split_length; destruct last; lia); cbn [obind].
  rewrite (app_assoc ((h ++ _) ++ _)), (ntohl_app (((h ++ _) ++ _) ++ _))
    by (unfold zlen in *; rewrite ?length_app, ?be_split_length; lia); cbn [obind].
  rewrite (app_assoc (((h ++ _) ++ _) ++ _)), (load_app ((((h ++ _) ++ _) ++ _) ++ _))
    by (unfold zlen in *; rewrite ?length_app, ?be_split_length; lia); cbn [obind].
  destruct (negb _ && fwrite_ok file (c_data c)); [|done]; cbv zeta.
  unfold progress; rewrite (i32_small (zlen _)), (i32_small (if last then 1 else 0))
    by (destruct last; lia).
  by destruct last.
Qed.

Lemma dispatch_file last c r q dlg file run lg :
  good_chunk c ->
  let st := mkDl (encode last c ++ r) q dlg (Some file) run lg in
  dispatch fwrite_ok st (c_type c) (16 + zlen (c_data c)) = file_frame fwrite_ok st.
Proof.
  intros (Ht & _); unfold dispatch; cbv zeta.
  assert (c_type c = 1 \/ c_type c = 2 \/ c_type c = 3 \/ c_type c = 4)
    as [-> | [-> | [-> | ->]]] by lia; reflexivity.
Qed.

(** Taking a message out of the pool. *)
Lemma consume_spec (msg pend r : bytes) dlg fl run lg :
  zlen (msg ++ pend ++ r) = POOL_SIZE ->
  exists m, zlen m = POOL_SIZE /\ take (length pend) m = pend /\
    consume (mkDl (msg ++ pend ++ r) (zlen (msg ++ pend)) dlg fl run lg) (zlen msg) =
      Done (mkDl m (zlen pend) dlg fl run lg).
Proof.
  intros Hl; unfold consume; cbn [mDownloadDataPool mDownloadDataPoolSize]; cbv zeta.
  replace (zlen (msg ++ pend) - zlen msg) with (zlen pend)
    by (unfold zlen; rewrite length_app; lia).
  rewrite load_app by done; cbn [obind].
  destruct (store_total (msg ++ pend ++ r) 0 pend) as (m & Hm); [lia| |].
  { unfold zlen; rewrite !length_app; lia. }
  rewrite Hm; cbn [obind mIsDownloading f running log].
  exists m; split_and!; [by rewrite (store_length _ _ _ _ Hm)| |done].
  apply load_store_same in Hm; unfold load in Hm.
  destruct (inb m 0 (zlen pend)); [|done]; injection Hm as Hm.
  unfold zlen in Hm; by rewrite Nat2Z.id in Hm.
Qed.

(** The head of the pool is that of the next chunk. *)
Lemma pool_head st x c cs fut :
  relate st x -> x_live x = true -> x_todo x = c :: cs ->
  x_pend x ++ fut = encode_all (c :: cs) -> (8 <= length (x_pend x))%nat ->
  take 8 (mDownloadDataPool st) = take 8 (encode (is_nil cs) c).
Proof.
  intros (_ & _ & _ & _ & HR) Hl Ht Hs H8; destruct (HR Hl) as (_ & _ & Hp).
  rewrite encode_all_cons in Hs.
  replace (take 8 (mDownloadDataPool st)) with (take 8 (x_pend x))
    by (rewrite <- Hp, take_take; f_equal; lia).
  pose proof (encode_zlen (is_nil cs) c); unfold zlen in *.
  eapply prefix_take; [exact Hs|lia|lia].
Qed.

(** A body of the loop that finds no complete message changes nothing. *)
Lemma iteration_waits st x c cs fut :
  good_chunk c -> relate st x -> x_live x = true -> x_todo x = c :: cs ->
  x_pend x ++ fut = encode_all (c :: cs) ->
  zlen (x_pend x) < zlen (encode (is_nil cs) c) -> iteration fwrite_ok st = Done st.
Proof.
  intros Hc HR Hl Ht Hs Hlt; unfold iteration, minLen.
  destruct HR as (? & ? & ? & ? & HP); destruct (HP Hl) as (Hq & Hz & Hp); rewrite Hq.
  destruct (zlen (x_pend x) <? 8) eqn:E8; [done|].
  destruct (header_read (is_nil cs) c (mDownloadDataPool st)) as [E1 E2]; [done| |].
  { eapply pool_head; eauto; [split_and!; eauto|unfold zlen in *; lia]. }
  rewrite E1, E2; cbn [obind]; rewrite encode_zlen in Hlt.
  destruct Hc as (? & ? & ? & ?); rewrite !i32_small by (rewrite ?i32_small; lia).
  replace (_ <? 8 + _) with true by lia; done.
Qed.

(** A body of the loop with a complete chunk takes it out of the pool. *)
Lemma iteration_takes st x c cs fut :
  good_chunk c -> relate st x -> x_live x = true -> x_todo x = c :: cs ->
  x_pend x ++ fut = encode_all (c :: cs) ->
  zlen (encode (is_nil cs) c) <= zlen (x_pend x) ->
  exists m, let x' := x_turn fwrite_ok x in
    zlen m = POOL_SIZE /\ take (length (x_pend x')) m = x_pend x' /\
    iteration fwrite_ok st =
      Done (mkDl m (zlen (x_pend x')) (x_live x') (Some (x_out x')) true (x_log x')).
Proof.
  intros Hc HR Hl Ht Hs Hge.
  pose proof (encode_zlen (is_nil cs) c) as He.
  assert (take (length (encode (is_nil cs) c)) (x_pend x) = encode (is_nil cs) c) as Hpre.
  { rewrite encode_all_cons in Hs.
    rewrite (prefix_take _ _ _ _ _ Hs) by (unfold zlen in *; lia).
    by rewrite firstn_all. }
  unfold iteration, minLen.
  destruct st as [m q dlg fl run lg]; destruct HR as (Hf & Hlog & Hd & Hr & HP).
  destruct (HP Hl) as (Hq & Hz & Hp); cbn [mDownloadDataPool mDownloadDataPoolSize
    mIsDownloading f running log] in *; subst q fl lg dlg run.
  rewrite Hl; set (msg := encode (is_nil cs) c) in *; set (pend := drop (length msg) (x_pend x)).
  assert (x_pend x = msg ++ pend) as Ep by (rewrite <- Hpre at 1; symmetry; apply take_drop).
  assert (m = msg ++ pend ++ drop (length (x_pend x)) m) as Em
    by (rewrite app_assoc, <- Ep; rewrite <- Hp at 1; symmetry; apply take_drop).
  destruct (header_read (is_nil cs) c m) as [E1 E2]; [done| |].
  { rewrite Em, take_app_le by (unfold zlen in *; lia); done. }
  pose proof Hc as (? & ? & ? & ?).
  replace (zlen (x_pend x) <? 8) with false by lia.
  rewrite E1, E2; cbn [obind].
  replace (i32 (8 + i32 (16 + zlen (c_data c)))) with (zlen msg)
    by (rewrite !i32_small by (rewrite ?i32_small; lia); lia).
  replace (zlen (x_pend x) <? zlen msg) with false by lia.
  rewrite !i32_small by lia.
  set (r := drop (length (x_pend x)) m) in *; rewrite Em in Hz |- *.
  unfold msg at 1; rewrite dispatch_file, file_frame_spec by done.
  unfold x_turn; rewrite Hl, Ht; fold msg; replace (zlen (x_pend x) <? zlen msg) with false by lia.
  fold pend; rewrite Ep.
  destruct (negb _ && _) eqn:Ew; cbn [obind]; cbv zeta;
    [destruct (is_nil cs) eqn:En|];
    cbn [x_pend x_todo x_out x_live x_log];
    match goal with |- context [consume (mkDl _ _ ?dlg ?fl ?run ?lg) _] =>
      destruct (consume_spec msg pend r dlg fl run lg Hz) as (m' & ? & ? & Hcs) end;
    exists m'; split_and!; auto; fold msg; rewrite Hcs; done.
Qed.

(** The bytes waiting and still to come are the chunks still to be written. *)
Definition in_step (x : xfer) (fut : bytes) : Prop :=
  x_live x = true ->
  Forall good_chunk (x_todo x) /\ x_todo x <> [] /\ x_pend x ++ fut = encode_all (x_todo x).

Lemma in_step_deliver x d fut x' :
  in_step x (d ++ fut) -> x_deliver x d = Done x' -> in_step x' fut.
Proof.
  unfold in_step, x_deliver; destruct (x_live x) eqn:El; [|intros _ [= <-]; congruence].
  intros (? & ? & E)%(fun H => H eq_refl) Hd; destruct (_ <? _) in Hd; [done|].
  injection Hd as <-; cbn; intros _; by rewrite <- app_assoc.
Qed.

Lemma in_step_turn x fut : in_step x fut -> in_step (x_turn fwrite_ok x) fut.
Proof.
  unfold in_step; intros H; destruct (x_live x) eqn:El;
    [|unfold x_turn; rewrite El; congruence].
  destruct (H eq_refl) as (HF & Hn & E); clear H.
  unfold x_turn; rewrite El; destruct (x_todo x) as [|c cs] eqn:Et; [done|].
  destruct (_ <? _) eqn:Elt; [by rewrite Et|].
  destruct (negb _ && _); cbn; intros Hl; [|done].
  split_and!; [by inversion HF|by destruct cs|].
  rewrite encode_all_cons in E.
  assert (drop (length (encode (is_nil cs) c)) (x_pend x ++ fut) = encode_all cs) as <-
    by (rewrite E; apply drop_app_length).
  rewrite drop_app_le; [done|unfold zlen in *; lia].
Qed.

Lemma turn_relates st x fut :
  relate st x -> in_step x fut ->
  exists st', turn fwrite_ok st = Done st' /\ relate st' (x_turn fwrite_ok x).
Proof.
  intros HR Hi; unfold turn; destruct (x_live x) eqn:El.
  2:{ pose proof HR as (_ & _ & _ & Hr & _); rewrite Hr, El.
      exists st; split; [done|]. unfold x_turn; by rewrite El. }
  destruct (Hi El) as (HF & Hn & E); destruct (x_todo x) as [|c cs] eqn:Et; [done|].
  pose proof HR as (Hf & Hlog & Hd & Hr & HP); rewrite Hr, El.
  destruct (zlen (x_pend x) <? zlen (encode (is_nil cs) c)) eqn:Elt.
  - erewrite iteration_waits; eauto; [|by inversion HF|lia]; cbn [obind].
    rewrite Hd, El; exists st; split; [done|].
    unfold x_turn; by rewrite El, Et, Elt.
  - destruct (iteration_takes st x c cs fut) as (m & Hz & Hp & ->); eauto;
      [by inversion HF|lia|]; cbn [obind mIsDownloading].
    destruct (x_live (x_turn fwrite_ok x)) eqn:El'; eexists; (split; [reflexivity|]);
      split_and!; cbn; rewrite ?El'; done.
Qed.

Lemma deliver_relates st x d :
  relate st x ->
  match x_deliver x d with
  | Done x' => exists st', doOnFileDownloadCallback st d = Done st' /\ relate st' x'
  | _ => doOnFileDownloadCallback st d = Fault
  end.
Proof.
  intros HR; pose proof HR as (Hf & Hlog & Hd & Hr & HP).
  unfold x_deliver, doOnFileDownloadCallback; rewrite Hd.
  destruct (x_live x) eqn:El; [|by exists st]; destruct (HP eq_refl) as (Hq & Hz & Hp).
  rewrite Hq; destruct (POOL_SIZE <? _) eqn:Eo.
  - unfold store; replace (inb _ _ _) with false; [done|].
    symmetry; apply not_true_iff_false; rewrite inb_spec; lia.
  - destruct (store_total (mDownloadDataPool st) (zlen (x_pend x)) d) as (m & Hm);
      [unfold zlen; lia|lia|].
    rewrite Hm; cbn [obind]; eexists; split; [reflexivity|].
    split_and!; cbn; auto; intros _.
    pose proof (store_length _ _ _ _ Hm).
    apply store_done in Hm as (_ & _ & ->); split_and!; [unfold zlen; rewrite length_app; lia|lia|].
    unfold zlen; rewrite Nat2Z.id, Hp, length_app, app_assoc, <- length_app.
    apply take_app_length.
Qed.

Lemma run_relates s : forall st x fut,
  relate st x -> in_step x (deliveries s ++ fut) ->
  match x_run fwrite_ok x s with
  | Done x' => exists st', run fwrite_ok st s = Done st' /\ relate st' x'
  | _ => run fwrite_ok st s = Fault
  end.
Proof.
  induction s as [|[d|] s IH]; intros st x fut HR Hi; cbn [x_run run]; [by eauto| |].
  - pose proof (deliver_relates st x d HR) as Hd.
    destruct (x_deliver x d) as [x'| |] eqn:Ex; cbn [obind]; [|by rewrite Hd..].
    destruct Hd as (st' & -> & HR'); cbn [obind].
    eapply (IH st' x' fut); [done|]. eapply in_step_deliver; [|done].
    by rewrite app_assoc.
  - destruct (turn_relates st x _ HR Hi) as (st' & -> & HR'); cbn [obind].
    by apply (IH st' _ fut), in_step_turn.
Qed.

Lemma relate_start cs : cs <> [] -> relate start (x_start cs).
Proof.
  intros _; do 4 (split; [reflexivity|]); intros _.
  split; [reflexivity|]; split; [|apply take_0].
  unfold start, zlen; cbn [mDownloadDataPool]; rewrite repeat_length; apply Z2Nat.id; done.
Qed.

Lemma in_step_start cs fut :
  Forall good_chunk cs -> cs <> [] -> fut = encode_all cs -> in_step (x_start cs) fut.
Proof. by intros ? ? ->. Qed.

(** C6: refinement of the transfer: for any schedule of network deliveries and
    thread turns over the encoding of a chunk list, the pool, the file and the
    progress events are those of the abstract transfer, and the pool overflows
    exactly when the bytes waiting exceed its size. *)
Theorem download_refines cs s fut :
  Forall good_chunk cs -> cs <> [] -> deliveries s ++ fut = encode_all cs ->
  match x_run fwrite_ok (x_start cs) s with
  | Done x' => exists st', run fwrite_ok start s = Done st' /\ relate st' x'
  | _ => run fwrite_ok start s = Fault
  end.
Proof.
  intros; eapply run_relates; [by apply relate_start|by apply in_step_start].
Qed.

End Refinement.

(** ** Transfers whose writes succeed *)



Section Writes.
Context (fwrite_ok : bytes -> bytes -> bool) (Hok : forall file d, fwrite_ok file d = true).








End Writes.

(** ** Messages the thread does not survive *)

(** The callback does not compare the pool's fill with its size. *)
Lemma callback_overflow st data :
  mIsDownloading st = true ->
  zlen (mDownloadDataPool st) < mDownloadDataPoolSize st + zlen data ->
  doOnFileDownloadCallback st data = Fault.
Proof.
  intros Hd Hz; unfold doOnFileDownloadCallback, store; rewrite Hd.
  replace (inb _ _ _) with false; [done|].
  symmetry; apply not_true_iff_false; rewrite inb_spec; lia.
Qed.

(** A message whose size field is below -8 and whose type the switch does not
    know passes the length test, and taking it out of the pool reads in front of
    the pool. *)
Theorem negative_size_faults fwrite_ok st t d rest :
  running st = true -> mDownloadDataPool st = be_split t ++ be_split d ++ rest ->
  8 <= mDownloadDataPoolSize st -> 0 <= t < 2 ^ 32 -> 0 <= d < 2 ^ 32 ->
  4 < i32 t -> i32 d < -8 -> - 2 ^ 31 <= 8 + i32 d ->
  turn fwrite_ok st = Fault.
Proof.
  intros Hr Hm Hq Ht Hd Htt Hdd Hlo; unfold turn, iteration; rewrite Hr.
  replace (mDownloadDataPoolSize st <? minLen) with false by (unfold minLen; lia).
  rewrite Hm, (ntohl_app [] (be_split d ++ rest) t 0 eq_refl Ht : ntohl_at (be_split t ++ _) 0 = _); cbn [obind].
  rewrite ntohl_app by (unfold zlen; rewrite ?be_split_length; lia); cbn [obind].
  unfold minLen; rewrite (i32_small (8 + _)) by lia; cbv zeta.
  replace (_ <? 8 + i32 d) with false by lia.
  unfold dispatch; cbv zeta.
  repeat match goal with |- context [i32 t =? ?k] => replace (i32 t =? k) with false
    by (unfold JA_DEV_FILE_TYPE_LIST, JA_DEV_FILE_TYPE_IMAGE_JPG, JA_DEV_FILE_TYPE_IMAGE_PNG,
          JA_DEV_FILE_TYPE_VIDEO_MOV, JA_DEV_FILE_TYPE_VIDEO_MP4; lia) end.
  cbn [orb]; cbn [obind]; unfold consume, load.
  replace (inb _ _ _) with false; [done|].
  symmetry; apply not_true_iff_false; rewrite inb_spec; lia.
Qed.

(** An empty chunk counts as a failed write: [fwrite] with size 0 returns 0. *)
Lemma empty_chunk_stops fwrite_ok x c cs :
  x_live x = true -> x_todo x = c :: cs -> c_data c = [] ->
  zlen (encode (is_nil cs) c) <= zlen (x_pend x) ->
  x_live (x_turn fwrite_ok x) = false /\ x_out (x_turn fwrite_ok x) = x_out x.
Proof.
  intros Hl Ht Hc Hz; unfold x_turn; rewrite Hl, Ht, Hc.
  by replace (_ <? _) with false by lia.
Qed.

(** ** Witnesses *)

Definition two_chunks : list chunk := [mkChunk 3 0 1 [10; 20; 30]; mkChunk 3 0 1 [40]].

Lemma two_chunks_good : Forall good_chunk two_chunks.
Proof. repeat constructor; vm_compute; (done || discriminate). Qed.

(** The first 30 bytes arrive, the thread turns twice, then the rest. *)
Definition two_deliveries : list sched :=
  [Deliver (take 30 (encode_all two_chunks)); Turn; Turn; Deliver (drop 30 (encode_all two_chunks))].

Lemma download_refines_witness :
  match x_run (fun _ _ => true) (x_start two_chunks) two_deliveries with
  | Done x' => x_out x' = [10; 20; 30] /\
      exists st', run (fun _ _ => true) start two_deliveries = Done st' /\ relate st' x'
  | _ => False
  end.
Proof.
  pose proof (download_refines (fun _ _ => true) two_chunks two_deliveries []
    two_chunks_good ltac:(discriminate) ltac:(reflexivity)) as H.
  split; [reflexivity|exact H].
Defined.


Lemma negative_size_faults_witness :
  turn (fun _ _ => true)
    (mkDl ([0; 0; 0; 9; 255; 255; 255; 0] ++ repeat 0 16) 8 true None true []) = Fault.
Proof.
  apply (negative_size_faults _ _ 9 4294967040 (repeat 0 16)); done || lia.
Defined.

End Download.
