(* ===== verification/ConnectManager.v ===== *)
(** The table of viewers: ConnectManager (gles/Network/ConnectManager.cpp and .h),
    36 slots that each may hold a JAConnect, and the system that the table, the
    viewers' task threads, the disconnect threads and the peer-to-peer callbacks
    make together.  Commands run to completion one at a time; the file download
    of the same class is in Download. *)
From Stdlib Require Import SpecFloat.
From stdpp Require Import gmap.
From S2P Require Import Prelude Float32 LinkedList P2PConnector P2PLegacy P2PManager JAConnect.

Module CM.
Import Manager JA.

Definition MAX_CONN : Z := 36.

(** The members of a viewer that only the table's getters and setters use, with
    the statistics of its frame buffer and the switches of its decoder. *)
Record settings := mkSet {
  howBirate : Z; needOpen64 : Z; isInstallModeCome : Z; onlyDecodeIFrame : bool;
  mHardwareDecoder : bool; mMaxSupportWidth : Z; mMaxSupportHeight : Z; mTimeZone : spec_float;
  stat_fps : Z; stat_bitrate : Z; mCropFishEye : bool; mWallMode : Z; isDirectTexture : bool
}.
Definition new_settings : settings := mkSet 2 0 3 false false 0 0 (F32.of_Z 0) 0 0 false 0 false.

Record viewer := mkV { core : ja; opts : settings }.

(** [JACONNECT]; [conn] is [None] for null. *)
Record slot := mkSlot { index : Z; isPlaying : bool; conn : option viewer }.
Definition empty_slot : slot := mkSlot 0 false None.

Definition set_core (v : viewer) (j : ja) : viewer := mkV j (opts v).
Definition set_iframe_only (o : settings) (b : bool) : settings :=
  mkSet (howBirate o) (needOpen64 o) (isInstallModeCome o) b (mHardwareDecoder o)
    (mMaxSupportWidth o) (mMaxSupportHeight o) (mTimeZone o) (stat_fps o) (stat_bitrate o)
    (mCropFishEye o) (mWallMode o) (isDirectTexture o).
Definition set_hardware (o : settings) (b : bool) (w h : Z) : settings :=
  mkSet (howBirate o) (needOpen64 o) (isInstallModeCome o) (onlyDecodeIFrame o) b
    w h (mTimeZone o) (stat_fps o) (stat_bitrate o)
    (mCropFishEye o) (mWallMode o) (isDirectTexture o).
Definition set_zone (o : settings) (z : spec_float) : settings :=
  mkSet (howBirate o) (needOpen64 o) (isInstallModeCome o) (onlyDecodeIFrame o) (mHardwareDecoder o)
    (mMaxSupportWidth o) (mMaxSupportHeight o) (F32.div z (F32.of_Z 100)) (stat_fps o) (stat_bitrate o)
    (mCropFishEye o) (mWallMode o) (isDirectTexture o).
Definition set_crop (o : settings) (b : bool) : settings :=
  mkSet (howBirate o) (needOpen64 o) (isInstallModeCome o) (onlyDecodeIFrame o) (mHardwareDecoder o)
    (mMaxSupportWidth o) (mMaxSupportHeight o) (mTimeZone o) (stat_fps o) (stat_bitrate o)
    b (mWallMode o) (isDirectTexture o).
Definition set_direct (o : settings) (b : bool) : settings :=
  mkSet (howBirate o) (needOpen64 o) (isInstallModeCome o) (onlyDecodeIFrame o) (mHardwareDecoder o)
    (mMaxSupportWidth o) (mMaxSupportHeight o) (mTimeZone o) (stat_fps o) (stat_bitrate o)
    (mCropFishEye o) (mWallMode o) b.

Section Table.
Context {M : Type} `{P2PManager M}.

(** [_connector], [_audioIndex], and the managers the viewers share. *)
Record mgr := mkMgr { _connector : list slot; _audioIndex : Z; g_net : @net M }.

(** The constructor. *)
Definition ConnectManager (n : @net M) : mgr :=
  mkMgr (repeat empty_slot (Z.to_nat MAX_CONN)) 0 n.

(** [index < 0 || index >= MAX_CONN]. *)
Definition out_of_range (index : Z) : bool := (index <? 0) || (MAX_CONN <=? index).

Definition put (g : mgr) (i : Z) (s : slot) : mgr :=
  mkMgr (zset (_connector g) i s) (_audioIndex g) (g_net g).
Definition set_net (g : mgr) (n : @net M) : mgr := mkMgr (_connector g) (_audioIndex g) n.
Definition set_conn (s : slot) (v : viewer) : slot := mkSlot (index s) (isPlaying s) (Some v).

(** [_connector[index]]: outside the array there is no slot. *)
Definition at_ (g : mgr) (i : Z) : outcome slot :=
  match znth (_connector g) i with Some s => Done s | None => Fault end.

(** The shapes of the methods: range test, then the null test ([guarded]) or none
    ([unguarded]), then one call on the viewer. *)
Definition guarded (g : mgr) (i : Z) (f : viewer -> outcome viewer) : outcome mgr :=
  if out_of_range i then Done g
  else let* s := at_ g i in
       match conn s with
       | None => Done g
       | Some v => let* v := f v in Done (put g i (set_conn s v))
       end.
Definition unguarded (g : mgr) (i : Z) (f : viewer -> outcome viewer) : outcome mgr :=
  if out_of_range i then Done g
  else let* s := at_ g i in
       match conn s with
       | None => Fault
       | Some v => let* v := f v in Done (put g i (set_conn s v))
       end.
(** [outside] is returned out of range, [null] without a viewer. *)
Definition query {A} (g : mgr) (i : Z) (outside : A) (null : outcome A) (f : viewer -> A) : outcome A :=
  if out_of_range i then Done outside
  else let* s := at_ g i in
       match conn s with None => null | Some v => Done (f v) end.

Definition on_core (f : ja -> outcome ja) (v : viewer) : outcome viewer :=
  let* j := f (core v) in Done (set_core v j).

(** [true] stands for the slot's address, [false] for null. *)
Definition Connect (g : mgr) (connectstr verifystr : cstr) (index_ channel : Z) : outcome (mgr * bool) :=
  if out_of_range index_ then Done (g, false)
  else
    let* s := at_ g index_ in
    let '(s, v) := match conn s with
                   | Some v => (s, v)
                   | None => let v := mkV new_ja new_settings in
                             (mkSlot index_ (isPlaying s) (Some v), v)
                   end in
    let* j := JA.Connect (ResetBuffer (core v)) connectstr verifystr channel in
    Done (put g index_ (mkSlot (index s) false (Some (set_core v j))), true).

Definition Disconnect (g : mgr) (i : Z) : outcome mgr := guarded g i (on_core JA.Disconnect).
Definition DoDisconnect (g : mgr) (i : Z) : outcome mgr :=
  guarded g i (on_core (fun j => Done (act j ASpawnDisconnect))).
Definition OpenChannel (g : mgr) (bitrate channel i : Z) : outcome mgr :=
  guarded g i (on_core (fun j => JA.OpenChannel j channel bitrate)).
Definition CloseChannel (g : mgr) (bitrate channel i : Z) : outcome mgr :=
  guarded g i (on_core (fun j => JA.CloseChannel j channel bitrate)).
Definition SendData (g : mgr) (d : cstr) (i : Z) : outcome mgr :=
  guarded g i (on_core (fun j => JA.SendData j d)).
Definition PausePlayback (g : mgr) (channel i : Z) : outcome mgr :=
  guarded g i (on_core (fun j => JA.PlaybackPauseGetData j channel)).
Definition ResumePlayback (g : mgr) (channel i : Z) : outcome mgr :=
  guarded g i (on_core (fun j => JA.PlaybackContinueGetData j channel)).
Definition PtzCtrl (g : mgr) (type_ channel i : Z) : outcome mgr :=
  unguarded g i (on_core (fun j => JA.CtrlPTZ j type_ channel)).
Definition StopPTZ (g : mgr) (channel i : Z) : outcome mgr :=
  guarded g i (on_core (fun j => JA.StopPTZ j channel)).
Definition SearchRec (g : mgr) (startTime endTime channel i : Z) : outcome mgr :=
  guarded g i (on_core (fun j => JA.SearchRec j startTime endTime channel)).
Definition StartPlayback (g : mgr) (startTime channel i : Z) : outcome mgr :=
  guarded g i (on_core (fun j => JA.StartPlayback j startTime channel)).
Definition StopPlayback (g : mgr) (channel i : Z) : outcome mgr :=
  guarded g i (on_core (fun j => JA.StopPlayback j channel)).
Definition PlaybackPauseGetData (g : mgr) (channel i : Z) : outcome mgr :=
  unguarded g i (on_core (fun j => JA.PlaybackPauseGetData j channel)).
Definition PlaybackContinueGetData (g : mgr) (channel i : Z) : outcome mgr :=
  unguarded g i (on_core (fun j => JA.PlaybackContinueGetData j channel)).
Definition PullAlarmmsg (g : mgr) (type_ channle time i : Z) : outcome mgr :=
  guarded g i (on_core (fun j => JA.PullAlarmmsg j type_ channle time)).
Definition DecoderPause (g : mgr) (i : Z) : outcome mgr :=
  guarded g i (on_core (fun j => Done (JA.DecoderPause j))).
Definition DecoderResume (g : mgr) (i : Z) : outcome mgr :=
  guarded g i (on_core (fun j => Done (JA.DecoderResume j))).
Definition SearchDevice (g : mgr) : outcome mgr := guarded g 0 (on_core JA.SearchDevice).

Definition set_opts (f : settings -> settings) (v : viewer) : outcome viewer :=
  Done (mkV (core v) (f (opts v))).
(** Switching to software decoding makes the viewer wait for a key frame. *)
Definition SetHardwareDecoder (g : mgr) (value : bool) (i w h : Z) : outcome mgr :=
  guarded g i (fun v =>
    let j := if value then core v else set_ply (core v) (p_iframe (ply (core v)) false) in
    Done (mkV j (set_hardware (opts v) value w h))).
Definition setOnlyDecoderIFrame (g : mgr) (value : bool) (i : Z) : outcome mgr :=
  guarded g i (set_opts (fun o => set_iframe_only o value)).
Definition EnableCrop (g : mgr) (i : Z) : outcome mgr := unguarded g i (set_opts (fun o => set_crop o true)).
Definition DisableCrop (g : mgr) (i : Z) : outcome mgr := unguarded g i (set_opts (fun o => set_crop o false)).

(** [index > 36] lets the index behind the array through; the viewer keeps a
    hundredth of the zone, in single precision. *)
Definition SetTimeZone (g : mgr) (zone : spec_float) (i : Z) : outcome mgr :=
  if (i <? 0) || (36 <? i) then Done g
  else
    let* s := at_ g i in
    match conn s with
    | None => Done g
    | Some v => let* v := set_opts (fun o => set_zone o zone) v in Done (put g i (set_conn s v))
    end.

(** *** Queries *)

Definition GetConnectCtx (g : mgr) (i : Z) : outcome (option viewer) := query g i None (Done None) Some.
Definition GetConnector (g : mgr) (i : Z) : outcome (option viewer) := query g i None (Done None) Some.
Definition GetRealStatus (g : mgr) (i : Z) : outcome Z :=
  let* s := at_ g i in
  match conn s with Some v => Done (mRealStatus (ses (core v))) | None => Done 0 end.
Definition GetStreamNo (g : mgr) (i : Z) : outcome Z :=
  query g i (-2) (Done (-1)) (fun v => mStreamNo (ply (core v))).
Definition GetChannel (g : mgr) (i : Z) : outcome Z :=
  query g i (-2) (Done (-1)) (fun v => mChannelNo (ply (core v))).
(** Returns the stream number. *)
Definition GetBitrate (g : mgr) (i : Z) : outcome Z :=
  query g i 0 (Done 0) (fun v => mStreamNo (ply (core v))).
Definition GetNetWorkSpeed (g : mgr) (i : Z) : outcome Z :=
  query g i (-1) (Done 0) (fun v => stat_bitrate (opts v)).
Definition IsCrop (g : mgr) (i : Z) : outcome bool := query g i false Fault (fun v => mCropFishEye (opts v)).
Definition IsWallMode (g : mgr) (i : Z) : outcome bool :=
  query g i false Fault (fun v => negb (mWallMode (opts v) =? 0)).
Definition GetDecoder (g : mgr) (i : Z) : outcome bool := query g i false Fault (fun v => true).
(** Without a viewer these four run off the end of a function that returns a
    value. *)
Definition GetFps (g : mgr) (i : Z) : outcome Z := query g i 0 Fault (fun v => stat_fps (opts v)).
Definition getHowBitrate (g : mgr) (i : Z) : outcome Z := query g i 2 Fault (fun v => howBirate (opts v)).
Definition getIsInstallModeCome (g : mgr) (i : Z) : outcome Z :=
  query g i 3 Fault (fun v => isInstallModeCome (opts v)).
Definition need64 (o : settings) : bool :=
  if stat_fps o =? 0 then false else 0 <=? needOpen64 o + 40 - cdiv (stat_fps o) 1000.
Definition isNeedOpen64Stream (g : mgr) (i : Z) : outcome bool := query g i false Fault (fun v => need64 (opts v)).

(** *** Calls into the viewer's peer-to-peer manager *)

Definition p2p_call (g : mgr) (i : Z) (outside : Z) (f : @net M -> ja -> outcome (@net M * ja * Z))
  : outcome (mgr * Z) :=
  if out_of_range i then Done (g, outside)
  else
    let* s := at_ g i in
    match conn s with
    | None => Done (g, -1)
    | Some v =>
        let* '(n, j, r) := f (g_net g) (core v) in
        Done (set_net (put g i (set_conn s (set_core v j))) n, r)
    end.
Definition Call (g : mgr) (channelNo i : Z) : outcome (mgr * Z) :=
  p2p_call g i (-2) (fun n j => connected_call n j (fun m => call_ m channelNo)).
Definition HangUp (g : mgr) (i : Z) : outcome (mgr * Z) :=
  p2p_call g i (-2) (fun n j => connected_call n j hangup).
Definition SendAudioPacket (g : mgr) (voiceData : cstr) (i : Z) : outcome (mgr * Z) :=
  p2p_call g i (-1) (fun n j =>
    let* '(n, r) := mcall n (mP2p (ses j)) (fun m => talkSend m voiceData) in Done (n, j, r)).

(** *** Loops over the table *)

(** [f] on every viewer, in slot order. *)
Fixpoint each (f : viewer -> outcome viewer) (l : list slot) : outcome (list slot) :=
  match l with
  | [] => Done []
  | s :: l =>
      let* s := match conn s with
                | None => Done s
                | Some v => let* v := f v in Done (set_conn s v)
                end in
      let* l := each f l in Done (s :: l)
  end.
Definition loop (g : mgr) (f : viewer -> outcome viewer) : outcome mgr :=
  let* l := each f (_connector g) in Done (mkMgr l (_audioIndex g) (g_net g)).

Definition LivePause (g : mgr) : outcome mgr :=
  loop g (on_core (fun j => JA.CloseChannel j (mChannelNo (ply j)) (mStreamNo (ply j)))).
Definition LiveResume (g : mgr) : outcome mgr :=
  loop g (on_core (fun j => JA.OpenChannel j (mChannelNo (ply j)) (mStreamNo (ply j)))).
Definition UseDirectTexture (g : mgr) (isDirect : bool) : outcome mgr :=
  loop g (set_opts (fun o => set_direct o isDirect)).

(** The sum is an int: beyond it the addition is undefined. *)
Fixpoint sum_speed (all : Z) (l : list slot) : outcome Z :=
  match l with
  | [] => Done all
  | s :: l =>
      match conn s with
      | None => sum_speed all l
      | Some v =>
          let all := all + stat_bitrate (opts v) in
          if (- 2 ^ 31 <=? all) && (all <? 2 ^ 31) then sum_speed all l else Fault
      end
  end.
Definition GetAllNetWorkSpeed (g : mgr) : outcome Z := sum_speed 0 (_connector g).

Definition PlayAudio (g : mgr) (i : Z) : mgr := mkMgr (_connector g) i (g_net g).

(** *** What the application's callbacks receive *)

(** [OnAudioDataCome]: only the selected viewer's audio is passed on. *)
Definition OnAudioDataCome (g : mgr) (s : slot) : bool := index s =? _audioIndex g.

(** [OnFrame]: the texture callback, the frame callback, and the first-frame
    callback once per connection; [w], [h] are the viewer's picture size. *)
Definition FRAME_TYPE_RAW : Z := 15.
Definition OnFrame (s : slot) (v : viewer) (frame_type w h : Z) : slot * (bool * bool * bool) :=
  if mHardwareDecoder (opts v) && (frame_type =? FRAME_TYPE_RAW) then (s, (true, false, false))
  else if (0 <? w) && (0 <? h) && negb (isPlaying s)
       then (mkSlot (index s) true (conn s), (true, true, true))
       else (s, (true, true, false)).
End Table.

(** ** The older managers are not disturbed by other viewers *)

(** Only the viewer that holds an older manager deletes it: the other managers of
    that kind stay through every step. *)
Section Frames.
Context {M : Type} `{P2PManagerLaws M}.
Context (alloc : gmap Z M -> Z).
Hypothesis alloc_fresh : forall h, h !! alloc h = None.

Abbreviation is_UDX n b := (kind n b = Some UDX_P2P).
Definition keeps (n n' : @net M) : Prop := forall b, is_UDX n b -> is_UDX n' b.
Definition keeps_but (a : Z) (n n' : @net M) : Prop := forall b, b <> a -> is_UDX n b -> is_UDX n' b.

Lemma keeps_refl n : keeps n n.
Proof. by intros b. Qed.
Lemma keeps_trans n1 n2 n3 : keeps n1 n2 -> keeps n2 n3 -> keeps n1 n3.
Proof. intros H1 H2 b Hb; auto. Qed.
Lemma keeps_weaken a n n' : keeps n n' -> keeps_but a n n'.
Proof. intros Hk b _; auto. Qed.
Lemma keeps_but_not a n n' : keeps_but a n n' -> ~ is_UDX n a -> keeps n n'.
Proof. intros Hk Ha b Hb; apply Hk; [by intros ->|done]. Qed.

Lemma kind_call {A} n a (f : M -> outcome (M * A)) n' r :
  mcall_o n a f = Done (n', r) -> (forall m m' r, f m = Done (m', r) -> mstep m m') ->
  forall b, kind n' b = kind n b.
Proof.
  unfold mcall_o; destruct (n_heap n !! a) as [m|] eqn:Hm; [|done]; intros HC Hf b.
  obinv HC; destruct v as [m' r']; simplify_eq; apply Hf in E; unfold kind; simpl.
  destruct (decide (a = b)) as [->|N]; [|by rewrite lookup_insert_ne].
  rewrite lookup_insert_eq, Hm; simpl; by rewrite (version_step m m').
Qed.
Lemma keeps_call {A} n a (f : M -> outcome (M * A)) n' r :
  mcall_o n a f = Done (n', r) -> (forall m m' r, f m = Done (m', r) -> mstep m m') -> keeps n n'.
Proof. intros HC Hf b Hb; by rewrite (kind_call _ _ _ _ _ HC Hf). Qed.

Lemma keeps_insert n l m : keeps n (mkNet l (<[alloc (n_heap n) := m]> (n_heap n))).
Proof.
  intros b Hb; unfold kind in *; simpl; rewrite lookup_insert_ne; [done|].
  intros E; rewrite <- E, alloc_fresh in Hb; done.
Qed.

(** Where a manager was just made, or found shared, there was no older one. *)
Definition not_UDX (n : @net M) (a : Z) : Prop := ~ is_UDX n a.
Lemma fresh_not_UDX n : not_UDX n (alloc (n_heap n)).
Proof. unfold not_UDX, kind; rewrite alloc_fresh; done. Qed.

Lemma mupd_kind n a (f : M -> M) n' :
  mupd n a f = Done n' -> (forall m, GetP2PVersion (f m) = GetP2PVersion m) ->
  forall b, kind n' b = kind n b.
Proof.
  unfold mupd; destruct (n_heap n !! a) as [m|] eqn:Hm; [|done]; intros [= <-] Hf b.
  unfold kind; simpl; destruct (decide (a = b)) as [->|N]; [|by rewrite lookup_insert_ne].
  by rewrite lookup_insert_eq, Hm; simpl; rewrite Hf.
Qed.

Lemma keeps_create n d i p n' a :
  CreateConnector alloc n d i p = Done (n', a) -> keeps n n' /\ not_UDX n a.
Proof.
  intros HC; unfold CreateConnector in HC; obinv HC; destruct v as [c|].
  - obinv HC; simplify_eq; split.
    + intros b Hb; by rewrite (mupd_kind _ _ _ _ E0 (fun m => version_update m true)).
    + destruct (find_shared_spec _ _ _ _ _ _ E) as (_ & m & Hm & Hk).
      unfold not_UDX, kind; rewrite Hm; simpl; congruence.
  - unfold new_ in HC; obinv HC; simplify_eq; split; [|apply fresh_not_UDX].
    intros b Hb; rewrite (mupd_kind _ _ _ _ E1 (fun m => version_property m d i p)).
    rewrite (mupd_kind _ _ _ _ E0 (fun m => version_update m true)).
    by apply (keeps_insert n (CList.insert (-1) (alloc (n_heap n)) (n_list n))).
Qed.

Lemma delete_heap (n : @net M) a n' : @delete_ M n a = Done n' -> n_heap n' = delete a (n_heap n).
Proof. unfold delete_; destruct (unlist_spec n a) as (l & -> & _); simpl; by intros [= <-]. Qed.

Lemma keeps_destroy n a n' : DestroyConnector n a = Done n' -> keeps_but a n n'.
Proof.
  assert (HM : forall (n : @net M) f n', mupd n a f = Done n' -> forall b, b <> a -> n_heap n' !! b = n_heap n !! b).
  { intros n0 f n1 HU b N; unfold mupd in HU; destruct (n_heap n0 !! a); [|done]; simplify_eq; simpl.
    by rewrite lookup_insert_ne. }
  assert (HD : forall n n' : @net M, @delete_ M n a = Done n' -> forall b, b <> a -> n_heap n' !! b = n_heap n !! b).
  { intros n0 n1 HU b N; rewrite (delete_heap _ _ _ HU), lookup_delete_ne; done. }
  assert (HU : forall n n' : @net M, @unlist M n a = Done n' -> n_heap n' = n_heap n).
  { intros n0 n1; destruct (unlist_spec n0 a) as (l & -> & _); by intros [= <-]. }
  intros HC b N Hb; unfold kind; replace (n_heap n' !! b) with (n_heap n !! b); [done|].
  unfold DestroyConnector in HC; destruct (a =? 0); [by simplify_eq|]; obinv HC.
  destruct (v =? UDX_P2P).
  - obinv HC; rewrite (HD _ _ HC b N), (HM _ _ _ E0 b N); done.
  - obinv HC; destruct (1 <? _); [by rewrite (HM _ _ _ HC b N)|]; obinv HC.
    rewrite (HD _ _ HC b N), (HM _ _ _ E3 b N), (HM _ _ _ E2 b N), (HU _ _ E1); done.
Qed.

Ltac step_kept E := first
  [ apply keeps_call in E; [|first [apply mcall_step; constructor|apply connect_any_step|
      intros ? ? ? ?; econstructor; eassumption]] ].

Lemma keeps_disconnect n j cmd n' j' :
  JA.DoDisconnect n j cmd = Done (n', j') ->
  keeps_but (mP2p (ses j)) n n' /\ (mP2p (ses j') = 0 \/ mP2p (ses j') = mP2p (ses j)).
Proof.
  intros HD; unfold JA.DoDisconnect in HD; cbv zeta in HD.
  set (j0 := set_cmds j _) in HD; change (ses j) with (ses j0) in *; clearbody j0; clear j; rename j0 into j.
  obinv HD; destruct v as [n1 j1].
  assert (H1 : keeps n n1 /\ mP2p (ses j1) = mP2p (ses j)).
  { destruct (mDataHandle (ses j) =? 0); [simplify_eq; auto using keeps_refl|].
    obinv E; destruct v; simplify_eq; simpl; step_kept E0; auto. }
  clear E; destruct H1 as [H1 HP]; rewrite <- HP; clear HP; revert H1.
  obinv HD; destruct v as [n2 j2]; intros H1.
  assert (H2 : keeps n1 n2 /\ mP2p (ses j2) = mP2p (ses j1)).
  { destruct (mPlaybackHandle (ses j1) =? 0); [simplify_eq; auto using keeps_refl|].
    obinv E; destruct v; simplify_eq; simpl; step_kept E0; auto. }
  clear E; destruct H2 as [H2 HP]; rewrite <- HP; clear HP.
  obinv HD; destruct v as [n3 j3].
  assert (H3 : keeps_but (mP2p (ses j2)) n2 n3 /\ (mP2p (ses j3) = 0 \/ mP2p (ses j3) = mP2p (ses j2))).
  { destruct (_ && _); [|simplify_eq; auto using keeps_weaken, keeps_refl].
    obinv E; simplify_eq; simpl; apply keeps_destroy in E0; auto. }
  assert (HE : n' = n3 /\ mP2p (ses j') = mP2p (ses j3)).
  { clear - HD; simpl in HD; injection HD as <- <-; split; [done|].
    unfold DoStatus, JA.DecoderPause; destruct cmd; simpl; repeat (case_match; simpl); done. }
  destruct HE as [-> ->], H3 as [H3 H4]; split; [|done].
  intros b Hb Hu; apply H3; auto.
Qed.

Lemma keeps_finish n j ret n' j' :
  finish n j ret = Done (n', j') ->
  keeps_but (mP2p (ses j)) n n' /\ (mP2p (ses j') = 0 \/ mP2p (ses j') = mP2p (ses j)).
Proof.
  intros HF; unfold finish in HF; destruct (ret =? 0).
  - obinv HF; destruct v as [n1 h]; simplify_eq; rewrite DoStatus_ses by done; simpl.
    step_kept E; auto using keeps_weaken.
  - destruct (_ || (ret =? KP2P_ERR_TIMEOUT)); [|destruct (_ || (ret =? KP2P_ERR_AUTH2_FAILED))];
      apply keeps_disconnect in HF; simpl in HF; rewrite ?DoStatus_ses in HF by done; simpl in HF; exact HF.
Qed.

Lemma keeps_reconnect n j this n' j' ret :
  ReConnect alloc n j this = Done (n', j', ret) ->
  keeps n n' /\ (mP2p (ses j') = 0 \/ not_UDX n (mP2p (ses j'))).
Proof.
  intros HR; unfold ReConnect in HR; cbv zeta in HR.
  obinv HR; destruct v as [n1 a].
  assert (H1 : keeps n n1 /\ not_UDX n a).
  { destruct (15 <? _); [|by apply keeps_create in E].
    unfold new_ in E; simplify_eq; split; [apply keeps_insert|apply fresh_not_UDX]. }
  clear E; destruct H1 as [K1 N1]; obinv HR; destruct v as [n2 h]; step_kept E.
  apply (keeps_trans _ _ _ K1) in E; clear K1; rename E into K1.
  obinv HR; destruct v as [n3 ret1]; step_kept E.
  apply (keeps_trans _ _ _ K1) in E; clear K1; rename E into K1.
  obinv HR; destruct v0 as [[[n4 a4] h4] ret4].
  assert (H2 : keeps n n4 /\ not_UDX n a4).
  { destruct (fallback _ _ _); [|by simplify_eq].
    obinv E0; apply keeps_destroy in E1; unfold new_ in E0; obinv E0; destruct v1 as [n7 h7]; step_kept E2.
    obinv E0; destruct v1 as [n8 ret8]; simplify_eq; step_kept E3.
    assert (K2 : keeps n v0) by (intros b Hb; apply E1; [by intros ->|auto]).
    split; [|intros Hb; exact (fresh_not_UDX _ (K2 _ Hb))].
    eapply keeps_trans; [exact K2|]; eapply keeps_trans; [apply keeps_insert|].
    eapply keeps_trans; eassumption. }
  clear E0; destruct H2 as [K4 N4]; obinv HR; destruct v0 as [n5 ret5].
  assert (K5 : keeps n n5).
  { case_match; [|by simplify_eq]; destruct (ret4 =? 0); [|by simplify_eq].
    step_kept E0; eauto using keeps_trans. }
  obinv HR; destruct v0 as [n6 j6]; simplify_eq; apply keeps_finish in E1; simpl in E1.
  destruct E1 as [K6 [E6|E6]]; (split; [|auto || (right; by rewrite E6)]);
    intros b Hb; apply K6; auto; by intros ->.
Qed.
End Frames.

(** ** One viewer among the others *)

Section Steps.
Context {M : Type} `{P2PManagerLaws M}.
Context (alloc : gmap Z M -> Z).
Hypothesis alloc_fresh : forall h, h !! alloc h = None.
Hypothesis alloc_nonnull : forall h, alloc h <> 0.

Definition live (n : @net M) (a : Z) : Prop := a <> 0 -> is_Some (kind n a).

(** What a viewer does to the shared managers, [hs] being the other holds: it ends
    with the hold its [mP2p] shows, holds may be left behind, and no other
    viewer's older manager is touched. *)
Record vstep (n n' : @net M) (j j' : ja) (hs : list Z) : Prop := mkVstep {
  vs_holds : exists left, Sharing n' (held n' (mP2p (ses j')) ++ left ++ hs);
  vs_live : live n' (mP2p (ses j'));
  vs_keeps b : b <> 0 -> b <> mP2p (ses j) -> kind n b = Some UDX_P2P -> kind n' b = Some UDX_P2P;
  vs_own : mP2p (ses j') = 0 \/ mP2p (ses j') = mP2p (ses j) \/ not_UDX n (mP2p (ses j'))
}.

Definition Before (n : @net M) (j : ja) (hs : list Z) : Prop :=
  Sharing n (held n (mP2p (ses j)) ++ hs) /\ live n (mP2p (ses j)).

Lemma vstep_same_p2p n j j' hs :
  Before n j hs -> mP2p (ses j') = mP2p (ses j) -> vstep n n j j' hs.
Proof.
  intros [HS HL] E; split; rewrite ?E; [by exists []|done|done|auto].
Qed.

Lemma vstep_call {A} n j j' hs a (f : M -> outcome (M * A)) n' r :
  Before n j hs -> mcall_o n a f = Done (n', r) ->
  (forall m m' r, f m = Done (m', r) -> mstep m m') ->
  mP2p (ses j') = mP2p (ses j) -> vstep n n' j j' hs.
Proof.
  intros [HS HL] HC Hf E; destruct (Sharing_call _ _ _ _ _ _ HS HC Hf) as [HS' HK].
  split; rewrite ?E, ?(held_kind _ _ _ HK).
  - by exists [].
  - unfold live; rewrite HK; exact HL.
  - intros b _ _ Hb; by rewrite HK.
  - auto.
Qed.

Lemma vstep_trans n1 n2 n3 j1 j2 j3 hs :
  vstep n1 n2 j1 j2 hs ->
  (forall hs', Before n2 j2 hs' -> vstep n2 n3 j2 j3 hs') -> vstep n1 n3 j1 j3 hs.
Proof.
  intros [(l1 & H1) L1 K1 O1] Hn; destruct (Hn (l1 ++ hs)) as [(l2 & H2) L2 K2 O2]; [by split|].
  split; [exists (l2 ++ l1); by rewrite <- app_assoc|done| |].
  - intros b N0 N Hb; apply K2; [done| |by apply K1].
    intros ->; destruct O1 as [E|[E|E]]; congruence.
  - destruct O2 as [E|[E|E]]; [auto|rewrite E; exact O1|].
    destruct (decide (mP2p (ses j3) = 0)) as [?|N0]; [auto|].
    destruct (decide (mP2p (ses j3) = mP2p (ses j1))) as [?|N1]; [auto|].
    right; right; intros Hb; by apply E, K1.
Qed.

Lemma vstep_disconnect n j cmd n' j' hs :
  Before n j hs -> JA.DoDisconnect n j cmd = Done (n', j') -> vstep n n' j j' hs.
Proof.
  intros [HS HL] HD; destruct (disconnect_shared _ _ _ _ _ _ HS HL HD) as (HS' & HL' & _).
  destruct (keeps_disconnect _ _ _ _ _ HD) as [HK HO].
  split; [by exists []|done| |naive_solver].
  intros b _ N; auto.
Qed.

Lemma vstep_reconnect n j this n' j' ret hs :
  Before n j hs -> ReConnect alloc n j this = Done (n', j', ret) -> vstep n n' j j' hs.
Proof.
  intros [HS HL] HR; destruct (reconnect_shared alloc alloc_fresh alloc_nonnull _ _ _ _ _ _ _ HS HR) as [HS' HL'].
  destruct (keeps_reconnect alloc alloc_fresh _ _ _ _ _ _ HR) as [HK HO].
  split; [by exists (held n (mP2p (ses j)))|done| |naive_solver].
  intros b _ _; auto.
Qed.

Lemma Before_keep n j j' hs : Before n j hs -> mP2p (ses j') = mP2p (ses j) -> Before n j' hs.
Proof. intros HB E; unfold Before; by rewrite E. Qed.

(** Changes of a viewer that leave [mP2p] alone, before or after a step. *)
Lemma vstep_pre n n' j j0 j' hs :
  mP2p (ses j0) = mP2p (ses j) -> vstep n n' j0 j' hs -> vstep n n' j j' hs.
Proof. intros E [? ? ? ?]; split; [done|done|by rewrite <- E|by rewrite <- E]. Qed.
Lemma vstep_post n n' j j0 j' hs :
  mP2p (ses j') = mP2p (ses j0) -> vstep n n' j j0 hs -> vstep n n' j j' hs.
Proof. intros E [? ? ? ?]; by split; rewrite ?E. Qed.

(** *** The commands *)

Ltac mstep_tac := first [apply mcall_step; constructor |
  let Hf := fresh in intros ? ? ? Hf; cbv beta in Hf; econstructor; exact Hf].
Ltac by_call E := eapply vstep_call; [eassumption|exact E|mstep_tac|].
Ltac p2p_same := repeat (unfold DoStatus, JA.DecoderPause, JA.DecoderResume; simpl; case_bool; simpl); done.

Lemma vstep_connected n j j' hs (f : M -> M * Z) n' r :
  Before n j hs -> connected_call n j f = Done (n', j', r) -> (forall m, mstep m (f m).1) ->
  vstep n n' j j' hs.
Proof.
  intros HB HC Hf; unfold connected_call in HC; destruct (negb _).
  - by simplify_eq; apply vstep_same_p2p.
  - obinv HC; destruct v; simplify_eq; eapply vstep_call; [done|exact E|by apply mcall_step|done].
Qed.

Lemma vstep_open n j this c b n' j' r hs :
  Before n j hs -> DoOpenChannel n j this c b = Done (n', j', r) -> vstep n n' j j' hs.
Proof.
  intros HB HC; unfold DoOpenChannel in HC; destruct (mP2p (ses j) =? 0).
  - by simplify_eq; apply vstep_same_p2p.
  - cbv zeta in HC; obinv HC; destruct v as [n1 r1]; simplify_eq.
    assert (mP2p (ses (if negb (b =? 0) then set_ply (ResetBuffer j) (p_add (p_iframe (ply (ResetBuffer j)) false) true)
      else set_ply (JA.DecoderPause (ResetBuffer j)) (p_add (ply (JA.DecoderPause (ResetBuffer j))) false)))
      = mP2p (ses j)) as EP by (destruct (negb _); p2p_same).
    by_call E; rewrite DoStatus_ses by (destruct (negb _); done).
    rewrite <- EP; destruct (r =? 0), (negb (b =? 0)); p2p_same.
Qed.

Lemma fold_search_p2p rs j :
  ses (fold_left (fun j r => act j (ASearchData r)) rs j) = ses j.
Proof. revert j; induction rs as [|r rs IH]; intros j; simpl; [done|by rewrite IH]. Qed.

Lemma vstep_search fuel h : forall n j n' j' b hs,
  Before n j hs -> search_loop fuel n j h = Done (n', j', b) ->
  vstep n n' j j' hs /\ mP2p (ses j') = mP2p (ses j).
Proof.
  induction fuel as [|fuel IH]; intros n j n' j' b hs HB HC; simpl in HC; [done|].
  destruct (_ || _); [by simplify_eq; split; [apply vstep_same_p2p|]|].
  obinv HC; destruct v as [n1 recs].
  assert (vstep n n1 j j hs) as HV by (by by_call E).
  assert (HS : forall hs', Before n1 j hs' -> vstep n1 n' j j' hs' /\ mP2p (ses j') = mP2p (ses j)).
  { intros hs' HB'; destruct recs as [[|r rs]|];
      [by simplify_eq; split; [apply vstep_same_p2p|]| |by simplify_eq; split; [apply vstep_same_p2p|]].
    destruct (IH _ _ _ _ _ hs' (Before_keep _ _ _ _ HB' (f_equal mP2p (fold_search_p2p (r :: rs) j))) HC) as [HV' E'].
    rewrite fold_search_p2p in E'; split; [|done].
    eapply vstep_pre; [|exact HV']; by rewrite fold_search_p2p. }
  split; [by eapply vstep_trans; [exact HV|apply HS]|].
  destruct HV as [(l & HS1) HL _ _]; by apply (HS (l ++ hs)).
Qed.

Lemma vstep_searchrec fuel n j c n' j' r hs :
  Before n j hs -> DoSearchRec fuel n j c = Done (n', j', r) -> vstep n n' j j' hs.
Proof.
  intros HB HC; unfold DoSearchRec in HC; destruct (negb _); [by simplify_eq; apply vstep_same_p2p|].
  obinv HC; destruct v as [n1 h]; assert (vstep n n1 j j hs) as HV by (by by_call E).
  destruct (h =? 0); [by simplify_eq|]; obinv HC; destruct v as [[n2 j2] fin].
  eapply vstep_trans; [exact HV|]; intros hs1 HB1; destruct (vstep_search _ _ _ _ _ _ _ _ HB1 E0) as [HV2 E2].
  destruct (negb fin); [by simplify_eq|]; obinv HC; destruct v as [n3 r3]; simplify_eq.
  eapply vstep_trans; [exact HV2|]; intros hs2 HB2; by by_call E1.
Qed.

Lemma vstep_startplay n j this c n' j' r hs :
  Before n j hs -> DoStartPlayback n j this c = Done (n', j', r) -> vstep n n' j j' hs.
Proof.
  intros HB HC; unfold DoStartPlayback in HC; cbv zeta in HC; destruct (_ || _).
  - by simplify_eq; apply vstep_same_p2p.
  - obinv HC; destruct v as [n1 h]; destruct (negb _); simplify_eq; by_call E; p2p_same.
Qed.

Lemma vstep_stopplay n j n' j' r hs :
  Before n j hs -> DoStopPlayback n j = Done (n', j', r) -> vstep n n' j j' hs.
Proof.
  intros HB HC; unfold DoStopPlayback in HC; obinv HC; destruct v as [n1 j1]; simplify_eq.
  eapply vstep_post; [by rewrite DoStatus_ses|].
  destruct (_ && _); [|by simplify_eq; apply vstep_same_p2p].
  obinv E; destruct v; simplify_eq; by_call E0; p2p_same.
Qed.

Lemma vstep_connect n j this c n' j' r hs :
  Before n j hs -> DoConnect alloc n j this c = Done (n', j', r) -> vstep n n' j j' hs.
Proof.
  intros HB HC; unfold DoConnect in HC; obinv HC; destruct v as [n1 j1].
  assert (vstep n n1 j j1 hs) as HV.
  { destruct (_ =? _); [|by simplify_eq; apply vstep_same_p2p].
    obinv E; destruct v as [n2 j2]; simplify_eq.
    eapply vstep_post; [|eapply vstep_disconnect; [exact HB|exact E0]]; done. }
  obinv HC; eapply vstep_trans; [exact HV|]; intros hs1 HB1.
  eapply vstep_pre; [|eapply vstep_reconnect; [|exact HC]]; [done|by eapply Before_keep].
Qed.

(** The remaining commands: tests that return early, then one call. *)
Ltac one_call HB E :=
  unfold DoPlaybackPauseGetData, DoPlaybackContinueGetdata, DoSendData, DoSendAudioPacket, DoSearchDevice in E;
  repeat match type of E with
  | (if ?b then _ else _) = _ => destruct b; [by simplify_eq; apply vstep_same_p2p|]
  | match ?o with Some _ => _ | None => _ end = _ => destruct o; [|done]
  end;
  first [ by simplify_eq; apply vstep_same_p2p
        | by eapply vstep_connected; [exact HB|exact E|constructor]
        | let E1 := fresh in apply obind_done in E as ([] & E1 & E); simplify_eq; by by_call E1 ].

Lemma vstep_exec fuel n j this c n' j' hs :
  Before n j hs -> exec alloc fuel n j this c = Done (n', j') -> vstep n n' j j' hs.
Proof.
  intros HB HC; unfold exec in HC; cbv zeta in HC.
  destruct (commandNo c =? CMD_CONNECT).
  { obinv HC; destruct v as [[] ?]; simplify_eq; by eapply vstep_connect. }
  destruct (commandNo c =? CMD_OPENCHANNEL).
  { obinv HC; destruct v as [[n1 j1] r1]; apply vstep_open with (hs := hs) in E; [|done].
    destruct (negb _); [|by simplify_eq]; obinv HC; destruct v as [[] ?]; simplify_eq.
    eapply vstep_trans; [exact E|]; intros hs1 HB1; by eapply vstep_reconnect. }
  repeat match type of HC with
  | (if ?b then _ else _) = _ => destruct b;
      [first [obinv HC; match goal with v : _ * _ * _ |- _ => destruct v as [[] ?]; simplify_eq end
             |idtac]|]
  end; try (by simplify_eq; apply vstep_same_p2p);
  first [by eapply vstep_open | by eapply vstep_searchrec | by eapply vstep_startplay
        |by eapply vstep_stopplay | by eapply vstep_disconnect
        |by eapply vstep_connected; [..|constructor]
        |match goal with E : _ = Done (_, _, _) |- _ => one_call HB E end].
Qed.
End Steps.

(** ** All the viewers *)

Section Coherence.
Context {M : Type} `{P2PManagerLaws M}.

(** The order of the holds does not matter. *)
#[global] Instance holds_Proper : Proper ((≡ₚ) ==> eq ==> eq) holds.
Proof.
  intros hs hs' Hp a ? <-; induction Hp as [|b hs hs' _ IH|b c hs|hs1 hs2 hs3 _ IH1 _ IH2].
  - done.
  - by rewrite !holds_cons, IH.
  - rewrite !holds_cons; lia.
  - congruence.
Qed.
#[global] Instance Sharing_Proper (n : @net M) : Proper ((≡ₚ) ==> iff) (Sharing n).
Proof.
  assert (HI : forall hs hs', hs ≡ₚ hs' -> Sharing n hs -> Sharing n hs').
  { intros hs hs' Hp [S1 S2 S3 S4 S5 S6]; split; [done|done| | | |]; intros a;
      pose proof (holds_Proper hs hs' Hp a a eq_refl) as E;
      pose proof (elem_of_Permutation_proper a _ _ Hp) as E'.
    - intros m; rewrite <- E; apply S3.
    - intros m; rewrite <- E; apply S4.
    - rewrite <- E'; apply S5.
    - rewrite <- E'; apply S6. }
  intros hs hs' Hp; split; apply HI; done.
Qed.

(** The managers [ps] of the viewers: the use counts cover their holds, the rest
    having been left behind; each is alive; an older one has a single viewer. *)
Record Coherent (n : @net M) (ps : list Z) : Prop := mkCoherent {
  co_holds : exists left, Sharing n (concat (map (held n) ps) ++ left);
  co_live a : a ∈ ps -> live n a;
  co_single i k a : ps !! i = Some a -> ps !! k = Some a -> i <> k -> a <> 0 -> not_UDX n a
}.

Lemma held_cases (n : @net M) a :
  live n a -> a <> 0 ->
  (kind n a = Some UDX_P2P /\ held n a = []) \/
  (exists v, kind n a = Some v /\ v <> UDX_P2P /\ held n a = [a]).
Proof.
  intros HL Ha; destruct (HL Ha) as [v Hv]; unfold held; rewrite Hv.
  apply Z.eqb_neq in Ha as ->; destruct (Z.eqb_spec v UDX_P2P) as [->|N]; eauto.
Qed.

(** The managers [l] of the other viewers keep their kind. *)
Definition undisturbed (n n' : @net M) (l : list Z) : Prop :=
  forall a, a ∈ l -> a <> 0 ->
    (kind n a = Some UDX_P2P -> kind n' a = Some UDX_P2P) /\
    (not_UDX n a -> exists v, kind n' a = Some v /\ v <> UDX_P2P).

Lemma undisturbed_held (n n' : @net M) l a :
  undisturbed n n' l -> a ∈ l -> live n a -> held n' a = held n a.
Proof.
  intros HU Ha HL; destruct (decide (a = 0)) as [->|N]; [done|]; destruct (HU a Ha N) as [H1 H2].
  destruct (held_cases n a HL N) as [[Eu ->]|(v & Ev & Nv & ->)]; unfold held; apply Z.eqb_neq in N as ->.
  - by rewrite (H1 Eu).
  - destruct H2 as (w & -> & Nw); [unfold not_UDX; congruence|]; by apply Z.eqb_neq in Nw as ->.
Qed.
Lemma undisturbed_live (n n' : @net M) l a : undisturbed n n' l -> a ∈ l -> live n a -> live n' a.
Proof.
  intros HU Ha HL N; destruct (HU a Ha N) as [H1 H2].
  destruct (held_cases n a HL N) as [[Eu _]|(v & Ev & Nv & _)]; [rewrite (H1 Eu); by eexists|].
  destruct H2 as (w & -> & _); [unfold not_UDX; congruence|by eexists].
Qed.

Definition others (ps : list Z) (i : nat) : list Z := take i ps ++ drop (S i) ps.
Lemma others_elem ps i a : a ∈ others ps i <-> exists k, k <> i /\ ps !! k = Some a.
Proof.
  unfold others; rewrite elem_of_app; split.
  - intros [Ha|Ha]; apply list_elem_of_lookup in Ha as [k Hk].
    + rewrite lookup_take_Some in Hk; exists k; split; [lia|apply Hk].
    + rewrite lookup_drop in Hk; exists (S i + k)%nat; split; [lia|done].
  - intros (k & N & Hk); destruct (decide (k < i)%nat).
    + left; apply list_elem_of_lookup; exists k; rewrite lookup_take_Some; split; [done|lia].
    + right; apply list_elem_of_lookup; exists (k - S i)%nat; rewrite lookup_drop.
      by replace (S i + (k - S i))%nat with k by lia.
Qed.

(** Moving the held managers of slot [i] to the front. *)
Lemma Sharing_front (n : @net M) (h : Z -> list Z) (ps qs x left : list Z) :
  Sharing n (concat (map h ps ++ x :: map h qs) ++ left) <-> Sharing n (x ++ concat (map h (ps ++ qs)) ++ left).
Proof.
  rewrite map_app, !concat_app; cbn [concat]; split; apply Sharing_Proper; solve_Permutation.
Qed.

Lemma vstep_undisturbed n n' j j' ps i left :
  ps !! i = Some (mP2p (ses j)) -> Coherent n ps ->
  vstep n n' j j' (concat (map (held n) (others ps i)) ++ left) -> undisturbed n n' (others ps i).
Proof.
  intros Hi [_ HL HX] [(left' & HS) _ HK _] a Ha N.
  pose proof Ha as (k & Nk & Hk)%others_elem; split.
  - intros Eu; apply HK; [done| |done]; intros ->; by apply (HX k i _ Hk Hi).
  - intros HU; assert (HLa : live n a) by (by eapply HL, list_elem_of_lookup_2).
    destruct (held_cases n a HLa N) as [[E _]|(v & Ev & Nv & Eh)]; [done|].
    destruct (sh_live _ _ HS a) as (m & Hm & Hv).
    + rewrite !elem_of_app; right; right; left; apply list_elem_of_In, in_concat.
      exists (held n a); split; [apply in_map; by apply list_elem_of_In|rewrite Eh; by left].
    + exists (GetP2PVersion m); unfold kind; by rewrite Hm.
Qed.

Lemma Coherent_step n n' j j' ps i :
  ps !! i = Some (mP2p (ses j)) -> Coherent n ps ->
  (forall hs, Before n j hs -> vstep n n' j j' hs) ->
  Coherent n' (<[i := mP2p (ses j')]> ps).
Proof.
  intros Hi HC HV; pose proof HC as [(left & HS) HL HX].
  rewrite <- (take_drop_middle _ _ _ Hi), map_app in HS; cbn [map] in HS.
  apply Sharing_front in HS; fold (others ps i) in HS.
  specialize (HV _ (conj HS (HL _ (list_elem_of_lookup_2 _ _ _ Hi)))).
  pose proof (vstep_undisturbed _ _ _ _ _ _ _ Hi HC HV) as HU; destruct HV as [(left' & HS2) HL' _ HO].
  assert (Hout : forall a, a ∈ others ps i -> live n a).
  { intros a (k & _ & Hk)%others_elem; by eapply HL, list_elem_of_lookup_2. }
  assert (Ei : <[i := mP2p (ses j')]> ps = take i ps ++ mP2p (ses j') :: drop (S i) ps)
    by (apply insert_take_drop; by apply lookup_lt_Some in Hi).
  split.
  - exists (left' ++ left); rewrite Ei, map_app; cbn [map]; apply Sharing_front; fold (others ps i).
    replace (map (held n') (others ps i)) with (map (held n) (others ps i)).
    + revert HS2; apply Sharing_Proper; solve_Permutation.
    + apply map_ext_in; intros a Ha%list_elem_of_In; symmetry; by eapply undisturbed_held; auto.
  - intros a Ha; rewrite Ei in Ha; destruct (decide (a = mP2p (ses j'))) as [->|Np]; [done|].
    assert (Ha' : a ∈ others ps i) by (unfold others; set_solver); by eapply undisturbed_live; auto.
  - assert (HN : forall a k, k <> i -> ps !! k = Some a -> a <> 0 -> not_UDX n a -> not_UDX n' a).
    { intros a k Nk Hk N HUa; destruct (HU a) as [_ H2]; [apply others_elem; eauto|done|].
      destruct (H2 HUa) as (w & Ew & Nw); unfold not_UDX; congruence. }
    assert (HP : forall k, k <> i -> ps !! k = Some (mP2p (ses j')) -> mP2p (ses j') <> 0 -> not_UDX n (mP2p (ses j'))).
    { intros k Nk Hk N; destruct HO as [?|[E|?]]; [done| |done]; rewrite E in *; by apply (HX k i). }
    intros k1 k2 a H1 H2 N12 N; apply list_lookup_insert_Some in H1, H2.
    destruct H1 as [(<- & <- & _)|[N1 H1]], H2 as [(<- & E2 & _)|[N2 H2]]; [done| | |].
    + apply (HN _ k2); [done..|]; by apply (HP k2).
    + subst a; apply (HN _ k1); [done..|]; by apply (HP k1).
    + apply (HN _ k1); [done..|]; by apply (HX k1 k2).
Qed.
End Coherence.

(** ** The system *)

Section System.
Context {M : Type} `{P2PManagerLaws M}.
Context (alloc : gmap Z M -> Z).
(** The address of the viewer of slot [i], and the bound on search batches. *)
Context (addr : Z -> Z) (fuel : nat).

(** The public methods that change the table. *)
Inductive op :=
| OConnect (connectstr verifystr : cstr) (i channel : Z)
| ODisconnect (i : Z) | ODoDisconnect (i : Z)
| OOpen (bitrate channel i : Z) | OClose (bitrate channel i : Z)
| OSend (d : cstr) (i : Z) | OPause (channel i : Z) | OResume (channel i : Z)
| OPtz (type_ channel i : Z) | OStopPtz (channel i : Z)
| OSearch (s e channel i : Z) | OStart (s channel i : Z) | OStop (channel i : Z)
| OPlayPause (channel i : Z) | OPlayContinue (channel i : Z)
| OAlarm (type_ channel time i : Z) | ODecPause (i : Z) | ODecResume (i : Z)
| OSearchDevice | OHardware (b : bool) (i w h : Z) | OIFrame (b : bool) (i : Z)
| OCrop (b : bool) (i : Z) | OZone (zone : spec_float) (i : Z)
| OLivePause | OLiveResume | ODirect (b : bool)
| OCall (channel i : Z) | OHangUp (i : Z) | OTalk (d : cstr) (i : Z).

Definition drop_r {A} (r : outcome (@mgr M * A)) : outcome (@mgr M) := let* '(g, _) := r in Done g.
Definition apply_op (g : @mgr M) (o : op) : outcome (@mgr M) :=
  match o with
  | OConnect c v i ch => drop_r (Connect g c v i ch)
  | ODisconnect i => Disconnect g i
  | ODoDisconnect i => DoDisconnect g i
  | OOpen b ch i => OpenChannel g b ch i
  | OClose b ch i => CloseChannel g b ch i
  | OSend d i => SendData g d i
  | OPause ch i => PausePlayback g ch i
  | OResume ch i => ResumePlayback g ch i
  | OPtz t ch i => PtzCtrl g t ch i
  | OStopPtz ch i => StopPTZ g ch i
  | OSearch s e ch i => SearchRec g s e ch i
  | OStart s ch i => StartPlayback g s ch i
  | OStop ch i => StopPlayback g ch i
  | OPlayPause ch i => PlaybackPauseGetData g ch i
  | OPlayContinue ch i => PlaybackContinueGetData g ch i
  | OAlarm t ch k i => PullAlarmmsg g t ch k i
  | ODecPause i => DecoderPause g i
  | ODecResume i => DecoderResume g i
  | OSearchDevice => SearchDevice g
  | OHardware b i w h => SetHardwareDecoder g b i w h
  | OIFrame b i => setOnlyDecoderIFrame g b i
  | OCrop b i => if b then EnableCrop g i else DisableCrop g i
  | OZone z i => SetTimeZone g z i
  | OLivePause => LivePause g
  | OLiveResume => LiveResume g
  | ODirect b => UseDirectTexture g b
  | OCall ch i => drop_r (Call g ch i)
  | OHangUp i => drop_r (HangUp g i)
  | OTalk d i => drop_r (SendAudioPacket g d i)
  end.

Lemma drop_r_done {A} (r : outcome (@mgr M * A)) g : drop_r r = Done g -> exists a, r = Done (g, a).
Proof. unfold drop_r; intros HC; obinv HC; destruct v; simplify_eq; eauto. Qed.

(** A step on the viewer of slot [i] and the shared managers. *)
Definition on_viewer (g : @mgr M) (i : Z) (f : @net M -> ja -> outcome (@net M * ja)) : outcome (@mgr M) :=
  let* s := at_ g i in
  match conn s with
  | None => Done g
  | Some v =>
      let* '(n, j) := f (g_net g) (core v) in
      Done (set_net (put g i (set_conn s (set_core v j))) n)
  end.

(** What runs: the application's calls, the viewers' task threads, the threads
    spawned to disconnect, and the peer-to-peer layer's disconnect and data
    callbacks. *)
Inductive event :=
| EvCall (o : op)
| EvTask (i : Z)
| EvDisconnectThread (i : Z)
| EvOnDisconnect (i ret : Z)
| EvOnVconRecv (i : Z) (buf : cstr).

Definition sys_step (g : @mgr M) (e : event) : outcome (@mgr M) :=
  match e with
  | EvCall o => apply_op g o
  | EvTask i => on_viewer g i (fun n j => task_step alloc fuel n j (addr i))
  | EvDisconnectThread i => on_viewer g i (fun n j => JA.DoDisconnect n j true)
  | EvOnDisconnect i ret => on_viewer g i (fun n j => let* j := OnDisconnect j ret in Done (n, j))
  | EvOnVconRecv i buf => on_viewer g i (fun n j => let* j := OnVconRecv j buf in Done (n, j))
  end.

Inductive reach (g0 : @mgr M) : @mgr M -> Prop :=
| reach_start : reach g0 g0
| reach_step g e g' : reach g0 g -> sys_step g e = Done g' -> reach g0 g'.

(** *** The table's form *)

Definition p2p_of (s : slot) : Z := match conn s with Some v => mP2p (ses (core v)) | None => 0 end.
Definition managers (g : @mgr M) : list Z := map p2p_of (_connector g).

(** 36 slots, each used slot knowing its index. *)
Definition Table (l : list slot) : Prop :=
  zlen l = MAX_CONN /\ forall i s, znth l i = Some s -> conn s <> None -> index s = i.

(** A change of slots that leaves the managers alone and keeps the form. *)
Definition step_slot (i : Z) (s s' : slot) : Prop :=
  p2p_of s' = p2p_of s /\
  (conn s' <> None -> index s' = i \/ (conn s <> None /\ index s' = index s)).
Definition quiet (l l' : list slot) : Prop :=
  zlen l' = zlen l /\ forall i s', znth l' i = Some s' -> exists s, znth l i = Some s /\ step_slot i s s'.

Lemma step_slot_refl i s : step_slot i s s.
Proof. by split; [|right]. Qed.
Lemma quiet_refl l : quiet l l.
Proof. split; [done|intros i s; exists s; auto using step_slot_refl]. Qed.

Lemma quiet_table l l' : quiet l l' -> Table l -> Table l'.
Proof.
  intros [Hl Hq] [Hz Ht]; split; [congruence|intros i s' Hs Hc].
  destruct (Hq i s' Hs) as (s & Hs0 & _ & Hi); destruct (Hi Hc) as [|[Hc0 ->]]; [done|by apply Ht].
Qed.

Lemma quiet_managers l l' : quiet l l' -> map p2p_of l' = map p2p_of l.
Proof.
  intros [Hl Hq]; apply list_eq; intros k; rewrite !list_lookup_fmap.
  destruct (l' !! k) as [s'|] eqn:E'.
  - destruct (Hq (Z.of_nat k) s') as (s & Es & Hp & _);
      [unfold znth; replace (Z.of_nat k <? 0) with false by lia; by rewrite Nat2Z.id|].
    unfold znth in Es; replace (Z.of_nat k <? 0) with false in Es by lia; rewrite Nat2Z.id in Es.
    by rewrite Es; simpl; rewrite Hp.
  - apply lookup_ge_None in E'; rewrite lookup_ge_None_2; [done|unfold zlen in *; lia].
Qed.

Lemma at_done (g : @mgr M) i s :
  at_ g i = Done s -> znth (_connector g) i = Some s /\ 0 <= i < zlen (_connector g).
Proof.
  unfold at_; destruct (znth _ i) eqn:E; [|done]; intros [= ->]; split; [done|].
  unfold znth in E; destruct (i <? 0) eqn:N; [done|].
  apply lookup_lt_Some in E; unfold zlen; lia.
Qed.

Lemma znth_zset {A} (l : list A) i x k y :
  0 <= i < zlen l -> znth (zset l i x) k = Some y ->
  (k = i /\ y = x) \/ (k <> i /\ znth l k = Some y).
Proof.
  unfold znth, zset, zlen; intros Hi; destruct (k <? 0) eqn:Ek; [done|].
  replace (i <? 0) with false by lia; intros Hy.
  apply list_lookup_insert_Some in Hy as [(E & -> & _)|[N Hy]]; [left|right]; split; try done; lia.
Qed.

Lemma quiet_put (g : @mgr M) i s s' :
  at_ g i = Done s -> step_slot i s s' -> quiet (_connector g) (_connector (put g i s')).
Proof.
  intros (Hs & Hi)%at_done Hq; simpl; split; [unfold zlen; by rewrite zset_length|intros k y Hy].
  destruct (znth_zset _ _ _ _ _ Hi Hy) as [[-> ->]|[N Hk]]; eauto using step_slot_refl.
Qed.

(** A call on a viewer that leaves its manager alone. *)
Definition own (f : viewer -> outcome viewer) : Prop :=
  forall v v', f v = Done v' -> mP2p (ses (core v')) = mP2p (ses (core v)).

Lemma step_slot_conn i s v v' :
  conn s = Some v -> mP2p (ses (core v')) = mP2p (ses (core v)) -> step_slot i s (set_conn s v').
Proof. intros E Ev; split; [unfold p2p_of; simpl; by rewrite E|intros _; right; simpl; rewrite E; done]. Qed.

Lemma guarded_quiet (g g' : @mgr M) i f :
  own f -> guarded g i f = Done g' ->
  g_net g' = g_net g /\ quiet (_connector g) (_connector g').
Proof.
  intros Hf HC; unfold guarded in HC; destruct (out_of_range i); [simplify_eq; auto using quiet_refl|].
  obinv HC; destruct (conn v) as [w|] eqn:Ec; [|simplify_eq; auto using quiet_refl].
  obinv HC; simplify_eq; split; [done|]; eapply quiet_put; [exact E|].
  eapply step_slot_conn; eauto.
Qed.
Lemma unguarded_quiet (g g' : @mgr M) i f :
  own f -> unguarded g i f = Done g' ->
  g_net g' = g_net g /\ quiet (_connector g) (_connector g').
Proof.
  intros Hf HC; apply (guarded_quiet g g' i f Hf).
  unfold unguarded, guarded in *; destruct (out_of_range i); [done|]; obinv HC; rewrite E; simpl.
  by destruct (conn v).
Qed.

Lemma each_quiet f l l' :
  own f -> each f l = Done l' -> Forall2 (fun s s' => forall i, step_slot i s s') l l'.
Proof.
  intros Hf; revert l'; induction l as [|s l IH]; intros l' HC; cbn [each] in HC; [simplify_eq; constructor|].
  obinv HC; simplify_eq; constructor; [|by apply IH]; intros i.
  destruct (conn s) as [w|] eqn:Ec; [|simplify_eq; apply step_slot_refl].
  obinv E; simplify_eq; eapply step_slot_conn; eauto.
Qed.
Lemma loop_quiet (g g' : @mgr M) f :
  own f -> loop g f = Done g' -> g_net g' = g_net g /\ quiet (_connector g) (_connector g').
Proof.
  intros Hf HC; unfold loop in HC; obinv HC; simplify_eq; split; [done|].
  pose proof (each_quiet _ _ _ Hf E) as HF; split.
  - unfold zlen; simpl; f_equal; symmetry; by eapply Forall2_length.
  - intros i s' Hs; simpl in Hs; unfold znth in *; destruct (i <? 0); [done|].
    destruct (Forall2_lookup_r _ _ _ _ _ HF Hs) as (s & Hs0 & Hq); eauto.
Qed.

Lemma AddCommand_ses j c j' : AddCommand j c = Done j' -> ses j' = ses j.
Proof. unfold AddCommand; intros HC; obinv HC; by simplify_eq. Qed.
Lemma own_core f : (forall j j', f j = Done j' -> ses j' = ses j) -> own (on_core f).
Proof. intros Hf v v' HC; unfold on_core in HC; obinv HC; simplify_eq; simpl; by rewrite (Hf _ _ E). Qed.
Lemma own_opts f : own (set_opts f).
Proof. intros v v' HC; unfold set_opts in HC; by simplify_eq. Qed.

(** The public methods of a viewer only queue commands. *)
Ltac queued := intros ? ? HQ; cbv beta in HQ;
  unfold JA.StartPlayback, JA.OpenChannel, JA.CloseChannel, JA.StopPlayback, JA.Connect,
    JA.PlaybackPauseGetData, JA.PlaybackContinueGetData, JA.CtrlPTZ, JA.StopPTZ, JA.SendData,
    JA.SearchRec, JA.PullAlarmmsg, JA.Disconnect, JA.SearchDevice, JA.DestroyVcon in HQ;
  repeat (first
    [ match type of HQ with (if ?b then _ else _) = _ => destruct b end
    | progress obinv HQ ]);
  repeat match goal with
  | E : (if ?b then _ else _) = Done _ |- _ => destruct b
  | E : AddCommand _ _ = Done _ |- _ => apply AddCommand_ses in E; simpl in E
  | E : Done _ = Done _ |- _ => injection E as <-
  end; simpl in *; congruence.

Lemma OpenChannel_ses ch st j j' : JA.OpenChannel j ch st = Done j' -> ses j' = ses j.
Proof. revert j j'; queued. Qed.
Lemma StartPlayback_ses s ch j j' : JA.StartPlayback j s ch = Done j' -> ses j' = ses j.
Proof. revert j j'; queued. Qed.
Lemma JConnect_ses c v ch j j' : JA.Connect j c v ch = Done j' -> ses j' = ses j.
Proof. revert j j'; queued. Qed.
Lemma JPause_ses j : ses (JA.DecoderPause j) = ses j.
Proof. unfold JA.DecoderPause; by case_bool. Qed.
Lemma JResume_ses j : ses (JA.DecoderResume j) = ses j.
Proof. unfold JA.DecoderResume; by case_bool. Qed.

Lemma connect_quiet (g : @mgr M) c v i ch g' b :
  Connect g c v i ch = Done (g', b) -> g_net g' = g_net g /\ quiet (_connector g) (_connector g').
Proof.
  intros HC; unfold Connect in HC; destruct (out_of_range i); [simplify_eq; auto using quiet_refl|].
  obinv HC; destruct (conn v0) as [w|] eqn:Ec; obinv HC; simplify_eq; (split; [done|]);
    (eapply quiet_put; [exact E|]); apply JConnect_ses in E0; simpl in E0;
    (split; [unfold p2p_of; simpl; rewrite Ec, E0; done|simpl; rewrite Ec; auto]).
Qed.

(** Every public method but the three that call the manager directly. *)
Lemma op_quiet (g g' : @mgr M) o :
  apply_op g o = Done g' ->
  match o with OCall _ _ | OHangUp _ | OTalk _ _ => True
  | _ => g_net g' = g_net g /\ quiet (_connector g) (_connector g') end.
Proof.
  intros HC; destruct o; cbn [apply_op] in HC; try exact I;
    try (eapply guarded_quiet; [|exact HC]; apply own_core; queued);
    try (eapply unguarded_quiet; [|exact HC]; apply own_core; queued);
    try (eapply guarded_quiet; [|exact HC]; apply own_core; intros ? ? [= <-];
         rewrite ?JPause_ses, ?JResume_ses; done);
    try (eapply guarded_quiet; [|exact HC]; apply own_opts);
    try (eapply loop_quiet; [|exact HC]; first [apply own_opts|apply own_core; queued]).
  - apply drop_r_done in HC as [b E]; by eapply connect_quiet.
  - eapply guarded_quiet; [|exact HC]; intros v v' Hv; destruct b; by injection Hv as <-.
  - destruct b; (eapply unguarded_quiet; [|exact HC]; apply own_opts).
  - unfold SetTimeZone in HC; destruct (_ || _); [simplify_eq; auto using quiet_refl|].
    obinv HC; destruct (conn v) as [w|] eqn:Ec; [|simplify_eq; auto using quiet_refl].
    obinv HC; simplify_eq; split; [done|]; eapply quiet_put; [exact E|].
    eapply step_slot_conn; [exact Ec|]; exact (own_opts _ _ _ E0).
Qed.

(** *** The invariant *)

Hypothesis alloc_fresh : forall h, h !! alloc h = None.
Hypothesis alloc_nonnull : forall h, alloc h <> 0.

Definition Inv (g : @mgr M) : Prop := Table (_connector g) /\ Coherent (g_net g) (managers g).

Lemma Inv_quiet (g g' : @mgr M) :
  g_net g' = g_net g -> quiet (_connector g) (_connector g') -> Inv g -> Inv g'.
Proof.
  intros En Hq [HT HC]; split; [by eapply quiet_table|].
  unfold managers; by rewrite En, (quiet_managers _ _ Hq).
Qed.

(** One viewer moves, with the shared managers. *)
Lemma Inv_viewer (g : @mgr M) i s v n j :
  at_ g i = Done s -> conn s = Some v -> Inv g ->
  (forall hs, Before (g_net g) (core v) hs -> vstep (g_net g) n (core v) j hs) ->
  Inv (set_net (put g i (set_conn s (set_core v j))) n).
Proof.
  intros Ha Ec [HT HC] HV; destruct (at_done _ _ _ Ha) as [Hs Hi].
  assert (Hk : managers g !! Z.to_nat i = Some (mP2p (ses (core v)))).
  { unfold managers, znth in *; replace (i <? 0) with false in Hs by lia.
    by rewrite list_lookup_fmap, Hs; simpl; unfold p2p_of; rewrite Ec. }
  pose proof (Coherent_step _ _ _ _ _ _ Hk HC HV) as HC'; split; simpl.
  - split; [unfold zlen in *; rewrite zset_length; apply HT|intros k y Hy Hc].
    destruct (znth_zset _ _ _ _ _ Hi Hy) as [[-> ->]|[N Hk']].
    + simpl; apply HT; [done|by rewrite Ec].
    + by apply HT.
  - assert (managers (set_net (put g i (set_conn s (set_core v j))) n) =
            <[Z.to_nat i := mP2p (ses j)]> (managers g)) as ->; [|exact HC'].
    unfold managers, set_net, put, zset; cbn [_connector]; replace (i <? 0) with false by lia.
    exact (list_fmap_insert p2p_of (_connector g) (Z.to_nat i) (set_conn s (set_core v j))).
Qed.

Lemma vstep_task (n : @net M) j this n' j' hs :
  Before n j hs -> task_step alloc fuel n j this = Done (n', j') -> vstep n n' j j' hs.
Proof.
  intros HB HC; unfold task_step in HC; destruct (mCommand j) as [|c l].
  - by simplify_eq; apply vstep_same_p2p.
  - obinv HC; destruct (0 <? commandNo c); [|by simplify_eq; apply vstep_same_p2p].
    eapply vstep_pre; [|eapply vstep_exec; [exact alloc_fresh|exact alloc_nonnull| |exact HC]]; [done|].
    by eapply Before_keep.
Qed.

Lemma OnDisconnect_p2p j ret j' : OnDisconnect j ret = Done j' -> mP2p (ses j') = mP2p (ses j).
Proof.
  unfold OnDisconnect; destruct (_ && _); [intros E; by injection E as <-|]; cbv zeta.
  match goal with |- context [if ?b then DoStatus j ?s ret else j] =>
    assert (ses (if b then DoStatus j s ret else j) = ses j) as E0
      by (destruct b; [by rewrite DoStatus_ses|done]);
    generalize dependent (if b then DoStatus j s ret else j); intros j0 E0 end.
  destruct (_ || _); [destruct (mAreadyConnected _)|];
    [intros E%JConnect_ses; by rewrite E, E0|intros E; injection E as <-; by rewrite E0..].
Qed.

Lemma viewer_step (g : @mgr M) i f g' :
  on_viewer g i f = Done g' -> Inv g ->
  (forall n j n' j' hs, Before n j hs -> f n j = Done (n', j') -> vstep n n' j j' hs) -> Inv g'.
Proof.
  intros HC HI Hf; unfold on_viewer in HC; obinv HC; destruct (conn v) as [w|] eqn:Ec; [|by simplify_eq].
  obinv HC; destruct v0 as [n j]; simplify_eq; eapply Inv_viewer; eauto.
Qed.

Lemma p2p_step (g : @mgr M) i out f g' r :
  p2p_call g i out f = Done (g', r) -> Inv g ->
  (forall n j n' j' r hs, Before n j hs -> f n j = Done (n', j', r) -> vstep n n' j j' hs) -> Inv g'.
Proof.
  intros HC HI Hf; unfold p2p_call in HC; destruct (out_of_range i); [by simplify_eq|].
  obinv HC; destruct (conn v) as [w|] eqn:Ec; [|by simplify_eq].
  obinv HC; destruct v0 as [[n j] r']; simplify_eq; eapply Inv_viewer; eauto.
Qed.

Lemma Inv_step (g g' : @mgr M) e : Inv g -> sys_step g e = Done g' -> Inv g'.
Proof.
  intros HI HC; destruct e as [o|i|i|i ret|i buf]; cbn [sys_step] in HC.
  - pose proof (op_quiet g g' o HC) as Hq.
    destruct o; try (destruct Hq; by eapply Inv_quiet); cbn [apply_op] in HC;
      apply drop_r_done in HC as [r E]; (eapply p2p_step; [exact E|done|]);
      intros n j n' j' r' hs HB HF.
    + eapply vstep_connected; [exact HB|exact HF|constructor].
    + eapply vstep_connected; [exact HB|exact HF|constructor].
    + cbv beta in HF; obinv HF; destruct v; simplify_eq.
      eapply vstep_call; [exact HB|exact E0|apply mcall_step; constructor|done].
  - eapply viewer_step; [exact HC|done|]; intros n j n' j' hs HB HF; exact (vstep_task _ _ _ _ _ _ HB HF).
  - eapply viewer_step; [exact HC|done|]; intros n j n' j' hs HB HF;
    exact (vstep_disconnect _ _ _ _ _ _ HB HF).
  - eapply viewer_step; [exact HC|done|]; intros n j n' j' hs HB HF; cbv beta in HF; obinv HF; simplify_eq.
    apply vstep_same_p2p; [done|by eapply OnDisconnect_p2p].
  - eapply viewer_step; [exact HC|done|]; intros n j n' j' hs HB HF; cbv beta in HF; obinv HF; simplify_eq.
    apply vstep_same_p2p; [done|]; unfold OnVconRecv, DestroyVcon in E; apply AddCommand_ses in E.
    by rewrite E.
Qed.

Lemma start_empty (n : @net M) s : s ∈ _connector (ConnectManager n) -> s = empty_slot.
Proof. intros Hs%list_elem_of_In; exact (repeat_spec _ _ _ Hs). Qed.

Lemma Inv_start (n : @net M) : Sharing n [] -> Inv (ConnectManager n).
Proof.
  intros HS; split.
  - split; [done|]; intros i s Hs Hc; exfalso; unfold znth in Hs; destruct (i <? 0); [done|].
    by apply list_elem_of_lookup_2, start_empty in Hs as ->.
  - assert (HZ : forall a, a ∈ managers (ConnectManager n) -> a = 0).
    { intros a Ha; unfold managers in Ha; apply list_elem_of_In, in_map_iff in Ha as (s & <- & Hs).
      by apply list_elem_of_In, start_empty in Hs as ->. }
    split.
    + exists []; rewrite app_nil_r; by replace (concat _) with ([] : list Z).
    + intros a ->%HZ N; done.
    + intros i k a Hi%list_elem_of_lookup_2%HZ _ _ N; done.
Qed.

Lemma holds_app hs hs' a : holds (hs ++ hs') a = (holds hs a + holds hs' a)%nat.
Proof. unfold holds; by rewrite List.filter_app, length_app. Qed.

Lemma holds_managers (n : @net M) ps a v :
  kind n a = Some v -> v <> UDX_P2P -> a <> 0 -> holds (concat (map (held n) ps)) a = holds ps a.
Proof.
  intros Hk Hv Ha; induction ps as [|p ps IH]; cbn [map concat]; [done|].
  rewrite holds_app, holds_cons, IH; f_equal; destruct (Z.eqb_spec p a) as [->|N].
  - unfold held; rewrite Hk; apply Z.eqb_neq in Ha as ->; apply Z.eqb_neq in Hv as ->.
    by rewrite holds_cons, Z.eqb_refl.
  - unfold held; destruct (p =? 0), (kind n p) as [w|]; try destruct (w =? UDX_P2P); try done.
    rewrite holds_cons; apply Z.eqb_neq in N as ->; done.
Qed.

Lemma holds_single ps a :
  a ∈ ps -> (forall i k, ps !! i = Some a -> ps !! k = Some a -> i = k) -> holds ps a = 1%nat.
Proof.
  intros (i & Hi)%list_elem_of_lookup Hu.
  rewrite <- (take_drop_middle _ _ _ Hi), holds_app, holds_cons, Z.eqb_refl.
  assert (HO : forall l, (forall k, l !! k = Some a -> False) -> holds l a = O).
  { intros l Hl; destruct (holds l a) eqn:E; [done|exfalso].
    assert (a ∈ l) as (k & Hk)%list_elem_of_lookup by (apply holds_elem; lia); by eapply Hl. }
  rewrite !HO; [done| |]; intros k Hk.
  - rewrite lookup_drop in Hk; pose proof (Hu _ _ Hi Hk); lia.
  - apply lookup_take_Some in Hk as [Hk ?]; pose proof (Hu _ _ Hi Hk); lia.
Qed.

(** C4: no viewer's manager is ever freed under it.  From an empty table, after
    any interleaving of the application's calls, the viewers' task threads, the
    disconnect threads and the disconnect callbacks, every manager a viewer holds
    is alive, a shared one counts at least as many users as viewers hold it, and
    one of the older library has a single viewer. *)
Theorem viewers_never_dangle n0 (g : @mgr M) :
  Sharing n0 [] -> reach (ConnectManager n0) g ->
  (forall s v a, s ∈ _connector g -> conn s = Some v -> mP2p (ses (core v)) = a -> a <> 0 ->
     exists m, n_heap (g_net g) !! a = Some m /\
       (GetP2PVersion m <> UDX_P2P -> Z.of_nat (holds (managers g) a) <= GetUse m) /\
       (GetP2PVersion m = UDX_P2P -> holds (managers g) a = 1%nat)).
Proof.
  intros HS HR; assert (Inv g) as [_ [(left & HL) Hlive Hsingle]]
    by (induction HR; [by apply Inv_start|by eapply Inv_step]).
  intros s v a Hs Ec Ea Na.
  assert (Hin : a ∈ managers g).
  { apply list_elem_of_fmap_2' with (x := s); [done|]; unfold p2p_of; by rewrite Ec. }
  destruct (Hlive a Hin Na) as [w Hw]; unfold kind in Hw.
  destruct (n_heap (g_net g) !! a) as [m|] eqn:Hm; [|done]; simpl in Hw; injection Hw as Hw.
  exists m; split; [done|]; split; intros Hk.
  - rewrite (sh_use _ _ HL a m Hm Hk), holds_app.
    rewrite (holds_managers _ _ a w); [lia|unfold kind; by rewrite Hm, <- Hw|congruence|done].
  - apply holds_single; [done|]; intros i k Hi Hk2; destruct (decide (i = k)) as [|N]; [done|exfalso].
    apply (Hsingle i k a Hi Hk2 N Na); unfold kind; by rewrite Hm; simpl; rewrite Hk.
Qed.
End System.

(** ** The table's methods *)

Section Methods.
Context {M : Type} `{P2PManager M}.

(** The slot a method is about, and whether it tests the viewer for null. *)
Definition target (o : op) : option Z :=
  match o with
  | OConnect _ _ i _ | ODisconnect i | ODoDisconnect i | OOpen _ _ i | OClose _ _ i | OSend _ i
  | OPause _ i | OResume _ i | OPtz _ _ i | OStopPtz _ i | OSearch _ _ _ i | OStart _ _ i | OStop _ i
  | OPlayPause _ i | OPlayContinue _ i | OAlarm _ _ _ i | ODecPause i | ODecResume i
  | OHardware _ i _ _ | OIFrame _ i | OCrop _ i | OZone _ i | OCall _ i | OHangUp i | OTalk _ i => Some i
  | OSearchDevice => Some 0
  | OLivePause | OLiveResume | ODirect _ => None
  end.
Definition null_checked (o : op) : bool :=
  match o with OPtz _ _ _ | OPlayPause _ _ | OPlayContinue _ _ | OCrop _ _ => false | _ => true end.

(** The bounds and null tests of the methods that are steps of the table. *)
Lemma op_guards (g : @mgr M) o i :
  Table (_connector g) -> target o = Some i ->
  (out_of_range i = true ->
     apply_op g o = match o with OZone _ _ => if i =? 36 then Fault else Done g | _ => Done g end) /\
  (out_of_range i = false -> (exists s, at_ g i = Done s /\ conn s = None) ->
     match o with OConnect _ _ _ _ => True
     | _ => apply_op g o = if null_checked o then Done g else Fault end).
Proof.
  intros [HZ _] Ht; split; [intros Ho|intros Ho (s & Hs & Hc)].
  - destruct o; simpl in Ht; try discriminate Ht; injection Ht as <-; try discriminate Ho;
      try (by cbn [apply_op]; unfold Connect, Disconnect, DoDisconnect, OpenChannel, CloseChannel, SendData,
        PausePlayback, ResumePlayback, PtzCtrl, StopPTZ, SearchRec, StartPlayback, StopPlayback,
        PlaybackPauseGetData, PlaybackContinueGetData, PullAlarmmsg, DecoderPause, DecoderResume,
        SetHardwareDecoder, setOnlyDecoderIFrame, Call, HangUp, SendAudioPacket, p2p_call, guarded,
        unguarded, drop_r; rewrite Ho); cbn [apply_op].
    + unfold EnableCrop, DisableCrop, unguarded; destruct b; by rewrite Ho.
    + unfold SetTimeZone; unfold out_of_range, MAX_CONN in *.
      destruct (Z.eqb_spec i0 36) as [->|N]; [|by replace ((i0 <? 0) || (36 <? i0)) with true by lia].
      unfold at_, znth; simpl; rewrite lookup_ge_None_2; [done|].
      unfold zlen in HZ; lia.
  - destruct o; simpl in Ht; try discriminate Ht; injection Ht as <-; cbn [apply_op null_checked]; try exact I;
      try (by unfold Disconnect, DoDisconnect, OpenChannel, CloseChannel, SendData,
        PausePlayback, ResumePlayback, PtzCtrl, StopPTZ, SearchRec, StartPlayback, StopPlayback,
        PlaybackPauseGetData, PlaybackContinueGetData, PullAlarmmsg, DecoderPause, DecoderResume, SearchDevice,
        SetHardwareDecoder, setOnlyDecoderIFrame, Call, HangUp, SendAudioPacket, p2p_call, guarded,
        unguarded, drop_r; rewrite Ho, Hs; simpl; rewrite Hc).
    + unfold EnableCrop, DisableCrop, unguarded; destruct b; by rewrite Ho, Hs; simpl; rewrite Hc.
    + unfold SetTimeZone; unfold out_of_range, MAX_CONN in Ho.
      replace ((i0 <? 0) || (36 <? i0)) with false by lia; rewrite Hs; simpl; by rewrite Hc.
Qed.

(** C39: the bounds and null tests of the methods that take a viewer's index.  Out of
    range those that act on the viewer ([op]) leave the table as it is, but SetTimeZone,
    whose test admits index 36, reads behind the array; on an empty slot they leave the
    table as it is, except Connect, which fills it, and PtzCtrl, PlaybackPauseGetData,
    PlaybackContinueGetData, EnableCrop and DisableCrop, which dereference null.  Of the
    queries modelled here, GetRealStatus reads outside the array when the index is out of range,
    where the others return their values for no viewer; and on an empty slot IsCrop,
    IsWallMode and GetDecoder dereference null, and GetFps, getHowBitrate,
    getIsInstallModeCome and isNeedOpen64Stream return no value. *)
Theorem guard_table (g : @mgr M) i :
  Table (_connector g) ->
  (out_of_range i = true ->
     (forall o, target o = Some i ->
        apply_op g o = match o with OZone _ _ => if i =? 36 then Fault else Done g | _ => Done g end) /\
     GetRealStatus g i = Fault /\ GetConnectCtx g i = Done None /\ GetConnector g i = Done None /\
     GetStreamNo g i = Done (-2) /\ GetChannel g i = Done (-2) /\ GetBitrate g i = Done 0 /\ GetNetWorkSpeed g i = Done (-1) /\
     IsCrop g i = Done false /\ IsWallMode g i = Done false /\ GetDecoder g i = Done false /\ GetFps g i = Done 0 /\
     getHowBitrate g i = Done 2 /\ getIsInstallModeCome g i = Done 3 /\ isNeedOpen64Stream g i = Done false) /\
  (out_of_range i = false -> (exists s, at_ g i = Done s /\ conn s = None) ->
     (forall o, target o = Some i ->
        match o with OConnect _ _ _ _ => True
        | _ => apply_op g o = if null_checked o then Done g else Fault end) /\
     GetRealStatus g i = Done 0 /\ GetConnectCtx g i = Done None /\ GetConnector g i = Done None /\
     GetStreamNo g i = Done (-1) /\ GetChannel g i = Done (-1) /\ GetBitrate g i = Done 0 /\ GetNetWorkSpeed g i = Done 0 /\
     IsCrop g i = Fault /\ IsWallMode g i = Fault /\ GetDecoder g i = Fault /\ GetFps g i = Fault /\
     getHowBitrate g i = Fault /\ getIsInstallModeCome g i = Fault /\ isNeedOpen64Stream g i = Fault).
Proof.
  intros HT; split; [intros Ho|intros Ho He]; (split; [intros o Ht; by apply (op_guards g o i HT Ht)|]).
  - unfold GetConnectCtx, GetConnector, GetStreamNo, GetChannel, GetBitrate, GetNetWorkSpeed, IsCrop, IsWallMode, GetDecoder,
      GetFps, getHowBitrate, getIsInstallModeCome, isNeedOpen64Stream, query; rewrite Ho; split; [|by repeat split].
    destruct HT as [HZ _]; unfold GetRealStatus, at_, znth; unfold out_of_range, MAX_CONN, zlen in *.
    destruct (i <? 0) eqn:Ei; [done|]; by rewrite lookup_ge_None_2 by lia.
  - destruct He as (s & Hs & Hc).
    unfold GetConnectCtx, GetConnector, GetStreamNo, GetChannel, GetBitrate, GetNetWorkSpeed, IsCrop, IsWallMode, GetDecoder,
      GetFps, getHowBitrate, getIsInstallModeCome, isNeedOpen64Stream, query, GetRealStatus; rewrite Ho, Hs; cbn [obind].
    rewrite Hc; by repeat split.
Qed.

Definition on_slot (h : viewer -> viewer) (s : slot) : slot :=
  match conn s with None => s | Some v => set_conn s (h v) end.
Lemma each_map f h l : (forall v, f v = Done (h v)) -> each f l = Done (map (on_slot h) l).
Proof.
  intros Hf; induction l as [|s l IH]; cbn [each map]; [done|]; unfold on_slot at 1.
  destruct (conn s); [rewrite Hf|]; cbn [obind]; rewrite IH; done.
Qed.

Definition close_cmd (j : ja) : command :=
  cmd_channel CMD_CLOSECHANNEL (mChannelNo (ply j)) (mStreamNo (ply j)) 0.
Definition open_cmds (j : ja) : list command :=
  (if mRealStatus (ses j) =? NET_PLAY_RECORD
   then [cmd_channel CMD_STOPPLAYBACK (mChannelNo (ply j)) 0 0] else []) ++
  [cmd_channel CMD_OPENCHANNEL (mChannelNo (ply j)) (mStreamNo (ply j)) 0].

Definition paused (v : viewer) : viewer :=
  set_core v (set_cmds (set_ply (core v) (p_add (ply (core v)) false))
    (mCommand (core v) ++ [close_cmd (core v)])).
Definition resumed (v : viewer) : viewer :=
  set_core v (set_cmds (set_ply (core v) (p_channel (ply (core v)) (mChannelNo (ply (core v))) (mStreamNo (ply (core v)))))
    (mCommand (core v) ++ open_cmds (core v))).

Lemma AddCommand_done j c :
  ConnectStr c = [] -> verifystr c = [] -> AddCommand j c = Done (set_cmds j (mCommand j ++ [c])).
Proof. intros E1 E2; unfold AddCommand; rewrite E1, E2; cbn [obind strcpy]; by rewrite CList.insert_append. Qed.

Lemma LivePause_spec (g : @mgr M) :
  LivePause g = Done (mkMgr (map (on_slot paused) (_connector g)) (_audioIndex g) (g_net g)).
Proof.
  unfold LivePause, loop; rewrite (each_map _ paused); [done|]; intros v.
  unfold on_core, JA.CloseChannel; by rewrite AddCommand_done.
Qed.
Lemma LiveResume_spec (g : @mgr M) :
  LiveResume g = Done (mkMgr (map (on_slot resumed) (_connector g)) (_audioIndex g) (g_net g)).
Proof.
  unfold LiveResume, loop; rewrite (each_map _ resumed); [done|]; intros v.
  unfold on_core, JA.OpenChannel, JA.StopPlayback, resumed, open_cmds.
  destruct (_ =? NET_PLAY_RECORD); cbn [obind].
  - rewrite AddCommand_done by done; cbn [obind]; rewrite AddCommand_done by done; cbn [obind].
    unfold set_cmds; simpl; by rewrite <- app_assoc.
  - by rewrite AddCommand_done.
Qed.

(** Pausing and resuming all live views.  Every viewer of the table, whatever
    it shows, stops buffering and is queued a close and then an open of the
    channel and stream it has, in that order behind what was queued; nothing else
    of it changes.  A viewer playing a recording is queued a stop of the playback
    in between: it comes back in live view. *)
Theorem pause_resume (g : @mgr M) i s v :
  znth (_connector g) i = Some s -> conn s = Some v ->
  exists g1 g2 s' v', LivePause g = Done g1 /\ LiveResume g1 = Done g2 /\
    znth (_connector g2) i = Some s' /\ conn s' = Some v' /\
    index s' = index s /\ isPlaying s' = isPlaying s /\ opts v' = opts v /\
    ses (core v') = ses (core v) /\ tgt (core v') = tgt (core v) /\ out (core v') = out (core v) /\
    ply (core v') = p_add (ply (core v)) false /\
    mCommand (core v') = mCommand (core v) ++ close_cmd (core v) :: open_cmds (core v) /\
    g_net g2 = g_net g /\ zlen (_connector g2) = zlen (_connector g).
Proof.
  intros Hs Hc; rewrite LivePause_spec; eexists; eexists; exists (on_slot resumed (on_slot paused s)), (resumed (paused v)).
  split; [reflexivity|]; rewrite LiveResume_spec; split; [reflexivity|].
  split.
  { simpl; unfold znth in *; destruct (i <? 0); [done|].
    pose proof (list_lookup_fmap (on_slot resumed) (map (on_slot paused) (_connector g)) (Z.to_nat i)) as E1.
    pose proof (list_lookup_fmap (on_slot paused) (_connector g) (Z.to_nat i)) as E2.
    rewrite Hs in E2; simpl in E2; etransitivity; [exact E1|].
    by etransitivity; [exact (f_equal _ E2)|]. }
  unfold on_slot; rewrite Hc; simpl; split_and!; try done.
  - unfold open_cmds; simpl; by rewrite <- app_assoc.
  - unfold zlen; by rewrite !length_map.
Qed.
End Methods.

(** ** A concrete run *)

(** Two viewers connect to the device of [JA.Demo] with the same credentials; both
    task threads handle the command. *)
Definition demo_events : list event :=
  let cred := Demo.cred in
  [EvCall (OConnect Demo.dev cred 0 0); EvCall (OConnect Demo.dev cred 1 0); EvTask 0; EvTask 1].
#[local] Existing Instance Demo.ops.
#[local] Existing Instance Demo.laws.
Fixpoint run (g : @mgr Manager.manager) (es : list event) : outcome (@mgr Manager.manager) :=
  match es with
  | [] => Done g
  | e :: es => let* g := sys_step Demo.alloc (fun i => 100 + i) 5 g e in run g es
  end.
Lemma run_reach g0 es g g' :
  reach Demo.alloc (fun i => 100 + i) 5 g0 g -> run g es = Done g' ->
  reach Demo.alloc (fun i => 100 + i) 5 g0 g'.
Proof.
  revert g; induction es as [|e es IH]; intros g HR; cbn [run]; intros HC; [by simplify_eq|].
  obinv HC; eapply IH; [|exact HC]; by eapply reach_step.
Qed.
Definition demo_table : @mgr Manager.manager :=
  match run (ConnectManager Demo.net0) demo_events with Done g => g | _ => ConnectManager Demo.net0 end.

(** The first slot and its viewer. *)
Definition demo_slot : slot := match znth (_connector demo_table) 0 with Some s => s | None => empty_slot end.
Definition demo_viewer : viewer := match conn demo_slot with Some v => v | None => mkV new_ja new_settings end.
Lemma demo_slot_at : znth (_connector demo_table) 0 = Some demo_slot.
Proof. by vm_compute. Qed.
Lemma znth_elem {A} (l : list A) i x : znth l i = Some x -> x ∈ l.
Proof. unfold znth; destruct (i <? 0); [done|apply list_elem_of_lookup_2]. Qed.
Lemma demo_slot_in : demo_slot ∈ _connector demo_table.
Proof. exact (znth_elem _ 0 _ demo_slot_at). Qed.
Lemma demo_viewer_at : conn demo_slot = Some demo_viewer.
Proof. by vm_compute. Qed.
Lemma demo_reached :
  reach Demo.alloc (fun i => 100 + i) 5 (ConnectManager Demo.net0) demo_table.
Proof. apply run_reach with (es := demo_events) (g := ConnectManager Demo.net0); [constructor|by vm_compute]. Qed.

Lemma viewers_never_dangle_witness :
  holds (managers demo_table) 1 = 2%nat /\
  exists m, n_heap (g_net demo_table) !! 1 = Some m /\
    (GetP2PVersion m <> Manager.UDX_P2P -> Z.of_nat (holds (managers demo_table) 1) <= GetUse m) /\
    (GetP2PVersion m = Manager.UDX_P2P -> holds (managers demo_table) 1 = 1%nat).
Proof.
  split; [by vm_compute|].
  apply (viewers_never_dangle Demo.alloc (fun i => 100 + i) 5 Demo.alloc_fresh Demo.alloc_nonnull
           Demo.net0 demo_table Demo.net0_Sharing demo_reached demo_slot demo_viewer).
  - exact demo_slot_in.
  - exact demo_viewer_at.
  - by vm_compute.
  - discriminate.
Defined.

Lemma guard_table_witness :
  apply_op (ConnectManager Demo.net0) (OZone (F32.of_Z 800) 36) = Fault /\
  apply_op (ConnectManager Demo.net0) (OPtz 1 0 0) = Fault /\
  apply_op (ConnectManager Demo.net0) (OStopPtz 0 0) = Done (ConnectManager Demo.net0) /\
  GetRealStatus (ConnectManager Demo.net0) 36 = Fault /\ IsCrop (ConnectManager Demo.net0) 0 = Fault.
Proof.
  assert (HT : Table (_connector (ConnectManager Demo.net0))).
  { split; [done|]; intros i s Hs Hc; exfalso; unfold znth in Hs; destruct (i <? 0); [done|].
    by apply list_elem_of_lookup_2, start_empty in Hs as ->. }
  destruct (proj1 (guard_table _ 36 HT) eq_refl) as (H1 & H2 & _).
  destruct (proj2 (guard_table _ 0 HT) eq_refl ltac:(by exists empty_slot)) as (H3 & H4).
  split; [exact (H1 (OZone (F32.of_Z 800) 36) eq_refl)|]; split; [exact (H3 (OPtz 1 0 0) eq_refl)|].
  split; [exact (H3 (OStopPtz 0 0) eq_refl)|]; split; [exact H2|apply H4].
Defined.

Lemma pause_resume_witness :
  exists g1 g2 s' v', LivePause demo_table = Done g1 /\ LiveResume g1 = Done g2 /\
    znth (_connector g2) 0 = Some s' /\ conn s' = Some v' /\
    length (mCommand (core v')) = 2%nat.
Proof.
  destruct (pause_resume demo_table 0 demo_slot demo_viewer demo_slot_at demo_viewer_at)
    as (g1 & g2 & s' & v' & H1 & H2 & H3 & H4 & _ & _ & _ & _ & _ & _ & _ & H5 & _).
  exists g1, g2, s', v'; do 4 (split; [assumption|]); rewrite H5; by vm_compute.
Defined.
End CM.
