(* ===== verification/OsdText.v ===== *)
(** The time drawn over the video: how JAConnect::HandleDecodeThread
    (gles/Network/JAConnect.cpp) turns a frame's time into the 19 characters
    "YYYY-MM-DD hh:mm:ss".  The C library's [gmtime] is the proleptic Gregorian
    calendar; [localtime] depends on the device and is a parameter.  The time zone
    is a float, hours before the point and minutes behind it. *)
From Stdlib Require Import SpecFloat.
From S2P Require Import Prelude Float32 Pacing.

Module Osd.

(** ** The calendar *)

(** [struct tm], the year in full and the month from 1. *)
Record tm := mkTm { tm_year : Z; tm_mon : Z; tm_mday : Z; tm_hour : Z; tm_min : Z; tm_sec : Z }.

(** The day [z] after 1970-01-01, counted in 400-year eras of years that begin
    in March. *)
Definition civil (z : Z) : Z * Z * Z :=
  let z := z + 719468 in
  let era := z / 146097 in
  let doe := z mod 146097 in
  let yoe := (doe - doe / 1460 + doe / 36524 - doe / 146096) / 365 in
  let doy := doe - (365 * yoe + yoe / 4 - yoe / 100) in
  let mp := (5 * doy + 2) / 153 in
  let d := doy - (153 * mp + 2) / 5 + 1 in
  let m := if mp <? 10 then mp + 3 else mp - 9 in
  (yoe + era * 400 + (if m <=? 2 then 1 else 0), m, d).
Definition gmtime (t : Z) : tm :=
  let '(y, m, d) := civil (t / 86400) in
  let s := t mod 86400 in
  mkTm y m d (s / 3600) (s mod 3600 / 60) (s mod 60).

(** Its inverse. *)
Definition days_from_civil (y m d : Z) : Z :=
  let y := if m <=? 2 then y - 1 else y in
  let era := y / 400 in
  let yoe := y mod 400 in
  let doy := (153 * (if 2 <? m then m - 3 else m + 9) + 2) / 5 + d - 1 in
  era * 146097 + (yoe * 365 + yoe / 4 - yoe / 100 + doy) - 719468.
Definition timegm (x : tm) : Z :=
  days_from_civil (tm_year x) (tm_mon x) (tm_mday x) * 86400 + tm_hour x * 3600 + tm_min x * 60 + tm_sec x.

Lemma year_of_era doe :
  0 <= doe < 146097 ->
  let yoe := (doe - doe / 1460 + doe / 36524 - doe / 146096) / 365 in
  let doy := doe - (365 * yoe + yoe / 4 - yoe / 100) in
  0 <= yoe < 400 /\ 0 <= doy < 366.
Proof. intros H; cbv zeta; split; dlia. Qed.

(** Every day has one date, and the date is valid. *)
Lemma civil_spec z y m d :
  civil z = (y, m, d) -> 1 <= m <= 12 /\ 1 <= d <= 31 /\ days_from_civil y m d = z.
Proof.
  unfold civil; cbv zeta; set (w := z + 719468); set (doe := w mod 146097).
  assert (Hw : w = w / 146097 * 146097 + doe) by (subst doe; dlia).
  destruct (year_of_era doe) as [Hy Hd]; [subst doe; apply Z.mod_pos_bound; lia|].
  set (yoe := (doe - doe / 1460 + doe / 36524 - doe / 146096) / 365) in *.
  set (doy := doe - (365 * yoe + yoe / 4 - yoe / 100)) in *.
  set (mp := (5 * doy + 2) / 153).
  assert (Hm : 0 <= mp <= 11) by (subst mp; dlia).
  assert (Hr : 1 <= doy - (153 * mp + 2) / 5 + 1 <= 31) by (subst mp; dlia).
  intros [= <- <- <-].
  assert (Hmp : (if 2 <? (if mp <? 10 then mp + 3 else mp - 9) then (if mp <? 10 then mp + 3 else mp - 9) - 3
                 else (if mp <? 10 then mp + 3 else mp - 9) + 9) = mp) by (repeat case_match; lia).
  split; [destruct (mp <? 10) eqn:E; lia|split; [done|]]; unfold days_from_civil; cbv zeta; rewrite Hmp.
  set (y := if (if mp <? 10 then mp + 3 else mp - 9) <=? 2
            then yoe + w / 146097 * 400 + (if (if mp <? 10 then mp + 3 else mp - 9) <=? 2 then 1 else 0) - 1
            else yoe + w / 146097 * 400 + (if (if mp <? 10 then mp + 3 else mp - 9) <=? 2 then 1 else 0)).
  assert (Ey : y = yoe + w / 146097 * 400) by (subst y; repeat case_match; lia).
  replace (y / 400) with (w / 146097) by (rewrite Ey; dlia).
  replace (y mod 400) with yoe by (rewrite Ey; dlia).
  assert (Ed : doy = doe - (365 * yoe + yoe / 4 - yoe / 100)) by done.
  assert (Ew : w = z + 719468) by done; lia.
Qed.

Lemma gmtime_spec t :
  let x := gmtime t in
  timegm x = t /\ 1 <= tm_mon x <= 12 /\ 1 <= tm_mday x <= 31 /\
  0 <= tm_hour x < 24 /\ 0 <= tm_min x < 60 /\ 0 <= tm_sec x < 60.
Proof.
  unfold gmtime; destruct (civil (t / 86400)) as [[y m] d] eqn:E; apply civil_spec in E as (H1 & H2 & H3).
  cbv zeta; unfold timegm; simpl; rewrite H3; split_and!; dlia.
Qed.

(** ** The text *)

Fixpoint numeral (k : nat) (v : Z) : list Z :=
  match k with O => [] | S k => numeral k (v / 10) ++ [48 + v mod 10] end.
Fixpoint width (fuel : nat) (v : Z) : nat :=
  match fuel with
  | O => 1
  | S fuel => if v <? 10 then 1 else S (width fuel (v / 10))
  end.
(** ["%0.4d"] and ["%0.2d"]: at least [k] digits of a non-negative number. *)
Definition pad (k : nat) (v : Z) : list Z := numeral (Nat.max k (width 20 v)) v.

Definition dash : Z := 45.
Definition blank : Z := 32.
Definition colon : Z := 58.
Definition text (t : tm) : list Z :=
  pad 4 (tm_year t) ++ dash :: pad 2 (tm_mon t) ++ dash :: pad 2 (tm_mday t) ++ blank ::
  pad 2 (tm_hour t) ++ colon :: pad 2 (tm_min t) ++ colon :: pad 2 (tm_sec t).

(** ** The time zone *)

(** The C function [abs] of an int. *)
Definition iabs (x : Z) : outcome Z := if x =? - 2 ^ 31 then Fault else Done (Z.abs x).

(** The offset in seconds; [None] when no zone is set, which is any value from 13.
    The float is converted to an int for [abs]. *)
Definition zone_offset (mTimeZone : spec_float) : outcome (option Z) :=
  let* z := F32.to_int mTimeZone in
  let* a := iabs z in
  if 12 <? a then Done None
  else
    let* lhour := F32.to_int mTimeZone in
    let* lmin := F32.to_int (F32.mul (F32.sub mTimeZone (F32.of_Z lhour)) (F32.of_Z 100)) in
    Done (Some (lhour * 3600 + lmin * 60)).

Definition limit_time : Z := 946656000.

(** The text for a frame's time, [None] for the null pointer that hides it; [local]
    is the calendar used when no zone is set. *)
Definition osd (W : Z) (local : Z -> tm) (mTimeZone : spec_float) (lgmtime : Z) : outcome (option (list Z)) :=
  let* o := zone_offset mTimeZone in
  let* '(lgmtime, t) :=
    match o with
    | None => Done (lgmtime, local lgmtime)
    | Some lOffsetMs =>
        let lgmtime := lgmtime + lOffsetMs in
        if Pacing.fits W lgmtime then Done (lgmtime, gmtime lgmtime) else Fault
    end in
  Done (if limit_time <? lgmtime then Some (text t) else None).

(** Reading the text back: the digits of each field at its place. *)
Definition value (l : list Z) : Z := foldl (fun a c => 10 * a + (c - 48)) 0 l.
Definition field (from len : nat) (l : list Z) : Z := value (take len (drop from l)).
Definition scan (l : list Z) : Z :=
  timegm (mkTm (field 0 4 l) (field 5 2 l) (field 8 2 l) (field 11 2 l) (field 14 2 l) (field 17 2 l)).

Lemma numeral_length k v : length (numeral k v) = k.
Proof. revert v; induction k as [|k IH]; intros v; simpl; [done|]; rewrite length_app, IH; simpl; lia. Qed.
Lemma value_numeral k v : 0 <= v < 10 ^ Z.of_nat k -> value (numeral k v) = v.
Proof.
  unfold value; revert v; induction k as [|k IH]; intros v Hv; [simpl in *; lia|].
  rewrite Nat2Z.inj_succ, Z.pow_succ_r in Hv by lia; cbn [numeral]; rewrite foldl_app, IH by dlia.
  cbn [foldl]; dlia.
Qed.
Lemma width_le fuel k v : (0 < k)%nat -> v < 10 ^ Z.of_nat k -> (width fuel v <= k)%nat.
Proof.
  revert k v; induction fuel as [|fuel IH]; intros k v Hk Hv; simpl; [lia|].
  destruct (v <? 10) eqn:E; [lia|]; destruct k as [|[|k]]; [lia|simpl in Hv; lia|].
  apply le_n_S, IH; [lia|]; rewrite Nat2Z.inj_succ, Z.pow_succ_r in Hv by lia; dlia.
Qed.
Lemma pad_numeral k v : (0 < k)%nat -> v < 10 ^ Z.of_nat k -> pad k v = numeral k v.
Proof. intros Hk Hv; unfold pad; pose proof (width_le 20 k v Hk Hv); by rewrite Nat.max_l by lia. Qed.

Lemma field_numeral pre k v post :
  0 <= v < 10 ^ Z.of_nat k -> field (length pre) k (pre ++ numeral k v ++ post) = v.
Proof.
  intros Hv; unfold field; rewrite drop_app_length, take_app_le by (rewrite numeral_length; lia).
  rewrite take_ge by (rewrite numeral_length; lia); by apply value_numeral.
Qed.

(** A text of a four-digit year has 19 characters and reads back as its fields. *)
Lemma text_fields y mo d h mi se :
  0 <= y < 10000 -> 0 <= mo < 100 -> 0 <= d < 100 -> 0 <= h < 100 -> 0 <= mi < 100 -> 0 <= se < 100 ->
  let l := text (mkTm y mo d h mi se) in
  length l = 19%nat /\ scan l = timegm (mkTm y mo d h mi se).
Proof.
  intros Hy Hmo Hd Hh Hmi Hs; cbv zeta; unfold text; simpl tm_year; simpl tm_mon; simpl tm_mday; simpl tm_hour; simpl tm_min; simpl tm_sec.
  rewrite !pad_numeral by (simpl; lia); split; [done|].
  unfold scan; f_equal; f_equal.
  - apply (field_numeral [] 4); simpl; lia.
  - apply (field_numeral (numeral 4 y ++ [dash]) 2 mo); simpl; lia.
  - apply (field_numeral (numeral 4 y ++ dash :: numeral 2 mo ++ [dash]) 2 d); simpl; lia.
  - apply (field_numeral (numeral 4 y ++ dash :: numeral 2 mo ++ dash :: numeral 2 d ++ [blank]) 2 h); simpl; lia.
  - apply (field_numeral (numeral 4 y ++ dash :: numeral 2 mo ++ dash :: numeral 2 d ++ blank :: numeral 2 h ++ [colon]) 2 mi);
      simpl; lia.
  - pose proof (field_numeral (numeral 4 y ++ dash :: numeral 2 mo ++ dash :: numeral 2 d ++ blank :: numeral 2 h ++
      colon :: numeral 2 mi ++ [colon]) 2 se []) as E; simpl in E; apply E; lia.
Qed.

Lemma gmtime_year t : limit_time < t < 253370764800 -> 0 <= tm_year (gmtime t) < 10000.
Proof.
  unfold limit_time, gmtime; intros H; unfold civil; cbv zeta; cbn [tm_year].
  assert (Hz : 0 <= t / 86400 + 719468 < 3652000) by dlia.
  set (w := t / 86400 + 719468) in *.
  destruct (year_of_era (w mod 146097)) as [Hy _]; [apply Z.mod_pos_bound; lia|]; cbv zeta in Hy.
  set (doe := w mod 146097) in *; assert (Ew : w = w / 146097 * 146097 + doe) by (subst doe; dlia).
  set (yoe := (doe - doe / 1460 + doe / 36524 - doe / 146096) / 365) in *.
  assert (HE : w / 146097 < 24 \/ w / 146097 = 24 /\ yoe <= 398).
  { destruct (decide (w / 146097 = 24)) as [E|N]; [right; split; [done|]|left; dlia].
    assert (doe < 145673) by lia; subst yoe; dlia. }
  assert (0 <= w / 146097) by dlia; case_match; lia.
Qed.

(** The text when the zone's offset is [off]. *)
Lemma osd_offset W local mTimeZone off t :
  32 <= W -> zone_offset mTimeZone = Done (Some off) -> t + off < 253370764800 -> - 2 ^ 31 <= t + off ->
  (limit_time < t + off < 2 ^ (W - 1) ->
     exists l, osd W local mTimeZone t = Done (Some l) /\ length l = 19%nat /\ scan l = t + off) /\
  (t + off <= limit_time -> osd W local mTimeZone t = Done None) /\
  (2 ^ (W - 1) <= t + off -> osd W local mTimeZone t = Fault).
Proof.
  intros HW Hz Hu Hl; unfold osd; rewrite Hz; cbn [obind]; unfold Pacing.fits.
  assert (HP : 2 ^ 31 <= 2 ^ (W - 1)) by (apply Z.pow_le_mono_r; lia).
  split_and!; intros Ht.
  - replace ((- 2 ^ (W - 1) <=? t + off) && (t + off <? 2 ^ (W - 1))) with true by lia; cbn [obind].
    replace (limit_time <? t + off) with true by lia.
    destruct (gmtime_spec (t + off)) as (HT & H1 & H2 & H3 & H4 & H5).
    pose proof (gmtime_year (t + off)) as HY; destruct (gmtime (t + off)) as [y mo d h mi se]; simpl in *.
    destruct (text_fields y mo d h mi se) as [L1 L2]; [lia..|].
    eexists; split; [done|]; split; [exact L1|]; rewrite <- HT; exact L2.
  - unfold limit_time in *; replace ((- 2 ^ (W - 1) <=? t + off) && (t + off <? 2 ^ (W - 1))) with true by lia.
    cbn [obind]; by replace (946656000 <? t + off) with false by lia.
  - by replace ((- 2 ^ (W - 1) <=? t + off) && (t + off <? 2 ^ (W - 1))) with false by lia.
Qed.

(** What SetTimeZone stores for a zone given as hours times 100 plus minutes. *)
Definition stored (zone : Z) : spec_float := F32.div (F32.of_Z zone) (F32.of_Z 100).

(** The seconds of a zone given as hours times 100 plus minutes, and the zones in use:
    those whose minutes the code keeps, and those of which the rounding of the float
    takes one (Newfoundland, Iran, Nepal, Eucla, Chatham). *)
Definition zone_seconds (zone : Z) : Z :=
  let minutes := Z.abs zone / 100 * 60 + Z.abs zone mod 100 in Z.sgn zone * minutes * 60.
Definition kept_zones : list Z :=
  [-1200; -1100; -1000; -900; -800; -700; -600; -500; -400; -300; -200; -100; 0; 100; 200; 300; 400; 500;
   600; 700; 800; 900; 1000; 1100; 1200; -930; 430; 530; 630; 930; 1030; 1130; 345].
Definition short_zones : list Z := [-330; -230; 330; 545; 845; 1245].
Definition lost (zone : Z) : Z := if existsb (Z.eqb zone) short_zones then Z.sgn zone * 60 else 0.

(** The offset of a zone; +13 and +14 are taken for no zone. *)
Theorem zone_offsets zone :
  (zone ∈ kept_zones ++ short_zones -> zone_offset (stored zone) = Done (Some (zone_seconds zone - lost zone))) /\
  (zone ∈ [1300; 1345; 1400] -> zone_offset (stored zone) = Done None).
Proof.
  rewrite !list_elem_of_In; split; intros H; simpl in H; repeat destruct H as [<-|H];
    try reflexivity; destruct H.
Qed.

(** C36: the text drawn over a frame is the frame's time in the viewer's zone.  With one
    of the zones listed set, for local times until 9998, the text has 19 characters, and
    the six fields read back, as a Gregorian date, to exactly the frame's second plus the
    zone's hours and minutes, less one minute in the zones -3:30, -2:30, +3:30, +5:45,
    +8:45 and +12:45; there is no text when that second is not after 946656000, which is
    1999-12-31 16:00; where a long has 32 bits the sum overflows from January 2038. *)
Theorem osd_text_roundtrip W local zone t : let shown := t + zone_seconds zone - lost zone in
  32 <= W -> zone ∈ kept_zones ++ short_zones -> - 2 ^ 31 <= shown < 253370764800 ->
  (limit_time < shown < 2 ^ (W - 1) ->
     exists l, osd W local (stored zone) t = Done (Some l) /\ length l = 19%nat /\ scan l = shown) /\
  (shown <= limit_time -> osd W local (stored zone) t = Done None) /\
  (2 ^ (W - 1) <= shown -> osd W local (stored zone) t = Fault).
Proof.
  cbv zeta; intros HW Hz Ht; rewrite <- Z.add_sub_assoc in *.
  apply osd_offset; [done|by apply zone_offsets|apply Ht..].
Qed.

Lemma osd_text_roundtrip_witness :
  exists l, osd 32 gmtime (stored 545) 1500000000 = Done (Some l) /\ length l = 19%nat /\ scan l = 1500000000 + (5 * 60 + 44) * 60.
Proof.
  destruct (osd_text_roundtrip 32 gmtime 545 1500000000) as [H _];
    [lia|rewrite list_elem_of_In; simpl; tauto|vm_compute; split; [discriminate|reflexivity]|].
  apply H; vm_compute; split; reflexivity.
Defined.
Example demo_text :
  osd 32 gmtime (stored 800) 1500000000 =
    Done (Some [50; 48; 49; 55; 45; 48; 55; 45; 49; 52; 32; 49; 48; 58; 52; 48; 58; 48; 48]).
Proof. reflexivity. Qed.

Lemma zone_offsets_witness : zone_offset (stored 545) = Done (Some (5 * 3600 + 44 * 60)).
Proof. apply (zone_offsets 545); rewrite list_elem_of_In; simpl; tauto. Defined.
End Osd.
