(* ===== verification/DecodeThread.v ===== *)
(** The consumer of a viewer's frame ring: JAConnect::HandleDecodeThread
    (gles/Network/JAConnect.cpp).  A turn of its loop is a function of the viewer,
    the frame that ReadBuffer returned and what the calls outside the source
    (ffmpeg's decoder, the application's callbacks) return and take.  The callbacks
    are those that ConnectManager::Connect installs on Android.  Time passes only in
    the outside calls and in [usleep].  The function [abs] is C's, on int. *)
From Stdlib Require Import SpecFloat.
From stdpp Require Import gmap.
From S2P Require Import Prelude Float32 MediaBuffer H264 H265 P2PConnector JAConnect Pacing ConnectManager OsdText.

Module Decode.
Import P2P JA CM Pacing Osd.

Definition JA_FT_AUDIO : Z := 0.
Definition JA_FT_IFRAME : Z := 1.
Definition PLAYBACK_STATUS_PAUSE : Z := 2.
(** "h265", "AAC" and "AAC1". *)
Definition H265_Enc : cstr := [104; 50; 54; 53].
Definition AAC : cstr := [65; 65; 67].
Definition AAC1 : cstr := [65; 65; 67; 49].

(** What ReadBuffer returns: the type, the times, the codec's name up to its
    terminator, and the payload. *)
Record rframe := mkF {
  ptype : Z; ptimestamp : Z; playtime : Z; _enc : cstr; buf : bytes
}.
Definition is_h265 (f : rframe) : bool := strcaseeq (_enc f) H265_Enc.

(** What the thread makes the application, the decoder and the ring see. *)
Inductive event :=
| ESleep (usec : Z)
| EUnlock                                          (* unlockRead *)
| ETime (ltime : Z)                                (* PlaybackTimeUpdate *)
| EAudio (f : rframe) (isAAC isPlayback haveheader : bool)
| EHeader (f : rframe) (h265 : bool)               (* AnalystHeader *)
| EWrite (f : rframe) (perFrametime : Z)           (* WriteFrame: recording *)
| EInit (f : rframe) (h265 : bool)                 (* InitVideoDecoder *)
| EDecode (f : rframe)
| ERaw (f : rframe)                                (* OnFrame with the undecoded frame *)
| EFrame (f : rframe)                              (* OnFrame with the decoded picture *)
| EDirect (f : rframe)                             (* OnDirectTextureFrameUpdata *)
| EFirst                                           (* NET_STATUS_FIRST_FRAME *)
| EOsd (txt : option (list Z)).

(** The members only this thread uses, with its two locals that outlive a turn. *)
Record clocks := mkC {
  mLastTimestamp : Z; mFirstFrameTimeStimp : Z; mLastUpdateTime : Z; mVideoPts : Z;
  lasttime : Z; curtime : Z
}.
Record video := mkVid {
  mVideoWidth : Z; mVideoHeight : Z; mCurrentCodec : bool; mIsH265 : bool; delayTime : Z; delayTime1 : Z
}.
Record dec := mkD { vw : viewer; pc : pace; clk : clocks; vid : video; log : list event }.

(** The outside world of one turn: the statistics of the ring, the decoder's
    result, how long the outside calls take, and the device's calendar. *)
Record env := mkE {
  fps : Z; written : Z; readcount : Z; decoded : Z;
  t_raw : Z; t_decode : Z; t_frame : Z; wall : Z
}.

Definition ev (d : dec) (e : event) : dec := mkD (vw d) (pc d) (clk d) (vid d) (log d ++ [e]).
Definition set_vw (d : dec) (v : viewer) : dec := mkD v (pc d) (clk d) (vid d) (log d).
Definition set_pc (d : dec) (p : pace) : dec := mkD (vw d) p (clk d) (vid d) (log d).
Definition set_clk (d : dec) (c : clocks) : dec := mkD (vw d) (pc d) c (vid d) (log d).
Definition set_vid (d : dec) (v : video) : dec := mkD (vw d) (pc d) (clk d) v (log d).
Definition set_recv (d : dec) (b : bool) : dec :=
  set_vw d (set_core (vw d) (set_ply (core (vw d)) (p_iframe (ply (core (vw d))) b))).
(** Only the flag: the member function also drops the key frame. *)
Definition set_hw (d : dec) (b : bool) : dec :=
  set_vw d (mkV (core (vw d))
    (set_hardware (opts (vw d)) b (mMaxSupportWidth (opts (vw d))) (mMaxSupportHeight (opts (vw d))))).
Definition set_need64 (o : settings) (n : Z) : settings :=
  mkSet (howBirate o) n (isInstallModeCome o) (onlyDecodeIFrame o) (mHardwareDecoder o)
    (mMaxSupportWidth o) (mMaxSupportHeight o) (mTimeZone o) (stat_fps o) (stat_bitrate o)
    (mCropFishEye o) (mWallMode o) (isDirectTexture o).
Definition reset_pace (d : dec) : dec :=
  set_pc d (mkPace 0 (mPrevPresentUsec (pc d)) (mFixedFrameDurationUsec (pc d)) (now (pc d))).
Definition set_now (d : dec) (t : Z) : dec :=
  set_pc d (mkPace (mPrevMonoUsec (pc d)) (mPrevPresentUsec (pc d)) (mFixedFrameDurationUsec (pc d)) t).
Definition took (d : dec) (t : Z) : dec := set_now d (now (pc d) + t).

Definition status (d : dec) : Z := mRealStatus (ses (core (vw d))).
Definition recv (d : dec) : bool := mRecvIFrame (ply (core (vw d))).
Definition hw (d : dec) : bool := mHardwareDecoder (opts (vw d)).
Definition read_clock (d : dec) : Z := u64 (now (pc d) / 1000).

(** [tv_usec / 1000] at a time, and the difference of two of them. *)
Definition tv_ms (e : env) (t : Z) : Z := (t + wall e) mod 1000000 / 1000.
Definition tv_diff (e : env) (t_old t_new : Z) : Z := tv_ms e t_new - tv_ms e t_old.

Section Thread.
(** The width of [long], [usleep], [localtime], and the fuel of preRender's wait. *)
Context (W : Z) (usleep : Z -> Z -> Z) (localtime : Z -> tm) (fuel : nat).

Definition sleep (d : dec) (usec : Z) : dec := set_now (ev d (ESleep usec)) (usleep (now (pc d)) usec).

(** ** Before the read: the frame time and the flow control of recordings *)

Definition flow_control (e : env) (d : dec) : outcome (dec * Z) :=
  let j := core (vw d) in
  if mRealStatus (ses j) =? NET_PLAY_REAL then
    Done (d, if fps e =? 0 then 40 else cdiv 1000 (fps e))
  else if mRealStatus (ses j) =? NET_PLAY_RECORD then
    let bufoffset := i32 (u32 (written e - readcount e)) in
    if (150 <? bufoffset) && (mPlaybackStatus (ply j) =? PLAYBACK_STATUS_GETDATA) then
      let* j := JA.PlaybackPauseGetData j (mChannelNo (ply j)) in
      Done (set_vw d (set_core (vw d) (set_ply j (p_pb (ply j) PLAYBACK_STATUS_PAUSE))), 40)
    else if (bufoffset <? 50) && (mPlaybackStatus (ply j) =? PLAYBACK_STATUS_PAUSE) then
      let* j := JA.PlaybackContinueGetData j (mChannelNo (ply j)) in
      Done (set_vw d (set_core (vw d) (set_ply j (p_pb (ply j) PLAYBACK_STATUS_GETDATA))), 40)
    else Done (d, 40)
  else Done (d, 40).

(** ** The position of a recording *)

Definition playback_time (f : rframe) (perFrametime : Z) (d : dec) : outcome (dec * Z) :=
  if status d =? NET_PLAY_RECORD then
    let perFrametime := i32 (ptimestamp f - mLastTimestamp (clk d)) in
    let* a := iabs perFrametime in
    let d := if 1000 <? a then reset_pace d else d in
    let perFrametime := if (5000 <? perFrametime) || (perFrametime <? 0) then 40 else perFrametime in
    let ltime := u32 (ptimestamp f / 1000) in
    let d := if negb (ltime =? u32 (mLastUpdateTime (clk d))) && negb (ptype f =? JA_FT_AUDIO) then
               let c := clk d in
               set_clk (ev d (ETime (i32 ltime)))
                 (mkC (mLastTimestamp c) (mFirstFrameTimeStimp c) (i32 ltime) (mVideoPts c) (lasttime c) (curtime c))
             else d in
    Done (d, perFrametime)
  else Done (d, perFrametime).

(** ** The first-frame notice: a jump of the time stamp by more than [gap] *)

Definition first_frame (gap : Z) (f : rframe) (d : dec) : outcome dec :=
  let* a := iabs (i32 (mFirstFrameTimeStimp (clk d) - ptimestamp f)) in
  let d := if gap <? a then reset_pace (ev d EFirst) else d in
  let c := clk d in
  Done (set_clk d (mkC (mLastTimestamp c) (ptimestamp f) (mLastUpdateTime c) (mVideoPts c) (lasttime c) (curtime c))).

Definition set_times (d : dec) (last lastt cur : Z) : dec :=
  let c := clk d in
  set_clk d (mkC last (mFirstFrameTimeStimp c) (mLastUpdateTime c) (mVideoPts c) lastt cur).

(** ** Frames handed to the hardware decoder *)

(** The sleep in milliseconds behind a frame of [frameDur] that took [delay]. *)
Definition hw_sleep (fps frameDur delay : Z) : outcome Z :=
  let frameDur :=
    if frameDur <? 20 then
      let fps_ := if 0 <? fps then fps else 20 in
      let fps_ := if 30 <? fps_ then 15 else fps_ in
      cdiv 1000 fps_
    else frameDur in
  if 2147483647 <? frameDur - delay then Fault
  else
    let sleepTime := frameDur - delay - 5 in
    Done (if sleepTime <? 0 then 0 else if 500 <? sleepTime then 60 else sleepTime).

Definition hardware_frame (e : env) (f : rframe) (d : dec) : outcome dec :=
  let t_old := now (pc d) in
  let d := took (ev d (ERaw f)) (t_raw e) in
  let* d := first_frame 2000 f d in
  let d := ev d EUnlock in
  let lgmtime := long W (ptimestamp f / 1000) in
  let* txt := osd W localtime (mTimeZone (opts (vw d))) lgmtime in
  let d := ev d (EOsd txt) in
  let d := if 200 <? u64 (read_clock d - lasttime (clk d)) then reset_pace d else d in
  let d := set_times d (mLastTimestamp (clk d)) (read_clock d) (curtime (clk d)) in
  let delayTime_hard := tv_diff e t_old (now (pc d)) in
  let frameDur := i32 (ptimestamp f - mLastTimestamp (clk d)) in
  let* sleepTime := hw_sleep (fps e) frameDur delayTime_hard in
  let d := sleep d (sleepTime * 1000) in
  Done (set_times d (ptimestamp f) (lasttime (clk d)) (curtime (clk d))).

(** ** Frames decoded in software *)

Definition software_show (e : env) (f : rframe) (d : dec) : outcome dec :=
  let rt := decoded e in
  let direct := isDirectTexture (opts (vw d)) in
  let d := if direct && (rt =? 0) then ev d (EDirect f) else d in
  let t_old_frame := now (pc d) in
  let d := if (rt =? 0) && negb direct then took (ev d (EFrame f)) (t_frame e) else d in
  let* d := first_frame 20 f d in
  let delay1 := tv_diff e t_old_frame (now (pc d)) in
  let v := vid d in
  let d := set_vid d (mkVid (mVideoWidth v) (mVideoHeight v) (mCurrentCodec v) (mIsH265 v) (delayTime v) delay1) in
  let o := opts (vw d) in
  let d := if needOpen64 o <? delayTime v + delay1
           then set_vw d (mkV (core (vw d)) (set_need64 o (delayTime v + delay1))) else d in
  let* d :=
    if rt =? 0 then
      let lgmtime := if status d =? NET_PLAY_RECORD then long W (playtime f) else long W (ptimestamp f / 1000) in
      let* txt := osd W gmtime (mTimeZone (opts (vw d))) lgmtime in
      Done (ev d (EOsd txt))
    else Done d in
  Done (ev d EUnlock).

(** The delay of a recording's frame, in milliseconds. *)
Definition realydelay (f : rframe) (perFrametime : Z) (d : dec) : Z :=
  let framedelay := if lasttime (clk d) =? 0 then u32 perFrametime else u32 (ptimestamp f - lasttime (clk d)) in
  let framedelay := if (u32 perFrametime <? framedelay) && negb (status d =? NET_PLAY_RECORD)
                    then u32 perFrametime else framedelay in
  let framedelay := if (1000 <? framedelay) && (status d =? NET_PLAY_RECORD)
                    then u32 perFrametime else framedelay in
  i32 (framedelay - (read_clock d - curtime (clk d)) - 5).

Definition stale (d : dec) : dec :=
  if (200 <? u64 (read_clock d * 1000 - lasttime (clk d))) && negb (status d =? NET_PLAY_RECORD)
  then reset_pace d else d.

Definition software_pace (f : rframe) (perFrametime : Z) (d : dec) : outcome dec :=
  let delay := realydelay f perFrametime d in
  let d := set_times d (mLastTimestamp (clk d)) (ptimestamp f) (curtime (clk d)) in
  let d := stale d in
  let d := set_times d (mLastTimestamp (clk d)) (read_clock d) (curtime (clk d)) in
  let d := stale d in
  let d := set_times d (mLastTimestamp (clk d)) (read_clock d) (curtime (clk d)) in
  let* d :=
    if status d =? NET_PLAY_RECORD then
      if 2147483 <? delay then Fault
      else Done (if 0 <? delay then sleep d (delay * 1000) else d)
    else
      let* p := preRender W usleep fuel (pc d) (ptimestamp f) in Done (set_pc d p) in
  Done (set_times d (ptimestamp f) (lasttime (clk d)) (read_clock d)).

Definition software (e : env) (f : rframe) (perFrametime : Z) (d : dec) : outcome dec :=
  let d := if ptype f =? JA_FT_IFRAME then
             let v := vid d in
             set_vid (ev d (EInit f (is_h265 f)))
               (mkVid (mVideoWidth v) (mVideoHeight v) (mCurrentCodec v) (is_h265 f) (delayTime v) (delayTime1 v))
           else d in
  if ptype f =? 0 then Done (sleep d 1000)
  else
    let t_old := now (pc d) in
    let d := took (ev d (EDecode f)) (t_decode e) in
    let v := vid d in
    let d := set_vid d (mkVid (mVideoWidth v) (mVideoHeight v) (mCurrentCodec v) (mIsH265 v)
                          (tv_diff e t_old (now (pc d))) (delayTime1 v)) in
    let c := clk d in
    let d := set_clk d (mkC (mLastTimestamp c) (mFirstFrameTimeStimp c) (mLastUpdateTime c) (ptimestamp f)
                          (lasttime c) (curtime c)) in
    let* d := software_show e f d in
    software_pace f perFrametime d.

(** ** One frame *)

(** The picture size in a key frame, [None] when the frame is skipped: the parsers
    return 0 for success, which the test takes for failure. *)
Definition key_size (f : rframe) : outcome (option (Z * Z)) :=
  let* '(rt, wh) := if is_h265 f then H265.H265.H265GetWidthHeight (buf f) (zlen (buf f))
                    else H264.H264.GetWidthHeight (buf f) (zlen (buf f)) in
  Done (if rt =? 0 then None else Some (default (0, 0) wh)).

Definition fall_back (d : dec) : dec := set_recv (set_hw d false) false.

Definition hardware (e : env) (f : rframe) (perFrametime : Z) (d : dec) : outcome dec :=
  let* size := if ptype f =? JA_FT_IFRAME then key_size f else Done (Some (0, 0)) in
  match size with
  | None => Done (sleep d 1000)
  | Some (w, h) =>
      let v := vid d in
      let d := if ptype f =? JA_FT_IFRAME
               then set_vid d (mkVid w h (mCurrentCodec v) (mIsH265 v) (delayTime v) (delayTime1 v)) else d in
      if (mMaxSupportWidth (opts (vw d)) <? w) || (mMaxSupportHeight (opts (vw d)) <? h) || is_h265 f
      then software e f perFrametime (fall_back d)
      else hardware_frame e f d
  end.

(** A video frame behind the first key frame. *)
Definition show (e : env) (f : rframe) (perFrametime : Z) (d : dec) : outcome dec :=
  let d := if is_h265 f then set_hw d false else d in
  let v := vid d in
  let d := set_vid d (mkVid (mVideoWidth v) (mVideoHeight v) (is_h265 f) (mIsH265 v) (delayTime v) (delayTime1 v)) in
  let d := if hw d && (ptype f =? JA_FT_IFRAME) then ev d (EHeader f (is_h265 f)) else d in
  let d := if negb (ptype f =? 0) then ev d (EWrite f perFrametime) else d in
  if hw d then hardware e f perFrametime d else software e f perFrametime d.

Definition on_frame (e : env) (f : rframe) (perFrametime : Z) (d : dec) : outcome dec :=
  if onlyDecodeIFrame (opts (vw d)) && negb (ptype f =? JA_FT_IFRAME)
  then Done (sleep (ev d EUnlock) 1000)
  else
    let* '(d, perFrametime) := playback_time f perFrametime d in
    let d := if negb (recv d) && (ptype f =? JA_FT_IFRAME) then set_recv d true else d in
    if negb (recv d) then Done (sleep d 1000)
    else if ptype f =? JA_FT_AUDIO then
      let d := if 0 <? zlen (buf f)
               then ev d (EAudio f (strcaseeq (_enc f) AAC || strcaseeq (_enc f) AAC1)
                            (status d =? NET_PLAY_RECORD) (strcaseeq (_enc f) AAC))
               else d in
      Done (sleep d 1000)
    else show e f perFrametime d.

(** One turn while decoding is not paused; [None] when the ring has no frame. *)
Definition turn (e : env) (fr : option rframe) (d : dec) : outcome dec :=
  let* '(d, perFrametime) := flow_control e d in
  match fr with
  | None => Done (sleep d 1000)
  | Some f => on_frame e f perFrametime d
  end.

Fixpoint turns (l : list (env * option rframe)) (d : dec) : outcome dec :=
  match l with
  | [] => Done d
  | (e, fr) :: l => let* d := turn e fr d in turns l d
  end.

(** ** The calls that cannot fail *)

Lemma cmds_done j no ch : AddCommand j (cmd_channel no ch 0 0) = Done (set_cmds j (mCommand j ++ [cmd_channel no ch 0 0])).
Proof. by apply AddCommand_done. Qed.

Lemma iabs_done x : x <> - 2 ^ 31 -> iabs x = Done (Z.abs x).
Proof. intros H; unfold iabs; by apply Z.eqb_neq in H as ->. Qed.

(** [d'] has [d]'s log with new events of [P] behind. *)
Definition grows (P : event -> Prop) (d d' : dec) : Prop := exists new, log d' = log d ++ new /\ Forall P new.
Lemma grows_refl P d d' : log d' = log d -> grows P d d'.
Proof. intros E; exists []; by rewrite app_nil_r. Qed.
Lemma grows_ev P d d' e : log d' = log d ++ [e] -> P e -> grows P d d'.
Proof. intros E HP; exists [e]; split; [done|by constructor]. Qed.
Lemma grows_trans P d1 d2 d3 : grows P d1 d2 -> grows P d2 d3 -> grows P d1 d3.
Proof.
  intros (n1 & E1 & F1) (n2 & E2 & F2); exists (n1 ++ n2).
  rewrite E2, E1, app_assoc; split; [done|by apply Forall_app].
Qed.

(** ** The flow control of recordings *)

Definition backlog (e : env) : Z := i32 (u32 (written e - readcount e)).
Definition is_paused (d : dec) : bool := mPlaybackStatus (ply (core (vw d))) =? PLAYBACK_STATUS_PAUSE.

(** The specification: an automaton with hysteresis, which answers the commands it
    issues, [true] for a pause. *)
Fixpoint hysteresis (paused : bool) (l : list Z) : list bool * bool :=
  match l with
  | [] => ([], paused)
  | b :: l =>
      if negb paused && (150 <? b) then let '(c, q) := hysteresis true l in (true :: c, q)
      else if paused && (b <? 50) then let '(c, q) := hysteresis false l in (false :: c, q)
      else hysteresis paused l
  end.
Fixpoint alternates (b : bool) (l : list bool) : Prop :=
  match l with [] => True | x :: l => x = b /\ alternates (negb b) l end.
Lemma hysteresis_alternates p l : alternates (negb p) (fst (hysteresis p l)).
Proof.
  revert p; induction l as [|b l IH]; intros p; [done|]; cbn [hysteresis].
  pose proof (IH true) as Ht; pose proof (IH false) as Hf.
  destruct (negb p && (150 <? b)) eqn:E1; [|destruct (p && (b <? 50)) eqn:E2].
  - destruct p; [done|]; by destruct (hysteresis true l).
  - destruct p; [|done]; by destruct (hysteresis false l).
  - by destruct p.
Qed.

Definition command_of (ch : Z) (pause : bool) : command :=
  cmd_channel (if pause then CMD_PLAYBACK_PAUSE else CMD_PLAYBACK_CONTINUE) ch 0 0.

(** A viewer with its queue and playback status replaced; what a turn leaves of the
    viewer's core besides the key frame flag. *)
Definition with_flow (j : ja) (l : list command) (st : Z) : ja :=
  set_cmds (set_ply j (p_pb (p_iframe (ply j) false) st)) l.
Definition flow_of (d : dec) : ja := with_flow (core (vw d)) (mCommand (core (vw d))) (mPlaybackStatus (ply (core (vw d)))).

Lemma flow_of_eq d d' :
  flow_of d' = flow_of d ->
  ses (core (vw d')) = ses (core (vw d)) /\ mCommand (core (vw d')) = mCommand (core (vw d)) /\
  mPlaybackStatus (ply (core (vw d'))) = mPlaybackStatus (ply (core (vw d))) /\
  mChannelNo (ply (core (vw d'))) = mChannelNo (ply (core (vw d))).
Proof. unfold flow_of, with_flow, set_cmds, set_ply; intros E; by injection E. Qed.

(** Split the conditionals of a turn and compute the projections. *)
Ltac by_cases := repeat match goal with |- context [if ?b then _ else _] => destruct b end; done.

Lemma first_frame_flow gap f d d' : first_frame gap f d = Done d' -> flow_of d' = flow_of d.
Proof. unfold first_frame; intros H; obinv H; simplify_eq; by_cases. Qed.
Lemma hardware_frame_flow e f d d' : hardware_frame e f d = Done d' -> flow_of d' = flow_of d.
Proof.
  unfold hardware_frame; cbv zeta; intros H; obinv H; simplify_eq; apply first_frame_flow in E.
  etransitivity; [|exact E]; clear; by_cases.
Qed.
Lemma software_show_flow e f d d' : software_show e f d = Done d' -> flow_of d' = flow_of d.
Proof.
  unfold software_show; cbv zeta; intros H; obinv H; simplify_eq; apply first_frame_flow in E.
  transitivity (flow_of v); [|rewrite E; clear; by_cases].
  transitivity (flow_of v0); [done|]; destruct (decoded e =? 0); [obinv E0|]; simplify_eq; clear; by_cases.
Qed.
Lemma stale_flow d : flow_of (stale d) = flow_of d.
Proof. unfold stale; by_cases. Qed.
Lemma software_pace_flow f per d d' : software_pace f per d = Done d' -> flow_of d' = flow_of d.
Proof.
  unfold software_pace; cbv zeta.
  set (d1 := stale (set_times d _ (ptimestamp f) _)).
  assert (E1 : flow_of d1 = flow_of d) by (subst d1; by rewrite stale_flow); clearbody d1.
  set (d2 := stale (set_times d1 _ (read_clock d1) _)).
  assert (E2 : flow_of d2 = flow_of d1) by (subst d2; by rewrite stale_flow); clearbody d2.
  intros H; obinv H; injection H as <-; rewrite <- E1, <- E2; transitivity (flow_of v); [done|]; revert E.
  match goal with |- (if ?b then _ else _) = _ -> _ => destruct b end.
  - match goal with |- (if ?b then _ else _) = _ -> _ => destruct b end; [done|]; intros [= <-]; by_cases.
  - intros E; obinv E; by injection E as <-.
Qed.
Lemma software_flow e f per d d' : software e f per d = Done d' -> flow_of d' = flow_of d.
Proof.
  unfold software; cbv zeta; intros H; destruct (ptype f =? 0); [simplify_eq; by_cases|].
  obinv H; apply software_pace_flow in H; apply software_show_flow in E; rewrite H, E; clear; by_cases.
Qed.
Lemma show_flow e f per d d' : show e f per d = Done d' -> flow_of d' = flow_of d.
Proof.
  unfold show; cbv zeta.
  match goal with |- context [hardware e f per ?x] => set (d1 := x) end.
  assert (E1 : flow_of d1 = flow_of d) by (subst d1; by_cases).
  destruct (hw d1); [|intros H%software_flow; congruence].
  unfold hardware; intros H; obinv H; destruct v as [[w h]|]; [|injection H as <-; exact E1].
  rewrite <- E1; clear E1 E; revert H; clearbody d1.
  match goal with |- (if ?b then software _ _ _ (fall_back ?x) else _) = _ -> _ => destruct b; set (d2 := x) end.
  - intros H%software_flow; rewrite H; subst d2; by_cases.
  - intros H%hardware_frame_flow; rewrite H; subst d2; by_cases.
Qed.
Lemma on_frame_flow e f per d d' : on_frame e f per d = Done d' -> flow_of d' = flow_of d.
Proof.
  unfold on_frame; destruct (_ && _); [intros; by simplify_eq|]; intros H; obinv H; destruct v as [d1 per1].
  assert (E1 : flow_of d1 = flow_of d).
  { unfold playback_time in E; cbv zeta in E; destruct (status d =? NET_PLAY_RECORD); [|by simplify_eq].
    obinv E; simplify_eq; clear; by_cases. }
  rewrite <- E1; clear E E1; revert H; cbv zeta.
  assert (E2 : flow_of (if negb (recv d1) && (ptype f =? JA_FT_IFRAME) then set_recv d1 true else d1) = flow_of d1) by by_cases.
  revert E2; generalize (if negb (recv d1) && (ptype f =? JA_FT_IFRAME) then set_recv d1 true else d1); intros d3 E3.
  destruct (recv d3); simpl negb; cbv iota; [|intros [= <-]; exact E3].
  destruct (ptype f =? JA_FT_AUDIO); [|intros H%show_flow; congruence].
  intros [= <-]; rewrite <- E3; clear; by_cases.
Qed.

(** One step of the flow control is one step of the automaton. *)
Lemma flow_control_spec e d :
  status d = NET_PLAY_RECORD -> mPlaybackStatus (ply (core (vw d))) = (if is_paused d then 2 else 1) ->
  let '(c, p) := hysteresis (is_paused d) [backlog e] in
  exists d', flow_control e d = Done (d', 40) /\
    flow_of d' = with_flow (core (vw d))
      (mCommand (core (vw d)) ++ map (command_of (mChannelNo (ply (core (vw d))))) c) (if p then 2 else 1) /\
    log d' = log d.
Proof.
  unfold status; intros Hs Hp; unfold flow_control; fold (backlog e); rewrite Hs; cbn [hysteresis].
  replace (NET_PLAY_RECORD =? NET_PLAY_REAL) with false by done.
  replace (NET_PLAY_RECORD =? NET_PLAY_RECORD) with true by done; cbv zeta.
  unfold JA.PlaybackPauseGetData, JA.PlaybackContinueGetData; rewrite Hp; destruct (is_paused d); simpl negb; cbv iota.
  - replace (150 <? backlog e) with (150 <? backlog e) by done; rewrite andb_false_r; cbn [andb].
    destruct (backlog e <? 50); cbn [andb]; eexists; split; [rewrite cmds_done; done|done|done|].
    unfold flow_of; rewrite Hp, app_nil_r; done.
  - rewrite !andb_false_r, andb_true_r; cbn [andb].
    destruct (150 <? backlog e); eexists; split; [rewrite cmds_done; done|done|done|].
    unfold flow_of; rewrite Hp, app_nil_r; done.
Qed.

Lemma hysteresis_cons p b l :
  hysteresis p (b :: l) =
  (let '(c1, q) := hysteresis p [b] in let '(c2, r) := hysteresis q l in (c1 ++ c2, r)).
Proof.
  cbn [hysteresis]; destruct (negb p && (150 <? b)); [by destruct (hysteresis true l)|].
  destruct (p && (b <? 50)); [by destruct (hysteresis false l)|by destruct (hysteresis p l)].
Qed.

Definition flow_ok (d : dec) : Prop :=
  status d = NET_PLAY_RECORD /\ mPlaybackStatus (ply (core (vw d))) = (if is_paused d then 2 else 1).

Lemma turn_flow e fr d d' :
  flow_ok d -> turn e fr d = Done d' ->
  let '(c, p) := hysteresis (is_paused d) [backlog e] in
  flow_ok d' /\ is_paused d' = p /\
  mChannelNo (ply (core (vw d'))) = mChannelNo (ply (core (vw d))) /\
  mCommand (core (vw d')) = mCommand (core (vw d)) ++ map (command_of (mChannelNo (ply (core (vw d))))) c.
Proof.
  intros [Hs Hp] HT; pose proof (flow_control_spec e d Hs Hp) as HF.
  destruct (hysteresis (is_paused d) [backlog e]) as [c p]; destruct HF as (d1 & E1 & F1 & _).
  unfold turn in HT; rewrite E1 in HT; cbn [obind] in HT.
  assert (E : flow_of d' = flow_of d1) by (destruct fr; [by eapply on_frame_flow|by simplify_eq]).
  rewrite <- E in F1; unfold flow_of, with_flow, set_cmds, set_ply in F1; injection F1 as _ Fs Fc _ _ _ _ Fp Fm _ _ _.
  unfold flow_ok, status, is_paused in *; rewrite Fs, Fc, Fp, Fm.
  split_and!; try done; destruct p; done.
Qed.

Lemma turns_flow l d d' :
  flow_ok d -> turns l d = Done d' ->
  let '(cmds, p) := hysteresis (is_paused d) (map (fun x => backlog (fst x)) l) in
  alternates (negb (is_paused d)) cmds /\
  mCommand (core (vw d')) = mCommand (core (vw d)) ++ map (command_of (mChannelNo (ply (core (vw d))))) cmds /\
  flow_ok d' /\ is_paused d' = p.
Proof.
  intros HO HT; pose proof (hysteresis_alternates (is_paused d) (map (fun x => backlog (fst x)) l)) as HA.
  destruct (hysteresis (is_paused d) (map _ l)) as [cmds p] eqn:EH; split; [done|]; clear HA.
  revert d HO HT cmds p EH; induction l as [|[e fr] l IH]; intros d HO HT cmds p EH; cbn [turns map] in *.
  - simplify_eq; cbn in EH; injection EH as <- <-; by rewrite app_nil_r.
  - obinv HT; pose proof (turn_flow _ _ _ _ HO E) as H1; cbn [fst] in EH; rewrite hysteresis_cons in EH.
    destruct (hysteresis (is_paused d) [backlog e]) as [c1 q]; destruct H1 as (HO1 & Eq & Ec & Em).
    rewrite <- Eq in EH.
    destruct (hysteresis (is_paused v) (map (fun x => backlog (fst x)) l)) as [c2 r] eqn:E2; injection EH as <- <-.
    destruct (IH v HO1 HT _ _ E2) as (H2 & H3 & H4); split; [|done].
    by rewrite H2, Em, Ec, map_app, app_assoc.
Qed.

(** C12: the flow control of recordings.  Over any sequence of turns, the commands
    the thread queues are those of an automaton with hysteresis: it pauses the
    device when more than 150 frames wait in the ring, lets it continue below 50,
    does nothing in between, and strictly alternates the two; the playback status
    is the automaton's state. *)
Theorem playback_flow l d d' :
  flow_ok d -> turns l d = Done d' ->
  let '(cmds, p) := hysteresis (is_paused d) (map (fun x => backlog (fst x)) l) in
  alternates (negb (is_paused d)) cmds /\
  mCommand (core (vw d')) = mCommand (core (vw d)) ++ map (command_of (mChannelNo (ply (core (vw d))))) cmds /\
  flow_ok d' /\ is_paused d' = p.
Proof. apply turns_flow. Qed.

(** ** Nothing is shown before a key frame *)

(** The events that reach neither the decoder, nor the recorder, nor the application,
    which is only told the position of a recording. *)
Definition silent (status : Z) (e : event) : Prop :=
  match e with ESleep _ | EUnlock => True | ETime _ => status = NET_PLAY_RECORD | _ => False end.
(** No key frame, and in a recording its stamp's distance to the last one has an
    absolute value. *)
Definition gated (d : dec) (x : env * option rframe) : Prop :=
  match snd x with
  | None => True
  | Some f => ptype f <> JA_FT_IFRAME /\
      (status d = NET_PLAY_RECORD -> i32 (ptimestamp f - mLastTimestamp (clk d)) <> - 2 ^ 31)
  end.
(** What a gated turn leaves alone. *)
Definition shut (d d' : dec) : Prop :=
  recv d' = false /\ mLastTimestamp (clk d') = mLastTimestamp (clk d) /\ opts (vw d') = opts (vw d) /\
  vid d' = vid d /\ status d' = status d /\ grows (silent (status d)) d d'.

Lemma shut_trans d1 d2 d3 : shut d1 d2 -> shut d2 d3 -> shut d1 d3.
Proof.
  intros (A1 & A2 & A3 & A4 & A5 & A6) (B1 & B2 & B3 & B4 & B5 & B6); unfold shut; rewrite A5 in B6.
  split_and!; [done|congruence..|by eapply grows_trans].
Qed.
Lemma shut_sleep d d' u : shut d d' -> shut d (sleep d' u).
Proof. intros H; eapply shut_trans; [exact H|]; destruct H as [H _]; split_and!; try done; by eapply grows_ev. Qed.

Lemma flow_control_shut e d : recv d = false -> exists d' per, flow_control e d = Done (d', per) /\ shut d d'.
Proof.
  intros HR; assert (HS : forall j, mRecvIFrame (ply j) = false -> mRealStatus (ses j) = status d -> shut d (set_vw d (set_core (vw d) j)))
    by (intros j Hj Hs; split_and!; try done; by apply grows_refl).
  assert (H0 : shut d d) by (split_and!; try done; by apply grows_refl).
  unfold flow_control; cbv zeta; destruct (_ =? NET_PLAY_REAL); [eauto|].
  destruct (_ =? NET_PLAY_RECORD); [|eauto]; unfold JA.PlaybackPauseGetData, JA.PlaybackContinueGetData.
  destruct (_ && _); [rewrite cmds_done; cbn [obind]; eauto|].
  destruct (_ && _); [rewrite cmds_done; cbn [obind]; eauto|eauto].
Qed.

Lemma playback_time_shut f per d :
  recv d = false -> (status d = NET_PLAY_RECORD -> i32 (ptimestamp f - mLastTimestamp (clk d)) <> - 2 ^ 31) ->
  exists d' per', playback_time f per d = Done (d', per') /\ shut d d'.
Proof.
  intros HR HT; assert (H0 : shut d d) by (split_and!; try done; by apply grows_refl).
  unfold playback_time; cbv zeta; destruct (status d =? NET_PLAY_RECORD) eqn:Es; [apply Z.eqb_eq in Es|eauto].
  rewrite iabs_done by auto; cbn [obind]; eexists; eexists; split; [done|].
  set (d1 := if 1000 <? _ then reset_pace d else d).
  assert (H1 : shut d d1) by (subst d1; destruct (1000 <? _); [split_and!; try done; by apply grows_refl|done]).
  destruct (_ && _); [|done]; eapply shut_trans; [exact H1|]; destruct H1 as (H1 & _ & _ & _ & H5 & _).
  split_and!; try done; eapply grows_ev; [done|cbn; congruence].
Qed.

Lemma turn_shut x d : recv d = false -> gated d x -> exists d', turn (fst x) (snd x) d = Done d' /\ shut d d'.
Proof.
  destruct x as [e fr]; unfold gated; cbn [fst snd]; intros HR HG.
  destruct (flow_control_shut e d HR) as (d1 & per & E1 & H1); unfold turn; rewrite E1; cbn [obind].
  destruct fr as [f|]; [|eexists; split; [done|by apply shut_sleep]].
  destruct HG as [Hk HT]; pose proof H1 as (HR1 & HL1 & _ & _ & HS1 & _); unfold on_frame; rewrite <- HL1, <- HS1 in HT.
  apply Z.eqb_neq in Hk; rewrite Hk; destruct (_ && _).
  - eexists; split; [done|]; apply shut_sleep; eapply shut_trans; [exact H1|].
    split_and!; try done; by eapply grows_ev.
  - destruct (playback_time_shut f per d1 HR1 HT) as (d2 & per2 & E2 & H2); rewrite E2; cbn [obind].
    pose proof H2 as [HR2 _]; rewrite HR2; cbn [negb andb]; cbv iota; rewrite HR2; cbn [negb].
    eexists; split; [done|]; apply shut_sleep; by eapply shut_trans.
Qed.

(** C10: no picture or sound before a key frame.  After the gate is shut (a channel
    opened, a recording started, a fall back to software), whatever frames that are
    no key frames arrive, in whatever number and state of the flow control, every
    turn completes, hands nothing to the decoder or the recorder, and to the application
    nothing but the position of a recording, and leaves the gate shut and the decoder's
    settings alone; in a recording, if no stamp lies -2 ^ 31 from the last in 32 bits,
    whose abs the code takes. *)
Theorem decode_gate l d :
  recv d = false -> Forall (gated d) l ->
  exists d', turns l d = Done d' /\ recv d' = false /\ opts (vw d') = opts (vw d) /\ vid d' = vid d /\
    exists new, log d' = log d ++ new /\ Forall (silent (status d)) new.
Proof.
  intros HR HG; enough (exists d', turns l d = Done d' /\ shut d d') as (d' & E & H1 & _ & H2 & H3 & _ & H4) by eauto 10.
  revert d HR HG; induction l as [|[e fr] l IH]; intros d HR HG; cbn [turns].
  - exists d; split; [done|]; split_and!; try done; by apply grows_refl.
  - apply Forall_cons_1 in HG as [HG HL]; destruct (turn_shut (e, fr) d HR HG) as (d1 & E1 & H1).
    cbn [fst snd] in E1; rewrite E1; cbn [obind].
    destruct (IH d1) as (d2 & E2 & H2); [apply H1| |exists d2; split; [done|by eapply shut_trans]].
    eapply Forall_impl; [|exact HL]; intros [e2 [f|]]; unfold gated; cbn [snd]; [|done].
    destruct H1 as (_ & HL1 & _ & _ & HS1 & _); by rewrite HL1, HS1.
Qed.

(** ** Live frames decoded in software *)

(** The frame's time can be shown and its stamp compared: what fails otherwise is
    an overflow. *)
Definition showable (f : rframe) (d : dec) : Prop :=
  i32 (mFirstFrameTimeStimp (clk d) - ptimestamp f) <> - 2 ^ 31 /\
  exists txt, osd W gmtime (mTimeZone (opts (vw d))) (long W (ptimestamp f / 1000)) = Done txt.
Definition awake (e : event) : Prop := match e with ESleep _ => False | _ => True end.

Lemma first_frame_done gap f d :
  i32 (mFirstFrameTimeStimp (clk d) - ptimestamp f) <> - 2 ^ 31 ->
  exists d', first_frame gap f d = Done d' /\ grows awake d d' /\
    vw d' = vw d /\ vid d' = vid d /\ now (pc d') = now (pc d) /\ curtime (clk d') = curtime (clk d).
Proof.
  intros H; unfold first_frame; rewrite iabs_done by done; cbn [obind]; eexists; split; [done|].
  destruct (gap <? _); split_and!; try done; [by eapply grows_ev|by apply grows_refl].
Qed.

Lemma software_show_done e f d :
  status d <> NET_PLAY_RECORD -> showable f d ->
  exists d', software_show e f d = Done d' /\ grows awake d d' /\ status d' = status d /\
    (hw d' = hw d /\ recv d' = recv d) /\
    now (pc d') = now (pc d) + (if (decoded e =? 0) && negb (isDirectTexture (opts (vw d))) then t_frame e else 0).
Proof.
  intros Hs [H1 (txt & H2)]; unfold software_show; cbv zeta.
  set (d1 := if isDirectTexture (opts (vw d)) && (decoded e =? 0) then ev d (EDirect f) else d).
  assert (G1 : grows awake d d1 /\ vw d1 = vw d /\ now (pc d1) = now (pc d) /\ clk d1 = clk d).
  { subst d1; destruct (_ && _); split_and!; try done; [by eapply grows_ev|by apply grows_refl]. }
  destruct G1 as (G1 & V1 & N1 & C1); clearbody d1.
  set (d2 := if (decoded e =? 0) && negb (isDirectTexture (opts (vw d))) then took (ev d1 (EFrame f)) (t_frame e) else d1).
  assert (G2 : grows awake d1 d2 /\ vw d2 = vw d1 /\ clk d2 = clk d1 /\
    now (pc d2) = now (pc d1) + (if (decoded e =? 0) && negb (isDirectTexture (opts (vw d))) then t_frame e else 0)).
  { subst d2; destruct (_ && _); split_and!; try done; [by eapply grows_ev|by apply grows_refl|lia]. }
  destruct G2 as (G2 & V2 & C2 & N2); clearbody d2.
  destruct (first_frame_done 20 f d2) as (d3 & E3 & G3 & V3 & _ & N3 & _); [by rewrite C2, C1|].
  rewrite E3; cbn [obind].
  match goal with |- context [if status ?x =? NET_PLAY_RECORD then _ else _] => set (d4 := x) end.
  assert (G4 : grows awake d3 d4 /\ status d4 = status d3 /\ now (pc d4) = now (pc d3) /\
               mTimeZone (opts (vw d4)) = mTimeZone (opts (vw d3)) /\ hw d4 = hw d3 /\ recv d4 = recv d3).
  { subst d4; destruct (_ <? _); split_and!; try done; by apply grows_refl. }
  destruct G4 as (G4 & S4 & N4 & Z4 & HW4 & R4); clearbody d4.
  assert (HR : hw d4 = hw d /\ recv d4 = recv d) by (rewrite HW4, R4; unfold hw, recv; rewrite V3, V2, V1; done).
  assert (S : status d4 = status d) by (rewrite S4; unfold status; congruence).
  replace (status d4 =? NET_PLAY_RECORD) with false by (symmetry; apply Z.eqb_neq; congruence).
  rewrite Z4, V3, V2, V1, H2; cbn [obind].
  assert (G : grows awake d d4) by (do 3 (eapply grows_trans; [eassumption|]); done).
  destruct (decoded e =? 0) eqn:Ed; cbn [obind andb] in *; eexists; (split; [done|]);
    (split; [|split; [exact S|split; [exact HR|simpl; lia]]]).
  - eapply grows_trans; [exact G|]; exists [EOsd txt; EUnlock]; split; [|by repeat constructor].
    simpl; by rewrite <- app_assoc.
  - eapply grows_trans; [exact G|]; by eapply grows_ev.
Qed.

(** The second staleness test compares the clock in microseconds with the clock in
    milliseconds that was stored the line before. *)
Lemma stale_resets d :
  status d <> NET_PLAY_RECORD -> 1000 <= now (pc d) < 2 ^ 63 -> lasttime (clk d) = read_clock d ->
  stale d = reset_pace d.
Proof.
  intros Hs Hn Hl; unfold stale; rewrite Hl; unfold read_clock.
  rewrite (u64_small (now (pc d) / 1000)), u64_small by dlia.
  apply Z.eqb_neq in Hs; rewrite Hs; by replace (200 <? _) with true by (symmetry; apply Z.ltb_lt; dlia).
Qed.

Lemma software_pace_live f per d :
  status d <> NET_PLAY_RECORD -> 1000 <= now (pc d) < 2 ^ 63 ->
  exists d', software_pace f per d = Done d' /\ log d' = log d /\ vw d' = vw d /\
    pc d' = mkPace (clock_usec (now (pc d))) (ptimestamp f) (mFixedFrameDurationUsec (pc d)) (now (pc d)).
Proof.
  intros Hs Hn; unfold software_pace; cbv zeta.
  set (d1 := stale (set_times d _ (ptimestamp f) _)).
  assert (H1 : vw d1 = vw d /\ log d1 = log d /\ now (pc d1) = now (pc d) /\
               mFixedFrameDurationUsec (pc d1) = mFixedFrameDurationUsec (pc d))
    by (subst d1; unfold stale; destruct (_ && _); done).
  destruct H1 as (V1 & L1 & N1 & F1); clearbody d1.
  set (d2 := set_times d1 _ (read_clock d1) _).
  assert (S1 : status d2 <> NET_PLAY_RECORD) by (unfold status, d2; simpl; by rewrite V1).
  rewrite (stale_resets d2) by (done || (simpl; lia)).
  match goal with |- context [status ?x =? NET_PLAY_RECORD] => change (status x) with (status d2) end.
  apply Z.eqb_neq in S1; rewrite S1; unfold preRender; simpl.
  eexists; split; [done|]; split; [exact L1|]; split; [exact V1|]; simpl; rewrite N1, F1, u64_small; [done|].
  pose proof (clock_bounds (now (pc d))); unfold clock_usec in *; lia.
Qed.

(** What the software path does to a live frame. *)
Definition played (e : env) (f : rframe) (d d' : dec) : Prop :=
  grows awake d d' /\ EDecode f ∈ log d' /\ hw d' = hw d /\ recv d' = recv d /\
  now (pc d') = now (pc d) + t_decode e +
    (if (decoded e =? 0) && negb (isDirectTexture (opts (vw d))) then t_frame e else 0) /\
  mPrevMonoUsec (pc d') = clock_usec (now (pc d')) /\ mPrevPresentUsec (pc d') = ptimestamp f.
Definition in_time (e : env) (d : dec) : Prop :=
  1000 <= now (pc d) /\ 0 <= t_decode e /\ 0 <= t_frame e /\ now (pc d) + t_decode e + t_frame e < 2 ^ 63.

Lemma software_live e f per d :
  status d <> NET_PLAY_RECORD -> ptype f <> 0 -> showable f d -> in_time e d ->
  exists d', software e f per d = Done d' /\ played e f d d'.
Proof.
  intros Hs Ht Hf (N1 & N2 & N3 & N4); apply Z.eqb_neq in Ht; unfold software; rewrite Ht; cbv zeta.
  match goal with |- context [software_show e f ?x] => set (d2 := x) end.
  assert (H2 : grows awake d d2 /\ EDecode f ∈ log d2 /\ vw d2 = vw d /\
    now (pc d2) = now (pc d) + t_decode e /\ mFirstFrameTimeStimp (clk d2) = mFirstFrameTimeStimp (clk d)).
  { subst d2; destruct (_ =? JA_FT_IFRAME); simpl; split_and!; try done; try set_solver.
    - exists [EInit f (is_h265 f); EDecode f]; simpl; rewrite <- !app_assoc; by repeat constructor.
    - exists [EDecode f]; by repeat constructor. }
  destruct H2 as (G2 & I2 & V2 & T2 & F2); clearbody d2.
  destruct (software_show_done e f d2) as (d3 & E3 & G3 & S3 & [W3 R3] & T3).
  { unfold status; by rewrite V2. }
  { unfold showable; by rewrite V2, F2. }
  rewrite E3; cbn [obind]; rewrite V2 in T3.
  assert (S : status d3 <> NET_PLAY_RECORD) by (rewrite S3; unfold status; by rewrite V2).
  destruct (software_pace_live f per d3 S) as (d4 & E4 & L4 & V4 & P4); [rewrite T3, T2; destruct (_ && _); lia|].
  exists d4; split; [exact E4|]; unfold played; rewrite P4, L4; simpl; split_and!; try done.
  - do 2 (eapply grows_trans; [eassumption|]); by apply grows_refl.
  - destruct G3 as (new & -> & _); set_solver.
  - unfold hw; rewrite V4; fold (hw d3); rewrite W3; unfold hw; by rewrite V2.
  - unfold recv; rewrite V4; fold (recv d3); rewrite R3; unfold recv; by rewrite V2.
  - by rewrite T3, T2.
Qed.

Lemma show_live e f per d :
  status d <> NET_PLAY_RECORD -> (hw d = false \/ is_h265 f = true) -> ptype f <> JA_FT_AUDIO -> showable f d ->
  in_time e d ->
  exists d', show e f per d = Done d' /\ grows awake d d' /\ EDecode f ∈ log d' /\
    now (pc d') = now (pc d) + t_decode e +
      (if (decoded e =? 0) && negb (isDirectTexture (opts (vw d))) then t_frame e else 0) /\
    mPrevMonoUsec (pc d') = clock_usec (now (pc d')) /\ mPrevPresentUsec (pc d') = ptimestamp f.
Proof.
  intros Hs Hh Ht Hf HN; pose proof Ht as Ht'; apply Z.eqb_neq in Ht; unfold JA_FT_AUDIO in Ht.
  unfold show; cbv zeta; rewrite Ht; simpl negb; cbv iota.
  match goal with |- context [ev ?x (EWrite f per)] => set (d1 := x) end.
  assert (H1 : hw d1 = false /\ log d1 = log d /\ status d1 = status d /\ pc d1 = pc d /\ clk d1 = clk d /\
    isDirectTexture (opts (vw d1)) = isDirectTexture (opts (vw d)) /\ mTimeZone (opts (vw d1)) = mTimeZone (opts (vw d))).
  { subst d1; destruct (is_h265 f); [|destruct Hh as [Hh|Hh]; [|done]];
      unfold hw in *; simpl; rewrite ?Hh; simpl; done. }
  destruct H1 as (W1 & L1 & S1 & P1 & C1 & D1 & Z1); clearbody d1.
  change (hw (ev d1 (EWrite f per))) with (hw d1); rewrite W1.
  destruct (software_live e f per (ev d1 (EWrite f per))) as (d2 & E2 & G2 & I2 & _ & _ & T2 & M2 & Q2).
  - change (status d1 <> NET_PLAY_RECORD); congruence.
  - done.
  - unfold showable; simpl; by rewrite Z1, C1.
  - unfold in_time; simpl; by rewrite P1.
  - exists d2; split; [exact E2|]; simpl in T2; rewrite P1, D1 in T2; split_and!; try done.
    eapply grows_trans; [|exact G2]; eapply grows_ev; [simpl; by rewrite L1|done].
Qed.

(** Live pictures decoded in software are not paced.  Every frame behind the
    gate completes and is decoded without a single sleep: the time that passes is
    that of the decoder and of the display callback.  The two staleness tests
    compare the clock in microseconds with a stamp in milliseconds, so that the
    state of preRender is cleared before each call and it only records the time. *)
Theorem live_unpaced e f per d :
  status d <> NET_PLAY_RECORD -> (hw d = false \/ is_h265 f = true) -> ptype f <> JA_FT_AUDIO -> showable f d ->
  in_time e d ->
  exists d', show e f per d = Done d' /\ grows awake d d' /\ EDecode f ∈ log d' /\
    now (pc d') = now (pc d) + t_decode e +
      (if (decoded e =? 0) && negb (isDirectTexture (opts (vw d))) then t_frame e else 0) /\
    mPrevMonoUsec (pc d') = clock_usec (now (pc d')) /\ mPrevPresentUsec (pc d') = ptimestamp f.
Proof. apply show_live. Qed.

(** ** Key frames for the hardware decoder *)

Lemma tv_diff_range e t t' : -999 <= tv_diff e t t' <= 999.
Proof. unfold tv_diff, tv_ms; dlia. Qed.

Lemma hw_sleep_range rate frameDur delay :
  frameDur <= 2147482648 -> -999 <= delay ->
  exists ms, hw_sleep rate frameDur delay = Done ms /\ 0 <= ms <= 500.
Proof.
  intros HF HD; unfold hw_sleep.
  assert (HQ : forall q, 0 < q <= 30 -> cdiv 1000 q <= 1000)
    by (intros q Hq; unfold cdiv; rewrite Z.quot_div_nonneg by lia; apply Z.div_le_upper_bound; lia).
  set (dur := if frameDur <? 20 then _ else frameDur).
  assert (dur <= 2147482648).
  { subst dur; destruct (frameDur <? 20); [|done]; repeat case_match; etransitivity; try (apply HQ; lia); lia. }
  replace (2147483647 <? dur - delay) with false by lia; eexists; split; [done|]; repeat case_match; lia.
Qed.

(** The stamps can be compared and the time shown. *)
Definition presentable (f : rframe) (d : dec) : Prop :=
  i32 (mFirstFrameTimeStimp (clk d) - ptimestamp f) <> - 2 ^ 31 /\
  i32 (ptimestamp f - mLastTimestamp (clk d)) <= 2147482648 /\
  exists txt, osd W localtime (mTimeZone (opts (vw d))) (long W (ptimestamp f / 1000)) = Done txt.

Lemma hardware_frame_done e f d :
  presentable f d ->
  exists d' first txt ms, hardware_frame e f d = Done d' /\ vw d' = vw d /\ 0 <= ms <= 500 /\
    log d' = log d ++ ERaw f :: first ++ [EUnlock; EOsd txt; ESleep (ms * 1000)] /\ (first = [] \/ first = [EFirst]) /\ vid d' = vid d.
Proof.
  intros (H1 & H2 & txt & H3); unfold hardware_frame, first_frame; simpl clk; rewrite iabs_done by done; cbn [obind].
  match goal with |- context [ev ?x EUnlock] => set (d1 := x) end.
  assert (G1 : vw d1 = vw d /\ vid d1 = vid d /\ mLastTimestamp (clk d1) = mLastTimestamp (clk d) /\
    exists first, log d1 = log d ++ ERaw f :: first /\ (first = [] \/ first = [EFirst])).
  { subst d1; destruct (2000 <? _); split_and!; try done;
      [exists [EFirst]|exists []]; simpl; rewrite <- ?app_assoc; tauto. }
  destruct G1 as (V1 & I1 & T1 & first & L1 & Hf); clearbody d1; simpl vw; rewrite V1, H3; cbn [obind].
  match goal with |- context [set_times ?x (mLastTimestamp (clk ?x)) _ _] => set (d2 := x) end.
  assert (G2 : vw d2 = vw d1 /\ vid d2 = vid d1 /\ mLastTimestamp (clk d2) = mLastTimestamp (clk d1) /\ log d2 = log d1 ++ [EUnlock; EOsd txt]).
  { subst d2; destruct (200 <? _); simpl; rewrite <- app_assoc; done. }
  destruct G2 as (V2 & I2 & T2 & L2); clearbody d2; simpl clk; simpl mLastTimestamp.
  match goal with |- context [hw_sleep ?a ?b ?c] => destruct (hw_sleep_range a b c) as (ms & E & Hms) end;
    [rewrite T2, T1; exact H2|apply tv_diff_range|].
  rewrite E; cbn [obind]; eexists; exists first, txt, ms; split; [done|]; split; [simpl; congruence|].
  split; [done|]; split; [|split; [done|simpl; congruence]]; simpl; rewrite L2, L1, <- !app_assoc; by destruct Hf as [-> | ->].
Qed.

(** A key frame on its way to the hardware decoder. *)
Definition headed (f : rframe) (per : Z) (d : dec) : dec :=
  let v := vid d in
  ev (ev (set_vid d (mkVid (mVideoWidth v) (mVideoHeight v) false (mIsH265 v) (delayTime v) (delayTime1 v)))
        (EHeader f false)) (EWrite f per).
Lemma show_key e f per d :
  hw d = true -> is_h265 f = false -> ptype f = JA_FT_IFRAME -> show e f per d = hardware e f per (headed f per d).
Proof. intros Hh H5 Hk; unfold show; rewrite H5, Hk; unfold hw in *; simpl; rewrite Hh; simpl; by rewrite Hh. Qed.

Definition sized (w h : Z) (d : dec) : dec :=
  let v := vid d in set_vid d (mkVid w h (mCurrentCodec v) (mIsH265 v) (delayTime v) (delayTime1 v)).
Lemma hardware_key e f per d rt wh :
  is_h265 f = false -> ptype f = JA_FT_IFRAME ->
  H264.H264.GetWidthHeight (buf f) (zlen (buf f)) = Done (rt, wh) ->
  hardware e f per d =
    (let '(w, h) := default (0, 0) wh in
     if rt =? 0 then Done (sleep d 1000)
     else if (mMaxSupportWidth (opts (vw d)) <? w) || (mMaxSupportHeight (opts (vw d)) <? h)
     then software e f per (fall_back (sized w h d)) else hardware_frame e f (sized w h d)).
Proof.
  intros H5 Hk HG; unfold hardware, key_size; rewrite H5, Hk, HG; cbn [obind].
  replace (JA_FT_IFRAME =? JA_FT_IFRAME) with true by done; destruct (default (0, 0) wh) as [w h] eqn:E.
  destruct (rt =? 0); cbn [obind]; [done|]; by rewrite orb_false_r.
Qed.

(** What happens to a key frame when the viewer uses the hardware decoder.  If
    the H.264 parser reads its picture size without an error, the frame is dropped:
    it is not shown, the ring is not released and nothing else changes but the
    codec flag.  If the parser reports an error but has stored a size, as it does
    when a parameter set is followed by other units, the frame is handed to the
    hardware, with a pause of at most half a second; or, when the picture is larger
    than supported, a live viewer falls back to software for good: the frame is
    decoded, and the gate is shut until the next key frame. *)
Theorem hardware_key_frame e f per d rt wh :
  hw d = true -> is_h265 f = false -> ptype f = JA_FT_IFRAME ->
  H264.H264.GetWidthHeight (buf f) (zlen (buf f)) = Done (rt, wh) ->
  let '(w, h) := default (0, 0) wh in
  let o := opts (vw d) in
  (rt = 0 -> exists d', show e f per d = Done d' /\
     log d' = log d ++ [EHeader f false; EWrite f per; ESleep 1000] /\ vw d' = vw d /\ clk d' = clk d) /\
  (rt <> 0 -> w <= mMaxSupportWidth o -> h <= mMaxSupportHeight o -> presentable f d ->
     exists d' first txt ms, show e f per d = Done d' /\ vw d' = vw d /\ 0 <= ms <= 500 /\
       log d' = log d ++ [EHeader f false; EWrite f per; ERaw f] ++ first ++ [EUnlock; EOsd txt; ESleep (ms * 1000)] /\
       (first = [] \/ first = [EFirst]) /\ mVideoWidth (vid d') = w /\ mVideoHeight (vid d') = h) /\
  (rt <> 0 -> mMaxSupportWidth o < w \/ mMaxSupportHeight o < h ->
     status d <> NET_PLAY_RECORD -> showable f d -> in_time e d ->
     exists d', show e f per d = Done d' /\ EDecode f ∈ log d' /\ hw d' = false /\ recv d' = false).
Proof.
  intros Hh H5 Hk HG; rewrite (show_key e f per d Hh H5 Hk), (hardware_key e f per _ rt wh H5 Hk HG).
  destruct (default (0, 0) wh) as [w h]; cbv zeta; split_and!;
    intros Hr; [subst rt; simpl|apply Z.eqb_neq in Hr; rewrite Hr..].
  - eexists; split; [done|]; split; [|done]; simpl; by rewrite <- !app_assoc.
  - intros Hw Hb HP; simpl opts; replace (_ || _) with false by lia.
    destruct (hardware_frame_done e f (sized w h (headed f per d)) HP) as (d' & first & txt & ms & E & V & Hms & L & Hf & HV).
    exists d', first, txt, ms; rewrite E; split_and!; try done; try lia; try (by rewrite HV).
    rewrite L; simpl; by rewrite <- !app_assoc.
  - intros HB Hs Hf HN; simpl opts; replace (_ || _) with true by lia.
    destruct (software_live e f per (fall_back (sized w h (headed f per d)))) as (d' & E & G & I & W' & R' & _);
      [done|rewrite Hk; done|done|done|].
    by exists d'.
Qed.
End Thread.

(** ** Concrete turns *)

Definition demo_viewer (status : Z) (recv hard : bool) : viewer :=
  mkV (set_ses (set_ply new_ja (mkPl 0 1 1 true recv 0 PLAYBACK_STATUS_GETDATA)) (s_status (ses new_ja) true status))
    (set_zone (set_hardware new_settings hard 1920 1080) (F32.of_Z 800)).
Definition demo_dec (status : Z) (recv hard : bool) : dec :=
  mkD (demo_viewer status recv hard) (mkPace 0 0 0 5000300) (mkC 1499999999960 1499999999960 0 0 4960 4960)
    (mkVid 0 0 false false 0 0) [].
Definition demo_env (backlog : Z) : env := mkE 25 backlog 0 0 3000 9000 2000 0.
Definition key_frame (data : bytes) : rframe := mkF 1 1500000000000 0 [72; 50; 54; 52] data.
Definition delta_frame : rframe := mkF 2 1500000000000 0 [72; 50; 54; 52] [0; 0; 0; 1; 0x41].

Lemma hardware_key_frame_witness :
  (exists d', show 64 late_sleep gmtime 0 (demo_env 0) (key_frame H264.H264.demo_stream) 40 (demo_dec 1 true true) = Done d' /\
     mVideoWidth (vid d') = 640) /\
  (exists d', show 64 late_sleep gmtime 0 (demo_env 0) (key_frame ([0; 0; 0; 1] ++ H264.H264.demo_nal)) 40 (demo_dec 1 true true) = Done d' /\
     vw d' = demo_viewer 1 true true).
Proof.
  split.
  - destruct (hardware_key_frame 64 late_sleep gmtime 0 (demo_env 0) (key_frame H264.H264.demo_stream) 40
      (demo_dec 1 true true) (-1) (Some (640, 480))) as (_ & H & _); try (by vm_compute).
    destruct H as (d' & first & txt & ms & E & _ & _ & _ & _ & HW & _).
    + discriminate.
    + discriminate.
    + discriminate.
    + split; [by vm_compute|]; split; [by vm_compute|]; eexists; vm_compute; reflexivity.
    + exists d'; split; [exact E|exact HW].
  - destruct (hardware_key_frame 64 late_sleep gmtime 0 (demo_env 0) (key_frame ([0; 0; 0; 1] ++ H264.H264.demo_nal)) 40
      (demo_dec 1 true true) 0 (Some (640, 480))) as (H & _); try (by vm_compute).
    destruct H as (d' & E & _ & V & _); [done|]; exists d'; split; [exact E|exact V].
Defined.

Lemma live_unpaced_witness :
  exists d', show 64 late_sleep gmtime 0 (demo_env 0) delta_frame 40 (demo_dec 1 true false) = Done d' /\
    now (pc d') = 5011300.
Proof.
  destruct (live_unpaced 64 late_sleep gmtime 0 (demo_env 0) delta_frame 40 (demo_dec 1 true false))
    as (d' & E & _ & _ & N & _).
  - discriminate.
  - by left.
  - discriminate.
  - split; [by vm_compute|]; eexists; vm_compute; reflexivity.
  - unfold in_time; simpl; lia.
  - exists d'; split; [exact E|]; rewrite N; by vm_compute.
Defined.

Lemma decode_gate_witness :
  exists d', turns 64 late_sleep gmtime 0 [(demo_env 0, Some delta_frame); (demo_env 0, None)] (demo_dec 1 false true) = Done d' /\
    recv d' = false.
Proof.
  destruct (decode_gate 64 late_sleep gmtime 0 [(demo_env 0, Some delta_frame); (demo_env 0, None)] (demo_dec 1 false true))
    as (d' & E & R & _).
  - done.
  - repeat constructor; by vm_compute.
  - exists d'; split; [exact E|exact R].
Defined.

Lemma playback_flow_witness :
  exists d', turns 64 late_sleep gmtime 0 [(demo_env 151, None); (demo_env 100, None); (demo_env 49, None)]
               (demo_dec 2 true true) = Done d' /\
    mCommand (core (vw d')) = [command_of 0 true; command_of 0 false].
Proof.
  eexists; split; [vm_compute; reflexivity|].
  pose proof (playback_flow 64 late_sleep gmtime 0 [(demo_env 151, None); (demo_env 100, None); (demo_env 49, None)]
    (demo_dec 2 true true) _ (conj eq_refl eq_refl) eq_refl) as (_ & H & _); exact H.
Defined.
End Decode.
