(* ===== verification/Circle.v ===== *)
(** The search for the picture circle of a fish-eye camera: JAMedia::TestCircRound
    and JAMedia::DetectCircleData (gles/Media/JAMedia.cpp).  The luminance plane of a
    decoded picture is scanned for pixels brighter than a threshold; the theorems
    give the extents that the four scans find and the circle they make.  The [float]
    comparisons of DetectCircleData are computed on [SpecFloat], [double] constants
    included. *)
From Stdlib Require Import SpecFloat.
From S2P Require Import Prelude Float32.

Module Circle.

(** The part of [AVFrame] the code reads: [linesize[0]] and [data[0]]. *)
Record AVFrame := mkAV { width : Z; height : Z; linesize : Z; data : bytes }.

(** The loops [for (i = lo; i < lo + n; i++)] with a [break] at the first hit, and
    their counterpart downwards. *)
Fixpoint find_up (p : Z -> bool) (lo : Z) (n : nat) : option Z :=
  match n with
  | O => None
  | S n => if p lo then Some lo else find_up p (lo + 1) n
  end.
Fixpoint find_down (p : Z -> bool) (hi : Z) (n : nat) : option Z :=
  match n with
  | O => None
  | S n => if p hi then Some hi else find_down p (hi - 1) n
  end.
Fixpoint range (lo : Z) (n : nat) : list Z :=
  match n with O => [] | S n => lo :: range (lo + 1) n end.

(** The outer loops: the least (greatest) hit of the lines. *)
Fixpoint scan_min (find : Z -> option Z) (ys : list Z) (acc : Z) : Z :=
  match ys with
  | [] => acc
  | y :: ys => scan_min find ys (match find y with Some x => if x <? acc then x else acc | None => acc end)
  end.
Fixpoint scan_max (find : Z -> option Z) (ys : list Z) (acc : Z) : Z :=
  match ys with
  | [] => acc
  | y :: ys => scan_max find ys (match find y with Some x => if acc <? x then x else acc | None => acc end)
  end.

(** [dbuf]: 1 where the pixel is brighter than [opt], row by row. *)
Definition dbuf_of (f : AVFrame) (buf : bytes) (opt : Z) : list Z :=
  flat_map (fun y => map (fun x => if opt <? zget buf (y * linesize f + x) then 1 else 0)
                         (range 0 (Z.to_nat (width f))))
           (range 0 (Z.to_nat (height f))).
(** The copies: [memcpy] of the plane, and the filling loop, whose last access is in
    the last row. *)
Definition binarise (f : AVFrame) (opt : Z) : outcome (list Z) :=
  let* buf := load (data f) 0 (linesize f * height f) in
  if (0 <? width f) && (0 <? height f) && (linesize f <? width f) then Fault
  else Done (dbuf_of f buf opt).

(** A loop's number of turns. *)
Definition turns_between (lo hi : Z) : nat := Z.to_nat (hi - lo).

Section Scan.
Context (w h : Z) (dbuf : list Z).
Definition bright (x y : Z) : bool := zget dbuf (y * w + x) =? 1.
Definition row_band : list Z := range (cdiv h 3) (turns_between (cdiv h 3) (cdiv (h * 2) 3)).
Definition col_band : list Z := range (cdiv w 3) (turns_between (cdiv w 3) (cdiv w 2)).

Definition minx : Z := scan_min (fun y => find_up (fun x => bright x y) 10 (turns_between 10 w)) row_band (w - 1).
Definition maxx : Z := scan_max (fun y => find_down (fun x => bright x y) (w - 1) (Z.to_nat w)) row_band 0.
Definition miny : Z := scan_min (fun x => find_up (fun y => bright x y) 0 (Z.to_nat h)) col_band h.
Definition maxy : Z := scan_max (fun x => find_down (fun y => bright x y) (h - 1) (turns_between 1 h)) col_band 0.
End Scan.

(** ** [DetectCircleData] *)

(** A [float] read as a [double], and the constants of the source. *)
Definition dbl (x : spec_float) : spec_float :=
  match x with
  | S754_finite s m e => binary_normalize 53 1024 (if s then Z.neg m else Z.pos m) e false
  | _ => x
  end.
Definition c1_30 : spec_float := SFdiv 53 1024 (binary_normalize 53 1024 130 0 false) (binary_normalize 53 1024 100 0 false).
Definition c0_7 : spec_float := SFdiv 53 1024 (binary_normalize 53 1024 7 0 false) (binary_normalize 53 1024 10 0 false).

Record box := mkBox { left : Z; right : Z; top : Z; bottom : Z }.

(** The square in the middle of the picture, 50 pixels narrower on each side. *)
Definition middle (height width : Z) : box :=
  let lhalf := cdiv width 2 - cdiv height 2 in
  mkBox (lhalf + 50) (width - lhalf - 50) 50 (height - 50).

Definition DetectCircleData (b : box) (height width : Z) : box :=
  let lw := F32.of_Z (right b - left b) in
  let lh := F32.of_Z (bottom b - top b) in
  let lcut := F32.div lw lh in
  let b := if SFltb c1_30 (dbl lcut) then
             if F32.ltb lw (F32.of_Z height) then middle height width
             else mkBox (left b) (right b) 0 (height - 1)
           else b in
  let limit := SFmul 53 1024 (dbl (F32.of_Z height)) c0_7 in
  if SFltb (dbl lw) limit || SFltb (dbl lh) limit then
    if (height =? 720) || (height =? 1080) then mkBox 100 (width - 100) 0 (height - 1)
    else middle height width
  else b.

(** ** [TestCircRound] *)

(** [mRadius], [mCenterX], [mCenterY]. *)
Record circle := mkCircle { mRadius : Z; mCenterX : Z; mCenterY : Z }.

(** The window of a known circle, cut to the picture. *)
Definition known_window (c : circle) (f : AVFrame) : box :=
  let l := mCenterX c - mRadius c in
  let r := mCenterX c + mRadius c in
  let t := mCenterY c - mRadius c in
  let b := mCenterY c + mRadius c in
  mkBox (if l <? 0 then 0 else l) (if width f <? r then width f else r)
        (if t <? 0 then 0 else t) (if height f <? b then height f else b).

Definition circle_of (b : box) : circle :=
  let radius := cdiv (right b - left b) 2 in
  mkCircle radius (left b + radius) (top b + cdiv (bottom b - top b) 2).

Definition extents (f : AVFrame) (dbuf : list Z) : box :=
  let w := width f in
  let h := height f in
  mkBox (minx w h dbuf) (maxx w h dbuf) (miny w h dbuf) (maxy w h dbuf).

Definition TestCircRound (c : circle) (f : AVFrame) (opt : Z) : outcome (circle * box) :=
  if negb (mRadius c =? 0) then Done (c, known_window c f)
  else
    let* dbuf := binarise f opt in
    let e := extents f dbuf in
    Done (circle_of e, DetectCircleData e (height f) (width f)).

(** ** Loops *)

Lemma in_range x lo n : In x (range lo n) <-> lo <= x < lo + Z.of_nat n.
Proof.
  revert lo; induction n as [|n IH]; intros lo; cbn [range In]; [lia|].
  rewrite IH; lia.
Qed.
Lemma range_length lo n : length (range lo n) = n.
Proof. revert lo; induction n; intros; simpl; auto. Qed.
Lemma range_lookup lo n i : (i < n)%nat -> range lo n !! i = Some (lo + Z.of_nat i).
Proof.
  revert lo i; induction n as [|n IH]; intros lo [|i] H; cbn [range]; try lia; simpl; [f_equal; lia|].
  rewrite IH by lia; f_equal; lia.
Qed.

Lemma find_up_spec p lo n :
  match find_up p lo n with
  | Some x => lo <= x < lo + Z.of_nat n /\ p x = true /\ forall i, lo <= i < x -> p i = false
  | None => forall i, lo <= i < lo + Z.of_nat n -> p i = false
  end.
Proof.
  revert lo; induction n as [|n IH]; intros lo; cbn [find_up]; [intros; lia|].
  destruct (p lo) eqn:E; [split; [lia|]; split; [done|intros; lia]|].
  specialize (IH (lo + 1)); destruct (find_up p (lo + 1) n) as [x|].
  - destruct IH as (Hr & Hp & Hb); split; [lia|]; split; [done|].
    intros i Hi; destruct (Z.eq_dec i lo) as [->|]; [done|]; apply Hb; lia.
  - intros i Hi; destruct (Z.eq_dec i lo) as [->|]; [done|]; apply IH; lia.
Qed.
Lemma find_down_spec p hi n :
  match find_down p hi n with
  | Some x => hi - Z.of_nat n < x <= hi /\ p x = true /\ forall i, x < i <= hi -> p i = false
  | None => forall i, hi - Z.of_nat n < i <= hi -> p i = false
  end.
Proof.
  revert hi; induction n as [|n IH]; intros hi; cbn [find_down]; [intros; lia|].
  destruct (p hi) eqn:E; [split; [lia|]; split; [done|intros; lia]|].
  specialize (IH (hi - 1)); destruct (find_down p (hi - 1) n) as [x|].
  - destruct IH as (Hr & Hp & Hb); split; [lia|]; split; [done|].
    intros i Hi; destruct (Z.eq_dec i hi) as [->|]; [done|]; apply Hb; lia.
  - intros i Hi; destruct (Z.eq_dec i hi) as [->|]; [done|]; apply IH; lia.
Qed.

(** The outer loops return the least and the greatest of their initial value and the
    hits. *)
Lemma scan_min_spec find ys acc :
  scan_min find ys acc <= acc /\
  (forall y x, In y ys -> find y = Some x -> scan_min find ys acc <= x) /\
  (scan_min find ys acc = acc \/ exists y, In y ys /\ find y = Some (scan_min find ys acc)).
Proof.
  revert acc; induction ys as [|y0 ys IH]; intros acc; cbn [scan_min];
    [split; [lia|]; split; [intros ? ? []|by left]|].
  set (a := match find y0 with Some x => if x <? acc then x else acc | None => acc end).
  assert (Ha : a <= acc /\ (forall x, find y0 = Some x -> a <= x) /\ (a = acc \/ find y0 = Some a)).
  { subst a; destruct (find y0) as [x|]; [destruct (x <? acc) eqn:E|].
    - split; [lia|]; split; [intros ? [= <-]; lia|by right].
    - split; [lia|]; split; [intros ? [= <-]; lia|by left].
    - split; [lia|]; split; [done|by left]. }
  destruct (IH a) as (H1 & H2 & H3); destruct Ha as (A1 & A2 & A3).
  split; [lia|]; split.
  - intros y x [<-|Hy] E; [specialize (A2 _ E); lia|by apply (H2 y)].
  - destruct H3 as [H3|(y & Hy & E)]; [|right; exists y; split; [by right|done]].
    destruct A3 as [A3|A3]; [left; congruence|].
    right; exists y0; split; [by left|]; by rewrite H3.
Qed.
Lemma scan_max_min find ys acc :
  scan_max find ys acc = - scan_min (fun y => option_map Z.opp (find y)) ys (- acc).
Proof.
  revert acc; induction ys as [|y ys IH]; intros acc; cbn [scan_max scan_min]; [lia|].
  rewrite IH; f_equal; f_equal; destruct (find y) as [x|]; cbn [option_map]; [|done].
  replace (- x <? - acc) with (acc <? x) by lia; by destruct (acc <? x).
Qed.
Lemma scan_max_spec find ys acc :
  acc <= scan_max find ys acc /\
  (forall y x, In y ys -> find y = Some x -> x <= scan_max find ys acc) /\
  (scan_max find ys acc = acc \/ exists y, In y ys /\ find y = Some (scan_max find ys acc)).
Proof.
  rewrite scan_max_min.
  destruct (scan_min_spec (fun y => option_map Z.opp (find y)) ys (- acc)) as (H1 & H2 & H3).
  split; [lia|]; split.
  - intros y x Hy E; specialize (H2 y (- x) Hy); rewrite E in H2; specialize (H2 eq_refl); lia.
  - destruct H3 as [H3|(y & Hy & E)]; [left; lia|].
    right; exists y; split; [done|].
    destruct (find y) as [x|]; [|done]; injection E as <-; f_equal; lia.
Qed.

(** ** The binary picture *)

Lemma in_flat_lookup {A} (g : Z -> list A) (n : nat) (m : nat) lo y x :
  (forall i, length (g i) = n) -> (y < m)%nat -> (x < n)%nat ->
  flat_map g (range lo m) !! (y * n + x)%nat = g (lo + Z.of_nat y) !! x.
Proof.
  intros Hg; revert lo y; induction m as [|m IH]; intros lo [|y] Hy Hx; try lia; cbn [range flat_map].
  - rewrite lookup_app_l by (rewrite Hg; lia); f_equal; f_equal; lia.
  - rewrite lookup_app_r by (rewrite Hg; lia); rewrite Hg.
    replace (S y * n + x - n)%nat with (y * n + x)%nat by lia.
    rewrite IH by lia; f_equal; f_equal; lia.
Qed.

Lemma bright_of f buf opt x y :
  0 <= x < width f -> 0 <= y < height f ->
  bright (width f) (dbuf_of f buf opt) x y = (opt <? zget buf (y * linesize f + x)).
Proof.
  intros Hx Hy; unfold bright, dbuf_of, zget at 1, znth.
  replace (y * width f + x <? 0) with false by nia.
  replace (Z.to_nat (y * width f + x)) with (Z.to_nat y * Z.to_nat (width f) + Z.to_nat x)%nat by nia.
  rewrite in_flat_lookup; [|intros; by rewrite length_map, range_length|lia|lia].
  rewrite list_lookup_fmap, range_lookup by lia; cbn [fmap option_fmap option_map default].
  replace (0 + Z.of_nat (Z.to_nat y)) with y by lia; replace (0 + Z.of_nat (Z.to_nat x)) with x by lia.
  by destruct (_ <? _).
Qed.

(** ** What the scans find *)

(** [m] is the least element of [P], or the initial value [d] when it is smaller or
    [P] is empty; and the mirror image. *)
Definition least (P : Z -> Prop) (d m : Z) : Prop := m <= d /\ (m = d \/ P m) /\ forall x, P x -> m <= x.
Definition greatest (P : Z -> Prop) (d m : Z) : Prop := d <= m /\ (m = d \/ P m) /\ forall x, P x -> x <= m.

Lemma least_ext (P Q : Z -> Prop) d m : (forall x, P x <-> Q x) -> least P d m -> least Q d m.
Proof. intros H (H1 & H2 & H3); split_and!; [done|rewrite <- H; tauto|intros x Hx; by apply H3, H]. Qed.
Lemma greatest_ext (P Q : Z -> Prop) d m : (forall x, P x <-> Q x) -> greatest P d m -> greatest Q d m.
Proof. intros H (H1 & H2 & H3); split_and!; [done|rewrite <- H; tauto|intros x Hx; by apply H3, H]. Qed.

Lemma scan_up_least (p : Z -> Z -> bool) lo n ys acc :
  least (fun x => lo <= x < lo + Z.of_nat n /\ exists y, In y ys /\ p x y = true) acc
    (scan_min (fun y => find_up (fun x => p x y) lo n) ys acc).
Proof.
  destruct (scan_min_spec (fun y => find_up (fun x => p x y) lo n) ys acc) as (H1 & H2 & H3).
  split_and!; [done| |].
  - destruct H3 as [H3|(y & Hy & E)]; [by left|right].
    pose proof (find_up_spec (fun x => p x y) lo n) as H; rewrite E in H; destruct H as (Hr & Hp & _); eauto.
  - intros x (Hr & y & Hy & Hp); specialize (H2 y).
    pose proof (find_up_spec (fun x => p x y) lo n) as H; destruct (find_up _ _ _) as [x'|].
    + destruct H as (_ & _ & Hb); specialize (H2 x' Hy eq_refl).
      destruct (Z.le_gt_cases x' x); [lia|]; rewrite Hb in Hp by lia; done.
    + rewrite H in Hp by lia; done.
Qed.
Lemma scan_down_greatest (p : Z -> Z -> bool) hi n ys acc :
  greatest (fun x => hi - Z.of_nat n < x <= hi /\ exists y, In y ys /\ p x y = true) acc
    (scan_max (fun y => find_down (fun x => p x y) hi n) ys acc).
Proof.
  destruct (scan_max_spec (fun y => find_down (fun x => p x y) hi n) ys acc) as (H1 & H2 & H3).
  split_and!; [done| |].
  - destruct H3 as [H3|(y & Hy & E)]; [by left|right].
    pose proof (find_down_spec (fun x => p x y) hi n) as H; rewrite E in H; destruct H as (Hr & Hp & _); eauto.
  - intros x (Hr & y & Hy & Hp); specialize (H2 y).
    pose proof (find_down_spec (fun x => p x y) hi n) as H; destruct (find_down _ _ _) as [x'|].
    + destruct H as (_ & _ & Hb); specialize (H2 x' Hy eq_refl).
      destruct (Z.le_gt_cases x x'); [lia|]; rewrite Hb in Hp by lia; done.
    + rewrite H in Hp by lia; done.
Qed.

(** A pixel of the plane is lit when it exceeds the threshold. *)
Definition lit (f : AVFrame) (opt x y : Z) : bool := opt <? zget (data f) (y * linesize f + x).

(** A picture whose plane is in memory, with the alignment of its rows. *)
Record plane_ok (f : AVFrame) : Prop := {
  ok_width : 0 < width f;
  ok_height : 0 < height f;
  ok_stride : width f <= linesize f;
  ok_data : linesize f * height f <= zlen (data f)
}.

Lemma binarise_spec f opt :
  plane_ok f -> exists db, binarise f opt = Done db /\
    forall x y, 0 <= x < width f -> 0 <= y < height f -> bright (width f) db x y = lit f opt x y.
Proof.
  intros [Hw Hh Hs Hd]; unfold binarise, load.
  rewrite (proj2 (inb_spec _ _ _)) by nia; cbn [obind].
  replace (linesize f <? width f) with false by lia; rewrite andb_false_r.
  eexists; split; [done|]; intros x y Hx Hy; rewrite bright_of by done.
  unfold lit; f_equal; unfold zget, znth; replace (_ <? 0) with false by nia.
  rewrite lookup_take_lt, drop_0 by nia; done.
Qed.

Lemma cdiv_nonneg a b : 0 <= a -> 0 < b -> cdiv a b = a / b.
Proof. intros; apply Z.quot_div_nonneg; lia. Qed.

(** The rows and columns the scans look at. *)
Definition in_rows (f : AVFrame) (y : Z) : Prop := height f / 3 <= y < height f * 2 / 3.
Definition in_cols (f : AVFrame) (x : Z) : Prop := width f / 3 <= x < width f / 2.

(** The four scans of a picture return the extents of what is lit: the leftmost
    column (from column 10) and the rightmost one among the rows of the middle third,
    the topmost row and the lowest one (below the first) among the columns from a
    third to the half of the width; a scan that meets nothing lit leaves its initial
    value. *)
Theorem extents_spec f opt :
  plane_ok f -> exists db, binarise f opt = Done db /\
    let e := extents f db in
    least (fun x => 10 <= x < width f /\ exists y, in_rows f y /\ lit f opt x y = true) (width f - 1) (left e) /\
    greatest (fun x => 0 <= x < width f /\ exists y, in_rows f y /\ lit f opt x y = true) 0 (right e) /\
    least (fun y => 0 <= y < height f /\ exists x, in_cols f x /\ lit f opt x y = true) (height f) (top e) /\
    greatest (fun y => 0 < y < height f /\ exists x, in_cols f x /\ lit f opt x y = true) 0 (bottom e).
Proof.
  intros Hok; destruct (binarise_spec f opt Hok) as (db & E & Hb); exists db; split; [done|].
  destruct Hok as [Hw Hh _ _]; cbn [extents left right top bottom].
  unfold minx, maxx, miny, maxy, row_band, col_band, turns_between, in_rows, in_cols.
  rewrite !cdiv_nonneg by lia.
  pose proof (Z.div_le_upper_bound (height f * 2) 3 (height f) ltac:(lia) ltac:(lia)).
  pose proof (Z.div_le_upper_bound (width f) 2 (width f) ltac:(lia) ltac:(lia)).
  pose proof (Z.div_pos (height f) 3 ltac:(lia) ltac:(lia)).
  pose proof (Z.div_pos (width f) 3 ltac:(lia) ltac:(lia)).
  split_and!; (eapply least_ext + eapply greatest_ext);
    [|apply scan_up_least with (p := fun x y => bright (width f) db x y)
     |
     |apply scan_down_greatest with (p := fun x y => bright (width f) db x y)
     |
     |apply scan_up_least with (p := fun y x => bright (width f) db x y)
     |
     |apply scan_down_greatest with (p := fun y x => bright (width f) db x y)].
  all: intros u; split.
  all: intros (Hu & v & Hv & Hl); (split; [lia|exists v]); try rewrite in_range in *;
    (split; [lia|]); (rewrite Hb in * by lia) || (rewrite <- Hb in Hl by lia; idtac); auto.
Qed.

(** ** A disc *)

(** What is lit is the disc of radius [r] around [(cx, cy)]. *)
Definition shows_disc (f : AVFrame) (opt cx cy r : Z) : Prop :=
  forall x y, 0 <= x < width f -> 0 <= y < height f ->
    lit f opt x y = ((x - cx) * (x - cx) + (y - cy) * (y - cy) <=? r * r).

(** The disc lies in the part of the picture that the scans cover. *)
Record disc_in_view (f : AVFrame) (cx cy r : Z) : Prop := {
  dv_radius : 1 <= r;
  dv_left : 10 <= cx - r;
  dv_right : cx + r < width f;
  dv_top : 0 < cy - r;
  dv_bottom : cy + r < height f;
  dv_row : in_rows f cy;
  dv_col : exists x, in_cols f x /\ (x - cx) * (x - cx) <= r * r
}.

Lemma square_bound b r : 0 <= r -> b * b <= r * r -> - r <= b <= r.
Proof. intros; nia. Qed.
Lemma disc_bound a b r : 0 <= r -> a * a + b * b <= r * r -> (- r <= a <= r) /\ (- r <= b <= r).
Proof. intros; split; apply square_bound; nia. Qed.

Lemma disc_columns f opt cx cy r m M :
  shows_disc f opt cx cy r -> disc_in_view f cx cy r ->
  least (fun x => 10 <= x < width f /\ exists y, in_rows f y /\ lit f opt x y = true) (width f - 1) m ->
  greatest (fun x => 0 <= x < width f /\ exists y, in_rows f y /\ lit f opt x y = true) 0 M ->
  m = cx - r /\ M = cx + r.
Proof.
  intros Hd [Hr Hl Hrt Ht Hb Hrow _] (_ & Hm & Hm') (_ & HM & HM').
  pose proof (Z.div_le_upper_bound (height f * 2) 3 (height f) ltac:(lia) ltac:(lia)).
  pose proof (Z.div_pos (height f) 3 ltac:(lia) ltac:(lia)).
  assert (E1 : m <= cx - r).
  { apply Hm'; split; [lia|]; exists cy; split; [done|]; rewrite Hd by lia; apply Z.leb_le; nia. }
  assert (E2 : cx + r <= M).
  { apply HM'; split; [lia|]; exists cy; split; [done|]; rewrite Hd by lia; apply Z.leb_le; nia. }
  split.
  - destruct Hm as [->|(Hb1 & y & Hy & Hl1)]; [lia|].
    unfold in_rows in Hy; rewrite Hd in Hl1 by lia; apply Z.leb_le in Hl1.
    destruct (disc_bound _ _ r ltac:(lia) Hl1) as [B _]; lia.
  - destruct HM as [->|(Hb1 & y & Hy & Hl1)]; [lia|].
    unfold in_rows in Hy; rewrite Hd in Hl1 by lia; apply Z.leb_le in Hl1.
    destruct (disc_bound _ _ r ltac:(lia) Hl1) as [B _]; lia.
Qed.

(** The chords are symmetric to the centre's row. *)
Lemma disc_rows f opt cx cy r m M :
  shows_disc f opt cx cy r -> disc_in_view f cx cy r ->
  least (fun y => 0 <= y < height f /\ exists x, in_cols f x /\ lit f opt x y = true) (height f) m ->
  greatest (fun y => 0 < y < height f /\ exists x, in_cols f x /\ lit f opt x y = true) 0 M ->
  m + M = 2 * cy /\ m <= cy.
Proof.
  intros Hd [Hr Hl Hrt Ht Hb _ (xc & Hc & Hx)] (_ & Hm & Hm') (_ & HM & HM').
  pose proof (Z.div_le_upper_bound (width f) 2 (width f) ltac:(lia) ltac:(lia)).
  pose proof (Z.div_pos (width f) 3 ltac:(lia) ltac:(lia)).
  assert (Hlit : forall x y, in_cols f x -> 0 <= y < height f -> lit f opt x y = true ->
    cy - r <= y <= cy + r /\ lit f opt x (2 * cy - y) = true).
  { intros x y Hx1 Hy Hl1; unfold in_cols in Hx1; rewrite Hd in Hl1 by lia; apply Z.leb_le in Hl1.
    destruct (disc_bound (x - cx) (y - cy) r ltac:(lia) Hl1) as [_ B].
    split; [lia|]; rewrite Hd by lia; apply Z.leb_le; lia. }
  assert (Hcy : lit f opt xc cy = true) by (unfold in_cols in Hc; rewrite Hd by lia; apply Z.leb_le; nia).
  assert (E1 : m <= cy) by (apply Hm'; split; [lia|]; eauto).
  assert (E2 : cy <= M) by (apply HM'; split; [lia|]; eauto).
  destruct Hm as [->|(Hb1 & x1 & Hx1 & Hl1)]; [lia|]; destruct HM as [->|(Hb2 & x2 & Hx2 & Hl2)]; [lia|].
  destruct (Hlit x1 m Hx1 ltac:(lia) Hl1) as [B1 L1]; destruct (Hlit x2 M Hx2 ltac:(lia) Hl2) as [B2 L2].
  assert (2 * cy - m <= M) by (apply HM'; split; [lia|]; eauto).
  assert (m <= 2 * cy - M) by (apply Hm'; split; [lia|]; eauto); lia.
Qed.

(** C37: a disc is found exactly: on a picture whose lit pixels are a disc that lies
    within the scanned part, TestCircRound without a known circle sets the radius
    and the centre of the disc, although the columns it scans from the top need not
    contain the centre. *)
Theorem circle_found f opt cx cy r c :
  plane_ok f -> mRadius c = 0 -> shows_disc f opt cx cy r -> disc_in_view f cx cy r ->
  exists b, TestCircRound c f opt = Done (mkCircle r cx cy, b).
Proof.
  intros Hok Hc Hd Hv; destruct (extents_spec f opt Hok) as (db & E & HL & HR & HT & HB).
  unfold TestCircRound; rewrite Hc, E; cbn [Z.eqb negb obind].
  eexists; repeat f_equal; unfold circle_of.
  destruct (disc_columns f opt cx cy r _ _ Hd Hv HL HR) as [-> ->].
  destruct (disc_rows f opt cx cy r _ _ Hd Hv HT HB) as [Es Em].
  set (t := top (extents f db)) in *; set (b := bottom (extents f db)) in *.
  pose proof (dv_radius _ _ _ _ Hv).
  replace b with (2 * cy - t) by lia; rewrite !cdiv_nonneg by lia.
  replace (cx + r - (cx - r)) with (r * 2) by lia; replace (2 * cy - t - t) with ((cy - t) * 2) by lia.
  rewrite !Z.div_mul by lia; f_equal; lia.
Qed.

(** A picture with nothing lit in the scanned part (a dark first frame) sets a
    negative radius, and whatever the later pictures show the circle stays: the
    search is only done while the radius is 0. *)
Theorem dark_frame_sticks f opt c :
  plane_ok f -> 3 <= width f -> mRadius c = 0 ->
  (forall x y, 0 <= x < width f -> 0 <= y < height f -> lit f opt x y = false) ->
  exists c' b, TestCircRound c f opt = Done (c', b) /\ mRadius c' = - ((width f - 1) / 2) /\ mRadius c' < 0 /\
    forall f' opt', exists b', TestCircRound c' f' opt' = Done (c', b').
Proof.
  intros Hok Hw Hc Hdark; destruct (extents_spec f opt Hok) as (db & E & (_ & HL & _) & (_ & HR & _) & _).
  destruct Hok as [_ Hh _ _].
  assert (forall y, in_rows f y -> 0 <= y < height f) as Hrow.
  { intros y Hy; unfold in_rows in Hy.
    pose proof (Z.div_le_upper_bound (height f * 2) 3 (height f) ltac:(lia) ltac:(lia)).
    pose proof (Z.div_pos (height f) 3 ltac:(lia) ltac:(lia)); lia. }
  assert (left (extents f db) = width f - 1) as EL.
  { destruct HL as [?|(Hx & y & Hy & Hl)]; [done|]; rewrite Hdark in Hl; [done|lia|auto]. }
  assert (right (extents f db) = 0) as ER.
  { destruct HR as [?|(Hx & y & Hy & Hl)]; [done|]; rewrite Hdark in Hl; [done|lia|auto]. }
  unfold TestCircRound at 1; rewrite Hc, E; cbn [Z.eqb negb obind]; do 2 eexists; split; [done|].
  unfold circle_of; rewrite EL, ER; cbn [mRadius].
  replace (0 - (width f - 1)) with (- (width f - 1)) by lia.
  assert (cdiv (- (width f - 1)) 2 = - ((width f - 1) / 2)) as Er.
  { unfold cdiv; rewrite Z.quot_opp_l by lia; f_equal; apply Z.quot_div_nonneg; lia. }
  rewrite Er; split; [done|]; assert (1 <= (width f - 1) / 2) by (apply Z.div_le_lower_bound; lia).
  split; [lia|]; intros f' opt'; unfold TestCircRound; cbn [mRadius].
  replace (_ =? 0) with false by lia; cbn [negb]; eauto.
Qed.

(** The window of a known circle whose centre is in the picture lies in the picture. *)
Lemma known_window_in c f :
  0 < mRadius c -> 0 <= mCenterX c <= width f -> 0 <= mCenterY c <= height f ->
  let b := known_window c f in
  0 <= left b <= right b /\ right b <= width f /\ 0 <= top b <= bottom b /\ bottom b <= height f.
Proof. intros; unfold known_window in *; subst b; cbn [left right top bottom]; case_bool; lia. Qed.

(** ** A concrete picture *)

Definition disc_plane (w h ls cx cy r : Z) : bytes :=
  flat_map (fun y => map (fun x => if (x - cx) * (x - cx) + (y - cy) * (y - cy) <=? r * r then 200 else 16)
                         (range 0 (Z.to_nat ls))) (range 0 (Z.to_nat h)).
Definition demo_data : bytes := Eval vm_compute in disc_plane 40 30 48 20 15 8.
Definition demo_frame : AVFrame := mkAV 40 30 48 demo_data.
Definition dark_frame : AVFrame := mkAV 40 30 48 (replicate 1440 16).

Definition all_pixels (f : AVFrame) (p : Z -> Z -> bool) : bool :=
  forall_range (Z.to_nat (height f)) 0 (fun y => forall_range (Z.to_nat (width f)) 0 (fun x => p x y)).
Lemma all_pixels_spec f p :
  all_pixels f p = true -> forall x y, 0 <= x < width f -> 0 <= y < height f -> p x y = true.
Proof.
  intros H x y Hx Hy; unfold all_pixels in H.
  pose proof (forall_range_spec _ _ _ H y ltac:(lia)) as Hr; cbv beta in Hr.
  apply (forall_range_spec _ _ _ Hr x ltac:(lia)).
Qed.

Lemma demo_plane : plane_ok demo_frame.
Proof. constructor; vm_compute; congruence. Qed.
Lemma demo_disc : shows_disc demo_frame 130 20 15 8.
Proof.
  assert (H : all_pixels demo_frame (fun x y => Bool.eqb (lit demo_frame 130 x y)
                ((x - 20) * (x - 20) + (y - 15) * (y - 15) <=? 8 * 8)) = true) by (vm_compute; reflexivity).
  intros x y Hx Hy; apply eqb_prop; exact (all_pixels_spec demo_frame _ H x y Hx Hy).
Qed.
Lemma demo_view : disc_in_view demo_frame 20 15 8.
Proof.
  constructor; try (cbn; lia); [unfold in_rows; vm_compute; split; congruence|].
  exists 19; split; [unfold in_cols; vm_compute; split; congruence|lia].
Qed.

Lemma circle_found_witness : exists b, TestCircRound (mkCircle 0 0 0) demo_frame 130 = Done (mkCircle 8 20 15, b).
Proof.
  apply (circle_found demo_frame 130 20 15 8); [apply demo_plane|done|apply demo_disc|apply demo_view].
Defined.

Lemma extents_spec_witness : exists db, binarise demo_frame 130 = Done db /\ left (extents demo_frame db) <= 39.
Proof.
  destruct (extents_spec demo_frame 130 demo_plane) as (db & E & (H & _) & _); exists db; exact (conj E H).
Defined.

Lemma dark_plane : plane_ok dark_frame.
Proof. constructor; vm_compute; congruence. Qed.
Lemma dark_dark x y : 0 <= x < width dark_frame -> 0 <= y < height dark_frame -> lit dark_frame 130 x y = false.
Proof.
  assert (H : all_pixels dark_frame (fun x y => negb (lit dark_frame 130 x y)) = true) by (vm_compute; reflexivity).
  intros Hx Hy; apply negb_true_iff; exact (all_pixels_spec dark_frame _ H x y Hx Hy).
Qed.
Lemma dark_frame_sticks_witness :
  exists c' b, TestCircRound (mkCircle 0 0 0) dark_frame 130 = Done (c', b) /\ mRadius c' = - (39 / 2).
Proof.
  destruct (dark_frame_sticks dark_frame 130 (mkCircle 0 0 0) dark_plane ltac:(cbn; lia) eq_refl dark_dark)
    as (c' & b & H1 & H2 & _); exists c', b; exact (conj H1 H2).
Defined.

(** The black bars of a 1280x720 wall camera are cut, and a picture too small for a
    circle is replaced by the middle square. *)
Example detect_720 : DetectCircleData (mkBox 59 1244 4 719) 720 1280 = mkBox 59 1244 0 719.
Proof. vm_compute; reflexivity. Qed.
Example detect_small : DetectCircleData (mkBox 600 700 300 400) 960 1280 = mkBox 210 1070 50 910.
Proof. vm_compute; reflexivity. Qed.

End Circle.
