(* ===== verification/Media.v ===== *)
(** The media object of a viewer: class JAMedia (gles/Media/JAMedia.cpp): the video
    decoder's life cycle, one decoded picture, captures, the recorder, the audio
    decoder and the direct texture.  ffmpeg and the graphic buffers are parameters:
    what their calls return is the record [ffmpeg] and the arguments [decoded] and
    [sound].  What the class hands to them is a log.  The members are grouped into
    records.  [malloc] of a negative size fails; other allocations succeed.
    [gDecoderMutex] is the number of its locks less its unlocks.  OSD pictures, which
    no live code fills, are left out. *)
From Stdlib Require Import SpecFloat.
From S2P Require Import Prelude Float32 H264 H265 P2PConnector JAConnect Circle.

Module Media.

Abbreviation cstr := (list Z).

Inductive AVCodecID := AV_CODEC_ID_H264 | AV_CODEC_ID_HEVC | AV_CODEC_ID_AAC | AV_CODEC_ID_other.
#[global] Instance AVCodecID_eq_dec : EqDecision AVCodecID.
Proof. solve_decision. Defined.

(** ** What ffmpeg and the system answer *)

Record ffmpeg := mkFF {
  find_decoder : AVCodecID -> bool;          (* avcodec_find_decoder *)
  alloc_context : AVCodecID -> bool;         (* avcodec_alloc_context3 *)
  open2 : AVCodecID -> Z -> Z -> Z;          (* avcodec_open2 for a picture size *)
  get_size : Z -> Z -> Z -> Z;               (* avpicture_get_size: format, width, height *)
  sws_ok : Z * Z * Z -> Z * Z * Z -> bool;   (* sws_getContext: formats and sizes *)
  find_encoder : bool; alloc_encoder : bool; open_encoder : Z;   (* the PNG encoder *)
  fopen_ok : cstr -> bool;
  guess_format : cstr -> bool; guess_mp4 : bool; alloc_format : bool; new_stream : bool;
  nofile : bool; avio_open : cstr -> Z;
  tex_ok : Z -> Z -> bool;                   (* GraphicBuffer::IsSupportDirectTexture *)
  open_audio : Z;                            (* avcodec_open2 of the sound decoder *)
  samples_size : Z -> Z * Z                  (* av_samples_get_buffer_size: bytes, line size *)
}.

(** What avcodec_decode_video2 leaves: whether there is a picture, the picture, and
    the size it sets in the context. *)
Record decoded := mkDecoded { got : Z; picture : Circle.AVFrame; ctx_size : Z * Z }.

(** What avcodec_decode_audio4 returns, the samples of the frame it leaves, and the
    16-bit samples swr_convert makes of them. *)
Record sound := mkSound { a_rt : Z; a_samples : Z; a_pcm : bytes }.

Definition AV_PIX_FMT_YUV420P : Z := 0.
Definition AV_PIX_FMT_RGB24 : Z := 2.

(** ** The state *)

(** A format, a width and a height. *)
Abbreviation layout := (Z * Z * Z)%type.

(** The decoder: [mContext] with its size, the output picture with the layout
    avpicture_fill gave it, the buffer behind it with its length, the scaler. *)
Record decoder := mkDec {
  mContext : option (Z * Z); mPicture : bool; mOutpic : option layout;
  mVideoBuffer : option Z; mVideoBufferSize : Z; mDecoderFmt : Z;
  img_convert_ctx : option layout; isVideoDecoderActive : bool
}.
(** [mCropWidth], [mCropHeight], [mCropLeft], [mCropTop], [mCropRight], [mCropBottom]. *)
Record size := mkSize { mVideoWidth : Z; mVideoHeight : Z; mCropFishEye : bool; mCrop : list Z }.
Record extra := mkExtra { mExtraData : bytes; mExtraSize : Z }.
Record lens := mkLens { circ : Circle.circle; mWallMode : Z; mIsP360ev : bool; mISP720Dev : bool }.
(** [OnCaptureImage]: whether the callback is set. *)
Record capture := mkCap {
  mCaptureImage : Z; mCapFileName : cstr; CaptureImageType : Z; OnCaptureImage : bool
}.
Record recorder := mkRec { mRecord : Z; mWriteRecord : bool; mPts : Z; mRecordContext : bool }.
Inductive texture := TNull | TLive (width height : Z) | TFreed.
Record direct := mkTex {
  isDirectTexture : bool; directTextureWidth : Z; directTextureHieght : Z; mGraphicBuffer : texture; mGraphicBufferOSD : texture
}.
(** [mAudioCodecCtx]: the frame size given to the context. *)
Record sounder := mkAud { mAudioDecoderAvaliable : bool; mAudioCodecCtx : option Z }.

(** A packet of a recording: key flag, stream, time stamp ([None] for AV_NOPTS_VALUE), bytes. *)
Record packet := mkPkt { pkt_key : bool; stream_index : Z; pts : option Z; pkt_data : bytes }.

Inductive event :=
| MOpen (codec : AVCodecID) (width height : Z)        (* avcodec_open2 *)
| MCloseContext (freed : bool)                        (* avcodec_close, and av_free *)
| MScale (rows : Z)                                   (* sws_scale of so many rows *)
| MPng (path : cstr) (width height : Z)               (* the file written *)
| MCaptured (success : bool) (path : cstr)            (* OnCaptureImage *)
| MRecordOpen (path : cstr) (h265 : bool) (fps width height bitrate : Z) (extradata : option bytes)
| MPacket (p : packet)                                (* av_interleaved_write_frame *)
| MTrailer
| MTexture                                            (* a picture copied to the texture *)
| MNoTexture.                                         (* OnNotSupportDirectTexture(false) *)

Record jamedia := mkMedia {
  dec : decoder; siz : size; ext : extra; lns : lens; cap : capture; rcd : recorder;
  tex : direct; aud : sounder; gDecoderMutex : Z; mlog : list event
}.

Definition set_dec (m : jamedia) (d : decoder) : jamedia :=
  mkMedia d (siz m) (ext m) (lns m) (cap m) (rcd m) (tex m) (aud m) (gDecoderMutex m) (mlog m).
Definition set_siz (m : jamedia) (s : size) : jamedia :=
  mkMedia (dec m) s (ext m) (lns m) (cap m) (rcd m) (tex m) (aud m) (gDecoderMutex m) (mlog m).
Definition set_ext (m : jamedia) (x : extra) : jamedia :=
  mkMedia (dec m) (siz m) x (lns m) (cap m) (rcd m) (tex m) (aud m) (gDecoderMutex m) (mlog m).
Definition set_lns (m : jamedia) (l : lens) : jamedia :=
  mkMedia (dec m) (siz m) (ext m) l (cap m) (rcd m) (tex m) (aud m) (gDecoderMutex m) (mlog m).
Definition set_cap (m : jamedia) (c : capture) : jamedia :=
  mkMedia (dec m) (siz m) (ext m) (lns m) c (rcd m) (tex m) (aud m) (gDecoderMutex m) (mlog m).
Definition set_rcd (m : jamedia) (r : recorder) : jamedia :=
  mkMedia (dec m) (siz m) (ext m) (lns m) (cap m) r (tex m) (aud m) (gDecoderMutex m) (mlog m).
Definition set_tex (m : jamedia) (t : direct) : jamedia :=
  mkMedia (dec m) (siz m) (ext m) (lns m) (cap m) (rcd m) t (aud m) (gDecoderMutex m) (mlog m).
Definition set_aud (m : jamedia) (a : sounder) : jamedia :=
  mkMedia (dec m) (siz m) (ext m) (lns m) (cap m) (rcd m) (tex m) a (gDecoderMutex m) (mlog m).
Definition lock (m : jamedia) : jamedia :=
  mkMedia (dec m) (siz m) (ext m) (lns m) (cap m) (rcd m) (tex m) (aud m) (gDecoderMutex m + 1) (mlog m).
Definition unlock (m : jamedia) : jamedia :=
  mkMedia (dec m) (siz m) (ext m) (lns m) (cap m) (rcd m) (tex m) (aud m) (gDecoderMutex m - 1) (mlog m).
Definition ev (m : jamedia) (e : event) : jamedia :=
  mkMedia (dec m) (siz m) (ext m) (lns m) (cap m) (rcd m) (tex m) (aud m) (gDecoderMutex m) (mlog m ++ [e]).

Definition no_crop : list Z := [0; 0; 0; 0; 0; 0].
Definition no_decoder : decoder := mkDec None false None None 0 0 None false.
Definition FullImage : Z := 1.
Definition Thumbnail : Z := 0.

(** The constructor; [p360], [pts0] and [fmt] are members it leaves as they are in
    memory, [mutex] is the global. *)
Definition new_media (p360 : bool) (pts0 fmt mutex : Z) : jamedia :=
  mkMedia (mkDec None false None None 0 fmt None false) (mkSize 0 0 false no_crop)
    (mkExtra (replicate 1024 0) 0) (mkLens (Circle.mkCircle 0 0 0) 0 p360 false)
    (mkCap 0 [] FullImage false) (mkRec 0 false pts0 false) (mkTex false 0 0 TNull TNull)
    (mkAud false None) mutex [].

(** A frame given to the recorder: type, bytes, duration. *)
Abbreviation rec_in := (Z * bytes * Z)%type.

Section Media.
Context (F : ffmpeg).

(** ** Closing *)

(** [isVideoDecoderActive] is tested first: what a failed opening left is kept. *)
Definition CloseVideoDecoder (m : jamedia) : jamedia :=
  let d := dec m in
  if negb (isVideoDecoderActive d) then m
  else
    let m := match mContext d with Some _ => ev m (MCloseContext true) | None => m end in
    set_dec m (mkDec None false None None (mVideoBufferSize d) (mDecoderFmt d) None false).

(** ** The header of a key frame *)

(** The picture size; [None] for a return of -3, [Some None] when the parser has
    written no size.  The first test takes the parser's 0 for failure. *)
Definition header_size (codec : AVCodecID) (header : bytes) (headersize : Z)
  : outcome (option (option (Z * Z))) :=
  match codec with
  | AV_CODEC_ID_H264 =>
      let* '(rt, wh) := H264.H264.GetWidthHeight header headersize in
      Done (if rt =? 0 then None else Some wh)
  | AV_CODEC_ID_HEVC =>
      let* '(rt, wh) := H265.H265.H265GetWidthHeight header headersize in
      Done (if rt =? 0 then Some wh else None)
  | _ => Done None
  end.

Definition byte_at (m : bytes) (i : Z) : outcome Z :=
  match znth m i with Some b => Done b | None => Fault end.

(** The test of the H.264 loop at [i]: three zero bytes, then 1 and a slice of a key
    picture, or such a slice at once. *)
Definition h264_key_at (header : bytes) (i : Z) : outcome bool :=
  let* b0 := byte_at header i in
  if negb (b0 =? 0) then Done false else
  let* b1 := byte_at header (i + 1) in
  if negb (b1 =? 0) then Done false else
  let* b2 := byte_at header (i + 2) in
  if negb (b2 =? 0) then Done false else
  let* b3 := byte_at header (i + 3) in
  if b3 =? 1 then
    let* b4 := byte_at header (i + 4) in
    Done ((Z.land b4 0x1F =? 5) || (Z.land b3 0x1F =? 5))
  else Done (Z.land b3 0x1F =? 5).

(** The test of the H.265 loop: the bytes 0, 0, 1 and a NAL unit of type 0x13. *)
Definition hevc_key_at (header : bytes) (i : Z) : outcome bool :=
  let* b0 := byte_at header i in
  let* b1 := byte_at header (i + 1) in
  let* b2 := byte_at header (i + 2) in
  let* b3 := byte_at header (i + 3) in
  let lv := Z.lor (Z.lor (Z.lor (Z.shiftl b0 24) (Z.shiftl b1 16)) (Z.shiftl b2 8)) b3 in
  Done ((Z.land lv 0xffffff00 =? 0x100) &&
        (Z.land (Z.shiftr (Z.land lv 0xff) 1) 0x3f =? 0x13)).

(** [for (i = 0; i < size; i++) if (key) { mExtraSize = i; break; }] *)
Fixpoint scan_extra (key : Z -> outcome bool) (n : nat) (i size : Z) : outcome Z :=
  match n with
  | O => Done size
  | S n => let* k := key i in if k then Done i else scan_extra key n (i + 1) size
  end.

Definition copy_extra (x : extra) (key : bytes -> Z -> outcome bool) (header : bytes) (headersize : Z)
  : outcome extra :=
  let* bs := load header 0 (if 1024 <? headersize then 1024 else headersize) in
  let* data := store (mExtraData x) 0 bs in
  let size := if 1024 <? headersize then 1019 else headersize - 5 in
  let* n := scan_extra (key header) (Z.to_nat size) 0 size in
  Done (mkExtra data n).

Definition analyst_extra (codec : AVCodecID) (x : extra) (header : bytes) (headersize : Z) : outcome extra :=
  let x := mkExtra (mExtraData x) 0 in
  match codec with
  | AV_CODEC_ID_H264 => copy_extra x h264_key_at header headersize
  | AV_CODEC_ID_HEVC => copy_extra x hevc_key_at header headersize
  | _ => Done x
  end.

(** [stack]: the content of [lw] and [lh] when the parser has not written them. *)
Definition AnalystHeader (stack : Z * Z) (codec : AVCodecID) (header : bytes) (headersize : Z) (m : jamedia)
  : outcome (jamedia * Z) :=
  let* r := header_size codec header headersize in
  match r with
  | None => Done (m, -3)
  | Some wh =>
      let '(lw, lh) := default stack wh in
      let m := lock m in
      if isVideoDecoderActive (dec m) && (lw =? mVideoWidth (siz m)) && (lh =? mVideoHeight (siz m))
      then Done (unlock m, 0)
      else
        let m := if isVideoDecoderActive (dec m) then
                   let m := CloseVideoDecoder m in
                   set_siz m (mkSize lw lh (mCropFishEye (siz m))
                                (if mCropFishEye (siz m) then no_crop else mCrop (siz m)))
                 else set_siz m (mkSize lw lh (mCropFishEye (siz m)) (mCrop (siz m))) in
        let* x := analyst_extra codec (ext m) header headersize in
        Done (unlock (set_ext m x), 0)
  end.

(** ** Opening *)

Definition malloc (n : Z) : option Z := if n <? 0 then None else Some n.

(** The part behind AnalystHeader: every return from here unlocks the mutex, which
    AnalystHeader has unlocked already. *)
Definition open_decoder (codec : AVCodecID) (fmt : Z) (m : jamedia) : outcome (jamedia * Z) :=
  if negb (find_decoder F codec) then Done (unlock m, -1)
  else
    let d := dec m in
    let m := match mContext d with Some _ => ev m (MCloseContext false) | None => m end in
    if negb (alloc_context F codec) then Fault
    else
      let w := mVideoWidth (siz m) in
      let h := mVideoHeight (siz m) in
      let n := get_size F fmt w h in
      let d1 := mkDec (Some (w, h)) true (Some (fmt, w, h)) (malloc n) n (mDecoderFmt d) (img_convert_ctx d) false in
      let m := ev (set_dec m d1) (MOpen codec w h) in
      if open2 F codec w h <? 0 then Done (unlock m, -2)
      else
        let ctx := if sws_ok F (AV_PIX_FMT_YUV420P, w, h) (fmt, w, h) then Some (fmt, w, h) else None in
        Done (unlock (set_dec m (mkDec (Some (w, h)) true (Some (fmt, w, h)) (malloc n) n fmt ctx true)), 0).

Definition InitVideoDecoder (stack : Z * Z) (codec : AVCodecID) (header : bytes) (headersize fmt : Z) (m : jamedia)
  : outcome (jamedia * Z) :=
  let* '(m, ret) := AnalystHeader stack codec header headersize m in
  if negb (ret =? 0) then Done (m, ret)
  else if isVideoDecoderActive (dec m) then Done (m, -3)
  else open_decoder codec fmt m.

(** ** Captures *)

Definition captured (m : jamedia) (b : bool) (path : cstr) : jamedia :=
  if OnCaptureImage (cap m) then ev m (MCaptured b path) else m.

(** Both overloads: scale the output picture, read as [w] by [h], to [dw] by [dh] and
    write it.  Reading rows or columns that the picture does not have is [Fault]. *)
Definition write_png (path : cstr) (w h dw dh : Z) (m : jamedia) : outcome (jamedia * Z) :=
  if negb (find_encoder F) then Done (captured m false path, -1)
  else if negb (alloc_encoder F) then Done (captured m false path, -1)
  else if negb (sws_ok F (mDecoderFmt (dec m), w, h) (AV_PIX_FMT_RGB24, dw, dh)) then Fault
  else
    match mOutpic (dec m), mVideoBuffer (dec m) with
    | Some (_, lw, lh), Some _ =>
        if negb ((w <=? lw) && (h <=? lh)) then Fault
        else if open_encoder F <? 0 then Done (captured m false path, -1)
        else if negb (fopen_ok F path) then Fault
        else Done (captured (ev m (MPng path dw dh)) true path, 0)
    | _, _ => Fault
    end.
Definition WritePNG (path : cstr) (w h : Z) (m : jamedia) : outcome (jamedia * Z) :=
  match mOutpic (dec m) with
  | None => Fault
  | Some _ => write_png path w h w h m
  end.
Definition WritePNG_scaled (path : cstr) (srcW srcH dstW dstH : Z) (m : jamedia) : outcome (jamedia * Z) :=
  write_png path srcW srcH dstW dstH m.

Definition VideoWidth (m : jamedia) : Z := mVideoWidth (siz m).
Definition VideoHeight (m : jamedia) : Z := mVideoHeight (siz m).

(** [strcpy] into an array of 1024 bytes. *)
Definition CaptureImage (filename : cstr) (type : Z) (m : jamedia) : outcome jamedia :=
  let* name := JA.strcpy 1024 filename in
  let c := cap m in
  Done (set_cap m (mkCap (mCaptureImage c + 1) name type (OnCaptureImage c))).
Definition CaptureCurImage (filename : cstr) (m : jamedia) : outcome (jamedia * Z) :=
  WritePNG filename (VideoWidth m) (VideoHeight m) m.

(** ** One picture *)

(** [if (mCaptureImage)]: one file for each picture as long as the counter is not 0. *)
Definition capture_step (w h : Z) (m : jamedia) : outcome jamedia :=
  let c := cap m in
  if mCaptureImage c =? 0 then Done m
  else
    let m := set_cap m (mkCap (mCaptureImage c - 1) (mCapFileName c) (CaptureImageType c) (OnCaptureImage c)) in
    let* '(m, _) := if negb (CaptureImageType c =? 0) then WritePNG (mCapFileName c) w h m
                    else WritePNG_scaled (mCapFileName c) w h 100 100 m in
    Done m.

(** A new graphic buffer when there is none of this size; the old one is deleted. *)
Definition renew_texture (w h : Z) (m : jamedia) : outcome jamedia :=
  let t := tex m in
  let same := (directTextureWidth t =? w) && (directTextureHieght t =? h) in
  let fresh := if tex_ok F w h
               then Done (set_tex m (mkTex true w h (TLive w h) (mGraphicBufferOSD t)))
               else Done (ev (set_tex m (mkTex false w h TFreed (mGraphicBufferOSD t))) MNoTexture) in
  match mGraphicBuffer t with
  | TNull => fresh
  | TLive _ _ => if same then Done m else fresh
  | TFreed => if same then Done m else Fault
  end.

(** The copy reads four bytes for each pixel of the texture from the output buffer. *)
Definition fill_texture (m : jamedia) : outcome jamedia :=
  let w := directTextureWidth (tex m) in
  let h := directTextureHieght (tex m) in
  match mGraphicBuffer (tex m) with
  | TLive _ _ =>
      if (0 <? h) && ((w <? 0) || (default 0 (mVideoBuffer (dec m)) <? w * 4 * h)) then Fault
      else Done (ev m MTexture)
  | _ => Fault
  end.
Definition texture_step (w h : Z) (m : jamedia) : outcome jamedia :=
  if negb (isDirectTexture (tex m)) then Done m
  else
    let* m := renew_texture w h m in
    if isDirectTexture (tex m) then fill_texture m else Done m.

Definition circle_step (d : decoded) (m : jamedia) : outcome jamedia :=
  let l := lns m in
  if Circle.mRadius (circ l) =? 0 then
    let* '(c, _) := Circle.TestCircRound (circ l) (picture d) 130 in
    Done (set_lns m (mkLens c (mWallMode l) (mIsP360ev l) (mISP720Dev l)))
  else Done m.

(** [sws_scale]: the scaler and the output picture must be there, for the same layout. *)
Definition scale_step (rows : Z) (m : jamedia) : outcome jamedia :=
  let d := dec m in
  match img_convert_ctx d, mOutpic d, mVideoBuffer d with
  | Some l, Some l', Some _ => if bool_decide (l = l') then Done (ev m (MScale rows)) else Fault
  | _, _, _ => Fault
  end.

Definition set_context (m : jamedia) (wh : Z * Z) : jamedia :=
  let d := dec m in
  set_dec m (mkDec (Some wh) (mPicture d) (mOutpic d) (mVideoBuffer d) (mVideoBufferSize d) (mDecoderFmt d)
               (img_convert_ctx d) (isVideoDecoderActive d)).

Definition DecodeVideo (inbuf : bytes) (insize : Z) (d : decoded) (m : jamedia) : outcome (jamedia * Z) :=
  if negb (isVideoDecoderActive (dec m)) then Done (m, -2)
  else
    let m := lock m in
    let* _ := load inbuf 0 insize in
    match mContext (dec m), mPicture (dec m) with
    | Some _, true =>
        let m := set_context m (ctx_size d) in
        if got d =? 0 then Done (unlock m, -1)
        else
          let* m := circle_step d m in
          let '(w, h) := ctx_size d in
          let* m := scale_step h m in
          let* m := capture_step w h m in
          let m := unlock m in
          let '(gw, gh) := if mISP720Dev (lns m) then (w, h) else (VideoWidth m, VideoHeight m) in
          let* m := texture_step gw gh m in
          Done (m, 0)
    | _, _ => Fault
    end.

(** The time text on a texture of its own, 480 by 24; the test asks the picture's
    texture. *)
Definition WriteTextOSDDirectTextureFrame (buffer : bytes) (m : jamedia) : outcome (jamedia * bool) :=
  let t := tex m in
  if negb (isDirectTexture t) then Done (m, false)
  else
    let osd := match mGraphicBufferOSD t with TNull => TLive 480 24 | x => x end in
    match mGraphicBuffer t with
    | TLive w h =>
        if negb (tex_ok F w h) then
          match osd with
          | TFreed => Fault
          | _ => Done (set_tex m (mkTex false (directTextureWidth t) (directTextureHieght t) (mGraphicBuffer t) TFreed), false)
          end
        else
          match osd with
          | TFreed => Fault
          | _ =>
              let* _ := load buffer 0 (24 * (480 * 4)) in
              Done (set_tex m (mkTex true (directTextureWidth t) (directTextureHieght t) (mGraphicBuffer t) osd), false)
          end
    | _ => Fault
    end.

(** ** Recording *)

Definition int_of (z : Z) : outcome Z :=
  if (- 2147483648 <=? z) && (z <=? 2147483647) then Done z else Fault.

Definition extradata (x : extra) : outcome (option bytes) :=
  if mExtraSize x =? 0 then Done None
  else let* bs := load (mExtraData x) 0 (mExtraSize x) in Done (Some bs).

Definition StartRecord (filename : cstr) (h265 : bool) (fps bitrate : Z) (m : jamedia) : outcome (jamedia * bool) :=
  let r := rcd m in
  if negb (mRecord r =? 0) then Done (m, false)
  else if negb (guess_format F filename) && negb (guess_mp4 F) then Done (m, false)
  else if negb (alloc_format F) then Done (set_rcd m (mkRec (mRecord r) (mWriteRecord r) (mPts r) false), false)
  else
    let m := set_rcd m (mkRec (mRecord r) (mWriteRecord r) (mPts r) true) in
    if negb (new_stream F) then Done (m, false)
    else
      let* x := extradata (ext m) in
      if negb (nofile F) && (avio_open F filename <? 0) then Done (m, false)
      else
        let m := ev m (MRecordOpen filename h265 fps (mVideoWidth (siz m)) (mVideoHeight (siz m)) bitrate x) in
        Done (set_rcd m (mkRec (mRecord r + 1) (mWriteRecord r) 0 true), true).

(** [av_free(mRecordContext)]: the pointer stays, the file is not closed. *)
Definition StopRecord (m : jamedia) : outcome jamedia :=
  let r := rcd m in
  if mRecord r =? 0 then Done m
  else if negb (mRecordContext r) then Fault
  else Done (set_rcd (ev m MTrailer) (mkRec (mRecord r - 1) false 0 false)).

Definition WriteFrame (buf : bytes) (buflen buf_type duration : Z) (m : jamedia) : outcome jamedia :=
  let r := rcd m in
  if mRecord r =? 0 then Done m
  else
    let w := mWriteRecord r || (buf_type =? 1) in
    if negb w then Done m
    else if negb (mRecordContext r) then Fault
    else
      let video := negb (buf_type =? 0) in
      let* bs := if video then load buf 0 buflen else load buf 36 (buflen - 36) in
      let p := mkPkt (buf_type =? 1) (if video then 0 else 1) (if video then Some (mPts r) else None) bs in
      let* next :=
        if video then let* step := int_of (900 * cdiv duration 40) in int_of (mPts r + step) else Done (mPts r) in
      Done (set_rcd (ev m (MPacket p)) (mkRec (mRecord r) true next true)).

Definition IsRecord (m : jamedia) : bool := 0 <? mRecord (rcd m).

(** ** Sound *)

(** A failed allocation frees the codec, an object of ffmpeg's own. *)
Definition InitAudioDecoder (codec : AVCodecID) (pSample pChannel bit nb_samples : Z) (m : jamedia)
  : outcome (jamedia * Z) :=
  if mAudioDecoderAvaliable (aud m) then Done (m, 1)
  else if negb (find_decoder F codec) then Done (m, -1)
  else if negb (alloc_context F codec) then Fault
  else if open_audio F <? 0 then Done (set_aud m (mkAud false None), open_audio F)
  else Done (set_aud m (mkAud true (Some nb_samples)), 0).

(** [outbuf]: the caller's buffer.  The samples are converted into a cleared buffer of
    the size of the decoded frame and all of it is copied. *)
Definition DecodeAudio (inbuf : bytes) (insize : Z) (outbuf : bytes) (outsize : Z) (s : sound) (m : jamedia)
  : outcome (bytes * Z) :=
  if negb (mAudioDecoderAvaliable (aud m)) then Done (outbuf, outsize)
  else
    let* _ := load inbuf 0 insize in
    if a_rt s <? 0 then Done (outbuf, outsize)
    else
      let '(data_size, out_linesize) := samples_size F (a_samples s) in
      match malloc data_size with
      | None => Fault
      | Some n =>
          let* outbuffer := store (replicate (Z.to_nat n) 0) 0 (a_pcm s) in
          let* out := store outbuf 0 outbuffer in
          Done (out, out_linesize)
      end.

Definition CloseAudioDecoder (m : jamedia) : jamedia :=
  if negb (mAudioDecoderAvaliable (aud m)) then m else set_aud m (mkAud false None).

(** ** Settings *)

Definition EnableCrop (value : bool) (m : jamedia) : jamedia :=
  set_siz m (mkSize (mVideoWidth (siz m)) (mVideoHeight (siz m)) value (mCrop (siz m))).
Definition UpdateCircleParameter (radius centerx centery : Z) (m : jamedia) : jamedia :=
  let l := lns m in
  set_lns m (mkLens (Circle.mkCircle radius centerx centery) (mWallMode l) (mIsP360ev l) (mISP720Dev l)).
Definition ResetData (m : jamedia) : jamedia :=
  set_siz (set_lns m (mkLens (Circle.mkCircle 0 0 0) (mWallMode (lns m)) false false))
    (mkSize 0 0 (mCropFishEye (siz m)) no_crop).
Definition SetIsP720Dev (b : bool) (m : jamedia) : jamedia :=
  let l := lns m in set_lns m (mkLens (circ l) (mWallMode l) (mIsP360ev l) b).
(** The [float] arguments are truncated to the integer members. *)
Definition SetIsP360Dev (pisp360 : bool) (centerx centery radius : spec_float) (wallmode : Z) (m : jamedia)
  : outcome jamedia :=
  let l := lns m in
  let* x := F32.to_int centerx in
  let* y := F32.to_int centery in
  let* r := F32.to_int radius in
  Done (set_lns m (mkLens (Circle.mkCircle r x y)
                     (if 0 <=? wallmode then wallmode else mWallMode l) pisp360 (mISP720Dev l))).
Definition getIsP360Dev (m : jamedia) : bool :=
  mIsP360ev (lns m) || negb (Circle.mRadius (circ (lns m)) =? 0).
Definition GetFisheyeParameter (m : jamedia) : spec_float * spec_float * spec_float :=
  let c := circ (lns m) in
  (F32.of_Z (Circle.mCenterX c), F32.of_Z (Circle.mCenterY c), F32.of_Z (Circle.mRadius c)).

(** Offsets of the three planes in the output buffer, and their sizes. *)
Definition GetVideoBufferYUV (yuv : Z) (m : jamedia) : option Z :=
  let n := VideoWidth m * VideoHeight m in
  if (yuv <? 0) || (2 <? yuv) then None
  else if yuv =? 0 then Some 0 else if yuv =? 1 then Some n else Some (n + cdiv n 4).
Definition GetOSDBufferSizeYUV (yuv : Z) (m : jamedia) : Z :=
  let n := VideoWidth m * VideoHeight m in
  if (yuv <? 0) || (2 <? yuv) then 0 else if yuv =? 0 then n else cdiv n 4.

(** The destructor. *)
Definition delete_texture (t : texture) : outcome unit :=
  match t with TFreed => Fault | _ => Done tt end.
Definition destroy (m : jamedia) : outcome jamedia :=
  let m := CloseVideoDecoder m in
  let* _ := delete_texture (mGraphicBuffer (tex m)) in
  let* _ := delete_texture (mGraphicBufferOSD (tex m)) in
  Done m.

(** ConnectManager::UseDirectTexture, its assignment to one decoder. *)
Definition UseDirectTexture (isDirect : bool) (m : jamedia) : jamedia :=
  let t := tex m in
  set_tex m (mkTex isDirect (directTextureWidth t) (directTextureHieght t) (mGraphicBuffer t) (mGraphicBufferOSD t)).

(** ** One call *)

Inductive op :=
| OHeader (stack : Z * Z) (codec : AVCodecID) (header : bytes) (headersize : Z)
| OInit (stack : Z * Z) (codec : AVCodecID) (header : bytes) (headersize fmt : Z)
| ODecode (inbuf : bytes) (insize : Z) (d : decoded)
| OClose
| OCapture (filename : cstr) (type : Z)
| OStart (filename : cstr) (h265 : bool) (fps bitrate : Z)
| OWrite (buf : bytes) (buflen buf_type duration : Z)
| OStop
| OAudio (codec : AVCodecID) (pSample pChannel bit nb_samples : Z)
| OCloseAudio
| OCrop (value : bool)
| OCircle (radius centerx centery : Z)
| OReset
| O720 (b : bool)
| O360 (b : bool) (centerx centery radius : spec_float) (wallmode : Z)
| ODirect (isDirect : bool)
| OOsd (buffer : bytes).

Definition step (o : op) (m : jamedia) : outcome jamedia :=
  match o with
  | OHeader st c h n => let* '(m, _) := AnalystHeader st c h n m in Done m
  | OInit st c h n f => let* '(m, _) := InitVideoDecoder st c h n f m in Done m
  | ODecode b n d => let* '(m, _) := DecodeVideo b n d m in Done m
  | OClose => Done (CloseVideoDecoder m)
  | OCapture f t => CaptureImage f t m
  | OStart f h fps b => let* '(m, _) := StartRecord f h fps b m in Done m
  | OWrite b n t d => WriteFrame b n t d m
  | OStop => StopRecord m
  | OAudio c s ch b n => let* '(m, _) := InitAudioDecoder c s ch b n m in Done m
  | OCloseAudio => Done (CloseAudioDecoder m)
  | OCrop b => Done (EnableCrop b m)
  | OCircle r x y => Done (UpdateCircleParameter r x y m)
  | OReset => Done (ResetData m)
  | O720 b => Done (SetIsP720Dev b m)
  | O360 b x y r w => SetIsP360Dev b x y r w m
  | ODirect b => Done (UseDirectTexture b m)
  | OOsd b => let* '(m, _) := WriteTextOSDDirectTextureFrame b m in Done m
  end.

(** ** Well-formed states *)

Definition is_byte (b : Z) : Prop := 0 <= b < 256.

(** An output picture comes with the buffer of its size; an open decoder has all its
    parts, for one layout. *)
Record wf_decoder (d : decoder) : Prop := {
  wd_buffer : forall fmt w h, mOutpic d = Some (fmt, w, h) ->
    mVideoBufferSize d = get_size F fmt w h /\ mVideoBuffer d = malloc (get_size F fmt w h);
  wd_active : isVideoDecoderActive d = true -> exists w h,
    mOutpic d = Some (mDecoderFmt d, w, h) /\ mPicture d = true /\ mContext d <> None /\
    img_convert_ctx d = if sws_ok F (AV_PIX_FMT_YUV420P, w, h) (mDecoderFmt d, w, h)
                        then Some (mDecoderFmt d, w, h) else None
}.
Record wf_extra (x : extra) : Prop := {
  we_array : zlen (mExtraData x) = 1024;
  we_size : 0 <= mExtraSize x <= 1019
}.
Record wf_capture (c : capture) : Prop := {
  wc_count : 0 <= mCaptureImage c;
  wc_name : (length (mCapFileName c) < 1024)%nat
}.
(** At most one recording, with its context; frames only wait for a key frame in one. *)
Definition wf_recorder (r : recorder) : Prop :=
  (mRecord r = 0 /\ mWriteRecord r = false) \/ (mRecord r = 1 /\ mRecordContext r = true).
Definition wf_texture (t : direct) : Prop :=
  match mGraphicBuffer t with
  | TLive w h => w = directTextureWidth t /\ h = directTextureHieght t
  | _ => True
  end.
(** A graphic buffer that was deleted is not drawn to. *)
Definition undrawn (t : direct) : Prop := mGraphicBuffer t = TFreed -> isDirectTexture t = false.
Definition dims (m : jamedia) : Z * Z := (mVideoWidth (siz m), mVideoHeight (siz m)).
(** The picture size is that of the open decoder, unless it was reset. *)
Record wf (m : jamedia) : Prop := {
  wf_dec : wf_decoder (dec m);
  wf_siz : isVideoDecoderActive (dec m) = true -> dims m = (0, 0) \/
           exists fmt, mOutpic (dec m) = Some (fmt, mVideoWidth (siz m), mVideoHeight (siz m));
  wf_ext : wf_extra (ext m);
  wf_cap : wf_capture (cap m);
  wf_rcd : wf_recorder (rcd m);
  wf_tex : wf_texture (tex m);
  wf_aud : mAudioDecoderAvaliable (aud m) = true -> mAudioCodecCtx (aud m) <> None
}.

(** States that differ only in what [wf] does not look at. *)
Definition parts (m : jamedia) := (dec m, dims m, ext m, cap m, rcd m, tex m, aud m).
Lemma wf_parts m m' : parts m' = parts m -> wf m -> wf m'.
Proof.
  intros [= E1 E2 E2' E3 E4 E5 E6 E7] []; constructor; unfold dims in *;
    by rewrite ?E1, ?E2, ?E2', ?E3, ?E4, ?E5, ?E6, ?E7.
Qed.

Lemma new_media_wf p360 pts0 fmt mutex : wf (new_media p360 pts0 fmt mutex).
Proof. constructor; [constructor|done|constructor|constructor|by left|done|]; try done; simpl; lia. Qed.

Lemma no_decoder_wf n fmt : wf_decoder (mkDec None false None None n fmt None false).
Proof. by constructor. Qed.

Lemma Close_parts m :
  parts (CloseVideoDecoder m) = (dec (CloseVideoDecoder m), dims m, ext m, cap m, rcd m, tex m, aud m) /\
  (dec (CloseVideoDecoder m) = dec m \/ exists n f, dec (CloseVideoDecoder m) = mkDec None false None None n f None false).
Proof.
  unfold CloseVideoDecoder; destruct (isVideoDecoderActive (dec m)); cbn [negb]; [|by split; [|left]].
  destruct (mContext (dec m)); (split; [done|right; eauto]).
Qed.
Lemma Close_inactive m : isVideoDecoderActive (dec (CloseVideoDecoder m)) = false.
Proof. unfold CloseVideoDecoder; by destruct (isVideoDecoderActive (dec m)) eqn:E. Qed.
Lemma Close_wf m : wf m -> wf (CloseVideoDecoder m).
Proof.
  intros []; destruct (Close_parts m) as [[= E1 E2 E3 E4 E5 E6 E7] E]; pose proof (Close_inactive m).
  constructor; rewrite ?E3, ?E4, ?E5, ?E6, ?E7; try done; [|congruence].
  destruct E as [->|(n & f & ->)]; [done|apply no_decoder_wf].
Qed.
(** A closed decoder may be given any picture size. *)
Lemma set_siz_wf m s : wf m -> isVideoDecoderActive (dec m) = false -> wf (set_siz m s).
Proof. intros [] Ha; constructor; try done; cbn [dec set_siz]; congruence. Qed.

(** *** The extra data *)

Lemma find_sps_after fuel m p end_ k :
  Forall is_byte m -> 0 <= p -> end_ <= zlen m ->
  H265.H265.find_sps fuel m p end_ = Done (Some k) -> 3 <= k /\ k + 2 < end_.
Proof.
  intros Hm; revert p; induction fuel as [|fuel IH]; intros p Hp Hend; cbn [H265.H265.find_sps]; [done|].
  destruct (Z.lt_ge_cases p end_) as [Hlt|Hge].
  - destruct (H265.H265.find_start_code_spec m p end_ Hm Hp Hend Hlt) as (q & -> & Hq & H); cbn [obind].
    destruct (end_ <=? q - 1 + 2) eqn:E; [done|].
    intros H1; obinv H1; destruct (_ =? 33).
    + injection H1 as <-; lia.
    + apply IH in H1; lia.
  - unfold H265.H265.avpriv_find_start_code; replace (end_ <=? p) with true by lia; cbn [obind].
    by replace (end_ <=? end_ - 1 + 2) with true by lia.
Qed.

(** A header that is accepted has at least the five bytes of a start code and a NAL
    unit's first byte. *)
Lemma header_size_long codec header n wh :
  Forall is_byte header -> n <= zlen header ->
  header_size codec header n = Done (Some wh) -> 5 <= n.
Proof.
  intros Hb Hn; destruct codec; cbn [header_size]; try done.
  - intros H; obinv H; destruct v as [rt o]; destruct (rt =? 0) eqn:E0; [done|]; clear H.
    destruct (Z.lt_ge_cases n 5) as [Hlt|]; [|lia].
    unfold H264.H264.GetWidthHeight in E; replace (Z.to_nat (n - 4)) with 0%nat in E by lia.
    injection E as <- <-; done.
  - intros H; obinv H; destruct v as [rt o]; destruct (rt =? 0) eqn:E0; [|done]; clear H.
    unfold H265.H265.H265GetWidthHeight in E; obinv E.
    destruct v as [k|]; [|injection E as <- <-; done].
    apply find_sps_after in E1; [lia|done|lia|lia].
Qed.

Lemma scan_extra_bounds key n i size r :
  0 <= i -> i + Z.of_nat n = size -> scan_extra key n i size = Done r -> 0 <= r <= size.
Proof.
  revert i; induction n as [|n IH]; intros i Hi Hs; cbn [scan_extra]; [intros [= <-]; lia|].
  intros H; obinv H; destruct v; [injection H as <-; lia|]; apply IH in H; lia.
Qed.

Lemma copy_extra_wf x key header n x' :
  zlen (mExtraData x) = 1024 -> 5 <= n -> copy_extra x key header n = Done x' -> wf_extra x'.
Proof.
  unfold copy_extra; intros Hx Hn H; obinv H; injection H as <-; constructor; cbn [mExtraData mExtraSize].
  - rewrite (store_length _ _ _ _ E0); done.
  - destruct (1024 <? n) eqn:El; apply scan_extra_bounds in E1; lia.
Qed.
Lemma analyst_extra_wf codec x header n x' wh :
  wf_extra x -> Forall is_byte header -> n <= zlen header -> header_size codec header n = Done (Some wh) ->
  analyst_extra codec x header n = Done x' -> wf_extra x'.
Proof.
  intros [Hx _] Hb Hn Hh H; pose proof (header_size_long _ _ _ _ Hb Hn Hh) as H5.
  destruct codec; try done; by apply copy_extra_wf in H.
Qed.

Lemma Analyst_wf stack codec header n m m' rt :
  wf m -> Forall is_byte header -> n <= zlen header ->
  AnalystHeader stack codec header n m = Done (m', rt) -> wf m'.
Proof.
  intros Hm Hb Hn; unfold AnalystHeader; intros H; obinv H.
  destruct v as [wh|]; [|by injection H as <- <-].
  destruct (default stack wh) as [lw lh]; cbv zeta in H.
  destruct (_ && _); [injection H as <- <-; by apply (wf_parts m)|].
  match type of H with context [ext ?s] => set (m1 := s) in * end.
  assert (wf m1) as W.
  { assert (wf (lock m)) as Wl by by apply (wf_parts m).
    subst m1; destruct (isVideoDecoderActive _) eqn:Ea; [|by apply set_siz_wf].
    apply set_siz_wf; [by apply Close_wf|apply Close_inactive]. }
  obinv H; injection H as <- <-; destruct W; constructor; try done.
  by apply (analyst_extra_wf codec (ext m1) header n _ wh).
Qed.

(** *** Opening, decoding *)

Lemma open_wf codec fmt m m' rt : wf m -> open_decoder codec fmt m = Done (m', rt) -> wf m'.
Proof.
  intros W; unfold open_decoder; destruct (negb (find_decoder F codec)); [intros [= <- <-]; by apply (wf_parts m)|].
  destruct (alloc_context F codec); [|done]; cbn [negb]; destruct W as [D S X C R T A].
  destruct (open2 F codec _ _ <? 0); destruct (mContext (dec m)); intros [= <- <-]; constructor; try done;
    try (constructor; [by intros f w h [= <- <- <-]|]); intros; try done.
  all: first [right; by eexists|do 2 eexists; by split_and!].
Qed.
Lemma Init_wf stack codec header n fmt m m' rt :
  wf m -> Forall is_byte header -> n <= zlen header ->
  InitVideoDecoder stack codec header n fmt m = Done (m', rt) -> wf m'.
Proof.
  intros Hm Hb Hn; unfold InitVideoDecoder; intros H; obinv H; destruct v as [m1 ret].
  pose proof (Analyst_wf _ _ _ _ _ _ _ Hm Hb Hn E) as W.
  destruct (negb (ret =? 0)); [by injection H as <- <-|].
  destruct (isVideoDecoderActive (dec m1)); [by injection H as <- <-|]; by eapply open_wf.
Qed.

Lemma circle_step_parts d m m' : circle_step d m = Done m' -> parts m' = parts m.
Proof.
  unfold circle_step; destruct (_ =? 0); [|by intros [= ->]].
  intros H; obinv H; destruct v; by injection H as <-.
Qed.
Lemma scale_step_parts r m m' : scale_step r m = Done m' -> parts m' = parts m.
Proof. unfold scale_step; intros H; repeat case_match; try done; by injection H as <-. Qed.

Lemma captured_parts b p m : parts (captured m b p) = parts m.
Proof. unfold captured; by destruct (OnCaptureImage _). Qed.
Lemma write_png_parts p w h dw dh m m' rt : write_png p w h dw dh m = Done (m', rt) -> parts m' = parts m.
Proof.
  unfold write_png; intros H; repeat case_match; try done; injection H as <- <-; rewrite captured_parts; done.
Qed.

(** What a captured picture changes: the counter. *)
Lemma capture_step_parts w h m m' :
  capture_step w h m = Done m' ->
  parts m' = (dec m, dims m, ext m, cap m', rcd m, tex m, aud m) /\
  mCapFileName (cap m') = mCapFileName (cap m) /\
  mCaptureImage (cap m') = mCaptureImage (cap m) - (if mCaptureImage (cap m) =? 0 then 0 else 1).
Proof.
  unfold capture_step; destruct (mCaptureImage (cap m) =? 0) eqn:E0; [intros [= <-]; split_and!; [done|done|lia]|].
  intros H; obinv H; destruct v as [m1 rt]; injection H as <-.
  set (m0 := set_cap m _) in *.
  assert (parts m1 = parts m0) as E1.
  { destruct (negb _); [|by apply write_png_parts in E].
    unfold WritePNG in E; destruct (mOutpic (dec m0)); [by apply write_png_parts in E|done]. }
  injection E1 as Ed Ev Ew Ee Ec Er Et Ea; split_and!.
  - unfold parts, dims; by rewrite Ed, Ev, Ew, Ee, Er, Et, Ea.
  - by rewrite Ec.
  - by rewrite Ec.
Qed.
Lemma capture_step_wf w h m m' : wf m -> capture_step w h m = Done m' -> wf m'.
Proof.
  intros [D S X [C1 C2] R T A] H; destruct (capture_step_parts _ _ _ _ H) as ([= E1 Ev Ew E2 E3 E4 E5] & En & Ec).
  constructor; unfold dims; rewrite ?E1, ?Ev, ?Ew, ?E2, ?E3, ?E4, ?E5; try done; constructor; [|by rewrite En].
  rewrite Ec; destruct (_ =? 0) eqn:E0; lia.
Qed.

Lemma texture_step_wf w h m m' : wf m -> texture_step w h m = Done m' -> wf m'.
Proof.
  intros W; unfold texture_step; destruct (negb _) eqn:Ed; [by intros [= <-]|]; intros H; obinv H.
  assert (wf v) as Wv.
  { clear H; destruct W as [D S X C R T A]; revert E; unfold renew_texture.
    assert (forall x, wf_texture x -> wf (set_tex m x)) as Hs by (intros x Hx; by constructor).
    destruct (mGraphicBuffer (tex m)) eqn:Eg; repeat case_match; try done; intros [= <-];
      first [by constructor | by apply Hs | by apply (wf_parts (set_tex m (mkTex false w h TFreed (mGraphicBufferOSD (tex m))))); [|apply Hs]]. }
  destruct (isDirectTexture (tex v)); [|by injection H as <-].
  unfold fill_texture in H; repeat case_match; try done; injection H as <-; by apply (wf_parts v).
Qed.

Lemma set_context_wf m wh : wf m -> wf (set_context m wh).
Proof.
  intros [[D1 D2] S X C R T A]; constructor; try done; constructor; [done|].
  intros Ha; destruct (D2 Ha) as (w & h & ? & ? & ? & ?); exists w, h; done.
Qed.

Lemma Decode_wf b n d m m' rt : wf m -> DecodeVideo b n d m = Done (m', rt) -> wf m'.
Proof.
  intros W; unfold DecodeVideo; destruct (negb _); [by intros [= <- <-]|].
  intros H; obinv H; destruct (mContext _); [|done]; destruct (mPicture _); [|done].
  set (m1 := set_context (lock m) (ctx_size d)) in *.
  assert (wf m1) as W1 by (apply set_context_wf; by apply (wf_parts m)); clearbody m1.
  destruct (got d =? 0); [injection H as <- <-; by apply (wf_parts m1)|].
  obinv H; apply circle_step_parts in E0; pose proof (wf_parts _ _ E0 W1) as W2.
  destruct (ctx_size d) as [w h]; obinv H; apply scale_step_parts in E1; pose proof (wf_parts _ _ E1 W2) as W3.
  pose proof (capture_step_wf _ _ _ _ W3 E2) as W4.
  assert (wf (unlock v2)) as W5 by by apply (wf_parts v2).
  destruct (mISP720Dev _); obinv H; injection H as <- <-; by apply texture_step_wf in E3.
Qed.

(** *** The recorder and the rest *)

Lemma Start_wf f h fps b m m' rt : wf m -> StartRecord f h fps b m = Done (m', rt) -> wf m'.
Proof.
  intros [D S X C R T A]; unfold StartRecord; destruct (mRecord (rcd m) =? 0) eqn:E0; cbn [negb]; [|intros [= <- <-]; by constructor].
  assert (R' : mRecord (rcd m) = 0 /\ mWriteRecord (rcd m) = false) by (destruct R as [?|[? _]]; [done|lia]).
  destruct (_ && _); [intros [= <- <-]; by constructor|].
  destruct (negb (alloc_format F)); [intros [= <- <-]; constructor; try done; by left|].
  destruct (negb (new_stream F)); [intros [= <- <-]; constructor; try done; by left|].
  intros H; obinv H; destruct (_ && _); injection H as <- <-; constructor; try done; [by left|].
  right; cbn; destruct R'; split; [lia|done].
Qed.
Lemma Stop_wf m m' : wf m -> StopRecord m = Done m' -> wf m'.
Proof.
  intros [D S X C R T A]; unfold StopRecord; destruct (mRecord (rcd m) =? 0) eqn:E0; [intros [= <-]; by constructor|].
  destruct (mRecordContext (rcd m)); [|done]; intros [= <-]; constructor; try done; left; cbn.
  destruct R as [[? _]|[? _]]; split; [lia|done|lia|done].
Qed.
Lemma Write_wf b n t d m m' : wf m -> WriteFrame b n t d m = Done m' -> wf m'.
Proof.
  intros W; pose proof W as [D S X C R T A]; unfold WriteFrame; cbv zeta.
  destruct (mRecord (rcd m) =? 0) eqn:E0; [by intros [= <-]|].
  destruct (negb (_ || _)); [by intros [= <-]|]; destruct (mRecordContext (rcd m)); [|done]; cbn [negb].
  intros H; obinv H; injection H as <-; constructor; try done; right; cbn; destruct R as [[? _]|[? _]]; [lia|done].
Qed.

(** What the calls with a header need. *)
Definition op_ok (o : op) : Prop :=
  match o with
  | OHeader _ _ h n | OInit _ _ h n _ => Forall is_byte h /\ n <= zlen h
  | _ => True
  end.

Lemma step_wf o m m' : wf m -> op_ok o -> step o m = Done m' -> wf m'.
Proof.
  intros W Ho; destruct o; cbn [step op_ok] in *; intros H.
  all: try (obinv H; match goal with x : (jamedia * _)%type |- _ => destruct x end; injection H as <-).
  - destruct Ho; by eapply Analyst_wf.
  - destruct Ho; by eapply Init_wf.
  - by eapply Decode_wf.
  - injection H as <-; by apply Close_wf.
  - unfold CaptureImage in H; obinv H; injection H as <-; destruct W as [D S X [C1 C2] R T A]; constructor; try done.
    constructor; cbn; [lia|]; unfold JA.strcpy in E; destruct (_ <? _)%nat eqn:El; [|done].
    injection E as <-; by apply Nat.ltb_lt in El.
  - by eapply Start_wf.
  - by eapply Write_wf.
  - by eapply Stop_wf.
  - revert E; unfold InitAudioDecoder; repeat case_match; intros [= <- <-]; try done; destruct W; by constructor.
  - injection H as <-; unfold CloseAudioDecoder; destruct W; case_match; by constructor.
  - injection H as <-; by apply (wf_parts m).
  - injection H as <-; by apply (wf_parts m).
  - injection H as <-; destruct W; constructor; try done; by left.
  - injection H as <-; by apply (wf_parts m).
  - unfold SetIsP360Dev in H; obinv H; injection H as <-; by apply (wf_parts m).
  - injection H as <-; destruct W; by constructor.
  - unfold WriteTextOSDDirectTextureFrame in E; destruct (negb _); [injection E as <- _; done|].
    destruct W as [D S X C R T A]; destruct (mGraphicBuffer (tex m)) eqn:Eg; [done| |done]; unfold wf_texture in T; rewrite Eg in T.
    destruct (negb _), (mGraphicBufferOSD _); try done; obinv E; injection E as <- _;
      constructor; try done; unfold wf_texture; cbn; by rewrite Eg.
Qed.

(** The calls that touch the texture. *)
Definition textures (o : op) : bool := match o with ODecode _ _ _ | ODirect _ | OOsd _ => true | _ => false end.
Lemma step_tex o m m' : textures o = false -> step o m = Done m' -> tex m' = tex m.
Proof.
  assert (forall m, tex (CloseVideoDecoder m) = tex m) as Hc by (intros x; by destruct (Close_parts x) as [[= ? ? ? ? ? E ?] _]).
  assert (forall st c h n m m' rt, AnalystHeader st c h n m = Done (m', rt) -> tex m' = tex m) as Ha.
  { clear m m'; intros st c h n m m' rt; unfold AnalystHeader; intros H; obinv H; destruct v as [wh|]; [|by injection H as <- _].
    destruct (default st wh) as [lw lh]; cbv zeta in H; destruct (_ && _); [by injection H as <- _|].
    obinv H; injection H as <- _; cbn [unlock set_ext tex]; destruct (isVideoDecoderActive _); [|done].
    cbn [set_siz tex]; by rewrite Hc. }
  destruct o; cbn [step textures]; try done; intros _ H.
  all: try (obinv H; match goal with x : (jamedia * _)%type |- _ => destruct x end; injection H as <-).
  - by eapply Ha.
  - unfold InitVideoDecoder in E; obinv E; destruct v as [m1 ret]; apply Ha in E0.
    destruct (negb (ret =? 0)); [by injection E as <- _|]; destruct (isVideoDecoderActive _); [by injection E as <- _|].
    rewrite <- E0; revert E; unfold open_decoder; repeat case_match; intros [= <- _]; done.
  - injection H as <-; apply Hc.
  - unfold CaptureImage in H; obinv H; by injection H as <-.
  - unfold StartRecord in E; repeat (case_match; [by injection E as <- _|]); obinv E; case_match; by injection E as <- _.
  - unfold WriteFrame in H; repeat (case_match; [done || by injection H as <-|]); obinv H; by injection H as <-.
  - unfold StopRecord in H; repeat case_match; try done; by injection H as <-.
  - unfold InitAudioDecoder in E; repeat case_match; try done; by injection E as <- _.
  - injection H as <-; unfold CloseAudioDecoder; by case_match.
  - by injection H as <-.
  - by injection H as <-.
  - by injection H as <-.
  - by injection H as <-.
  - unfold SetIsP360Dev in H; obinv H; by injection H as <-.
Qed.
Lemma texture_undrawn w h m m' : undrawn (tex m) -> texture_step w h m = Done m' -> undrawn (tex m').
Proof.
  unfold texture_step; destruct (negb _) eqn:Ed; [by intros ? [= <-]|]; intros Hu H; obinv H.
  assert (undrawn (tex v)) as Hv.
  { clear H; revert E; unfold renew_texture, undrawn in *; repeat case_match; intros [= <-]; cbn; intros; first [done|congruence|auto]. }
  destruct (isDirectTexture (tex v)); [|by injection H as <-].
  unfold fill_texture in H; repeat case_match; try done; by injection H as <-.
Qed.
Lemma Decode_tex b n d m m' rt : DecodeVideo b n d m = Done (m', rt) ->
  tex m' = tex m \/ exists w h m1, tex m1 = tex m /\ texture_step w h m1 = Done m'.
Proof.
  unfold DecodeVideo; destruct (negb _); [intros [= <- <-]; by left|].
  intros H; obinv H; destruct (mContext _); [|done]; destruct (mPicture _); [|done].
  destruct (got d =? 0); [injection H as <- <-; by left|]; obinv H; apply circle_step_parts in E0.
  destruct (ctx_size d) as [w h]; obinv H; apply scale_step_parts in E1; apply capture_step_parts in E2 as ([= _ _ _ _ _ E2 _] & _).
  injection E0 as _ _ _ _ _ _ E0 _; injection E1 as _ _ _ _ _ _ E1 _.
  right; destruct (mISP720Dev _); obinv H; injection H as <- _; do 3 eexists; (split; [|exact E3]); cbn [unlock tex]; congruence.
Qed.
Lemma step_undrawn o m m' : o <> ODirect true -> undrawn (tex m) -> step o m = Done m' -> undrawn (tex m').
Proof.
  intros Ho Hu H; destruct (textures o) eqn:Et; [|by rewrite (step_tex o m m')].
  destruct o; try done; cbn [step] in H; obinv H.
  - destruct v as [v rt]; injection H as <-; destruct (Decode_tex _ _ _ _ _ _ E) as [->|(w & h & m1 & E1 & E2)]; [done|].
    eapply texture_undrawn; [|exact E2]; by rewrite E1.
  - destruct isDirect; [done|]; injection H as <-; by intros _.
  - destruct v as [v rt]; injection H as <-; unfold WriteTextOSDDirectTextureFrame in E; destruct (negb _); [by injection E as <- _|].
    destruct (mGraphicBuffer (tex m)) eqn:Eg; [done| |done].
    destruct (negb _), (mGraphicBufferOSD _); try done; obinv E; injection E as <- _; unfold undrawn; cbn; by rewrite ?Eg.
Qed.
(** Without a picture there is no graphic buffer. *)
Lemma step_no_buffer o m m' : (forall b n d, o <> ODecode b n d) -> mGraphicBuffer (tex m) = TNull -> step o m = Done m' ->
  mGraphicBuffer (tex m') = TNull.
Proof.
  intros Ho Hn H; destruct (textures o) eqn:Et; [|by rewrite (step_tex o m m')].
  destruct o; try done; [by destruct (Ho inbuf insize d)| |].
  - by injection H as <-.
  - cbn [step] in H; obinv H; destruct v as [v rt]; injection H as <-; unfold WriteTextOSDDirectTextureFrame in E.
    rewrite Hn in E; destruct (negb _); [by injection E as <- _|done].
Qed.

(** Every sequence of calls on a new object. *)
Fixpoint steps (l : list op) (m : jamedia) : outcome jamedia :=
  match l with [] => Done m | o :: l => let* m := step o m in steps l m end.
Lemma steps_wf l m m' : wf m -> Forall op_ok l -> steps l m = Done m' -> wf m'.
Proof.
  revert m; induction l as [|o l IH]; intros m W; cbn [steps]; [by intros _ [= <-]|].
  intros Hl H; inversion_clear Hl as [|? ? Ho Hl']; obinv H; apply (IH v); [|done|done]; by apply (step_wf o m).
Qed.

(** Direct textures are not turned on again behind the first picture. *)
Definition settled (l : list op) : Prop :=
  exists l1 l2, l = l1 ++ l2 /\ Forall (fun o => forall b n d, o <> ODecode b n d) l1 /\ Forall (fun o => o <> ODirect true) l2.
Lemma steps_app l1 l2 m : steps (l1 ++ l2) m = let* m := steps l1 m in steps l2 m.
Proof.
  revert m; induction l1 as [|o l1 IH]; intros m; [done|]; cbn [app steps].
  destruct (step o m); cbn [obind]; [apply IH|done|done].
Qed.
Lemma steps_undrawn l p360 pts0 fmt mutex m : settled l -> steps l (new_media p360 pts0 fmt mutex) = Done m -> undrawn (tex m).
Proof.
  intros (l1 & l2 & -> & H1 & H2); rewrite steps_app; intros H; obinv H; rename v into m1.
  assert (undrawn (tex m1)) as Hu.
  { assert (mGraphicBuffer (tex m1) = TNull) as Hn; [|by intros Hf; rewrite Hn in Hf].
    assert (mGraphicBuffer (tex (new_media p360 pts0 fmt mutex)) = TNull) as H0 by done.
    clear H H2; revert H0 E; generalize (new_media p360 pts0 fmt mutex) as m0.
    induction H1 as [|o l1 Ho _ IH]; intros m0 H0 E; cbn [steps] in E; [by injection E as <-|].
    obinv E; by apply (IH v); [apply (step_no_buffer o m0)|]. }
  clear E H1; revert m1 Hu H; induction H2 as [|o l2 Ho _ IH]; intros m1 Hu H; cbn [steps] in H; [by injection H as <-|].
  obinv H; by apply (IH v); [apply (step_undrawn o m1)|].
Qed.

(** C15: the media object is well formed in every state that calls on a new object reach, the
    application's switch to direct textures and the time text on them included: an open
    decoder has its context, pictures and scaler for one layout, and the output buffer has
    the size of that layout; the extra data lies in its array; at most one recording is
    under way, with a live context; a live graphic buffer has the size the members say.
    And as long as direct textures are not turned on again behind the first picture, a
    graphic buffer that was deleted because the device does not support it is not drawn
    to. *)
Theorem media_wf p360 pts0 fmt mutex l m :
  Forall op_ok l -> steps l (new_media p360 pts0 fmt mutex) = Done m -> wf m /\ (settled l -> undrawn (tex m)).
Proof.
  intros Hl H; split; [by eapply steps_wf; [apply new_media_wf| |]|intros Hs; by eapply steps_undrawn].
Qed.

(** Turned on again they are: the next picture is drawn to the deleted buffer, or deletes
    it again. *)
Theorem direct_again_faults w h w' h' m :
  isDirectTexture (tex m) = true -> mGraphicBuffer (tex m) = TNull -> tex_ok F w h = false ->
  exists m', texture_step w h m = Done m' /\ texture_step w' h' (UseDirectTexture true m') = Fault.
Proof.
  intros H1 H2 H3; unfold texture_step, renew_texture; rewrite H1, H2, H3; cbn [negb obind tex set_tex ev isDirectTexture].
  eexists; split; [done|]; cbn; by destruct (_ && _).
Qed.

(** ** Decoding a picture *)

(** The decoder is open for [fmt], [lw], [lh], with its buffer and scaler. *)
Record opened (m : jamedia) (fmt lw lh : Z) : Prop := {
  op_wf : wf m;
  op_active : isVideoDecoderActive (dec m) = true;
  op_layout : mOutpic (dec m) = Some (fmt, lw, lh);
  op_buffer : 0 <= get_size F fmt lw lh;
  op_scaler : sws_ok F (AV_PIX_FMT_YUV420P, lw, lh) (fmt, lw, lh) = true;
  op_texture : isDirectTexture (tex m) = false
}.

(** The size of the file of a capture. *)
Definition png_dims (type : Z) (wh : Z * Z) : Z * Z := if negb (type =? 0) then wh else (100, 100).
(** The encoder works for a picture of [wh], which lies in the output picture, and the
    file can be created. *)
Record png_works (fmt lw lh : Z) (path : cstr) (type : Z) (wh : Z * Z) : Prop := {
  pw_encoder : find_encoder F = true /\ alloc_encoder F = true /\ 0 <= open_encoder F;
  pw_inside : fst wh <= lw /\ snd wh <= lh;
  pw_scaler : sws_ok F (fmt, fst wh, snd wh) (AV_PIX_FMT_RGB24, fst (png_dims type wh), snd (png_dims type wh)) = true;
  pw_file : fopen_ok F path = true
}.

(** The file of a capture, and the call of OnCaptureImage when it is set. *)
Definition png_events (c : capture) (wh : Z * Z) : list event :=
  if mCaptureImage c =? 0 then []
  else MPng (mCapFileName c) (fst (png_dims (CaptureImageType c) wh)) (snd (png_dims (CaptureImageType c) wh))
       :: if OnCaptureImage c then [MCaptured true (mCapFileName c)] else [].
Definition after_png (c : capture) : capture :=
  mkCap (mCaptureImage c - if mCaptureImage c =? 0 then 0 else 1) (mCapFileName c) (CaptureImageType c) (OnCaptureImage c).

Lemma opened_decoder m fmt lw lh : opened m fmt lw lh ->
  mPicture (dec m) = true /\ mContext (dec m) <> None /\
  mVideoBuffer (dec m) = Some (get_size F fmt lw lh) /\
  img_convert_ctx (dec m) = Some (fmt, lw, lh) /\ mDecoderFmt (dec m) = fmt.
Proof.
  intros [W Ha Hl Hb Hs _]; destruct (wf_dec m W) as [D1 D2].
  destruct (D2 Ha) as (w & h & E & Hp & Hc & Hi); rewrite Hl in E; injection E as E1 <- <-.
  rewrite <- E1, Hs in Hi; destruct (D1 _ _ _ Hl) as [_ Hv]; unfold malloc in Hv.
  replace (get_size F fmt lw lh <? 0) with false in Hv by lia; done.
Qed.
Lemma opened_parts m m' fmt lw lh :
  parts m' = parts m -> opened m fmt lw lh -> opened m' fmt lw lh.
Proof.
  intros E [W ? ? ? ? ?]; pose proof (wf_parts m m' E W); injection E as E1 E2 E2' E3 E4 E5 E6 E7.
  constructor; by rewrite ?E1, ?E6.
Qed.

Lemma circle_step_done d m :
  Circle.mRadius (circ (lns m)) <> 0 \/ Circle.plane_ok (picture d) ->
  exists m', circle_step d m = Done m' /\ parts m' = parts m /\ gDecoderMutex m' = gDecoderMutex m /\
    mlog m' = mlog m /\ mISP720Dev (lns m') = mISP720Dev (lns m).
Proof.
  intros H; unfold circle_step; destruct (_ =? 0) eqn:E0; [|by eexists].
  destruct H as [H|H]; [lia|]; unfold Circle.TestCircRound; rewrite E0; cbn [negb].
  destruct (Circle.binarise_spec _ 130 H) as (db & -> & _); by eexists.
Qed.

Lemma write_png_done fmt lw lh path type wh m :
  mDecoderFmt (dec m) = fmt -> mOutpic (dec m) = Some (fmt, lw, lh) -> mVideoBuffer (dec m) <> None ->
  png_works fmt lw lh path type wh ->
  write_png path (fst wh) (snd wh) (fst (png_dims type wh)) (snd (png_dims type wh)) m =
  Done (captured (ev m (MPng path (fst (png_dims type wh)) (snd (png_dims type wh)))) true path, 0).
Proof.
  intros Ef El Hb [(E1 & E2 & E3) [H1 H2] Es Ep]; unfold write_png; rewrite E1, E2, Ef, Es, El; cbn [negb].
  destruct (mVideoBuffer (dec m)); [|done].
  replace (fst wh <=? lw) with true by lia; replace (snd wh <=? lh) with true by lia; cbn [andb negb].
  by replace (open_encoder F <? 0) with false by lia; rewrite Ep.
Qed.

Lemma capture_step_done fmt lw lh wh m :
  mDecoderFmt (dec m) = fmt -> mOutpic (dec m) = Some (fmt, lw, lh) -> mVideoBuffer (dec m) <> None ->
  (mCaptureImage (cap m) <> 0 -> png_works fmt lw lh (mCapFileName (cap m)) (CaptureImageType (cap m)) wh) ->
  exists m', capture_step (fst wh) (snd wh) m = Done m' /\ mlog m' = mlog m ++ png_events (cap m) wh /\
    cap m' = after_png (cap m) /\
    parts m' = (dec m, dims m, ext m, after_png (cap m), rcd m, tex m, aud m) /\
    gDecoderMutex m' = gDecoderMutex m /\ lns m' = lns m /\ siz m' = siz m.
Proof.
  intros Ef El Hb Hp; unfold capture_step, png_events, after_png.
  destruct (mCaptureImage (cap m) =? 0) eqn:E0.
  - eexists; split; [done|]; rewrite app_nil_r, Z.sub_0_r; split_and!; try done; [by destruct (cap m)|].
    unfold parts; by destruct (cap m).
  - specialize (Hp ltac:(lia)); set (m0 := set_cap m _).
    pose proof (write_png_done fmt lw lh _ _ wh m0 Ef El Hb Hp) as E.
    exists (captured (ev m0 (MPng (mCapFileName (cap m)) (fst (png_dims (CaptureImageType (cap m)) wh))
              (snd (png_dims (CaptureImageType (cap m)) wh)))) true (mCapFileName (cap m))).
    split.
    { unfold png_dims in E |- *; destruct (negb (CaptureImageType (cap m) =? 0)).
      - unfold WritePNG; change (mOutpic (dec m0)) with (mOutpic (dec m)); rewrite El, E; done.
      - unfold WritePNG_scaled; cbn [fst snd] in E; rewrite E; done. }
    unfold captured; cbn [cap ev]; change (OnCaptureImage (cap m0)) with (OnCaptureImage (cap m)).
    destruct (OnCaptureImage (cap m)); split_and!; try done; cbn [mlog ev]; by rewrite <- app_assoc.
Qed.

(** One picture with an open decoder, the direct texture being off. *)
Lemma decode_done b n d m fmt lw lh :
  opened m fmt lw lh -> 0 <= n <= zlen b ->
  Circle.mRadius (circ (lns m)) <> 0 \/ Circle.plane_ok (picture d) ->
  (mCaptureImage (cap m) <> 0 -> png_works fmt lw lh (mCapFileName (cap m)) (CaptureImageType (cap m)) (ctx_size d)) ->
  exists m', DecodeVideo b n d m = Done (m', if got d =? 0 then -1 else 0) /\
    gDecoderMutex m' = gDecoderMutex m /\ opened m' fmt lw lh /\
    mlog m' = mlog m ++ (if got d =? 0 then [] else MScale (snd (ctx_size d)) :: png_events (cap m) (ctx_size d)) /\
    cap m' = if got d =? 0 then cap m else after_png (cap m).
Proof.
  intros Ho Hn Hc Hp; destruct (opened_decoder m fmt lw lh Ho) as (Ep & Ec & Eb & Ei & Ef).
  pose proof Ho as [W Ha El Hb Hs Ht]; unfold DecodeVideo; rewrite Ha; cbn [negb].
  assert (load b 0 n = Done (take (Z.to_nat n) b)) as ->.
  { unfold load; rewrite (proj2 (inb_spec _ _ _)) by lia; by rewrite drop_0. }
  cbn [obind]; change (mContext (dec (lock m))) with (mContext (dec m)); change (mPicture (dec (lock m))) with (mPicture (dec m)).
  rewrite Ep; destruct (mContext (dec m)) eqn:Ex; [|done]; clear Ec.
  set (m1 := set_context (lock m) (ctx_size d)).
  assert (opened m1 fmt lw lh) as O1.
  { constructor; try done; apply set_context_wf; by apply (wf_parts m). }
  destruct (got d =? 0).
  - eexists; split; [done|]; cbn [gDecoderMutex unlock m1 set_context set_dec lock]; split; [lia|].
    split; [by apply (opened_parts m1)|]; by rewrite app_nil_r.
  - destruct (circle_step_done d m1 Hc) as (m2 & -> & P2 & M2 & L2 & _); cbn [obind].
    pose proof (opened_parts m1 m2 _ _ _ P2 O1) as O2; destruct (opened_decoder m2 _ _ _ O2) as (_ & _ & Eb2 & Ei2 & Ef2).
    destruct (ctx_size d) as [w h] eqn:Ewh; unfold scale_step; rewrite Ei2, (op_layout _ _ _ _ O2), Eb2.
    rewrite bool_decide_true by done; cbn [obind].
    assert (cap m2 = cap m) as C2 by (by injection P2).
    destruct (capture_step_done fmt lw lh (w, h) (ev m2 (MScale h)) Ef2 (op_layout _ _ _ _ O2))
      as (m3 & E3 & L3 & C3 & P3 & M3 & Hl & Hz); [cbn; by rewrite Eb2|cbn [cap ev]; by rewrite C2|].
    cbn [fst snd] in E3; rewrite E3; cbn [obind].
    pose proof (capture_step_wf _ _ _ _ (wf_parts m2 (ev m2 (MScale h)) eq_refl (op_wf _ _ _ _ O2)) E3) as W3.
    assert (tex m3 = tex m) as T3.
    { injection P3 as _ _ _ _ _ _ T3 _; rewrite T3; by injection P2. }
    assert (forall g1 g2, texture_step g1 g2 (unlock m3) = Done (unlock m3)) as Htex.
    { intros; unfold texture_step; cbn [tex unlock]; by rewrite T3, Ht. }
    assert (D3 : dec m3 = dec m1).
    { injection P3 as D3 _ _ _ _ _ _ _; rewrite D3; by injection P2. }
    exists (unlock m3); split; [by destruct (mISP720Dev _); rewrite Htex|].
    split; [cbn [gDecoderMutex unlock]; rewrite M3; cbn [gDecoderMutex ev]; rewrite M2; cbn; lia|].
    split; [constructor; try done; cbn [unlock dec tex]; rewrite ?D3, ?T3; try done; by apply (wf_parts m3)|].
    cbn [mlog unlock cap]; rewrite L3, C3; cbn [mlog ev cap]; rewrite L2, C2, <- app_assoc; done.
Qed.

(** A picture decoded with an open decoder, whatever its content, is scaled and
    handed out without a fault: the call returns 0, or -1 when the decoder has no
    picture yet, the mutex is released on every path, and a capture that is asked
    for is written from this picture, once, and reported. *)
Theorem decode_picture b n d m fmt lw lh :
  opened m fmt lw lh -> 0 <= n <= zlen b ->
  Circle.mRadius (circ (lns m)) <> 0 \/ Circle.plane_ok (picture d) ->
  (mCaptureImage (cap m) <> 0 -> png_works fmt lw lh (mCapFileName (cap m)) (CaptureImageType (cap m)) (ctx_size d)) ->
  exists m', DecodeVideo b n d m = Done (m', if got d =? 0 then -1 else 0) /\
    gDecoderMutex m' = gDecoderMutex m /\ opened m' fmt lw lh /\
    mlog m' = mlog m ++ (if got d =? 0 then [] else MScale (snd (ctx_size d)) :: png_events (cap m) (ctx_size d)) /\
    cap m' = if got d =? 0 then cap m else after_png (cap m).
Proof. apply decode_done. Qed.

(** ** Capture requests and the pictures after them *)

Fixpoint requests (names : list cstr) (type : Z) (m : jamedia) : outcome jamedia :=
  match names with [] => Done m | f :: names => let* m := CaptureImage f type m in requests names type m end.
Fixpoint decodes (l : list (bytes * decoded)) (m : jamedia) : outcome jamedia :=
  match l with
  | [] => Done m
  | (b, d) :: l => let* '(m, _) := DecodeVideo b (zlen b) d m in decodes l m
  end.

Definition png_of (e : event) : list cstr := match e with MPng p _ _ => [p] | _ => [] end.
(** The files a log writes, in order. *)
Definition pngs (l : list event) : list cstr := flat_map png_of l.
Lemma pngs_app l l' : pngs (l ++ l') = pngs l ++ pngs l'.
Proof. apply flat_map_app. Qed.

Lemma requests_done names type m :
  Forall (fun f => (length f < 1024)%nat) names ->
  exists m', requests names type m = Done m' /\ mlog m' = mlog m /\ dec m' = dec m /\ siz m' = siz m /\ ext m' = ext m /\
    lns m' = lns m /\ rcd m' = rcd m /\ tex m' = tex m /\ aud m' = aud m /\
    cap m' = match names with
             | [] => cap m
             | _ => mkCap (mCaptureImage (cap m) + zlen names) (List.last names []) type (OnCaptureImage (cap m))
             end.
Proof.
  revert m; induction names as [|f names IH]; intros m Hf; cbn [requests]; [by eexists|].
  inversion_clear Hf as [|? ? Hl Hf'].
  unfold CaptureImage, JA.strcpy; rewrite (proj2 (Nat.ltb_lt _ _) Hl); cbn [obind].
  set (m1 := set_cap m _); destruct (IH m1 Hf') as (m' & -> & E1 & E2 & E3 & E4 & E5 & E6 & E7 & E8 & E9).
  exists m'; split_and!; try done; rewrite E9; destruct names as [|f' names]; cbn [cap m1 set_cap mCaptureImage OnCaptureImage].
  - done.
  - f_equal; unfold zlen; simpl; lia.
Qed.

(** A picture that a capture of [path] can be made from. *)
Record capturable (fmt lw lh : Z) (path : cstr) (type : Z) (x : bytes * decoded) : Prop := {
  cb_got : got (snd x) <> 0;
  cb_plane : Circle.plane_ok (picture (snd x));
  cb_png : png_works fmt lw lh path type (ctx_size (snd x))
}.

Lemma decodes_pngs fmt lw lh path type l m :
  opened m fmt lw lh -> 0 <= mCaptureImage (cap m) ->
  mCapFileName (cap m) = path -> CaptureImageType (cap m) = type ->
  Forall (capturable fmt lw lh path type) l ->
  exists m', decodes l m = Done m' /\
    pngs (mlog m') = pngs (mlog m) ++ replicate (Nat.min (Z.to_nat (mCaptureImage (cap m))) (length l)) path /\
    mCaptureImage (cap m') = Z.max 0 (mCaptureImage (cap m) - zlen l).
Proof.
  revert m; induction l as [|[b d] l IH]; intros m Ho Hc En Et Hl; cbn [decodes].
  - exists m; rewrite Nat.min_0_r, app_nil_r; split_and!; [done|done|unfold zlen; simpl; lia].
  - inversion_clear Hl as [|? ? [Hg Hpl Hw] Hl']; cbn [snd] in *.
    destruct (decode_done b (zlen b) d m fmt lw lh Ho ltac:(unfold zlen; lia) (or_intror Hpl)) as
      (m1 & -> & _ & O1 & L1 & C1); [by rewrite En, Et|]; cbn [obind].
    replace (got d =? 0) with false in * by lia.
    destruct (IH m1 O1) as (m' & -> & L' & C'); rewrite ?C1; cbn [after_png mCaptureImage mCapFileName CaptureImageType];
      try done; [case_bool; lia|].
    exists m'; split; [done|]; rewrite L', L1, pngs_app, C', C1; cbn [after_png mCaptureImage].
    unfold png_events; destruct (mCaptureImage (cap m) =? 0) eqn:E0.
    + replace (mCaptureImage (cap m)) with 0 by lia; cbn [pngs flat_map png_of app Z.to_nat Nat.min replicate].
      rewrite !app_nil_r; split; [done|unfold zlen; lia].
    + replace (Z.to_nat (mCaptureImage (cap m))) with (S (Z.to_nat (mCaptureImage (cap m) - 1))) by lia.
      cbn [length Nat.min replicate]; split; [|unfold zlen; simpl; lia].
      unfold pngs at 2; cbn [flat_map png_of app].
      destruct (OnCaptureImage (cap m)); cbn [flat_map png_of app]; rewrite <- app_assoc; cbn [app]; by rewrite En.
Qed.

Lemma last_in {A} (d x : A) l : In (List.last (x :: l) d) (x :: l).
Proof. revert x; induction l as [|y l IH]; intros x; [by left|]; right; apply IH. Qed.

(** Captures: as many files are written as captures were asked for before the
    pictures came (or as there were pictures), one from each picture, all under the
    last of the names: of several requests between two pictures the earlier names
    never get a file. *)
Theorem captures_written fmt lw lh m names type l :
  opened m fmt lw lh -> mCaptureImage (cap m) = 0 -> names <> [] ->
  Forall (fun f => (length f < 1024)%nat) names ->
  Forall (capturable fmt lw lh (List.last names []) type) l ->
  exists m1 m', requests names type m = Done m1 /\ decodes l m1 = Done m' /\
    pngs (mlog m') = pngs (mlog m) ++ replicate (Nat.min (length names) (length l)) (List.last names []) /\
    mCaptureImage (cap m') = Z.max 0 (zlen names - zlen l).
Proof.
  intros Ho H0 Hn Hf Hl.
  destruct (requests_done names type m Hf) as (m1 & E1 & L1 & D1 & S1 & X1 & N1 & R1 & T1 & A1 & C1).
  destruct names as [|f names]; [done|]; rewrite H0, Z.add_0_l in C1.
  assert (opened m1 fmt lw lh) as O1.
  { destruct Ho as [[] ? ? ? ? ?]; constructor; rewrite ?D1, ?T1; try done.
    constructor; unfold dims; rewrite ?D1, ?S1, ?X1, ?C1, ?R1, ?T1, ?A1; try done.
    constructor; cbn [mCaptureImage mCapFileName]; [unfold zlen; lia|].
    rewrite List.Forall_forall in Hf; apply Hf; apply last_in. }
  exists m1; destruct (decodes_pngs fmt lw lh (List.last (f :: names) []) type l m1 O1) as (m' & E' & L' & C').
  1-4: rewrite ?C1; cbn [mCaptureImage mCapFileName CaptureImageType]; try done; unfold zlen; lia.
  exists m'; split; [done|]; split; [done|]; rewrite L', C', L1, C1; cbn [mCaptureImage].
  unfold zlen at 1; rewrite Nat2Z.id; done.
Qed.

(** ** The parameter sets of a recording *)

(** The tests of the two loops, on a header that is long enough. *)
Definition h264_key (header : bytes) (i : Z) : bool :=
  (zget header i =? 0) && (zget header (i + 1) =? 0) && (zget header (i + 2) =? 0) &&
  (((zget header (i + 3) =? 1) && (Z.land (zget header (i + 4)) 0x1F =? 5)) ||
   (Z.land (zget header (i + 3)) 0x1F =? 5)).
Definition hevc_key (header : bytes) (i : Z) : bool :=
  let lv := Z.lor (Z.lor (Z.lor (Z.shiftl (zget header i) 24) (Z.shiftl (zget header (i + 1)) 16))
                     (Z.shiftl (zget header (i + 2)) 8)) (zget header (i + 3)) in
  (Z.land lv 0xffffff00 =? 0x100) && (Z.land (Z.shiftr (Z.land lv 0xff) 1) 0x3f =? 0x13).

Lemma byte_at_done m i : 0 <= i < zlen m -> byte_at m i = Done (zget m i).
Proof.
  intros H; unfold byte_at, zget, znth, zlen in *; replace (i <? 0) with false by lia.
  by destruct (lookup_lt_is_Some_2 m (Z.to_nat i) ltac:(lia)) as [b ->].
Qed.
Lemma h264_key_done header i : 0 <= i -> i + 4 < zlen header -> h264_key_at header i = Done (h264_key header i).
Proof.
  intros; unfold h264_key_at, h264_key; rewrite !byte_at_done by lia; cbn [obind].
  destruct (zget header i =? 0); [|done]; destruct (zget header (i + 1) =? 0); [|done].
  destruct (zget header (i + 2) =? 0); [|done]; by destruct (zget header (i + 3) =? 1).
Qed.
Lemma hevc_key_done header i : 0 <= i -> i + 3 < zlen header -> hevc_key_at header i = Done (hevc_key header i).
Proof. intros; unfold hevc_key_at, hevc_key; by rewrite !byte_at_done by lia. Qed.

(** [r] is the first position before [size] that satisfies [key], or [size]. *)
Definition first_key (key : Z -> bool) (size r : Z) : Prop :=
  0 <= r <= size /\ (r = size \/ key r = true) /\ forall i, 0 <= i < r -> key i = false.

Lemma scan_extra_first keyo key n i size :
  (forall k, i <= k < size -> keyo k = Done (key k)) -> 0 <= i -> i + Z.of_nat n = size ->
  (forall k, 0 <= k < i -> key k = false) ->
  exists r, scan_extra keyo n i size = Done r /\ first_key key size r.
Proof.
  revert i; induction n as [|n IH]; intros i Hk Hi Hs Hb; cbn [scan_extra].
  - exists size; split; [done|]; split; [lia|]; split; [by left|]; intros k ?; apply Hb; lia.
  - rewrite Hk by lia; cbn [obind]; destruct (key i) eqn:E.
    + exists i; split; [done|]; split; [lia|]; split; [by right|done].
    + apply (IH (i + 1)); [intros; apply Hk; lia|lia|lia|].
      intros k Hk'; destruct (Z.eq_dec k i) as [->|]; [done|]; apply Hb; lia.
Qed.

Definition key_of (codec : AVCodecID) : bytes -> Z -> bool :=
  match codec with AV_CODEC_ID_H264 => h264_key | AV_CODEC_ID_HEVC => hevc_key | _ => fun _ _ => false end.
Definition extra_limit (n : Z) : Z := if 1024 <? n then 1019 else n - 5.

Lemma copy_extra_first x keyo key header n :
  wf_extra (mkExtra (mExtraData x) 0) -> 5 <= n -> n <= zlen header ->
  (forall k, 0 <= k < extra_limit n -> keyo header k = Done (key header k)) ->
  exists x', copy_extra x keyo header n = Done x' /\ first_key (key header) (extra_limit n) (mExtraSize x') /\
    zlen (mExtraData x') = 1024 /\
    forall k, 0 <= k <= extra_limit n -> take (Z.to_nat k) (mExtraData x') = take (Z.to_nat k) header.
Proof.
  intros [Hx _] H5 Hn Hk; cbn [mExtraData] in Hx; unfold copy_extra; set (len := if 1024 <? n then 1024 else n).
  assert (5 <= len <= 1024 /\ len <= n /\ extra_limit n < len) as (L1 & L2 & L3).
  { unfold len, extra_limit; destruct (1024 <? n) eqn:E; lia. }
  assert (load header 0 len = Done (take (Z.to_nat len) header)) as ->.
  { unfold load; rewrite (proj2 (inb_spec _ _ _)) by lia; by rewrite drop_0. }
  cbn [obind].
  assert (zlen (take (Z.to_nat len) header) = len) as Lt by (unfold zlen in *; rewrite length_take; lia).
  destruct (store_total (mExtraData x) 0 (take (Z.to_nat len) header) ltac:(lia) ltac:(lia)) as [data Ed].
  rewrite Ed; cbn [obind]; fold (extra_limit n).
  assert (0 <= extra_limit n) by (unfold extra_limit; case_bool; lia).
  destruct (scan_extra_first (keyo header) (key header) (Z.to_nat (extra_limit n)) 0 (extra_limit n)) as (r & -> & Hr);
    [intros; apply Hk; lia|lia|lia|intros; lia|].
  cbn [obind]; eexists; split; [done|]; cbn [mExtraData mExtraSize]; split; [done|].
  rewrite (store_length _ _ _ _ Ed); split; [done|]; intros k Hk'.
  destruct (store_done _ _ _ _ Ed) as (_ & _ & ->); change (Z.to_nat 0) with 0%nat; rewrite take_0; cbn [app].
  rewrite take_app_le by (unfold zlen in Lt; lia); rewrite take_take; f_equal; lia.
Qed.

Lemma analyst_extra_first codec x header n :
  codec = AV_CODEC_ID_H264 \/ codec = AV_CODEC_ID_HEVC ->
  wf_extra x -> 5 <= n -> n <= zlen header ->
  exists x', analyst_extra codec x header n = Done x' /\
    first_key (key_of codec header) (extra_limit n) (mExtraSize x') /\ zlen (mExtraData x') = 1024 /\
    take (Z.to_nat (mExtraSize x')) (mExtraData x') = take (Z.to_nat (mExtraSize x')) header.
Proof.
  intros Hc [Hx _] H5 Hn.
  assert (extra_limit n + 5 <= n) as Hl by (unfold extra_limit; case_bool; lia).
  destruct Hc as [-> | ->]; cbn [analyst_extra key_of].
  - destruct (copy_extra_first (mkExtra (mExtraData x) 0) h264_key_at h264_key header n) as (x' & E & F1 & F2 & F3);
      [by constructor; cbn; lia|done|done|intros; apply h264_key_done; lia|].
    exists x'; split_and!; try done; apply F3; destruct F1; lia.
  - destruct (copy_extra_first (mkExtra (mExtraData x) 0) hevc_key_at hevc_key header n) as (x' & E & F1 & F2 & F3);
      [by constructor; cbn; lia|done|done|intros; apply hevc_key_done; lia|].
    exists x'; split_and!; try done; apply F3; destruct F1; lia.
Qed.

Lemma first_key_unique key size r i :
  first_key key size r -> 0 <= i < size -> key i = true -> (forall k, 0 <= k < i -> key k = false) -> r = i.
Proof.
  intros (H1 & H2 & H3) Hi Hk Hb; destruct (Z.lt_trichotomy r i) as [Hlt|[?|Hgt]]; [|done|].
  - destruct H2 as [->|H2]; [lia|]; by rewrite Hb in H2 by lia.
  - by rewrite H3 in Hk by lia.
Qed.

(** The codecs AnalystHeader takes. *)
Definition video_codec (c : AVCodecID) : Prop := c = AV_CODEC_ID_H264 \/ c = AV_CODEC_ID_HEVC.

(** AnalystHeader on a header whose size is found: nothing but the mutex pair when the
    decoder is open for it; else the size and the extra data are stored and the
    decoder is closed. *)
Lemma Analyst_done stack codec header n wh m lw lh :
  wf m -> video_codec codec -> Forall is_byte header -> n <= zlen header ->
  header_size codec header n = Done (Some wh) -> default stack wh = (lw, lh) ->
  exists m', AnalystHeader stack codec header n m = Done (m', 0) /\ wf m' /\ dims m' = (lw, lh) /\
    gDecoderMutex m' = gDecoderMutex m /\ rcd m' = rcd m /\ cap m' = cap m /\ tex m' = tex m /\ lns m' = lns m /\
    if isVideoDecoderActive (dec m) && (lw =? mVideoWidth (siz m)) && (lh =? mVideoHeight (siz m))
    then parts m' = parts m /\ mlog m' = mlog m
    else isVideoDecoderActive (dec m') = false /\ mlog m' = mlog (CloseVideoDecoder m) /\
         first_key (key_of codec header) (extra_limit n) (mExtraSize (ext m')) /\
         zlen (mExtraData (ext m')) = 1024 /\
         take (Z.to_nat (mExtraSize (ext m'))) (mExtraData (ext m')) = take (Z.to_nat (mExtraSize (ext m'))) header.
Proof.
  intros W Hv Hb Hn Hh Hs; pose proof (header_size_long _ _ _ _ Hb Hn Hh) as H5.
  assert (forall m', AnalystHeader stack codec header n m = Done (m', 0) -> wf m') as Hw by (intros m'; by apply Analyst_wf).
  revert Hw; unfold AnalystHeader; rewrite Hh; cbn [obind]; rewrite Hs; cbn [dec siz lock].
  destruct (_ && _) eqn:Ea; intros Hw.
  - eexists; split; [done|]; split; [by apply Hw|]; cbn [gDecoderMutex unlock lock].
    split_and!; try done; [|lia]; unfold dims; cbn [siz unlock lock]; f_equal; lia.
  - match goal with |- context [ext ?s] => set (m1 := s) in * end.
    assert (dims m1 = (lw, lh) /\ ext m1 = ext m /\ isVideoDecoderActive (dec m1) = false /\
            gDecoderMutex m1 = gDecoderMutex m + 1 /\ rcd m1 = rcd m /\ cap m1 = cap m /\ tex m1 = tex m /\ lns m1 = lns m /\
            mlog m1 = mlog (CloseVideoDecoder m)) as (D1 & X1 & A1 & M1 & R1 & C1 & T1 & N1 & G1).
    { subst m1; unfold CloseVideoDecoder; cbn [dec lock]; destruct (isVideoDecoderActive (dec m)) eqn:Eact; cbn [negb];
        [by destruct (mContext (dec m))|done]. }
    destruct (analyst_extra_first codec (ext m1) header n Hv ltac:(rewrite X1; apply (wf_ext m W)) H5 Hn)
      as (x' & E & F1 & F2 & F3); rewrite E in *; cbn [obind] in *.
    eexists; split; [done|]; split; [by apply Hw|]; cbn [gDecoderMutex unlock set_ext rcd cap tex lns mlog dec ext].
    rewrite M1, R1, C1, T1, N1, G1, A1; split_and!; try done; lia.
Qed.

(** ** Opening *)

(** ffmpeg can open the codec for a picture of [w] by [h] and convert it. *)
Record opens (codec : AVCodecID) (fmt w h : Z) : Prop := {
  os_find : find_decoder F codec = true;
  os_alloc : alloc_context F codec = true;
  os_open : 0 <= open2 F codec w h;
  os_size : 0 <= get_size F fmt w h;
  os_scaler : sws_ok F (AV_PIX_FMT_YUV420P, w, h) (fmt, w, h) = true
}.

Lemma open_done codec fmt m w h :
  wf m -> dims m = (w, h) -> isVideoDecoderActive (dec m) = false -> isDirectTexture (tex m) = false ->
  opens codec fmt w h ->
  exists m', open_decoder codec fmt m = Done (m', 0) /\ opened m' fmt w h /\ dims m' = (w, h) /\
    gDecoderMutex m' = gDecoderMutex m - 1 /\ cap m' = cap m /\ lns m' = lns m.
Proof.
  intros W [= Ew Eh] Ha Ht [H1 H2 H3 H4 H5].
  assert (forall m', open_decoder codec fmt m = Done (m', 0) -> wf m') as Hw by (intros m'; by apply open_wf).
  revert Hw; unfold open_decoder; rewrite H1, H2; cbn [negb].
  set (m1 := match mContext (dec m) with Some _ => ev m (MCloseContext false) | None => m end).
  assert (siz m1 = siz m /\ tex m1 = tex m /\ gDecoderMutex m1 = gDecoderMutex m /\ cap m1 = cap m /\ lns m1 = lns m)
    as (E1 & E2 & E3 & E4 & E5) by (subst m1; by destruct (mContext (dec m))).
  rewrite E1, Ew, Eh, H5; replace (open2 F codec w h <? 0) with false by lia; intros Hw.
  eexists; split; [done|]; split; [|].
  - constructor; try done; [by apply Hw|]; cbn [tex unlock set_dec ev]; by rewrite E2.
  - unfold dims; cbn [siz unlock set_dec ev gDecoderMutex cap lns]; by rewrite E1, E3, E4, E5, Ew, Eh.
Qed.

(** The decoder follows the stream: on a key frame whose header gives a picture
    size, from every state, InitVideoDecoder leaves a decoder that is open for
    exactly this size, which [decode_picture] can use; it reports -3 and changes
    nothing when it was open for it, and opens it anew otherwise. *)
Theorem open_follows_header stack codec header n fmt m w h :
  wf m -> video_codec codec -> Forall is_byte header -> n <= zlen header ->
  header_size codec header n = Done (Some (Some (w, h))) -> (w, h) <> (0, 0) ->
  opens codec fmt w h -> isDirectTexture (tex m) = false ->
  (isVideoDecoderActive (dec m) = true -> mDecoderFmt (dec m) = fmt) ->
  exists m' rt, InitVideoDecoder stack codec header n fmt m = Done (m', rt) /\
    opened m' fmt w h /\ dims m' = (w, h) /\
    if isVideoDecoderActive (dec m) && bool_decide (dims m = (w, h))
    then rt = -3 /\ parts m' = parts m /\ gDecoderMutex m' = gDecoderMutex m
    else rt = 0 /\ gDecoderMutex m' = gDecoderMutex m - 1.
Proof.
  intros W Hv Hb Hn Hh Hz Ho Ht Hf.
  destruct (Analyst_done stack codec header n (Some (w, h)) m w h W Hv Hb Hn Hh eq_refl)
    as (m1 & E & W1 & D1 & M1 & _ & _ & T1 & _ & Hcase).
  unfold InitVideoDecoder; rewrite E; cbn [obind Z.eqb negb].
  assert (isVideoDecoderActive (dec m) && (w =? mVideoWidth (siz m)) && (h =? mVideoHeight (siz m)) =
          isVideoDecoderActive (dec m) && bool_decide (dims m = (w, h))) as Es.
  { destruct (isVideoDecoderActive (dec m)); [|done]; cbn [andb]; case_bool_decide as Ed.
    - injection Ed as -> ->; lia.
    - destruct (w =? mVideoWidth (siz m)) eqn:E1; [|done]; destruct (h =? mVideoHeight (siz m)) eqn:E2; [|done].
      exfalso; apply Ed; unfold dims; f_equal; lia. }
  rewrite Es in Hcase; destruct (isVideoDecoderActive (dec m)) eqn:Ea; cbn [andb] in *.
  - destruct (bool_decide _) eqn:Ed; [destruct Hcase as [P1 _]|destruct Hcase as (A1 & _)].
    + assert (isVideoDecoderActive (dec m1) = true) as -> by (injection P1 as -> _; done).
      exists m1, (-3); split; [done|]; split; [|done].
      destruct (wf_siz m1 W1) as [Hd|[f Hl]]; [by injection P1 as -> _| |].
      { by rewrite D1 in Hd. }
      injection D1 as E1 E2; rewrite E1, E2 in Hl.
      assert (f = fmt) as ->.
      { assert (dec m1 = dec m) as Em by (by injection P1).
        destruct (wd_active _ (wf_dec m1 W1)) as (? & ? & Hl' & _); [by rewrite Em|].
        rewrite Hl in Hl'; injection Hl' as -> _ _; rewrite Em; auto. }
      destruct Ho as [_ _ _ Hsz Hsc]; constructor; try done; [by injection P1 as -> _|by rewrite T1].
    + rewrite A1; destruct (open_done codec fmt m1 w h W1 D1 A1 ltac:(by rewrite T1) Ho) as (m2 & E2 & ? & ? & M2 & _).
      exists m2, 0; rewrite E2, M2, M1; done.
  - destruct Hcase as (A1 & _); rewrite A1.
    destruct (open_done codec fmt m1 w h W1 D1 A1 ltac:(by rewrite T1) Ho) as (m2 & E2 & ? & ? & M2 & _).
    exists m2, 0; rewrite E2, M2, M1; done.
Qed.

(** ** The mutex *)

Lemma open_mutex codec fmt m m' rt :
  open_decoder codec fmt m = Done (m', rt) -> gDecoderMutex m' = gDecoderMutex m - 1 /\ rt <> -3.
Proof.
  unfold open_decoder; destruct (negb (find_decoder F codec)); [by intros [= <- <-]|].
  destruct (negb (alloc_context F codec)); [done|].
  destruct (open2 F codec _ _ <? 0); destruct (mContext (dec m)); by intros [= <- <-].
Qed.
Lemma Close_mutex m : gDecoderMutex (CloseVideoDecoder m) = gDecoderMutex m.
Proof. unfold CloseVideoDecoder; destruct (negb _); [done|]; by destruct (mContext (dec m)). Qed.
Lemma Analyst_mutex stack codec header n m m' rt :
  AnalystHeader stack codec header n m = Done (m', rt) -> gDecoderMutex m' = gDecoderMutex m /\ (rt = 0 \/ rt = -3).
Proof.
  unfold AnalystHeader; intros H; obinv H; destruct v as [wh|]; [|injection H as <- <-; auto].
  destruct (default stack wh) as [lw lh]; cbv zeta in H.
  destruct (_ && _); [injection H as <- <-; cbn; split; [lia|by left]|].
  obinv H; injection H as <- <-; cbn [gDecoderMutex unlock set_ext]; split; [|by left].
  destruct (isVideoDecoderActive _); cbn [gDecoderMutex set_siz]; rewrite ?Close_mutex; cbn; lia.
Qed.
Lemma texture_mutex w h m m' : texture_step w h m = Done m' -> gDecoderMutex m' = gDecoderMutex m.
Proof.
  unfold texture_step; destruct (negb _); [by intros [= ->]|]; intros H; obinv H.
  assert (gDecoderMutex v = gDecoderMutex m) as Ev.
  { clear H; revert E; unfold renew_texture; repeat case_match; try done; by intros [= <-]. }
  destruct (isDirectTexture _); [|congruence].
  unfold fill_texture in H; repeat case_match; try done; by injection H as <-.
Qed.
Lemma captured_mutex b p m : gDecoderMutex (captured m b p) = gDecoderMutex m.
Proof. unfold captured; by destruct (OnCaptureImage _). Qed.
Lemma png_mutex p w h dw dh m m' rt : write_png p w h dw dh m = Done (m', rt) -> gDecoderMutex m' = gDecoderMutex m.
Proof. unfold write_png; intros H; repeat case_match; try done; injection H as <- <-; by rewrite captured_mutex. Qed.
Lemma capture_mutex w h m m' : capture_step w h m = Done m' -> gDecoderMutex m' = gDecoderMutex m.
Proof.
  unfold capture_step; destruct (_ =? 0); [by intros [= ->]|]; intros H; obinv H; destruct v as [m1 rt]; injection H as <-.
  destruct (negb _); [|by apply png_mutex in E].
  unfold WritePNG in E; destruct (mOutpic _); [by apply png_mutex in E|done].
Qed.
Lemma Decode_mutex b n d m m' rt : DecodeVideo b n d m = Done (m', rt) -> gDecoderMutex m' = gDecoderMutex m.
Proof.
  unfold DecodeVideo; destruct (negb _); [by intros [= <- <-]|]; intros H; obinv H.
  destruct (mContext _); [|done]; destruct (mPicture _); [|done].
  destruct (got d =? 0); [injection H as <- <-; cbn; lia|]; obinv H.
  assert (gDecoderMutex v0 = gDecoderMutex m + 1) as E0'.
  { unfold circle_step in E0; destruct (_ =? 0); [obinv E0; destruct v1|]; by injection E0 as <-. }
  destruct (ctx_size d) as [w h]; obinv H.
  assert (gDecoderMutex v1 = gDecoderMutex v0) as E1'.
  { unfold scale_step in E1; repeat case_match; try done; by injection E1 as <-. }
  apply capture_mutex in E2.
  destruct (mISP720Dev _); obinv H; injection H as <- <-; apply texture_mutex in E3; cbn in E3; lia.
Qed.

(** Every call of the media object but InitVideoDecoder leaves the decoder mutex
    as it found it, on every path; InitVideoDecoder does so only when it fails before
    opening (-3), and otherwise unlocks once more than it locks, whether the opening
    succeeds or fails: the mutex, which all viewers share, is then released while
    another viewer may hold it. *)
Theorem mutex_balance o m m' :
  step o m = Done m' ->
  gDecoderMutex m' = gDecoderMutex m \/
  exists stack codec header n fmt rt, o = OInit stack codec header n fmt /\
    InitVideoDecoder stack codec header n fmt m = Done (m', rt) /\ rt <> -3 /\
    gDecoderMutex m' = gDecoderMutex m - 1.
Proof.
  destruct o; cbn [step]; intros H.
  all: try (obinv H; match goal with x : (jamedia * _)%type |- _ => destruct x end; injection H as <-).
  - left; by apply Analyst_mutex in E as [? _].
  - pose proof E as E'; unfold InitVideoDecoder in E; obinv E; destruct v as [m1 ret]; apply Analyst_mutex in E0 as [M1 Hr].
    destruct (negb (ret =? 0)) eqn:Er; [injection E as <- <-; by left|].
    destruct (isVideoDecoderActive (dec m1)); [injection E as <- <-; by left|].
    apply open_mutex in E as [E Hrt]; right; do 6 eexists; split_and!; [done|done|done|lia].
  - left; by apply Decode_mutex in E.
  - injection H as <-; left; apply Close_mutex.
  - unfold CaptureImage in H; obinv H; injection H as <-; by left.
  - left; revert E; unfold StartRecord; repeat case_match; intros Hx; try (by injection Hx as <- <-);
      obinv Hx; by destruct (_ && _); injection Hx as <- <-.
  - left; revert H; unfold WriteFrame; cbv zeta; repeat case_match; intros Hx; try (by injection Hx as <-); try done;
      obinv Hx; by injection Hx as <-.
  - left; revert H; unfold StopRecord; repeat case_match; try done; by intros [= <-].
  - left; revert E; unfold InitAudioDecoder; repeat case_match; try done; by intros [= <- <-].
  - injection H as <-; left; unfold CloseAudioDecoder; by destruct (negb _).
  - injection H as <-; by left.
  - injection H as <-; by left.
  - injection H as <-; by left.
  - injection H as <-; by left.
  - unfold SetIsP360Dev in H; obinv H; injection H as <-; by left.
  - injection H as <-; by left.
  - left; revert E; unfold WriteTextOSDDirectTextureFrame; repeat case_match; intros Hx; try done;
      try (by injection Hx as <- <-); obinv Hx; by injection Hx as <- <-.
Qed.

(** ** A recording *)

Fixpoint frames_written (l : list rec_in) (m : jamedia) : outcome jamedia :=
  match l with
  | [] => Done m
  | (t, bs, dur) :: l => let* m := WriteFrame bs (zlen bs) t dur m in frames_written l m
  end.

(** The specification: the packets of the frames from the first key frame on, each at
    the sum of the steps of the ones before it. *)
Definition ticks (dur : Z) : Z := 900 * (dur / 40).
Fixpoint recorded (started : bool) (t : Z) (l : list rec_in) : list packet :=
  match l with
  | [] => []
  | (ty, bs, dur) :: l =>
      if started || (ty =? 1) then mkPkt (ty =? 1) 0 (Some t) bs :: recorded true (t + ticks dur) l
      else recorded false t l
  end.
Fixpoint total (l : list rec_in) : Z := match l with [] => 0 | (_, _, dur) :: l => ticks dur + total l end.

Definition video_frame (f : rec_in) : Prop := fst (fst f) <> 0 /\ 0 <= snd f.

Lemma total_nonneg l : Forall video_frame l -> 0 <= total l.
Proof.
  induction 1 as [|[[t bs] dur] l [_ Hd] _ IH]; cbn [total]; [lia|].
  unfold ticks; cbn in Hd; pose proof (Z.div_pos dur 40); lia.
Qed.

Lemma frames_written_done l m st t :
  rcd m = mkRec 1 st t true -> 0 <= t -> t + total l <= 2147483647 -> Forall video_frame l ->
  exists m', frames_written l m = Done m' /\ mlog m' = mlog m ++ map MPacket (recorded st t l) /\
    mRecord (rcd m') = 1 /\ mRecordContext (rcd m') = true /\ parts m' = (dec m, dims m, ext m, cap m, rcd m', tex m, aud m).
Proof.
  revert m st t; induction l as [|[[ty bs] dur] l IH]; intros m st t Hr Ht Hs Hl; cbn [frames_written recorded].
  - exists m; split_and!; [done|by rewrite app_nil_r|by rewrite Hr|by rewrite Hr|done].
  - inversion_clear Hl as [|? ? [Hty Hd] Hl']; cbn [fst snd total] in *.
    pose proof (total_nonneg l Hl'); pose proof (Z.div_pos dur 40 Hd ltac:(lia)).
    unfold WriteFrame; rewrite Hr; cbn [mRecord mWriteRecord mRecordContext mPts Z.eqb negb].
    destruct (st || (ty =? 1)) eqn:Es; cbn [negb].
    + replace (ty =? 0) with false by lia; cbn [negb].
      rewrite load_prefix by (unfold zlen; lia); cbn [obind].
      unfold int_of, cdiv; rewrite Z.quot_div_nonneg by lia.
      replace (_ && _) with true by (unfold ticks in *; lia); cbn [obind].
      replace (_ && _) with true by (unfold ticks in *; lia); cbn [obind].
      set (p := mkPkt _ _ _ _); set (m1 := set_rcd (ev m (MPacket p)) _).
      destruct (IH m1 true (t + 900 * (dur / 40)) eq_refl) as (m' & -> & L & R & C & P);
        [lia|unfold ticks in *; lia|done|].
      exists m'; split_and!; try done; rewrite L; cbn [mlog m1 set_rcd ev map]; rewrite <- app_assoc; cbn [app].
      subst p; unfold ticks, zlen; by rewrite Nat2Z.id, firstn_all.
    + cbn [obind]; destruct (IH m st t Hr Ht) as (m' & -> & L & R & C & P); [unfold ticks in *; lia|done|].
      apply orb_false_iff in Es as [-> _]; by exists m'.
Qed.

(** The first packet is a key frame. *)
Lemma recorded_key t l p ps : recorded false t l = p :: ps -> pkt_key p = true.
Proof.
  revert t; induction l as [|[[ty bs] dur] l IH]; intros t; cbn [recorded]; [done|]; cbn [orb].
  destruct (ty =? 1) eqn:E; [intros [= <- _]; done|]; apply IH.
Qed.

(** C16: a recording refines its specification: from StartRecord to StopRecord the
    file gets its header, then exactly the video frames from the first key frame on,
    unchanged and in order, each stamped with the sum of the steps before it, then
    the trailer; afterwards no recording is under way.  It holds as long as the sum
    of the steps is an [int]. *)
Theorem recording_refines f h fps bitrate m m1 l :
  wf m -> StartRecord f h fps bitrate m = Done (m1, true) ->
  Forall video_frame l -> total l <= 2147483647 ->
  exists x m2 m3, extradata (ext m) = Done x /\
    frames_written l m1 = Done m2 /\ StopRecord m2 = Done m3 /\
    mlog m3 = mlog m ++ MRecordOpen f h fps (mVideoWidth (siz m)) (mVideoHeight (siz m)) bitrate x
                :: map MPacket (recorded false 0 l) ++ [MTrailer] /\
    (forall p ps, recorded false 0 l = p :: ps -> pkt_key p = true) /\ IsRecord m3 = false.
Proof.
  intros W Hs Hl Ht.
  assert (exists x, extradata (ext m) = Done x /\ rcd m1 = mkRec 1 false 0 true /\
    mlog m1 = mlog m ++ [MRecordOpen f h fps (mVideoWidth (siz m)) (mVideoHeight (siz m)) bitrate x]) as (x & Ex & R1 & L1).
  { revert Hs; unfold StartRecord; destruct (mRecord (rcd m) =? 0) eqn:E0; [|done]; cbn [negb].
    destruct (wf_rcd m W) as [[Er Ew]|[Er _]]; [|lia].
    destruct (_ && _); [done|]; destruct (negb (alloc_format F)); [done|]; destruct (negb (new_stream F)); [done|].
    cbn [ext set_rcd]; intros Hs; obinv Hs; exists v; split; [done|].
    destruct (_ && _); [done|]; injection Hs as <-; cbn; by rewrite Er, Ew. }
  destruct (frames_written_done l m1 false 0 R1) as (m2 & E2 & L2 & R2 & C2 & _); [lia|lia|done|].
  exists x, m2; unfold StopRecord; rewrite R2, C2; cbn [Z.eqb negb]; eexists; split_and!; try done.
  - cbn [mlog set_rcd ev]; rewrite L2, L1, <- !app_assoc; done.
  - apply recorded_key.
Qed.

(** A recording of more than [INT_MAX] ticks, about 26 hours at 25 frames a second:
    the addition overflows. *)
Theorem long_recording_overflows bs t dur m :
  mRecord (rcd m) <> 0 -> mWriteRecord (rcd m) = true -> mRecordContext (rcd m) = true ->
  t <> 0 -> 0 <= dur <= 5000 -> 2147483647 < mPts (rcd m) + ticks dur ->
  WriteFrame bs (zlen bs) t dur m = Fault.
Proof.
  intros Hr Hw Hc Ht Hd Hp; pose proof (Z.div_pos dur 40 ltac:(lia) ltac:(lia)).
  pose proof (Z.div_le_mono dur 5000 40 ltac:(lia) ltac:(lia)) as Hq; change (5000 / 40) with 125 in Hq.
  unfold WriteFrame; rewrite Hw, Hc; replace (_ =? 0) with false by lia; cbn [orb negb].
  replace (t =? 0) with false by lia; cbn [negb]; rewrite load_prefix by (unfold zlen; lia); cbn [obind].
  unfold int_of, cdiv; rewrite Z.quot_div_nonneg by lia; unfold ticks in Hp.
  replace (_ && _) with true by lia; cbn [obind].
  by replace (_ && _) with false by lia.
Qed.

(** What a recording is given as its parameter sets: behind a key frame whose
    picture size is found, that closes or re-sizes the decoder, and whose first key
    slice the scan of AnalystHeader recognises is at position [length ps], a
    recording is opened with the stream's picture size and exactly the bytes [ps] in
    front of the slice. *)
Theorem parameter_sets_recorded stack codec ps slice m w h f h265 fps bitrate :
  let header := ps ++ slice in
  wf m -> video_codec codec -> Forall is_byte header ->
  header_size codec header (zlen header) = Done (Some (Some (w, h))) ->
  isVideoDecoderActive (dec m) = false \/ dims m <> (w, h) ->
  ps <> [] -> zlen ps < extra_limit (zlen header) ->
  key_of codec header (zlen ps) = true ->
  (forall i, 0 <= i < zlen ps -> key_of codec header i = false) ->
  mRecord (rcd m) = 0 -> guess_format F f || guess_mp4 F = true -> alloc_format F = true -> new_stream F = true ->
  nofile F = true \/ 0 <= avio_open F f ->
  exists m1 m2, AnalystHeader stack codec header (zlen header) m = Done (m1, 0) /\
    StartRecord f h265 fps bitrate m1 = Done (m2, true) /\
    mlog m2 = mlog m1 ++ [MRecordOpen f h265 fps w h bitrate (Some ps)].
Proof.
  intros header W Hv Hb Hh Hc Hne Hlt Hkey Hnone Hr G1 G2 G3 G4.
  destruct (Analyst_done stack codec header (zlen header) (Some (w, h)) m w h W Hv Hb ltac:(lia) Hh eq_refl)
    as (m1 & E1 & W1 & [= Dw Dh] & _ & R1 & _ & _ & _ & Hcase).
  replace (isVideoDecoderActive (dec m) && (w =? mVideoWidth (siz m)) && (h =? mVideoHeight (siz m))) with false in Hcase.
  2:{ symmetry; destruct Hc as [-> | Hd]; [done|]; apply not_true_is_false; intros Ht; apply Hd; unfold dims; f_equal; lia. }
  destruct Hcase as (_ & _ & Hk & Hl & Htk).
  assert (0 < zlen ps) as Hpos by (destruct ps; [done|unfold zlen; simpl; lia]).
  assert (mExtraSize (ext m1) = zlen ps) as Es by (apply (first_key_unique _ _ _ _ Hk); [lia|done|done]).
  assert (extradata (ext m1) = Done (Some ps)) as Ex.
  { pose proof (we_size _ (wf_ext m1 W1)).
    unfold extradata; rewrite Es in *; replace (zlen ps =? 0) with false by lia.
    rewrite load_prefix by lia; cbn [obind]; rewrite Htk; unfold header, zlen; by rewrite Nat2Z.id, take_app_length. }
  exists m1; unfold StartRecord; rewrite R1, Hr; cbn [Z.eqb negb].
  replace (negb (guess_format F f) && negb (guess_mp4 F)) with false by (destruct (guess_format F f), (guess_mp4 F); done).
  rewrite G2, G3; cbn [negb ext set_rcd]; rewrite Ex; cbn [obind].
  replace (negb (nofile F) && (avio_open F f <? 0)) with false
    by (destruct G4 as [-> | ?]; [done|destruct (nofile F); [done|cbn [negb andb]; lia]]).
  eexists; split; [done|]; split; [done|]; cbn [mlog set_rcd ev siz]; by rewrite Dw, Dh.
Qed.
End Media.

(** ** What fails *)

Section Failures.
Context (F : ffmpeg).

(** A stream with three-byte start codes and no three zero bytes in a row: the scan
    never recognises its key slice, and the extra data runs to the limit, over the
    picture. *)
Theorem short_codes_missed x header n :
  wf_extra x -> 5 <= n -> n <= zlen header ->
  (forall i, 0 <= i < extra_limit n ->
     ~ (zget header i = 0 /\ zget header (i + 1) = 0 /\ zget header (i + 2) = 0)) ->
  exists x', analyst_extra AV_CODEC_ID_H264 x header n = Done x' /\ mExtraSize x' = extra_limit n.
Proof.
  intros Hx H5 Hn Hz.
  destruct (analyst_extra_first AV_CODEC_ID_H264 x header n ltac:(by left) Hx H5 Hn) as (x' & E & (Hr & [H|H] & _) & _);
    exists x'; split; try done.
  destruct (Z.eq_dec (mExtraSize x') (extra_limit n)); [done|]; exfalso.
  apply (Hz (mExtraSize x') ltac:(lia)); cbn [key_of] in H; unfold h264_key in H; lia.
Qed.

(** A decoder that could not be opened keeps its context and pictures, and neither
    CloseVideoDecoder nor the destructor releases them. *)
Theorem failed_open_keeps codec fmt m m' :
  open_decoder F codec fmt m = Done (m', -2) ->
  mContext (dec m') <> None /\ mOutpic (dec m') <> None /\ CloseVideoDecoder m' = m'.
Proof.
  unfold open_decoder; destruct (negb (find_decoder F codec)); [done|]; destruct (negb (alloc_context F codec)); [done|].
  destruct (open2 F codec _ _ <? 0); [|done]; intros [= <-]; done.
Qed.

(** A texture that turns out not to be supported is deleted twice. *)
Theorem unsupported_texture_deleted_twice w h m :
  isDirectTexture (tex m) = true -> mGraphicBuffer (tex m) = TNull -> tex_ok F w h = false ->
  exists m', texture_step F w h m = Done m' /\ isDirectTexture (tex m') = false /\ destroy m' = Fault.
Proof.
  intros H1 H2 H3; unfold texture_step, renew_texture; rewrite H1, H2, H3; cbn [negb obind tex set_tex ev isDirectTexture].
  eexists; split; [done|]; split; [done|]; unfold destroy, CloseVideoDecoder; cbn [dec set_tex ev].
  destruct (isVideoDecoderActive (dec m)); cbn [negb]; [by destruct (mContext (dec m))|done].
Qed.

(** A capture whose file cannot be created writes to a null stream. *)
Theorem unwritable_capture_faults path w h dw dh m :
  find_encoder F = true -> alloc_encoder F = true -> 0 <= open_encoder F -> fopen_ok F path = false ->
  write_png F path w h dw dh m = Fault.
Proof.
  intros H1 H2 H3 H4; unfold write_png; rewrite H1, H2, H4; cbn [negb].
  replace (open_encoder F <? 0) with false by lia; repeat case_match; done.
Qed.

(** A sound frame without samples (an error code as its size) clears a null buffer. *)
Theorem empty_sound_faults inbuf n out size s m :
  mAudioDecoderAvaliable (aud m) = true -> 0 <= a_rt s -> fst (samples_size F (a_samples s)) < 0 ->
  DecodeAudio F inbuf n out size s m = Fault.
Proof.
  intros H1 H2 H3; unfold DecodeAudio; rewrite H1; cbn [negb]; replace (a_rt s <? 0) with false by lia.
  destruct (load inbuf 0 n) eqn:E; cbn [obind]; [|done|unfold load in E; by destruct (inb _ _ _)].
  destruct (samples_size F (a_samples s)) as [ds ls]; cbn [fst] in H3; unfold malloc.
  by replace (ds <? 0) with true by lia.
Qed.
End Failures.

(** ** Concrete instances *)

(** Everything works, with four bytes for a pixel. *)
Definition demoF : ffmpeg :=
  mkFF (fun _ => true) (fun _ => true) (fun _ _ _ => 0) (fun _ w h => 4 * w * h) (fun _ _ => true)
    true true 0 (fun _ => true) (fun _ => true) true true true false (fun _ => 0) (fun _ _ => true)
    0 (fun n => (4 * n, 4 * n)).
Definition BGR32 : Z := 28.
(** A parameter set of 640 by 480, a picture parameter set, and a key slice. *)
Definition demo_ps : bytes := [0; 0; 0; 1] ++ H264.H264.demo_nal ++ [0; 0; 0; 1; 0x68; 0xce].
Definition demo_slice : bytes := [0; 0; 0; 1; 0x65; 1; 2; 3].
Definition demo_header : bytes := demo_ps ++ demo_slice.

Lemma demo_bytes : Forall is_byte demo_header.
Proof. apply H265.H265.all_bytes; vm_compute; done. Qed.
Example demo_picture_size : header_size AV_CODEC_ID_H264 demo_header (zlen demo_header) = Done (Some (Some (640, 480))).
Proof. vm_compute; reflexivity. Qed.
Definition demo_new : jamedia := new_media false 0 0 0.
Definition value_of {A} (d : A) (o : outcome A) : A := match o with Done a => a | _ => d end.

Lemma open_follows_header_witness :
  exists m' rt, InitVideoDecoder demoF (7, 7) AV_CODEC_ID_H264 demo_header (zlen demo_header) BGR32 demo_new = Done (m', rt) /\
    rt = 0 /\ dims m' = (640, 480).
Proof.
  destruct (open_follows_header demoF (7, 7) AV_CODEC_ID_H264 demo_header (zlen demo_header) BGR32 demo_new 640 480)
    as (m' & rt & E & _ & D & H).
  - apply new_media_wf.
  - by left.
  - apply demo_bytes.
  - lia.
  - apply demo_picture_size.
  - done.
  - by constructor.
  - done.
  - done.
  - exists m', rt; exact (conj E (conj (proj1 H) D)).
Defined.

(** The decoder open for this stream. *)
Definition demo_open : jamedia := Eval vm_compute in
  fst (value_of (demo_new, 0) (InitVideoDecoder demoF (7, 7) AV_CODEC_ID_H264 demo_header (zlen demo_header) BGR32 demo_new)).
Lemma demo_opened : opened demoF demo_open BGR32 640 480.
Proof.
  constructor; try (by vm_compute).
  apply (Init_wf demoF (7, 7) AV_CODEC_ID_H264 demo_header (zlen demo_header) BGR32 demo_new demo_open 0);
    [apply new_media_wf|apply demo_bytes|lia|vm_compute; reflexivity].
Qed.
Definition demo_pic : decoded := mkDecoded 1 Circle.demo_frame (640, 480).
Definition file_a : cstr := [97].
Definition file_b : cstr := [98].

Lemma demo_works path type : png_works demoF BGR32 640 480 path type (640, 480).
Proof. constructor; try done; cbn; lia. Qed.

Lemma decode_picture_witness :
  exists m', DecodeVideo demoF demo_slice 8 demo_pic demo_open = Done (m', 0) /\ gDecoderMutex m' = -1.
Proof.
  destruct (decode_picture demoF demo_slice 8 demo_pic demo_open BGR32 640 480 demo_opened) as (m' & E & M & _);
    [vm_compute; split; discriminate|right; apply Circle.demo_plane|intros _; apply demo_works|].
  exists m'; exact (conj E M).
Defined.

Lemma demo_capturable path type b : capturable demoF BGR32 640 480 path type (b, demo_pic).
Proof. constructor; [done|apply Circle.demo_plane|apply demo_works]. Qed.

(** Two requests before the first of two pictures: the second name gets both files. *)
Lemma captures_written_witness :
  exists m1 m', requests [file_a; file_b] FullImage demo_open = Done m1 /\
    decodes demoF [(demo_slice, demo_pic); (demo_slice, demo_pic)] m1 = Done m' /\ pngs (mlog m') = [file_b; file_b].
Proof.
  destruct (captures_written demoF BGR32 640 480 demo_open [file_a; file_b] FullImage
              [(demo_slice, demo_pic); (demo_slice, demo_pic)] demo_opened) as (m1 & m' & E1 & E2 & E3 & _);
    [done|done|repeat constructor; cbn; lia|do 2 (constructor; [apply demo_capturable|]); constructor|].
  exists m1, m'; exact (conj E1 (conj E2 E3)).
Defined.

Definition demo_started : jamedia := Eval vm_compute in
  fst (value_of (demo_open, false) (StartRecord demoF file_a false 15 0 demo_open)).
Definition demo_frames : list rec_in := [(2, [9], 40); (1, [1; 2], 40); (2, [3], 80)].
Lemma recording_refines_witness :
  exists x m2 m3, extradata (ext demo_open) = Done x /\ frames_written demo_frames demo_started = Done m2 /\
    StopRecord m2 = Done m3 /\
    mlog m3 = mlog demo_open ++ [MRecordOpen file_a false 15 640 480 0 x;
                                 MPacket (mkPkt true 0 (Some 0) [1; 2]); MPacket (mkPkt false 0 (Some 900) [3]); MTrailer].
Proof.
  destruct (recording_refines demoF file_a false 15 0 demo_open demo_started demo_frames) as (x & m2 & m3 & E1 & E2 & E3 & E4 & _).
  - apply (op_wf _ _ _ _ _ demo_opened).
  - vm_compute; reflexivity.
  - repeat constructor; done.
  - vm_compute; discriminate.
  - exists x, m2, m3; exact (conj E1 (conj E2 (conj E3 E4))).
Defined.

Lemma demo_key : key_of AV_CODEC_ID_H264 demo_header (zlen demo_ps) = true.
Proof. vm_compute; reflexivity. Qed.
Lemma demo_no_key i : 0 <= i < zlen demo_ps -> key_of AV_CODEC_ID_H264 demo_header i = false.
Proof.
  intros Hi; apply negb_true_iff.
  apply (forall_range_spec (length demo_ps) 0 (fun i => negb (key_of AV_CODEC_ID_H264 demo_header i)));
    [vm_compute; reflexivity|unfold zlen in Hi; lia].
Qed.
Lemma parameter_sets_recorded_witness :
  exists m1 m2, AnalystHeader (7, 7) AV_CODEC_ID_H264 demo_header (zlen demo_header) demo_new = Done (m1, 0) /\
    StartRecord demoF file_a false 15 0 m1 = Done (m2, true) /\
    mlog m2 = mlog m1 ++ [MRecordOpen file_a false 15 640 480 0 (Some demo_ps)].
Proof.
  apply (parameter_sets_recorded demoF (7, 7) AV_CODEC_ID_H264 demo_ps demo_slice demo_new 640 480 file_a false 15 0);
    [apply new_media_wf|by left|apply demo_bytes|apply demo_picture_size|by left|done|by vm_compute|apply demo_key|apply demo_no_key
    |done|done|done|done|right; done].
Defined.

Lemma mutex_balance_witness :
  gDecoderMutex demo_open = gDecoderMutex demo_new \/ gDecoderMutex demo_open = gDecoderMutex demo_new - 1.
Proof.
  destruct (mutex_balance demoF (OInit (7, 7) AV_CODEC_ID_H264 demo_header (zlen demo_header) BGR32) demo_new demo_open)
    as [H | (? & ? & ? & ? & ? & ? & _ & _ & _ & H)]; [vm_compute; reflexivity|by left|by right].
Defined.

(** A whole life: opening, a picture, a capture, a recording, a reset. *)
Definition demo_ops : list op :=
  [ODirect true; OInit (7, 7) AV_CODEC_ID_H264 demo_header (zlen demo_header) BGR32; ODecode demo_slice 8 demo_pic;
   OCapture file_a Thumbnail; ODecode demo_slice 8 demo_pic; OStart file_b false 15 0; OWrite [1; 2] 2 1 40; OStop;
   OAudio AV_CODEC_ID_AAC 8000 1 16 100; OReset; OClose].
Definition demo_end : jamedia := Eval vm_compute in value_of demo_new (steps demoF demo_ops demo_new).
Lemma media_wf_witness : steps demoF demo_ops demo_new = Done demo_end /\ wf demoF demo_end /\ undrawn (tex demo_end).
Proof.
  assert (E : steps demoF demo_ops demo_new = Done demo_end) by (vm_compute; reflexivity).
  destruct (media_wf demoF false 0 0 0 demo_ops demo_end) as [W U]; [|exact E|].
  { constructor; [done|]; constructor; [split; [apply demo_bytes|apply Z.le_refl]|repeat constructor]. }
  split; [exact E|]; split; [exact W|]; apply U; exists (take 2 demo_ops), (drop 2 demo_ops).
  split; [reflexivity|]; split; repeat (apply List.Forall_cons; [discriminate|]); apply List.Forall_nil.
Defined.

Lemma short_codes_missed_witness :
  exists x', analyst_extra AV_CODEC_ID_H264 (mkExtra (replicate 1024 0) 0) [0; 0; 1; 0x67; 7; 0; 0; 1; 0x65; 9; 9; 9] 12 = Done x' /\
    mExtraSize x' = 7.
Proof.
  apply (short_codes_missed (mkExtra (replicate 1024 0) 0) [0; 0; 1; 0x67; 7; 0; 0; 1; 0x65; 9; 9; 9] 12);
    [constructor; [done|by vm_compute]|lia|by vm_compute|].
  intros i Hi [H1 [H2 H3]]; change (extra_limit 12) with 7 in Hi.
  assert (H : forall_range 7 0 (fun i => negb ((zget [0; 0; 1; 0x67; 7; 0; 0; 1; 0x65; 9; 9; 9] i =? 0) &&
     (zget [0; 0; 1; 0x67; 7; 0; 0; 1; 0x65; 9; 9; 9] (i + 1) =? 0) &&
     (zget [0; 0; 1; 0x67; 7; 0; 0; 1; 0x65; 9; 9; 9] (i + 2) =? 0))) = true) by (vm_compute; reflexivity).
  pose proof (forall_range_spec _ _ _ H i ltac:(lia)) as Hf; cbv beta in Hf.
  rewrite H1, H2, H3 in Hf; done.
Defined.

End Media.
