(* ===== verification/Receive.v ===== *)
(** What a viewer does with what it receives, and its use of the media object:
    JAConnect (gles/Network/JAConnect.cpp): the receive callbacks with their bypass
    frames (fish-eye, lens and g-sensor parameters), the distortion buffer, captures
    and recordings, and the sound path.  A frame is the bytes the SDK hands over and
    the length it states.  The callbacks the viewer makes are a log.
    [mLastTimeStampMs] is a global of the file and is passed next to the viewer. *)
From Stdlib Require Import SpecFloat.
From S2P Require Import Prelude Float32 MediaBuffer G711 P2PConnector P2PManager JAConnect ConnectManager Circle Media.

Module Receive.
Import Manager JA CM.

Abbreviation cstr := (list Z).

(** ** Constants *)

Definition JA_FT_AUDIO : Z := 0.
Definition JA_FT_IFRAME : Z := 1.
Definition JA_FT_PFRAME : Z := 2.
Definition JA_FT_OOB : Z := 15.
Definition P2P_BYPASS_FRAME_TYPE_FISHEYE_PARAM : Z := 0.
Definition P2P_BYPASS_FRAME_TYPE_LENS_PARAM : Z := 1.
Definition P2P_BYPASS_FRAME_TYPE_GSENSER_PARAM : Z := 2.
Definition eP2P_IMAGE_FISHEYE_FIX_MODE_WALL : Z := 0.
Definition eP2P_IMAGE_FISHEYE_FIX_MODE_CEIL : Z := 1.
Definition eP2P_IMAGE_FISHEYE_FIX_MODE_NONE : Z := 3.
Definition DEVICE_TYPE_360 : Z := 1.
Definition DEVICE_TYPE_720 : Z := 2.
Definition sizeof_FISHEYE_PARAM : Z := 60.
Definition sizeof_FISHEYE_PARAM2 : Z := 60.
Definition sizeof_GSENSOR_ANGLE : Z := 48.
Definition sizeof_AUDIO_BUF_ATTR : Z := 36.

(** ** State *)

(** [mCenterX[i]] ... [mAngleZ[i]]. *)
Record eye := mkEye {
  mCenterX : spec_float; mCenterY : spec_float; mRadius : spec_float;
  mAngleX : spec_float; mAngleY : spec_float; mAngleZ : spec_float
}.
Definition no_eye : eye :=
  let z := F32.of_Z 0 in mkEye z z z z z z.

(** [mDistTortion]: null, a live buffer, or a pointer that was freed. *)
Inductive distortion := DNull | DLive (bs : bytes) | DFreed.

Inductive callback :=
| COnGsensorData (timeStamp x y z : Z)                (* the doubles as their bits *)
| COnOOBFrameAvailable (installMode scene : Z)
| COnAudioData (samples : list Z) (len : Z)           (* 16-bit samples, length in bytes *)
| COnAudioBytes (buf : bytes) (len : Z)
| COnCaptureImage (success : bool) (path : cstr)
| COnRecordVideo (success : bool) (path : cstr)
| COnVconData (buf : cstr)
| COnVconFileOperate (buf : cstr).

Record conn := mkCon {
  vwr : viewer; media : Media.jamedia; ring : MediaBuffer.handle;
  eyes : eye * eye; mDistTortion : distortion; mDistLen : Z;
  mIsRecord : bool; mIsH265 : bool; calls : list callback
}.

Definition set_vwr (c : conn) (v : viewer) : conn :=
  mkCon v (media c) (ring c) (eyes c) (mDistTortion c) (mDistLen c) (mIsRecord c) (mIsH265 c) (calls c).
Definition set_media (c : conn) (m : Media.jamedia) : conn :=
  mkCon (vwr c) m (ring c) (eyes c) (mDistTortion c) (mDistLen c) (mIsRecord c) (mIsH265 c) (calls c).
Definition set_ring (c : conn) (r : MediaBuffer.handle) : conn :=
  mkCon (vwr c) (media c) r (eyes c) (mDistTortion c) (mDistLen c) (mIsRecord c) (mIsH265 c) (calls c).
Definition set_eyes (c : conn) (e : eye * eye) : conn :=
  mkCon (vwr c) (media c) (ring c) e (mDistTortion c) (mDistLen c) (mIsRecord c) (mIsH265 c) (calls c).
Definition set_dist (c : conn) (d : distortion) (n : Z) : conn :=
  mkCon (vwr c) (media c) (ring c) (eyes c) d n (mIsRecord c) (mIsH265 c) (calls c).
Definition set_isrecord (c : conn) (b : bool) : conn :=
  mkCon (vwr c) (media c) (ring c) (eyes c) (mDistTortion c) (mDistLen c) b (mIsH265 c) (calls c).
Definition call (c : conn) (x : callback) : conn :=
  mkCon (vwr c) (media c) (ring c) (eyes c) (mDistTortion c) (mDistLen c) (mIsRecord c) (mIsH265 c) (calls c ++ [x]).

(** The members of the settings that the parameters change. *)
Definition set_birate (o : settings) (n : Z) : settings :=
  mkSet n (needOpen64 o) (isInstallModeCome o) (onlyDecodeIFrame o) (mHardwareDecoder o)
    (mMaxSupportWidth o) (mMaxSupportHeight o) (mTimeZone o) (stat_fps o) (stat_bitrate o)
    (mCropFishEye o) (mWallMode o) (isDirectTexture o).
Definition set_installmode (o : settings) (n : Z) : settings :=
  mkSet (howBirate o) (needOpen64 o) n (onlyDecodeIFrame o) (mHardwareDecoder o)
    (mMaxSupportWidth o) (mMaxSupportHeight o) (mTimeZone o) (stat_fps o) (stat_bitrate o)
    (mCropFishEye o) (mWallMode o) (isDirectTexture o).
Definition setHowBirate (c : conn) (n : Z) : conn :=
  set_vwr c (mkV (core (vwr c)) (set_birate (opts (vwr c)) n)).
Definition setIsInstallModeCome (c : conn) (n : Z) : conn :=
  set_vwr c (mkV (core (vwr c)) (set_installmode (opts (vwr c)) n)).

(** ** Fish-eye parameters *)

Definition setFishEyeParameter (c : conn) (e : eye) (index : Z) : conn :=
  if (1 <? index) || (index <? 0) then c
  else
    let c := set_eyes c (if index =? 0 then (e, snd (eyes c)) else (fst (eyes c), e)) in
    set_media c (Media.SetIsP720Dev true (media c)).
Definition GetFishEyeParameter (c : conn) (index : Z) : option eye :=
  if (1 <? index) || (index <? 0) then None
  else Some (if index =? 0 then fst (eyes c) else snd (eyes c)).
Definition setFishEyeParameter360 (c : conn) (centerX centerY radius : spec_float) : outcome conn :=
  let e := fst (eyes c) in
  let c := set_eyes c (mkEye centerX centerY radius (mAngleX e) (mAngleY e) (mAngleZ e), snd (eyes c)) in
  let* m := Media.SetIsP360Dev true centerX centerY radius (-1) (media c) in
  Done (set_media c m).
Definition GetFishEyeParameter360 (c : conn) : spec_float * spec_float * spec_float :=
  Media.GetFisheyeParameter (media c).

(** [pDist] has [len] readable bytes behind [off] of [m]. *)
Definition setDistTortion (c : conn) (m : bytes) (off len : Z) : outcome conn :=
  if 8 <=? len then
    match mDistTortion c with
    | DFreed => Fault
    | _ => let* bs := load m off len in Done (set_dist c (DLive bs) len)
    end
  else Done c.
Definition GetDistTortion (c : conn) : distortion * Z := (mDistTortion c, mDistLen c).

Definition set_type (c : conn) (n : Z) : conn :=
  set_vwr c (set_core (vwr c) (set_ply (core (vwr c)) (p_p720 (ply (core (vwr c))) n))).
Definition device_type (c : conn) : Z := mHasSetP720 (ply (core (vwr c))).
Definition GetHasSetP720 (c : conn) : bool := (device_type c =? DEVICE_TYPE_720) || (mDistLen c =? 0).
Definition SetHasSetP720 (c : conn) (pHasSet : bool) : conn := set_type c (if pHasSet then DEVICE_TYPE_720 else 0).
Definition GetHasSetP360 (c : conn) : bool := device_type c =? DEVICE_TYPE_360.
Definition SetHasSetP360 (c : conn) (pSet : bool) : conn := set_type c (if pSet then DEVICE_TYPE_360 else 0).

(** The end of DoDisconnect: the buffer is freed, the pointer stays. *)
Definition drop_distortion (c : conn) : outcome conn :=
  if device_type c =? 0 then Done c
  else
    let c := set_type c 0 in
    match mDistTortion c with
    | DNull => Done (set_dist c DNull 0)
    | DLive _ => Done (set_dist c DFreed 0)
    | DFreed => Fault
    end.

Definition UpdateCircleCenter (c : conn) (radius centerx centery : Z) : conn :=
  set_media c (Media.UpdateCircleParameter radius centerx centery (Media.ResetData (media c))).

Definition DoGsensorData (c : conn) (timeStamp x y z : Z) : conn := call c (COnGsensorData timeStamp x y z).
Definition doOnOOBFrameAvailable (c : conn) (installMode scene : Z) : conn := call c (COnOOBFrameAvailable installMode scene).

(** ** Bypass frames *)

(** An [int] in memory, and a [float]. *)
Definition load_int (m : bytes) (off : Z) : outcome Z := let* v := load32 m off in Done (i32 v).
Definition load_float (m : bytes) (off : Z) : outcome spec_float := let* v := load32 m off in Done (F32.of_bits v).

Definition scene_of (installMode : Z) : Z :=
  if installMode =? eP2P_IMAGE_FISHEYE_FIX_MODE_WALL then 180
  else if installMode =? eP2P_IMAGE_FISHEYE_FIX_MODE_CEIL then 360 else 0.

(** The copy of the frame, its parameters at offset 8: the result is the viewer, the
    installation mode and the scene. *)
Definition fisheye_param (c : conn) (frame : bytes) (frame_len : Z) : outcome (conn * Z * Z) :=
  let* s := load frame 0 frame_len in
  let* version := load_int s (8 + 52) in
  let c := if version =? 0x01000003 then setHowBirate c 3 else c in
  let* fixMode := load_int s (8 + 48) in
  let c := setIsInstallModeCome c fixMode in
  let* radius := load_int s (8 + 8) in
  if negb (radius =? 0) then
    let* x := load_int s (8 + 0) in
    let* y := load_int s (8 + 4) in
    let c := set_media c (Media.UpdateCircleParameter radius x y (media c)) in
    let fx := F32.of_Z x in
    let fy := F32.of_Z y in
    let fr := F32.of_Z radius in
    let* c := setFishEyeParameter360 c fx fy fr in
    let* m := Media.SetIsP360Dev true fx fy fr (if negb (fixMode =? 0) then 0 else 1) (media c) in
    Done (set_media c m, fixMode, scene_of fixMode)
  else
    let z := F32.of_Z 0 in
    let* m := Media.SetIsP360Dev false z z z 0 (media c) in
    Done (set_media c m, fixMode, scene_of fixMode).

Definition load_eye (s : bytes) (off : Z) : outcome eye :=
  let* x := load_float s off in
  let* y := load_float s (off + 4) in
  let* r := load_float s (off + 8) in
  let* ax := load_float s (off + 12) in
  let* ay := load_float s (off + 16) in
  let* az := load_float s (off + 20) in
  Done (mkEye x y r ax ay az).

(** The two lenses, then the distortion table; the length of the table is computed in
    [size_t], 32 bits on the built ABI. *)
Definition lens_param (c : conn) (frame : bytes) (frame_len : Z) : outcome (conn * Z * Z) :=
  let* s := load frame 0 frame_len in
  let* fixMode := load_int s (8 + 48) in
  let c := setIsInstallModeCome (setHowBirate c 3) fixMode in
  let* e0 := load_eye s 8 in
  let c := setFishEyeParameter c e0 0 in
  let* e1 := load_eye s (8 + 24) in
  let c := setFishEyeParameter c e1 1 in
  let* c := setDistTortion c s (8 + sizeof_FISHEYE_PARAM2) (i32 (u32 (frame_len - 8 - sizeof_FISHEYE_PARAM2))) in
  Done (c, fixMode, 720).

(** The three angles of the sensor at [off]. *)
Definition load_angles (m : bytes) (off : Z) : outcome (Z * Z * Z) :=
  let* x := load64 m (off + 16) in
  let* y := load64 m (off + 24) in
  let* z := load64 m (off + 32) in
  Done (x, y, z).

Definition on_bypass (stamp : Z) (c : conn) (frame : bytes) (frame_len : Z) : outcome (Z * conn) :=
  let* frameType := load_int frame 0 in
  if frameType =? P2P_BYPASS_FRAME_TYPE_GSENSER_PARAM then
    let* '(x, y, z) := load_angles frame 8 in
    Done (stamp, DoGsensorData c stamp x y z)
  else
    let* '(c, installMode, scene) :=
      if frameType =? P2P_BYPASS_FRAME_TYPE_FISHEYE_PARAM then fisheye_param c frame frame_len
      else if frameType =? P2P_BYPASS_FRAME_TYPE_LENS_PARAM then lens_param c frame frame_len
      else Done (c, eP2P_IMAGE_FISHEYE_FIX_MODE_NONE, 0) in
    Done (0, doOnOOBFrameAvailable c installMode scene).

(** ** Receiving *)

Definition adding (c : conn) : bool := mAddBuffer (ply (core (vwr c))).

Definition AddBuffer (clk : MediaBuffer.clock) (c : conn) (buf : bytes) (buf_len frame_type pTimestamp pPlaytime : Z)
    (_enc : option cstr) : outcome (conn * Z) :=
  let* bs := load buf 0 buf_len in
  let* '(r, rt) := MediaBuffer.WrtieBuffer clk (ring c) (MediaBuffer.mkFrame frame_type pTimestamp pPlaytime _enc bs) in
  Done (set_ring c r, rt).

Definition is_picture (t : Z) : bool := (t =? JA_FT_IFRAME) || (t =? JA_FT_PFRAME).

(** Live frames. *)
Definition OnRecvFrameEx (clk : MediaBuffer.clock) (stamp : Z) (c : conn) (frame_type : Z) (frame : bytes)
    (frame_len uiTimeStampMs : Z) (avEnc : option cstr) : outcome (Z * conn) :=
  if negb (adding c) then Done (stamp, c)
  else if frame_type =? JA_FT_OOB then on_bypass stamp c frame frame_len
  else
    let* '(c, _) := AddBuffer clk c frame frame_len frame_type uiTimeStampMs 0 avEnc in
    Done (if is_picture frame_type then uiTimeStampMs else stamp, c).

(** The bypass frames among [l], with the stamps the other frames leave: what the callback
    does beside writing to the ring. *)
Fixpoint bypasses (l : list (Z * bytes * Z)) (stamp : Z) (c : conn) : outcome (Z * conn) :=
  match l with
  | [] => Done (stamp, c)
  | (frame_type, frame, uiTimeStampMs) :: l =>
      let* '(stamp, c) :=
        if frame_type =? JA_FT_OOB then on_bypass stamp c frame (zlen frame)
        else Done (if is_picture frame_type then uiTimeStampMs else stamp, c) in
      bypasses l stamp c
  end.

(** The older callback: no stamps and no codec's name. *)
Definition OnRecvFrame (clk : MediaBuffer.clock) (c : conn) (frame_type : Z) (frame : bytes) (frame_len : Z)
  : outcome conn :=
  if adding c then let* '(c, _) := AddBuffer clk c frame frame_len frame_type 0 0 None in Done c else Done c.

(** Frames of a recording; of the bypass frames only the sensor's are read, with
    [angles] the way the callback reads them.  [frame] is [None] for null. *)
Definition recv_rec (angles : bytes -> outcome (Z * Z * Z)) (clk : MediaBuffer.clock) (stamp : Z) (c : conn)
    (frame : option bytes) (len type : Z) (avencode : option cstr) (timestamp gentime : Z) : outcome (Z * conn) :=
  if negb (adding c) then Done (stamp, c)
  else if type =? JA_FT_OOB then
    match frame with
    | None => Done (stamp, c)
    | Some f =>
        let* frameType := load_int f 0 in
        if frameType =? P2P_BYPASS_FRAME_TYPE_GSENSER_PARAM then
          let* '(x, y, z) := angles f in Done (stamp, DoGsensorData c stamp x y z)
        else Done (stamp, c)
    end
  else
    match frame with
    | None => Fault
    | Some f =>
        let* '(c, _) := AddBuffer clk c f len type timestamp gentime avencode in
        Done (if is_picture type then timestamp else stamp, c)
    end.
(** The first copies the whole structure, the second reads it in place. *)
Definition OnRecvRecFrame := recv_rec (fun f => let* s := load f 8 sizeof_GSENSOR_ANGLE in load_angles s 0).
Definition OnRecvRecFrame2 := recv_rec (fun f => load_angles f 8).

(** ** Sound *)

(** [malloc(16000)] as 8000 samples; G.711 gives one sample for each byte. *)
Definition DoOnAudioData (c : conn) (buf : bytes) (off buflen : Z) : outcome conn :=
  if off <? 0 then Fault
  else
    let* pcm := G711.batch_alaw2linear (replicate (Z.to_nat 8000) 0) (drop (Z.to_nat off) buf) buflen in
    Done (call c (COnAudioData (take (Z.to_nat buflen) pcm) (buflen * 2))).

(** The sync word of ADTS with one of two sampling frequencies. *)
Definition checkIsAAC (buf : bytes) : outcome bool :=
  let* byte1 := Media.byte_at buf 0 in
  let* byte2 := Media.byte_at buf 1 in
  let sync := Z.lor (Z.shiftl byte1 8) byte2 in
  let* byte3 := Media.byte_at buf 2 in
  let sampling_frequency_index := Z.land (Z.shiftr byte3 2) 0x0f in
  Done ((Z.land sync 0xfff0 =? 0xfff0) &&
        ((sampling_frequency_index =? 0xb) || (sampling_frequency_index =? 0x8))).

(** The AAC branch: [fresh] is what the new buffer of 16000 bytes holds; 2048 bytes of
    it are handed out whatever the decoder did. *)
Definition play_aac (F : Media.ffmpeg) (fresh : bytes) (s : Media.sound) (c : conn)
    (pSample bit nb_samples : Z) (buf : bytes) (off insize : Z) : outcome conn :=
  let* '(m, _) := Media.InitAudioDecoder F Media.AV_CODEC_ID_AAC pSample 1 bit nb_samples (media c) in
  if off <? 0 then Fault
  else
    let* '(audiobuf, _) := Media.DecodeAudio F (drop (Z.to_nat off) buf) insize fresh 0 s m in
    let* out := load audiobuf 0 2048 in
    Done (call (set_media c m) (COnAudioBytes out 2048)).

Definition DoOnAudioData2 (F : Media.ffmpeg) (fresh : bytes) (s : Media.sound) (c : conn)
    (buf : bytes) (buflen : Z) (isAAC isPlayback haveheader : bool) : outcome conn :=
  if negb isPlayback then
    let* attr := load buf 0 sizeof_AUDIO_BUF_ATTR in
    let* packsize := load_int attr 4 in
    let* samplerate := load_int attr 28 in
    let* samplewidth := load_int attr 32 in
    if isAAC then
      if haveheader
      then play_aac F fresh s c samplerate samplewidth packsize buf sizeof_AUDIO_BUF_ATTR
             (i32 (u32 (buflen - sizeof_AUDIO_BUF_ATTR)))
      else play_aac F fresh s c samplerate samplewidth packsize buf 0 buflen
    else if (buflen =? 320) || (buflen =? 160) then DoOnAudioData c buf 0 buflen
    else DoOnAudioData c buf sizeof_AUDIO_BUF_ATTR (i32 (u32 (buflen - sizeof_AUDIO_BUF_ATTR)))
  else
    let* isAAC := if isAAC then Done true else checkIsAAC buf in
    if isAAC then play_aac F fresh s c 8000 16 buflen buf 0 buflen
    else DoOnAudioData c buf 0 buflen.

(** ** Captures and recordings *)

(** [mDecoder] is set by the constructor and never null. *)
Definition hook_capture (m : Media.jamedia) : Media.jamedia :=
  let c := Media.cap m in
  Media.set_cap m (Media.mkCap (Media.mCaptureImage c) (Media.mCapFileName c) (Media.CaptureImageType c) true).
Definition CaptureImage (c : conn) (filename : cstr) (type : Z) : outcome (conn * bool) :=
  if negb (adding c) then Done (c, false)
  else
    let* m := Media.CaptureImage filename type (hook_capture (media c)) in
    Done (set_media c m, true).
(** The same without setting the callback. *)
Definition CaptureCurImage (c : conn) (filename : cstr) : outcome (conn * bool) :=
  if negb (adding c) then Done (c, false)
  else
    let* m := Media.CaptureImage filename 1 (media c) in
    Done (set_media c m, true).

(** [mIsRecord] is set before StartRecord is tried. *)
Definition RecordFile (F : Media.ffmpeg) (c : conn) (filename : cstr) : outcome (conn * bool) :=
  if negb (adding c) then Done (c, false)
  else
    let* bitrate := MediaBuffer.GetCurrentBitrate (ring c) in
    if bitrate =? 0 then Done (c, false)
    else
      let* fps := MediaBuffer.GetCurrentFPS (ring c) in
      if fps =? 0 then Done (c, false)
      else
        let c := set_isrecord c true in
        let* '(m, rt) := Media.StartRecord F filename (mIsH265 c) 15 bitrate (media c) in
        Done (set_media c m, rt).
Definition StopRecord (c : conn) : outcome conn :=
  if negb (Media.IsRecord (media c)) then Done c
  else
    let* m := Media.StopRecord (media c) in
    Done (set_media (set_isrecord c false) m).
Definition GetRecordState (c : conn) : bool := mIsRecord c.

(** The media object's callbacks. *)
Definition DoCaptureImage (c : conn) (success : bool) (path : cstr) : conn := call c (COnCaptureImage success path).
Definition DoRecordVideo (c : conn) (success : bool) (path : cstr) : conn := call c (COnRecordVideo success path).

(** ** The connection for file downloads *)

(** "ja_trans_file". *)
Definition JA_DL_VCON_APPNAME : cstr := [106; 97; 95; 116; 114; 97; 110; 115; 95; 102; 105; 108; 101].

Section Vcon.
Context {M : Type} `{P2PManager M}.

(** [mP2p] and [mDLHandle] of the viewer. *)
Definition CreateDownLoadVcon (n : JA.net) (mP2p mDLHandle : Z) : outcome (JA.net * Z * Z) :=
  if negb (mDLHandle =? 0) then Done (n, mDLHandle, 0)
  else
    let* '(n, h) := JA.mcall n mP2p (fun m => vconCreate m JA_DL_VCON_APPNAME) in
    Done (n, h, if h =? 0 then -1 else 0).

(** [htonl] of an [int]: its four bytes, the highest first. *)
Definition htonl_bytes (x : Z) : bytes := rev (le_split 4 (u32 x)).
(** [fp]: the memory behind the pointer; 256 bytes of it are copied. *)
Definition operate_message (optype opflag : Z) (fp : option bytes) : outcome bytes :=
  let* path := match fp with Some m => load m 0 256 | None => Done (replicate 256 0) end in
  Done (htonl_bytes optype ++ htonl_bytes opflag ++ path).
Definition OperateDeviceFile (n : JA.net) (mP2p mDLHandle optype opflag : Z) (fp : option bytes)
  : outcome (JA.net * Z * Z) :=
  let* '(n, h, rt) := CreateDownLoadVcon n mP2p mDLHandle in
  if rt <? 0 then Done (n, h, -1)
  else
    let* msg := operate_message optype opflag fp in
    let* '(n, _) := JA.mcall n mP2p (fun m => vconSend m h msg) in
    Done (n, h, 0).
Definition DestroyDownloadVcon (n : JA.net) (mP2p mDLHandle : Z) : outcome (JA.net * Z * Z) :=
  if mDLHandle =? 0 then Done (n, mDLHandle, -1)
  else
    let* '(n, _) := JA.mcall n mP2p (fun m => vconDestroy m mDLHandle) in
    Done (n, 0, 0).
End Vcon.

(** [OnVconRecv2]: data of the download connection goes to the file transfer, other
    data to the viewer; [vcon] is the connection's identifier, [dl] that of
    [mDLHandle], [None] for null. *)
Definition OnVconRecv2 (c : conn) (vcon dl : option Z) (buf : cstr) : conn :=
  match vcon, dl with
  | Some v, Some d => if d =? v then call c (COnVconFileOperate buf) else call c (COnVconData buf)
  | _, _ => call c (COnVconData buf)
  end.

(** ** Bypass frames read back *)

(** A frame of the device: type, size, the 15 words of the parameters, a table. *)
Definition bypass_frame (type : Z) (params : list Z) (table : bytes) : bytes :=
  words (type :: 60 :: params) ++ table.

Lemma word_at l rest off i x : off = 4 * Z.of_nat i -> l !! i = Some x -> load32 (words l ++ rest) off = Done (u32 x).
Proof. intros ->; apply load32_words. Qed.
Lemma bypass_word type params table off i x :
  off = 4 * Z.of_nat i -> (type :: 60 :: params) !! i = Some x ->
  load32 (bypass_frame type params table) off = Done (u32 x).
Proof. apply word_at. Qed.
Lemma bypass_int type params table off i x :
  off = 4 * Z.of_nat i -> (type :: 60 :: params) !! i = Some x -> in_i32 x ->
  load_int (bypass_frame type params table) off = Done x.
Proof.
  intros Ho H Hx; unfold load_int; rewrite (bypass_word _ _ _ _ _ _ Ho H); cbn [obind].
  f_equal; unfold i32, signed, u32, in_i32 in *; rewrite Zplus_mod_idemp_l, Z.mod_small by lia; lia.
Qed.
Lemma bypass_float type params table off i x :
  off = 4 * Z.of_nat i -> (type :: 60 :: params) !! i = Some x ->
  load_float (bypass_frame type params table) off = Done (F32.of_bits (u32 x)).
Proof. intros Ho H; unfold load_float; by rewrite (bypass_word _ _ _ _ _ _ Ho H). Qed.

(** Words of a lens: [CenterCoordinateX] ... [AngleZ]. *)
Definition params_of (e0 e1 : list Z) (fixMode version Reverse : Z) : list Z := e0 ++ e1 ++ [fixMode; version; Reverse].

(** The viewer behind a fish-eye frame of a circle. *)
Definition with_circle (c : conn) (x y r fixMode version : Z) : conn :=
  let c := if version =? 0x01000003 then setHowBirate c 3 else c in
  let c := setIsInstallModeCome c fixMode in
  let e := fst (eyes c) in
  let c := set_eyes c (mkEye (F32.of_Z x) (F32.of_Z y) (F32.of_Z r) (mAngleX e) (mAngleY e) (mAngleZ e), snd (eyes c)) in
  let m := media c in
  let l := Media.lns m in
  set_media c (Media.set_lns m (Media.mkLens (Circle.mkCircle r x y) (if negb (fixMode =? 0) then 0 else 1) true
                                  (Media.mISP720Dev l))).

Lemma SetIsP360Dev_done b x y r w m :
  Z.abs x < 2 ^ 24 -> Z.abs y < 2 ^ 24 -> Z.abs r < 2 ^ 24 ->
  Media.SetIsP360Dev b (F32.of_Z x) (F32.of_Z y) (F32.of_Z r) w m =
  Done (Media.set_lns m (Media.mkLens (Circle.mkCircle r x y) (if 0 <=? w then w else Media.mWallMode (Media.lns m)) b
                           (Media.mISP720Dev (Media.lns m)))).
Proof. intros; unfold Media.SetIsP360Dev; by rewrite !F32.to_int_of_Z. Qed.

Lemma small_i32 x : Z.abs x < 2 ^ 24 -> in_i32 x.
Proof. unfold in_i32; lia. Qed.

(** A fish-eye frame is read back: whatever circle (in pixels, below 2^24, with a
    radius), mounting and version the device packs, and whatever follows, the live
    callback sets exactly this circle in the decoder and in the viewer, the wall mode,
    the installation mode and, for version 1.0.0.3, the number of streams; it tells
    the application the mounting and its scene, and clears the global stamp. *)
Theorem fisheye_roundtrip clk stamp c x y r ax ay az e1 fixMode version Reverse table enc ts :
  adding c = true -> length e1 = 6%nat ->
  Z.abs x < 2 ^ 24 -> Z.abs y < 2 ^ 24 -> Z.abs r < 2 ^ 24 -> r <> 0 -> in_i32 fixMode -> in_i32 version ->
  let frame := bypass_frame P2P_BYPASS_FRAME_TYPE_FISHEYE_PARAM
                 (params_of [x; y; r; ax; ay; az] e1 fixMode version Reverse) table in
  OnRecvFrameEx clk stamp c JA_FT_OOB frame (zlen frame) ts enc =
  Done (0, doOnOOBFrameAvailable (with_circle c x y r fixMode version) fixMode (scene_of fixMode)).
Proof.
  intros Ha He Hx Hy Hr Hr0 Hm Hv frame; unfold OnRecvFrameEx; rewrite Ha; cbn [negb].
  rewrite Z.eqb_refl; unfold on_bypass; subst frame.
  unfold P2P_BYPASS_FRAME_TYPE_GSENSER_PARAM, P2P_BYPASS_FRAME_TYPE_FISHEYE_PARAM, P2P_BYPASS_FRAME_TYPE_LENS_PARAM.
  destruct e1 as [|a1 [|a2 [|a3 [|a4 [|a5 [|a6 [|]]]]]]]; try done; clear He; unfold params_of; cbn [app].
  set (ps := [x; y; r; ax; ay; az; a1; a2; a3; a4; a5; a6; fixMode; version; Reverse]).
  rewrite (bypass_int 0 ps table 0 0 0 eq_refl eq_refl ltac:(unfold in_i32; lia)); cbn [obind Z.eqb].
  unfold fisheye_param; rewrite load_all; cbn [obind].
  rewrite (bypass_int 0 ps table (8 + 52) 15 version eq_refl eq_refl Hv); cbn [obind].
  rewrite (bypass_int 0 ps table (8 + 48) 14 fixMode eq_refl eq_refl Hm); cbn [obind].
  rewrite (bypass_int 0 ps table (8 + 8) 4 r eq_refl eq_refl (small_i32 _ Hr)); cbn [obind].
  replace (r =? 0) with false by lia; cbn [negb].
  rewrite (bypass_int 0 ps table (8 + 0) 2 x eq_refl eq_refl (small_i32 _ Hx)); cbn [obind].
  rewrite (bypass_int 0 ps table (8 + 4) 3 y eq_refl eq_refl (small_i32 _ Hy)); cbn [obind].
  unfold setFishEyeParameter360; rewrite !SetIsP360Dev_done by done; cbn [obind].
  rewrite SetIsP360Dev_done by done; cbn [obind].
  unfold with_circle; destruct (version =? 0x01000003), (fixMode =? 0); done.
Qed.

(** A bypass frame neither reads nor changes the ring, nor stops the viewer's data. *)
Ltac viewed := cbn [vwr media ring eyes mDistTortion mDistLen mIsRecord mIsH265 calls core opts set_vwr set_media set_ring set_eyes set_dist call
  setHowBirate setIsInstallModeCome setFishEyeParameter doOnOOBFrameAvailable DoGsensorData fst snd obind orb] in *.
Ltac followed := repeat match goal with H : ?x = Done _ |- context [?x] => rewrite H; cbn [obind] end.
Lemma fisheye_ring c f n c1 a b : fisheye_param c f n = Done (c1, a, b) ->
  ring c1 = ring c /\ adding c1 = adding c /\ forall r, fisheye_param (set_ring c r) f n = Done (set_ring c1 r, a, b).
Proof.
  unfold fisheye_param, setFishEyeParameter360; destruct c as [[j o] m g e dt dl b1 b2 cs]; intros H.
  obinv H; destruct (v0 =? 0x01000003) eqn:Ev; viewed; destruct (negb (v2 =? 0)) eqn:Er; obinv H; try (obinv E5; injection E5 as <-);
    viewed; injection H as <- <- <-; (split; [done|split; [done|intros r]]); followed; rewrite ?Ev, ?Er; viewed; followed; viewed; followed; reflexivity.
Qed.
Lemma setFishEyeParameter_0 c e : setFishEyeParameter c e 0 = set_media (set_eyes c (e, snd (eyes c))) (Media.SetIsP720Dev true (media c)).
Proof. reflexivity. Qed.
Lemma setFishEyeParameter_1 c e : setFishEyeParameter c e 1 = set_media (set_eyes c (fst (eyes c), e)) (Media.SetIsP720Dev true (media c)).
Proof. reflexivity. Qed.
Lemma lens_ring c f n c1 a b : lens_param c f n = Done (c1, a, b) ->
  ring c1 = ring c /\ adding c1 = adding c /\ forall r, lens_param (set_ring c r) f n = Done (set_ring c1 r, a, b).
Proof.
  unfold lens_param, setDistTortion; destruct c as [[j o] m g e dt dl b1 b2 cs]; intros H.
  obinv H; injection H as <- <- <-; rewrite setFishEyeParameter_0, setFishEyeParameter_1 in E3; viewed.
  destruct (8 <=? _) eqn:El; [destruct dt; try done; obinv E3|]; injection E3 as <-;
    (split; [done|split; [done|intros r]]); followed; rewrite setFishEyeParameter_0, setFishEyeParameter_1; viewed; followed; reflexivity.
Qed.
Lemma on_bypass_ring stamp c f n st c1 : on_bypass stamp c f n = Done (st, c1) ->
  ring c1 = ring c /\ adding c1 = adding c /\ forall r, on_bypass stamp (set_ring c r) f n = Done (st, set_ring c1 r).
Proof.
  unfold on_bypass; intros H; apply obind_done in H as (t & E & H); rewrite E; cbn [obind].
  destruct (t =? _); [apply obind_done in H as ([[x y] z] & E1 & H); rewrite E1; injection H as <- <-; by repeat split|].
  apply obind_done in H as ([[c2 a] b] & E1 & H); injection H as <- <-.
  assert (ring c2 = ring c /\ adding c2 = adding c /\ forall r, (if t =? P2P_BYPASS_FRAME_TYPE_FISHEYE_PARAM then fisheye_param (set_ring c r) f n
      else if t =? P2P_BYPASS_FRAME_TYPE_LENS_PARAM then lens_param (set_ring c r) f n
      else Done (set_ring c r, eP2P_IMAGE_FISHEYE_FIX_MODE_NONE, 0)) = Done (set_ring c2 r, a, b)) as (H1 & H2 & H3).
  { destruct (t =? P2P_BYPASS_FRAME_TYPE_FISHEYE_PARAM); [by apply fisheye_ring|].
    destruct (t =? P2P_BYPASS_FRAME_TYPE_LENS_PARAM); [by apply lens_ring|]; injection E1 as <- <- <-; by repeat split. }
  split; [exact H1|]; split; [exact H2|]; intros r; by rewrite H3.
Qed.

(** A lens frame is read back: the floating-point parameters of both lenses, bit
    for bit, and the distortion table behind them, of any length from 8 bytes, unless
    an older table was freed by a disconnect. *)
Theorem lens_roundtrip clk stamp c e0 e1 fixMode version Reverse table enc ts :
  adding c = true -> length e0 = 6%nat -> length e1 = 6%nat -> in_i32 fixMode ->
  8 <= zlen table < 2 ^ 31 - 68 -> mDistTortion c <> DFreed ->
  let frame := bypass_frame P2P_BYPASS_FRAME_TYPE_LENS_PARAM (params_of e0 e1 fixMode version Reverse) table in
  exists c', OnRecvFrameEx clk stamp c JA_FT_OOB frame (zlen frame) ts enc =
    Done (0, doOnOOBFrameAvailable c' fixMode 720) /\
    load_eye (words e0) 0 = Done (fst (eyes c')) /\ load_eye (words e1) 0 = Done (snd (eyes c')) /\
    GetDistTortion c' = (DLive table, zlen table) /\ Media.mISP720Dev (Media.lns (media c')) = true /\
    howBirate (opts (vwr c')) = 3 /\ isInstallModeCome (opts (vwr c')) = fixMode.
Proof.
  intros Ha H0 H1 Hm Ht Hd frame; unfold OnRecvFrameEx; rewrite Ha; cbn [negb].
  rewrite Z.eqb_refl; unfold on_bypass; subst frame.
  unfold P2P_BYPASS_FRAME_TYPE_GSENSER_PARAM, P2P_BYPASS_FRAME_TYPE_FISHEYE_PARAM, P2P_BYPASS_FRAME_TYPE_LENS_PARAM.
  destruct e0 as [|b1 [|b2 [|b3 [|b4 [|b5 [|b6 [|]]]]]]]; try done.
  destruct e1 as [|a1 [|a2 [|a3 [|a4 [|a5 [|a6 [|]]]]]]]; try done; clear H0 H1; unfold params_of; cbn [app].
  set (ps := [b1; b2; b3; b4; b5; b6; a1; a2; a3; a4; a5; a6; fixMode; version; Reverse]).
  assert (zlen (bypass_frame 1 ps table) = 68 + zlen table) as Hl.
  { unfold bypass_frame, zlen; rewrite length_app, words_length; cbn [length ps]; lia. }
  rewrite (bypass_int 1 ps table 0 0 1 eq_refl eq_refl ltac:(unfold in_i32; lia)); cbn [obind Z.eqb Pos.eqb].
  unfold lens_param; rewrite load_all; cbn [obind].
  rewrite (bypass_int 1 ps table (8 + 48) 14 fixMode eq_refl eq_refl Hm); cbn [obind].
  unfold load_eye at 1; rewrite (bypass_float 1 ps table 8 2 b1 eq_refl eq_refl), (bypass_float 1 ps table (8 + 4) 3 b2 eq_refl eq_refl),
    (bypass_float 1 ps table (8 + 8) 4 b3 eq_refl eq_refl), (bypass_float 1 ps table (8 + 12) 5 b4 eq_refl eq_refl),
    (bypass_float 1 ps table (8 + 16) 6 b5 eq_refl eq_refl), (bypass_float 1 ps table (8 + 20) 7 b6 eq_refl eq_refl); cbn [obind].
  unfold load_eye at 1; rewrite (bypass_float 1 ps table (8 + 24) 8 a1 eq_refl eq_refl), (bypass_float 1 ps table ((8 + 24) + 4) 9 a2 eq_refl eq_refl),
    (bypass_float 1 ps table ((8 + 24) + 8) 10 a3 eq_refl eq_refl), (bypass_float 1 ps table ((8 + 24) + 12) 11 a4 eq_refl eq_refl),
    (bypass_float 1 ps table ((8 + 24) + 16) 12 a5 eq_refl eq_refl), (bypass_float 1 ps table ((8 + 24) + 20) 13 a6 eq_refl eq_refl); cbn [obind].
  unfold setDistTortion; rewrite Hl.
  replace (i32 (u32 (68 + zlen table - 8 - sizeof_FISHEYE_PARAM2))) with (zlen table)
    by (unfold sizeof_FISHEYE_PARAM2; rewrite u32_small, i32_small; lia).
  replace (8 <=? zlen table) with true by lia; cbn [mDistTortion setFishEyeParameter].
  change (mDistTortion _) with (mDistTortion c).
  assert (load (bypass_frame 1 ps table) (8 + sizeof_FISHEYE_PARAM2) (zlen table) = Done table) as ->.
  { unfold bypass_frame; rewrite <- (app_nil_r table) at 1; apply load_app; [|done].
    unfold zlen; rewrite words_length; done. }
  assert (forall p1 p2 p3 p4 p5 p6, load_eye (words [p1; p2; p3; p4; p5; p6]) 0 =
    Done (mkEye (F32.of_bits (u32 p1)) (F32.of_bits (u32 p2)) (F32.of_bits (u32 p3)) (F32.of_bits (u32 p4))
            (F32.of_bits (u32 p5)) (F32.of_bits (u32 p6)))) as Heye.
  { intros; rewrite <- (app_nil_r (words _)); unfold load_eye, load_float.
    set (l := [p1; p2; p3; p4; p5; p6]).
    rewrite (word_at l [] 0 0 p1), (word_at l [] (0 + 4) 1 p2), (word_at l [] (0 + 8) 2 p3),
      (word_at l [] (0 + 12) 3 p4), (word_at l [] (0 + 16) 4 p5), (word_at l [] (0 + 20) 5 p6); done. }
  rewrite !Heye; destruct (mDistTortion c) eqn:Ed; [| |done]; cbn [obind]; (eexists; split; [reflexivity|]; done).
Qed.

(** ** Short and shared *)

(** The stated length is not compared with the size of the parameters: a bypass frame
    of less than 68 bytes is read past its end. *)
Theorem short_bypass_faults clk stamp c type rest enc ts :
  adding c = true ->
  let frame := words [type] ++ rest in
  type = P2P_BYPASS_FRAME_TYPE_FISHEYE_PARAM \/ type = P2P_BYPASS_FRAME_TYPE_LENS_PARAM ->
  zlen frame < 60 ->
  OnRecvFrameEx clk stamp c JA_FT_OOB frame (zlen frame) ts enc = Fault.
Proof.
  intros Ha frame Ht Hl; unfold OnRecvFrameEx; rewrite Ha; cbn [negb]; rewrite Z.eqb_refl; unfold on_bypass.
  assert (load_int frame 0 = Done type) as ->.
  { unfold load_int, frame; rewrite (word_at [type] rest 0 0 type eq_refl eq_refl); cbn [obind].
    by destruct Ht as [-> | ->]. }
  assert (forall off, 56 <= off -> load_int frame off = Fault) as Hf.
  { intros off Ho; unfold load_int, load32, load.
    destruct (inb frame off 4) eqn:E; [apply inb_spec in E; lia|done]. }
  cbn [obind]; unfold P2P_BYPASS_FRAME_TYPE_GSENSER_PARAM, P2P_BYPASS_FRAME_TYPE_FISHEYE_PARAM,
    P2P_BYPASS_FRAME_TYPE_LENS_PARAM in Ht |- *.
  destruct Ht as [-> | ->]; cbn [Z.eqb Pos.eqb]; unfold fisheye_param, lens_param; rewrite load_all; cbn [obind];
    rewrite Hf by lia; done.
Qed.

(** The stamp that sensor data gets is that of the last picture any viewer received. *)
Theorem stamp_shared clk stamp ca cb cb' frame n ts enc pre x y z rest ts' enc' :
  adding ca = true -> adding cb = true ->
  AddBuffer clk cb frame n JA_FT_PFRAME ts 0 enc = Done (cb', MediaBuffer.MB_SUCCESS) ->
  let sensor := words [P2P_BYPASS_FRAME_TYPE_GSENSER_PARAM; 48] ++ dwords (pre ++ [x; y; z]) ++ rest in
  length pre = 2%nat ->
  exists stamp', OnRecvFrameEx clk stamp cb JA_FT_PFRAME frame n ts enc = Done (stamp', cb') /\
    OnRecvFrameEx clk stamp' ca JA_FT_OOB sensor (zlen sensor) ts' enc' =
    Done (ts, DoGsensorData ca ts (u64 x) (u64 y) (u64 z)).
Proof.
  intros Ha Hb Hadd sensor Hp; exists ts; unfold OnRecvFrameEx; rewrite Ha, Hb, Hadd; cbn [negb obind]; split; [done|].
  rewrite Z.eqb_refl; unfold on_bypass.
  assert (load_int sensor 0 = Done 2) as ->.
  { unfold load_int, sensor; by rewrite (word_at [P2P_BYPASS_FRAME_TYPE_GSENSER_PARAM; 48] _ 0 0 P2P_BYPASS_FRAME_TYPE_GSENSER_PARAM). }
  cbn [obind]; unfold P2P_BYPASS_FRAME_TYPE_GSENSER_PARAM; cbn [Z.eqb Pos.eqb].
  destruct pre as [|a [|b [|]]]; try done; cbn [app] in sensor.
  assert (forall i v off, [a; b; x; y; z] !! i = Some v -> off = 8 + 8 * Z.of_nat i -> load64 sensor off = Done (u64 v)) as L.
  { intros i v off Hi ->; by apply (load64_dwords (words [_; 48])). }
  unfold load_angles; by rewrite (L 2%nat x), (L 3%nat y), (L 4%nat z).
Qed.

(** ** The distortion buffer *)

(** The life of the distortion buffer: while the device type is set, a disconnect
    frees the buffer and forgets its length but keeps the pointer: GetDistTortion
    hands out the dangling pointer, the next table is a double free, and so is the
    next disconnect after the type was set again; while the type is not set (as after
    opening a channel) a disconnect keeps buffer and length. *)
Theorem distortion_lifetime c bs n :
  mDistTortion c = DLive bs -> mDistLen c = n ->
  (device_type c = 0 -> drop_distortion c = Done c) /\
  (device_type c <> 0 -> exists c', drop_distortion c = Done c' /\
     GetDistTortion c' = (DFreed, 0) /\ GetHasSetP720 c' = true /\
     (forall m off len, 8 <= len -> setDistTortion c' m off len = Fault) /\
     drop_distortion c' = Done c' /\
     drop_distortion (SetHasSetP720 c' true) = Fault).
Proof.
  intros Hd Hn; unfold drop_distortion at 1 2; split.
  - intros ->; done.
  - intros Ht; replace (device_type c =? 0) with false by lia.
    change (mDistTortion (set_type c 0)) with (mDistTortion c); rewrite Hd; eexists; split; [done|].
    split; [done|]; split; [done|]; split; [|done].
    intros m off len Hl; unfold setDistTortion; by replace (8 <=? len) with true by lia.
Qed.

(** ** Sound *)

Definition decode_alaw (a : Z) : Z := i16 (G711.alaw2linear (u8 a)).

Lemma DoOnAudioData_spec c pre payload rest :
  DoOnAudioData c (pre ++ payload ++ rest) (zlen pre) (zlen payload) =
  if zlen payload <=? 8000 then Done (call c (COnAudioData (map decode_alaw payload) (zlen payload * 2))) else Fault.
Proof.
  unfold DoOnAudioData, G711.batch_alaw2linear; replace (zlen pre <? 0) with false by (unfold zlen; lia).
  rewrite G711.batch_spec by (unfold zlen; lia).
  assert (drop (Z.to_nat (zlen pre)) (pre ++ payload ++ rest) = payload ++ rest) as ->
    by (unfold zlen; by rewrite Nat2Z.id, drop_app_length).
  replace (zlen payload <=? zlen (payload ++ rest)) with true by (unfold zlen; rewrite length_app; lia).
  replace (zlen (replicate (Z.to_nat 8000) 0)) with 8000 by (unfold zlen; rewrite length_replicate; lia); cbn [andb].
  destruct (zlen payload <=? 8000); [|done]; cbn [obind].
  replace (take (Z.to_nat (zlen payload)) (payload ++ rest)) with payload
    by (unfold zlen; by rewrite Nat2Z.id, take_app_length).
  unfold zlen; rewrite Nat2Z.id.
  replace (length payload) with (length (map decode_alaw payload)) at 1 by apply length_map.
  by rewrite take_app_length.
Qed.

(** G.711 sound: a live packet with its 36-byte header (but for the two lengths
    that mark a packet without one) and a packet of a recording that does not look
    like AAC are decoded byte by byte to the application, whatever follows them in
    memory, up to 8000 bytes; one byte more and the buffer of 16000 bytes is written
    past its end. *)
Theorem sound_decoded F fresh s c header payload rest h :
  zlen header = 36 ->
  let n := zlen payload in
  let heard := if n <=? 8000 then Done (call c (COnAudioData (map decode_alaw payload) (n * 2))) else Fault in
  (n + 36 <> 160 -> n + 36 <> 320 -> n + 36 < 2 ^ 31 ->
   DoOnAudioData2 F fresh s c (header ++ payload ++ rest) (36 + n) false false h = heard) /\
  (checkIsAAC (payload ++ rest) = Done false ->
   DoOnAudioData2 F fresh s c (payload ++ rest) n false true h = heard).
Proof.
  intros Hh n heard; split.
  - intros H1 H2 H3; unfold DoOnAudioData2; cbn [negb].
    assert (load (header ++ payload ++ rest) 0 sizeof_AUDIO_BUF_ATTR = Done header) as E by (apply (load_app [] header); done).
    rewrite E; cbn [obind].
    assert (forall off, 0 <= off <= 32 -> exists v, load_int header off = Done v) as L.
    { intros off Ho; unfold load_int, load32, load; rewrite (proj2 (inb_spec _ _ _)); [by eexists|].
      lia. }
    destruct (L 4 ltac:(lia)) as [? ->], (L 28 ltac:(lia)) as [? ->], (L 32 ltac:(lia)) as [? ->]; cbn [obind].
    replace ((36 + n =? 320) || (36 + n =? 160)) with false by lia.
    replace (i32 (u32 (36 + n - sizeof_AUDIO_BUF_ATTR))) with n
      by (unfold sizeof_AUDIO_BUF_ATTR; rewrite u32_small, i32_small; unfold n, zlen in *; lia).
    unfold sizeof_AUDIO_BUF_ATTR; rewrite <- Hh; apply DoOnAudioData_spec.
  - intros Hc; unfold DoOnAudioData2; cbn [negb]; rewrite Hc; cbn [obind].
    apply (DoOnAudioData_spec c []).
Qed.

(** AAC packets that cannot be decoded (no decoder, or an error): what the new buffer
    happened to hold is played. *)
Theorem undecoded_sound_played F fresh s c buf buflen h :
  Media.find_decoder F Media.AV_CODEC_ID_AAC = false -> Media.mAudioDecoderAvaliable (Media.aud (media c)) = false ->
  2048 <= zlen fresh ->
  DoOnAudioData2 F fresh s c buf buflen true true h = Done (call c (COnAudioBytes (take 2048 fresh) 2048)).
Proof.
  intros Hf Ha Hl; unfold DoOnAudioData2; cbn [negb obind]; unfold play_aac, Media.InitAudioDecoder; rewrite Ha, Hf.
  cbn [negb obind]; change (0 <? 0) with false; cbv iota; unfold Media.DecodeAudio; rewrite Ha; cbn [negb obind].
  rewrite load_prefix by lia; cbn [obind]; by destruct c.
Qed.

(** ** The record state *)

(** The viewer's flag follows the recorder. *)
Definition flag_follows (c : conn) : Prop := Media.IsRecord (media c) = true -> mIsRecord c = true.

Lemma StartRecord_state F f h fps b m m' rt :
  Media.wf F m -> Media.StartRecord F f h fps b m = Done (m', rt) ->
  if rt then Media.mRecord (Media.rcd m') = 1 /\ Media.mRecordContext (Media.rcd m') = true
  else Media.mRecord (Media.rcd m') = Media.mRecord (Media.rcd m).
Proof.
  intros W; unfold Media.StartRecord; destruct (Media.mRecord (Media.rcd m) =? 0) eqn:E0; cbn [negb]; [|by intros [= <- <-]].
  destruct (_ && _); [by intros [= <- <-]|]; destruct (negb (Media.alloc_format F)); [by intros [= <- <-]|].
  destruct (negb (Media.new_stream F)); [by intros [= <- <-]|]; intros H; obinv H.
  destruct (_ && _); injection H as <- <-; [done|]; cbn; split; [lia|done].
Qed.

(** The record state: a recording that starts sets it and StopRecord clears it
    with the recorder; after a StartRecord that failed the state is set although
    nothing is recorded, and StopRecord does not clear it. *)
Theorem record_state F c f c' rt :
  Media.wf F (media c) -> Media.IsRecord (media c) = false -> GetRecordState c = false ->
  RecordFile F c f = Done (c', rt) ->
  if rt then GetRecordState c' = true /\ Media.IsRecord (media c') = true /\
    exists c'', StopRecord c' = Done c'' /\ GetRecordState c'' = false /\ Media.IsRecord (media c'') = false
  else Media.IsRecord (media c') = false /\
    (c' = c \/ GetRecordState c' = true) /\ StopRecord c' = Done c'.
Proof.
  intros W Hi Hg; unfold RecordFile; destruct (adding c); cbn [negb].
  2:{ intros [= <- <-]; split_and!; [done|by left|unfold StopRecord; by rewrite Hi]. }
  intros H; obinv H; destruct (v =? 0).
  { injection H as <- <-; split_and!; [done|by left|unfold StopRecord; by rewrite Hi]. }
  obinv H; destruct (v0 =? 0).
  { injection H as <- <-; split_and!; [done|by left|unfold StopRecord; by rewrite Hi]. }
  obinv H; destruct v1 as [m rt']; injection H as <- ->.
  change (media (set_isrecord c true)) with (media c) in E1.
  pose proof (StartRecord_state _ _ _ _ _ _ _ _ W E1) as Hs; destruct rt.
  - destruct Hs as [Hr Hc]; assert (Media.IsRecord m = true) as Hm by (unfold Media.IsRecord; lia).
    split; [done|]; split; [done|]; unfold StopRecord; change (media (set_media _ m)) with m; rewrite Hm; cbn [negb].
    unfold Media.StopRecord; rewrite Hr, Hc; cbn [Z.eqb negb obind]; eexists; split; [done|]; split; [done|].
    unfold Media.IsRecord; cbn; lia.
  - assert (Media.IsRecord m = false) as Hm by (unfold Media.IsRecord in *; lia).
    split; [done|]; split; [by right|]; unfold StopRecord; change (media (set_media _ m)) with m; by rewrite Hm.
Qed.

(** The path of a file is copied as 256 bytes: a shorter object is read past its end. *)
Theorem short_path_overreads optype opflag m :
  zlen m < 256 -> operate_message optype opflag (Some m) = Fault.
Proof.
  intros H; unfold operate_message, load; destruct (inb m 0 256) eqn:E; [apply inb_spec in E; lia|done].
Qed.

(** ** Concrete instances *)

Definition demo_viewer : viewer := mkV (set_ply new_ja (p_add (ply new_ja) true)) new_settings.
Definition demo_ring : MediaBuffer.handle :=
  let z := MediaBuffer.zeros16 in
  MediaBuffer.Live (MediaBuffer.mkMB z 0 0 z 0 z 0 None 0 z z 25 100000 0 0 0 0 0).
Definition demo_con : conn :=
  mkCon demo_viewer Media.demo_new demo_ring (no_eye, no_eye) DNull 0 false false [].
Definition demo_clk : MediaBuffer.clock := MediaBuffer.mkClock 0 0 0.

Lemma fisheye_roundtrip_witness :
  let frame := bypass_frame 0 (params_of [640; 480; 470; 0; 0; 0] [0; 0; 0; 0; 0; 0] 1 0x01000003 0) [] in
  OnRecvFrameEx demo_clk 99 demo_con 15 frame (zlen frame) 7 None =
  Done (0, doOnOOBFrameAvailable (with_circle demo_con 640 480 470 1 0x01000003) 1 360).
Proof.
  apply (fisheye_roundtrip demo_clk 99 demo_con 640 480 470 0 0 0 [0; 0; 0; 0; 0; 0] 1 0x01000003 0 [] None 7);
    try done; unfold in_i32; lia.
Defined.

(** 1.0 and 0.5 as bits. *)
Lemma lens_roundtrip_witness :
  let frame := bypass_frame 1 (params_of [0x3f800000; 0; 0; 0; 0; 0] [0x3f000000; 0; 0; 0; 0; 0] 2 0 0) [1; 2; 3; 4; 5; 6; 7; 8] in
  exists c', OnRecvFrameEx demo_clk 99 demo_con 15 frame (zlen frame) 7 None = Done (0, doOnOOBFrameAvailable c' 2 720) /\
    GetDistTortion c' = (DLive [1; 2; 3; 4; 5; 6; 7; 8], 8).
Proof.
  destruct (lens_roundtrip demo_clk 99 demo_con [0x3f800000; 0; 0; 0; 0; 0] [0x3f000000; 0; 0; 0; 0; 0] 2 0 0
              [1; 2; 3; 4; 5; 6; 7; 8] None 7) as (c' & E & _ & _ & D & _);
    [done|done|done|unfold in_i32; lia|unfold zlen; cbn; lia|done|].
  exists c'; exact (conj E D).
Defined.

Definition demo_table : conn := set_dist demo_con (DLive [1; 2; 3; 4; 5; 6; 7; 8]) 8.
Lemma distortion_lifetime_witness :
  exists c', drop_distortion (SetHasSetP720 demo_table true) = Done c' /\ GetDistTortion c' = (DFreed, 0).
Proof.
  destruct (distortion_lifetime (SetHasSetP720 demo_table true) [1; 2; 3; 4; 5; 6; 7; 8] 8 eq_refl eq_refl) as [_ H].
  destruct H as (c' & E & D & _); [done|]; exists c'; exact (conj E D).
Defined.

Definition demo_sound : Media.sound := Media.mkSound 0 0 [].
Lemma sound_decoded_witness :
  DoOnAudioData2 Media.demoF [] demo_sound demo_con (replicate 36 0 ++ [0xD5; 0x2A] ++ []) 38 false false false =
  Done (call demo_con (COnAudioData (map decode_alaw [0xD5; 0x2A]) 4)).
Proof.
  destruct (sound_decoded Media.demoF [] demo_sound demo_con (replicate 36 0) [0xD5; 0x2A] [] false eq_refl) as [H _].
  apply H; vm_compute; congruence.
Defined.

Definition demo_recording : conn := Eval vm_compute in
  Media.value_of demo_con (let* '(c, _) := RecordFile Media.demoF demo_con [97] in Done c).
Lemma record_state_witness :
  RecordFile Media.demoF demo_con [97] = Done (demo_recording, true) /\
  exists c, StopRecord demo_recording = Done c /\ GetRecordState c = false.
Proof.
  assert (E : RecordFile Media.demoF demo_con [97] = Done (demo_recording, true)) by (vm_compute; reflexivity).
  destruct (record_state Media.demoF demo_con [97] demo_recording true) as (_ & _ & c & H1 & H2 & _);
    [apply Media.new_media_wf|reflexivity|reflexivity|exact E|].
  split; [exact E|]; exists c; exact (conj H1 H2).
Defined.

Lemma short_bypass_faults_witness : OnRecvFrameEx demo_clk 99 demo_con 15 (words [0] ++ [1; 2]) 6 7 None = Fault.
Proof. apply (short_bypass_faults demo_clk 99 demo_con 0 [1; 2] None 7); [done|by left|vm_compute; done]. Defined.

End Receive.
