(* ===== verification/Stream.v ===== *)
(** A viewer's frames from the network to the decoder: the receive callback writes
    into the ring (JAConnect::OnRecvFrameEx, WrtieBuffer), HandleDecodeThread reads
    the ring and works on what it reads, and the recorder gets the frames the thread
    passes on.  It joins Receive, MediaBuffer, Decode and Media: a turn here takes
    the ring's statistics and the frame from the ring itself.  The writer and the
    thread are interleaved at the borders of a write and of a turn. *)
From Stdlib Require Import SpecFloat.
From stdpp Require Import gmap.
From S2P Require Import Prelude Float32 MediaBuffer P2PConnector JAConnect Pacing ConnectManager OsdText DecodeThread Media Receive.

Module Stream.
Import P2P JA CM Pacing Osd Decode.

(** What the calls outside the source return and take in one turn. *)
Record outside := mkO {
  o_decoded : Z; o_raw : Z; o_decode : Z; o_frame : Z; o_wall : Z
}.

(** [bufsize]. *)
Definition BUFSIZE : Z := 2048000.

Section Viewer.
Context (W : Z) (usleep : Z -> Z -> Z) (localtime : Z -> tm) (fuel : nat).
(** The fuel of the walk back to a key frame, and [mBufferReader]. *)
Context (rfuel : nat) (mBufferReader : Z).

(** The frame rate of a live view; the counters of a recording. *)
Definition statistics (h : MediaBuffer.handle) (status : Z) : outcome (Z * Z * Z) :=
  if status =? NET_PLAY_REAL then let* f := MediaBuffer.GetCurrentFPS h in Done (f, 0, 0)
  else if status =? NET_PLAY_RECORD then
    let* w := MediaBuffer.GetWriteCount h in
    let* r := MediaBuffer.GetReadCount h mBufferReader in Done (0, w, r)
  else Done (0, 0, 0).

Definition env_of (s : Z * Z * Z) (o : outside) : env :=
  let '(f, w, r) := s in mkE f w r (o_decoded o) (o_raw o) (o_decode o) (o_frame o) (o_wall o).

(** The read, with the bytes behind the pointer it returns. *)
Definition pull (h : MediaBuffer.handle) : outcome (MediaBuffer.handle * option rframe) :=
  let* '(h, rt, out) := MediaBuffer.ReadBuffer rfuel h BUFSIZE mBufferReader in
  match h, out with
  | MediaBuffer.Live p, Some o =>
      let* bs := match MediaBuffer._buf p with Some m => MediaBuffer.payload m o | None => Fault end in
      Done (h, Some (mkF (MediaBuffer.o_type o) (MediaBuffer.o_timestamp o) (MediaBuffer.o_playtime o)
                       (MediaBuffer.o_enc o) bs))
  | _, _ => Done (h, None)
  end.

(** The calls of unlockRead among a turn's events. *)
Fixpoint unlocks (l : list event) (h : MediaBuffer.handle) : outcome MediaBuffer.handle :=
  match l with
  | [] => Done h
  | EUnlock :: l => let* '(h, _) := MediaBuffer.unlockRead h mBufferReader in unlocks l h
  | _ :: l => unlocks l h
  end.

(** One turn of the thread on the ring. *)
Definition thread_turn (o : outside) (h : MediaBuffer.handle) (d : dec) : outcome (MediaBuffer.handle * dec) :=
  let* s := statistics h (status d) in
  let* '(h, fr) := pull h in
  let* d' := turn W usleep localtime fuel (env_of s o) fr d in
  let* h := unlocks (drop (length (log d)) (log d')) h in
  Done (h, d').

Fixpoint thread_turns (os : list outside) (h : MediaBuffer.handle) (d : dec) : outcome (MediaBuffer.handle * dec) :=
  match os with
  | [] => Done (h, d)
  | o :: os => let* '(h, d) := thread_turn o h d in thread_turns os h d
  end.

(** ** The ring's side of a turn *)

(** The frame as the thread has it. *)
Definition frame_of (f : MediaBuffer.frame) : rframe :=
  mkF (MediaBuffer.f_type f) (MediaBuffer.f_timestamp f) (MediaBuffer.f_playtime f)
    (match MediaBuffer.f_enc f with Some s => take 5 s | None => [] end) (MediaBuffer.f_data f).
Definition fits (f : MediaBuffer.frame) : Prop :=
  MediaBuffer.pad4 (zlen (MediaBuffer.f_data f)) <= BUFSIZE.

(** The reader stands behind [pre] of the lap [pre ++ post], unmarked. *)
Record at_frame (p : MediaBuffer._MEDIA_BUFFER) (m : bytes) (prev : Z) (pre post : list MediaBuffer.frame) : Prop := {
  at_lap : MediaBuffer.Lap p m prev (pre ++ post);
  at_pos : zget (MediaBuffer._readpos p) mBufferReader = MediaBuffer.lap_end 0 pre;
  at_mark : zget (MediaBuffer._overwriteread p) mBufferReader = 0
}.
Definition counts (p : MediaBuffer._MEDIA_BUFFER) : Z * Z * Z :=
  (MediaBuffer._fps p, MediaBuffer._writecount p, zget (MediaBuffer._readcount p) mBufferReader).

Context (Hi : MediaBuffer.reader_ok mBufferReader).

Lemma pull_frame p m prev pre f post :
  at_frame p m prev pre (f :: post) -> fits f ->
  exists p', pull (MediaBuffer.Live p) = Done (MediaBuffer.Live p', Some (frame_of f)) /\
    at_frame p' m prev (pre ++ [f]) post /\ MediaBuffer._mutex p' = MediaBuffer._mutex p /\
    counts p' = (MediaBuffer._fps p, MediaBuffer._writecount p,
                 u32 (zget (MediaBuffer._readcount p) mBufferReader + 1)).
Proof.
  intros [HL Hp Hm] Hf; destruct (MediaBuffer.lap_readers _ _ _ _ HL) as (L1 & L2 & _).
  destruct (MediaBuffer.read_lap_frame rfuel p m prev pre f post BUFSIZE mBufferReader HL Hi Hp Hm Hf)
    as (p' & E & Ep & HL' & A1 & A2 & A3 & A4).
  destruct (MediaBuffer.read_counts _ _ _ _ _ _ _ E Hi L2) as [C1 C2].
  exists p'; unfold pull; rewrite E; cbn [obind]; rewrite (MediaBuffer.lap_buf _ _ _ _ HL'), Ep; cbn [obind].
  split; [done|]; split; [constructor|unfold counts; rewrite A4, C1, C2 by done; done].
  - by rewrite <- app_assoc.
  - rewrite A1; apply zget_zset_eq; unfold MediaBuffer.reader_ok, zlen in *; lia.
  - done.
Qed.

Lemma pull_empty p m prev fs :
  at_frame p m prev fs [] -> pull (MediaBuffer.Live p) = Done (MediaBuffer.Live p, None).
Proof.
  intros [HL Hp _]; rewrite app_nil_r in HL; unfold pull, MediaBuffer.ReadBuffer.
  rewrite (MediaBuffer.lap_buf _ _ _ _ HL), Hp, (MediaBuffer.lap_wpos _ _ _ _ HL), Z.eqb_refl.
  by replace ((mBufferReader <? 0) || (15 <? mBufferReader)) with false by (unfold MediaBuffer.reader_ok in Hi; lia).
Qed.

Lemma unlocks_live l p m prev pre post :
  at_frame p m prev pre post ->
  exists p', unlocks l (MediaBuffer.Live p) = Done (MediaBuffer.Live p') /\ at_frame p' m prev pre post /\ counts p' = counts p.
Proof.
  revert p; induction l as [|e l IH]; intros p HA; [by exists p|]; destruct e; cbn [unlocks]; try (by apply IH).
  unfold MediaBuffer.unlockRead.
  replace ((mBufferReader <? 0) || (15 <? mBufferReader)) with false by (unfold MediaBuffer.reader_ok in Hi; lia).
  cbn [obind]; destruct (IH (MediaBuffer.unlock (MediaBuffer.set_readlock p mBufferReader 0))) as (p' & E & HA' & C).
  - destruct HA as [HL Hp Hm]; constructor; [|done|done]; MediaBuffer.lap_readers.
  - by exists p'.
Qed.
(** ** The thread over a lap of the ring *)

(** What a turn sees of the counters, and what the read leaves of them. *)
Definition seen (status : Z) (c : Z * Z * Z) : Z * Z * Z :=
  let '(f, w, r) := c in
  if status =? NET_PLAY_REAL then (f, 0, 0) else if status =? NET_PLAY_RECORD then (0, w, r) else (0, 0, 0).
Definition next_counts (c : Z * Z * Z) : Z * Z * Z := let '(f, w, r) := c in (f, w, u32 (r + 1)).
Fixpoint envs (status : Z) (c : Z * Z * Z) (os : list outside) : list env :=
  match os with
  | [] => []
  | o :: os => env_of (seen status c) o :: envs status (next_counts c) os
  end.

Lemma statistics_live p status :
  statistics (MediaBuffer.Live p) status = Done (seen status (counts p)).
Proof.
  unfold statistics, seen, counts; destruct (status =? NET_PLAY_REAL); [done|].
  destruct (status =? NET_PLAY_RECORD); [|done]; unfold MediaBuffer.reader_ok in Hi; cbn [MediaBuffer.GetWriteCount obind].
  unfold MediaBuffer.GetReadCount; replace (_ || _) with false by lia.
  by replace (mBufferReader =? 16) with false by lia.
Qed.

Lemma flow_control_ses e d d' per :
  flow_control e d = Done (d', per) -> ses (core (vw d')) = ses (core (vw d)).
Proof.
  unfold flow_control, JA.PlaybackPauseGetData, JA.PlaybackContinueGetData; cbv zeta.
  destruct (_ =? NET_PLAY_REAL); [by intros [= <- _]|]; destruct (_ =? NET_PLAY_RECORD); [|by intros [= <- _]].
  destruct (_ && _); [rewrite cmds_done; by intros [= <- _]|].
  destruct (_ && _); [rewrite cmds_done|]; by intros [= <- _].
Qed.
Lemma turn_status e fr d d' : turn W usleep localtime fuel e fr d = Done d' -> status d' = status d.
Proof.
  unfold turn, status; intros H; obinv H; destruct v as [d1 per]; rewrite <- (flow_control_ses _ _ _ _ E).
  destruct fr as [f|]; [|by injection H as <-].
  by apply on_frame_flow, flow_of_eq in H as [-> _].
Qed.

(** A turn of the thread on a frame of the ring is a turn on that frame. *)
Lemma thread_turn_pulled o p p1 m prev pre post f d :
  pull (MediaBuffer.Live p) = Done (MediaBuffer.Live p1, Some f) -> at_frame p1 m prev pre post ->
  match turn W usleep localtime fuel (env_of (seen (status d) (counts p)) o) (Some f) d with
  | Done d' => exists p', thread_turn o (MediaBuffer.Live p) d = Done (MediaBuffer.Live p', d') /\
      at_frame p' m prev pre post /\ counts p' = counts p1
  | Fault => thread_turn o (MediaBuffer.Live p) d = Fault
  | OutOfFuel => thread_turn o (MediaBuffer.Live p) d = OutOfFuel
  end.
Proof.
  intros E HA; unfold thread_turn; rewrite statistics_live; cbn [obind]; rewrite E; cbn [obind].
  destruct (turn _ _ _ _ _ _ d) as [d'| |]; [|done..]; cbn [obind].
  destruct (unlocks_live (drop (length (log d)) (log d')) p1 m prev pre post HA) as (p2 & E2 & HA2 & C2).
  exists p2; by rewrite E2.
Qed.

Lemma thread_turns_lap os p m prev pre post d :
  at_frame p m prev pre post -> Forall fits post -> length os = length post ->
  match turns W usleep localtime fuel (combine (envs (status d) (counts p) os) (map (fun f => Some (frame_of f)) post)) d with
  | Done d' => exists p', thread_turns os (MediaBuffer.Live p) d = Done (MediaBuffer.Live p', d') /\
      at_frame p' m prev (pre ++ post) []
  | Fault => thread_turns os (MediaBuffer.Live p) d = Fault
  | OutOfFuel => thread_turns os (MediaBuffer.Live p) d = OutOfFuel
  end.
Proof.
  revert os p pre d; induction post as [|f post IH]; intros [|o os] p pre d HA Hf L; try done.
  - exists p; by rewrite app_nil_r.
  - inversion_clear Hf as [|? ? Hf1 Hf2]; injection L as L; cbn [envs map combine turns thread_turns].
    destruct (pull_frame p m prev pre f post HA Hf1) as (p0 & E0 & HA0 & _ & C0).
    pose proof (thread_turn_pulled o p p0 m prev (pre ++ [f]) post _ d E0 HA0) as HT.
    destruct (turn _ _ _ _ _ _ d) as [d1| |] eqn:E1; cbn [obind]; [|by rewrite HT..].
    destruct HT as (p1 & -> & HA1 & C1); cbn [obind].
    specialize (IH os p1 (pre ++ [f]) d1 HA1 Hf2 L); rewrite C1, C0, (turn_status _ _ _ _ E1) in IH.
    by rewrite <- app_assoc in IH.
Qed.

(** C5: the thread over the ring refines the thread over a list.  With the reader at
    a lap of the ring, as many turns as it has unread frames do exactly what the
    thread does on the list of these frames, each turn seeing the counters the ring
    has then; they fail where it fails.  Afterwards the ring still holds the lap, and
    one more read finds nothing. *)
Theorem stream_refines os p m prev pre post d :
  at_frame p m prev pre post -> Forall fits post -> length os = length post ->
  match turns W usleep localtime fuel (combine (envs (status d) (counts p) os) (map (fun f => Some (frame_of f)) post)) d with
  | Done d' => exists p', thread_turns os (MediaBuffer.Live p) d = Done (MediaBuffer.Live p', d') /\
      MediaBuffer.Lap p' m prev (pre ++ post) /\ pull (MediaBuffer.Live p') = Done (MediaBuffer.Live p', None)
  | Fault => thread_turns os (MediaBuffer.Live p) d = Fault
  | OutOfFuel => thread_turns os (MediaBuffer.Live p) d = OutOfFuel
  end.
Proof.
  intros HA Hf L; pose proof (thread_turns_lap os p m prev pre post d HA Hf L) as HT.
  destruct (turns _ _ _ _ _ d) as [d'| |]; [|done..]; destruct HT as (p' & E & HA').
  exists p'; split; [done|]; split; [|by eapply pull_empty]; destruct HA' as [HL _ _]; by rewrite app_nil_r in HL.
Qed.

(** ** A recording whose device is paused *)

(** The backlog of the turns over a drain: one less each time. *)
Fixpoint backlogs (b : Z) (n : nat) : list Z := match n with O => [] | S n => b :: backlogs (b - 1) n end.

Lemma hysteresis_open b n : b <= 150 -> hysteresis false (backlogs b n) = ([], false).
Proof.
  revert b; induction n as [|n IH]; intros b Hb; cbn [backlogs hysteresis]; [done|].
  replace (150 <? b) with false by lia; cbn [negb andb]; apply IH; lia.
Qed.
Lemma hysteresis_drain b n :
  hysteresis true (backlogs b (S n)) = if b - Z.of_nat n <? 50 then ([false], false) else ([], true).
Proof.
  revert b; induction n as [|n IH]; intros b.
  - cbn [backlogs hysteresis negb andb]; replace (b - Z.of_nat 0) with b by lia; by destruct (b <? 50).
  - change (backlogs b (S (S n))) with (b :: backlogs (b - 1) (S n)); cbn [hysteresis negb andb].
    destruct (b <? 50) eqn:E.
    + rewrite hysteresis_open by lia; by replace (b - Z.of_nat (S n) <? 50) with true by lia.
    + rewrite IH; by replace (b - 1 - Z.of_nat n) with (b - Z.of_nat (S n)) by lia.
Qed.

Lemma i32_pred w r : 1 <= i32 (u32 (w - r)) -> i32 (u32 (w - u32 (r + 1))) = i32 (u32 (w - r)) - 1.
Proof.
  unfold i32, signed, u32; rewrite Zminus_mod_idemp_r, !Zplus_mod_idemp_l, Z.sub_add_distr.
  replace (w - r - 1 + 2 ^ (32 - 1)) with (w - r + 2 ^ (32 - 1) - 1) by lia.
  generalize (w - r + 2 ^ (32 - 1)); intros x; change (2 ^ (32 - 1)) with 2147483648; change (2 ^ 32) with 4294967296; dlia.
Qed.
Definition waiting (c : Z * Z * Z) : Z := let '(_, w, r) := c in i32 (u32 (w - r)).
Lemma envs_backlog c os (l : list (option rframe)) :
  length os = length l -> Z.of_nat (length os) <= waiting c ->
  map (fun x => backlog (fst x)) (combine (envs NET_PLAY_RECORD c os) l) = backlogs (waiting c) (length os).
Proof.
  revert c l; induction os as [|o os IH]; intros [[f w] r] [|x l] L Hw; try done; injection L as L.
  cbn [envs combine map length backlogs fst]; f_equal.
  assert (HW : waiting (next_counts (f, w, r)) = waiting (f, w, r) - 1).
  { cbn [length] in Hw; unfold waiting, next_counts in *; apply i32_pred; lia. }
  rewrite <- HW; apply IH; [done|]; rewrite HW; cbn [length] in Hw; lia.
Qed.

(** A paused device is resumed.  While the thread shows a recording whose device
    it has paused, it queues one command to continue at the frame that leaves fewer
    than 50 waiting, and none before; in particular it does so before it has read
    everything. *)
Theorem paused_resumes os p m prev pre post d h' d' :
  at_frame p m prev pre post -> Forall fits post -> length os = length post -> post <> [] ->
  flow_ok d -> is_paused d = true -> Z.of_nat (length post) <= waiting (counts p) ->
  thread_turns os (MediaBuffer.Live p) d = Done (h', d') ->
  let ch := mChannelNo (ply (core (vw d))) in
  let resumed := waiting (counts p) - Z.of_nat (length post) + 1 <? 50 in
  mCommand (core (vw d')) = mCommand (core (vw d)) ++ (if resumed then [command_of ch false] else []) /\
  is_paused d' = negb resumed.
Proof.
  intros HA Hf L Hne HO HP Hw HT ch resumed; pose proof (thread_turns_lap os p m prev pre post d HA Hf L) as HR.
  destruct (turns _ _ _ _ _ d) as [d1| |] eqn:E; [|congruence..]; destruct HR as (p' & E' & _).
  rewrite E' in HT; injection HT as _ <-.
  pose proof (turns_flow _ _ _ _ _ _ _ HO E) as HF; destruct HO as [Hs _].
  rewrite Hs, envs_backlog, HP in HF by (rewrite ?length_map; lia).
  destruct post as [|f post]; [done|]; rewrite L in HF; cbn [length] in HF; rewrite hysteresis_drain in HF.
  subst resumed; cbn [length]; replace (_ - Z.of_nat (S (length post)) + 1) with (waiting (counts p) - Z.of_nat (length post)) by lia.
  destruct (_ <? 50); destruct HF as (_ & Hc & _ & Hp); by rewrite Hc.
Qed.
(** ** What the software path passes to the recorder and to the decoder *)














(** ** A live view decoded in software comes through *)

(** How long usleep(1000) may take. *)
Context (L : Z) (Hsleep : forall t, t <= usleep t 1000 <= t + L).
(** The stamps of the view lie within 2^31 ms from [T], and their time can be shown
    in the zone [z]. *)
Context (T : Z) (z : spec_float).





(** ** From the network to the decoder *)









(** ** What a recording of the view holds *)



End Viewer.
(** ** Concrete views *)

Definition demo_out : outside := mkO 0 3000 9000 2000 0.
Lemma demo_at : at_frame 3 MediaBuffer.demo_p MediaBuffer.demo_m 0 [] [MediaBuffer.demo_key; MediaBuffer.demo_p1].
Proof. constructor; [exact MediaBuffer.demo_lap|by vm_compute..]. Qed.
Lemma demo_fits : Forall fits [MediaBuffer.demo_key; MediaBuffer.demo_p1].
Proof. repeat constructor; by vm_compute. Qed.

(** A view of stamps near 100 ms, live or of a recording, behind a shut gate. *)
Definition demo_start (status : Z) (paused : bool) : dec :=
  let d := demo_dec status false false in
  mkD (set_core (vw d) (set_ply (core (vw d)) (p_pb (ply (core (vw d))) (if paused then 2 else 1))))
    (pc d) (mkC 60 60 0 0 60 60) (vid d) (log d).
Abbreviation demo_run := (thread_turns 64 late_sleep gmtime 32 5 3 [demo_out; demo_out] (MediaBuffer.Live MediaBuffer.demo_p)).

Lemma stream_refines_witness : exists p' d',
  demo_run (demo_start 1 false) = Done (MediaBuffer.Live p', d') /\
  pull 5 3 (MediaBuffer.Live p') = Done (MediaBuffer.Live p', None).
Proof.
  pose proof (stream_refines 64 late_sleep gmtime 32 5 3 ltac:(split; discriminate) [demo_out; demo_out] _ _ _ _ _
    (demo_start 1 false) demo_at demo_fits eq_refl) as H.
  match type of H with match ?t with _ => _ end => destruct t as [d'| |] eqn:E end; [|vm_compute in E; discriminate E..].
  destruct H as (p' & H1 & _ & H2); exists p', d'; split; [exact H1|exact H2].
Defined.

Lemma paused_resumes_witness : exists h' d',
  demo_run (demo_start 2 true) = Done (h', d') /\ mCommand (core (vw d')) = [command_of 0 false].
Proof.
  destruct (demo_run (demo_start 2 true)) as [[h' d']| |] eqn:E; [|vm_compute in E; discriminate..].
  exists h', d'; split; [done|].
  pose proof (paused_resumes 64 late_sleep gmtime 32 5 3 ltac:(split; discriminate) [demo_out; demo_out] _ _ _ _ _
    (demo_start 2 true) h' d' demo_at demo_fits eq_refl ltac:(discriminate) (conj eq_refl eq_refl) eq_refl
    ltac:(vm_compute; discriminate) E) as [H _]; exact H.
Defined.






End Stream.
