(* ===== verification/JAText.v ===== *)
(** The text painter for overlays: JAText (gles/Media/JAText.cpp).  Two bitmap fonts,
    12x24 for bytes up to 0xA0 and 24x24 for GBK pairs, are painted into a buffer of
    32-bit pixels from calloc.  A glyph that is read past the font's end, or a pixel
    written outside the buffer, is a [Fault].  The buffer is the list of its pixels,
    row by row. *)
From S2P Require Import Prelude.

Module Text.

Abbreviation cstr := (list Z).

(** The two fonts; [None] for null. *)
Record jatext := mkText { ascbuffer : option bytes; hzbuffer : option bytes }.
Definition new_text : jatext := mkText None None.

(** The paths "<path>/asc24.font" and "<path>/hzk24.font" take 255 bytes with their
    terminators; [asc] and [hz] are the files' contents, [None] for one that does not
    open.  Without the first file the second is not tried. *)
Definition LoadFont (path : cstr) (asc hz : option bytes) (t : jatext) : outcome jatext :=
  if 255 <? zlen path + 12 then Fault
  else
    match asc with
    | None => Done t
    | Some a =>
        let t := mkText (Some a) (hzbuffer t) in
        match hz with
        | None => Done t
        | Some z => Done (mkText (ascbuffer t) (Some z))
        end
    end.

(** [*(lbuf+y*w+x) = color] behind the bounds test. *)
Definition putpixels (x y color : Z) (buf : list Z) (w h : Z) : outcome (list Z) :=
  if (x <? 0) || (w <? x) || (y <? 0) || (h <? y) then Done buf
  else
    let i := y * w + x in
    if (0 <=? i) && (i <? zlen buf) then Done (zset buf i color) else Fault.

Fixpoint paint (l : list (Z * Z * Z)) (buf : list Z) (w h : Z) : outcome (list Z) :=
  match l with
  | [] => Done buf
  | (x, y, c) :: l => let* buf := putpixels x y c buf w h in paint l buf w h
  end.

Definition background : Z := 0x66666666.

(** The loops over the 24 rows and [width] columns of a glyph at [x]. *)
Definition block (width x : Z) (bit : Z -> Z -> bool) (color : Z) : list (Z * Z * Z) :=
  flat_map (fun j => map (fun m => (x + m, j, if bit j m then color else background)) (seqZ 0 width)) (seqZ 0 24).

(** The bits of the two kinds of glyph, row [j] and column [m]. *)
Definition hz_bit (g : bytes) (j m : Z) : bool :=
  let lbuf := Z.lor (Z.lor (Z.shiftl (zget g (j * 3)) 16) (Z.shiftl (zget g (j * 3 + 1)) 8)) (zget g (j * 3 + 2)) in
  Z.land (Z.shiftr lbuf (23 - m)) 1 =? 1.
Definition asc_bit (g : bytes) (j m : Z) : bool :=
  negb (Z.land (Z.shiftr (zget g ((j * 12 + m) / 8)) (7 - (j * 12 + m) mod 8)) 1 =? 0).

(** The offset of a pair's glyph. *)
Definition hz_pos (p p1 : Z) : Z :=
  let q := Z.land p 0x7f - 32 in
  let w := Z.land p1 0x7f - 32 in
  ((q - 1) * 94 + w - 1) * 72.

(** The loop of PutText: [n] is [llen - i], [s] the string from [i] on.  The byte
    behind the last one is the terminator. *)
Fixpoint put (asc hz : bytes) (s : cstr) (n x color : Z) (buf : list Z) (pw ph : Z) : outcome (list Z) :=
  match s with
  | [] => Done buf
  | p :: s =>
      if n <=? 0 then Done buf
      else if 0xA0 <? p then
        let p1 := match s with [] => 0 | p1 :: _ => p1 end in
        let* g := load hz (hz_pos p p1) 72 in
        let* buf := paint (block 24 x (hz_bit g) color) buf pw ph in
        match s with [] => Done buf | _ :: s => put asc hz s (n - 2) (x + 24) color buf pw ph end
      else
        let* g := load asc (p * 36) 36 in
        let* buf := paint (block 12 x (asc_bit g) color) buf pw ph in
        put asc hz s (n - 1) (x + 12) color buf pw ph
  end.

Definition PutText (t : jatext) (pStr : cstr) (color : Z) (buf : list Z) (pw ph : Z) : outcome (list Z) :=
  match ascbuffer t, hzbuffer t with
  | Some asc, Some hz =>
      let llen := zlen pStr in
      let llen := if 40 <? llen then 40 else llen in
      put asc hz pStr llen 0 color buf pw ph
  | _, _ => Done buf
  end.

(** [txt] is [None] for null; [w * h * 4] is computed in int. *)
Definition GenTextbuffer (t : jatext) (txt : option cstr) (color w h : Z) : outcome (option (list Z)) :=
  match txt with
  | None => Done None
  | Some txt =>
      if (w <? 0) || (h <? 0) || (2147483647 <? w * h * 4) then Fault
      else
        let* buf := PutText t txt color (replicate (Z.to_nat (w * h)) 0) w h in Done (Some buf)
  end.

(** ** The specification: a row of cells *)

(** The cells of a text: each with its width and its bits. *)
Record cell := mkCell { c_width : Z; c_bit : Z -> Z -> bool }.
Fixpoint cells (asc hz : bytes) (s : cstr) (n : Z) : outcome (list cell) :=
  match s with
  | [] => Done []
  | p :: s =>
      if n <=? 0 then Done []
      else if 0xA0 <? p then
        let* g := load hz (hz_pos p (match s with [] => 0 | p1 :: _ => p1 end)) 72 in
        match s with
        | [] => Done [mkCell 24 (hz_bit g)]
        | _ :: s => let* l := cells asc hz s (n - 2) in Done (mkCell 24 (hz_bit g) :: l)
        end
      else
        let* g := load asc (p * 36) 36 in
        let* l := cells asc hz s (n - 1) in Done (mkCell 12 (asc_bit g) :: l)
  end.
Definition width (l : list cell) : Z := foldr (fun c n => c_width c + n) 0 l.
(** The bit of the row of cells at column [x] and row [y]. *)
Fixpoint bit_at (l : list cell) (x y : Z) : option bool :=
  match l with
  | [] => None
  | c :: l => if x <? c_width c then Some (c_bit c y x) else bit_at l (x - c_width c) y
  end.
(** What a pixel must be. *)
Definition shade (l : list cell) (color x y : Z) : Z :=
  if (0 <=? y) && (y <? 24) then
    match bit_at l x y with Some true => color | Some false => background | None => 0 end
  else 0.

(** ** Painting *)

Definition covers (l : list (Z * Z * Z)) (x y : Z) : Prop := exists c, (x, y, c) ∈ l.

Lemma paint_done l buf w h :
  zlen buf = w * h -> 0 <= w -> Forall (fun p => 0 <= fst (fst p) < w /\ 0 <= snd (fst p) < h) l ->
  exists buf', paint l buf w h = Done buf' /\ zlen buf' = w * h /\
    (forall x y c, 0 <= x < w -> 0 <= y < h -> (x, y, c) ∈ l -> (forall c', (x, y, c') ∈ l -> c' = c) ->
       zget buf' (y * w + x) = c) /\
    (forall x y, 0 <= x < w -> 0 <= y < h -> ~ covers l x y -> zget buf' (y * w + x) = zget buf (y * w + x)).
Proof.
  revert buf; induction l as [|[[x y] c] l IH]; intros buf Hb Hw Hl; cbn [paint].
  - exists buf; split_and!; try done; intros ???? ? Hin; by apply elem_of_nil in Hin.
  - apply Forall_cons_1 in Hl as [[Hx Hy] Hl']; cbn [fst snd] in *.
    unfold putpixels; replace (_ || _) with false by lia.
    assert (HI : 0 <= y * w + x < w * h) by nia.
    replace (_ && _) with true by lia; cbn [obind].
    destruct (IH (zset buf (y * w + x) c)) as (buf' & E & Lb & H1 & H2); [by rewrite <- Hb; unfold zlen; rewrite zset_length|done|done|].
    exists buf'; split; [exact E|]; split; [exact Lb|]; split.
    + intros x0 y0 c0 Hx0 Hy0 Hin Hu; destruct (decide (Exists (fun p => fst p = (x0, y0)) l)) as [He|He].
      * apply Exists_exists in He as ([[x1 y1] c1] & Hin1 & E1); cbn in E1; injection E1 as -> ->.
        apply list_elem_of_In in Hin1; assert (c1 = c0) as -> by (apply Hu, elem_of_cons; by right).
        apply H1; [done|done|done|]; intros c' Hc'; apply Hu, elem_of_cons; by right.
      * apply elem_of_cons in Hin as [[= -> -> ->]|Hin]; [|exfalso; apply He, Exists_exists; eexists; split; [by apply list_elem_of_In in Hin; exact Hin|done]].
        rewrite H2, zget_zset_eq; [done|lia|done|done|]; intros [c' Hc']; apply He, Exists_exists; eexists; split; [by apply list_elem_of_In in Hc'; exact Hc'|done].
    + intros x0 y0 Hx0 Hy0 Hn; rewrite H2; [|done|done|intros [c' Hc']; apply Hn; exists c'; apply elem_of_cons; by right].
      apply zget_zset_ne; intros E1; apply Hn; exists c.
      destruct (Z.div_mod_unique w y y0 x x0) as [-> ->]; [by left|by left|lia|]; apply elem_of_cons; by left.
Qed.

(** The pixels of a glyph. *)
Lemma block_in wd x0 bit color x y c :
  (x, y, c) ∈ block wd x0 bit color <->
  x0 <= x < x0 + wd /\ 0 <= y < 24 /\ c = if bit y (x - x0) then color else background.
Proof.
  unfold block; rewrite list_elem_of_In, in_flat_map; split.
  - intros (j & Hj & Hm); apply in_map_iff in Hm as (m & [= <- <- <-] & Hm).
    rewrite <- list_elem_of_In, elem_of_seqZ in Hj, Hm; replace (x0 + m - x0) with m by lia; split_and!; lia || done.
  - intros (H1 & H2 & ->); exists y; rewrite <- list_elem_of_In, elem_of_seqZ; split; [lia|].
    apply in_map_iff; exists (x - x0); rewrite <- list_elem_of_In, elem_of_seqZ; split; [f_equal; f_equal; lia|lia].
Qed.

Lemma block_painted wd x0 bit color buf w h :
  zlen buf = w * h -> 24 <= h -> 0 <= wd -> 0 <= x0 -> x0 + wd <= w ->
  exists buf', paint (block wd x0 bit color) buf w h = Done buf' /\ zlen buf' = w * h /\
    forall x y, 0 <= x < w -> 0 <= y < h -> zget buf' (y * w + x) =
      if (x0 <=? x) && (x <? x0 + wd) && (0 <=? y) && (y <? 24)
      then (if bit y (x - x0) then color else background) else zget buf (y * w + x).
Proof.
  intros Hb Hh Hwd Hx0 Hw; destruct (paint_done (block wd x0 bit color) buf w h Hb ltac:(lia)) as (buf' & E & Lb & H1 & H2).
  { apply Forall_forall; intros [[x y] c] Hin%list_elem_of_In%block_in; cbn; lia. }
  exists buf'; split_and!; [done|done|]; intros x y Hx Hy; destruct (_ && (y <? 24)) eqn:Eb.
  - apply H1; [done|done|apply block_in; split_and!; lia || done|]; intros c' (_ & _ & ->)%block_in; done.
  - apply H2; [done|done|]; intros (c & (? & ? & _)%block_in); lia.
Qed.

Lemma cells_ind (P : cstr -> Prop) :
  P [] -> (forall p, P [p]) -> (forall p q s, P (q :: s) -> P s -> P (p :: q :: s)) -> forall s, P s.
Proof.
  intros H0 H1 H2 s; enough (P s /\ forall p, P (p :: s)) by tauto.
  induction s as [|q s [IH1 IH2]]; split; auto.
Qed.
Lemma width_nonneg asc hz s n cs : cells asc hz s n = Done cs -> Forall (fun c => 0 < c_width c) cs.
Proof.
  revert n cs; induction s as [|p|p q s IH1 IH2] using cells_ind; intros n cs; cbn [cells].
  - intros [= <-]; constructor.
  - destruct (n <=? 0); [intros [= <-]; constructor|]; destruct (0xA0 <? p); intros H; obinv H; [injection H as <-|simplify_eq]; repeat constructor.
  - destruct (n <=? 0); [intros [= <-]; constructor|]; destruct (0xA0 <? p); intros H; obinv H; injection H as <-; constructor; try done; eauto.
Qed.

(** The cells [l] painted from column [x0] on over a pixel [old]. *)
Definition over (l : list cell) (color x0 x y old : Z) : Z :=
  if (x0 <=? x) && (0 <=? y) && (y <? 24) then
    match bit_at l (x - x0) y with Some true => color | Some false => background | None => old end
  else old.
Definition painted (l : list cell) (color x0 : Z) (buf buf' : list Z) (w h : Z) : Prop :=
  zlen buf' = w * h /\
  forall x y, 0 <= x < w -> 0 <= y < h -> zget buf' (y * w + x) = over l color x0 x y (zget buf (y * w + x)).

Lemma painted_nil color x0 buf w h : zlen buf = w * h -> painted [] color x0 buf buf w h.
Proof. intros Hb; split; [done|]; intros x y _ _; unfold over; by case_bool. Qed.
(** A cell and then the others. *)
Lemma painted_cons c l color x0 buf buf1 buf2 w h :
  0 < c_width c ->
  (forall x y, 0 <= x < w -> 0 <= y < h -> zget buf1 (y * w + x) =
     if (x0 <=? x) && (x <? x0 + c_width c) && (0 <=? y) && (y <? 24)
     then (if c_bit c y (x - x0) then color else background) else zget buf (y * w + x)) ->
  painted l color (x0 + c_width c) buf1 buf2 w h -> painted (c :: l) color x0 buf buf2 w h.
Proof.
  intros Hc H1 [L2 H2]; split; [done|]; intros x y Hx Hy; rewrite H2, H1 by done; unfold over; cbn [bit_at].
  replace (x - x0 - c_width c) with (x - (x0 + c_width c)) by lia.
  destruct ((0 <=? y) && (y <? 24)) eqn:Ey; [|rewrite <- !andb_assoc, !Ey, !andb_false_r; done].
  rewrite <- !andb_assoc, !Ey, !andb_true_r.
  destruct (x0 <=? x) eqn:E1; cbn [andb].
  - destruct (x <? x0 + c_width c) eqn:E2.
    + replace (x0 + c_width c <=? x) with false by lia; replace (x - x0 <? c_width c) with true by lia; done.
    + replace (x0 + c_width c <=? x) with true by lia; replace (x - x0 <? c_width c) with false by lia; done.
  - by replace (x0 + c_width c <=? x) with false by lia.
Qed.

Lemma cell_step wd bit l color x0 buf w h (rest : list Z -> outcome (list Z)) :
  zlen buf = w * h -> 24 <= h -> 0 < wd -> 0 <= x0 -> x0 + wd <= w ->
  (forall b1, zlen b1 = w * h -> exists b2, rest b1 = Done b2 /\ painted l color (x0 + wd) b1 b2 w h) ->
  exists buf', (let* b := paint (block wd x0 bit color) buf w h in rest b) = Done buf' /\
    painted (mkCell wd bit :: l) color x0 buf buf' w h.
Proof.
  intros Hb Hh Hwd Hx Hw Hr; destruct (block_painted wd x0 bit color buf w h) as (b1 & E1 & L1 & H1); try done || lia.
  destruct (Hr b1 L1) as (b2 & E2 & P2); exists b2; rewrite E1; cbn [obind]; split; [done|].
  by eapply painted_cons; [|exact H1|exact P2].
Qed.

Lemma width_pos l : Forall (fun c => 0 < c_width c) l -> 0 <= width l.
Proof. induction 1 as [|c l Hc _ IH]; cbn [width foldr] in *; [lia|]; fold (width l); lia. Qed.

Lemma put_painted asc hz color w h s n x0 buf cs :
  cells asc hz s n = Done cs -> zlen buf = w * h -> 24 <= h -> 0 <= x0 -> x0 + width cs <= w ->
  exists buf', put asc hz s n x0 color buf w h = Done buf' /\ painted cs color x0 buf buf' w h.
Proof.
  revert n x0 buf cs; induction s as [|p|p q s IH1 IH2] using cells_ind; intros n x0 buf cs Hcs Hb Hh Hx Hw.
  - cbn in *; injection Hcs as <-; exists buf; split; [done|by apply painted_nil].
  - cbn [cells put obind] in *.
    destruct (n <=? 0); [injection Hcs as <-; exists buf; split; [done|by apply painted_nil]|].
    destruct (0xA0 <? p); obinv Hcs; rewrite E; cbn [obind] in *; injection Hcs as <-; cbn [width foldr c_width] in Hw;
      (apply cell_step; [done|done|done|done|lia|]); intros b1 L1; exists b1; split; done || by apply painted_nil.
  - pose proof (width_nonneg _ _ _ _ _ Hcs) as HW; cbn [cells put] in *.
    destruct (n <=? 0); [injection Hcs as <-; exists buf; split; [done|by apply painted_nil]|].
    destruct (0xA0 <? p); obinv Hcs; rewrite E; cbn [obind] in *; injection Hcs as <-; cbn [width foldr c_width] in Hw;
      apply Forall_cons_1 in HW as [_ HW%width_pos]; unfold width in HW;
      (apply cell_step; [done|done|done|done|lia|]); intros b1 L1; [apply IH2|apply IH1]; done || (unfold width; lia).
Qed.

(** C38: a text that fits is painted.  When the glyphs of the text are in the fonts and
    its cells, 12 pixels for a byte and 24 for a GBK pair, are not wider than the
    buffer, which has at least 24 rows, GenTextbuffer returns the picture of the
    specification: the set bits of each cell in the colour, its other pixels in the
    background, and zero outside; only the first 40 bytes are painted. *)
Theorem text_painted asc hz txt color w h cs :
  cells asc hz txt (if 40 <? zlen txt then 40 else zlen txt) = Done cs ->
  24 <= h -> width cs <= w -> w * h * 4 <= 2147483647 ->
  exists buf, GenTextbuffer (mkText (Some asc) (Some hz)) (Some txt) color w h = Done (Some buf) /\
    zlen buf = w * h /\
    forall x y, 0 <= x < w -> 0 <= y < h -> zget buf (y * w + x) = shade cs color x y.
Proof.
  intros Hcs Hh Hw Hm; pose proof (width_pos _ (width_nonneg _ _ _ _ _ Hcs)) as HW.
  set (b0 := replicate (Z.to_nat (w * h)) 0).
  assert (L0 : zlen b0 = w * h) by (unfold zlen, b0; rewrite length_replicate; nia).
  destruct (put_painted asc hz color w h txt _ 0 b0 cs Hcs L0 Hh ltac:(lia) ltac:(lia)) as (buf & E & L & H).
  exists buf; unfold GenTextbuffer, PutText; cbn [ascbuffer hzbuffer].
  replace (_ || _) with false by nia; fold b0; rewrite E; split; [done|]; split; [done|].
  intros x y Hx Hy; rewrite H by done; unfold over, shade; replace (0 <=? x) with true by lia.
  assert (Z0 : zget b0 (y * w + x) = 0).
  { unfold zget, znth; case_bool; [done|]; destruct (b0 !! _) eqn:E0; [|done]; by apply lookup_replicate in E0 as [-> _]. }
  cbn [andb]; rewrite Z0, Z.sub_0_r; destruct ((0 <=? y) && (y <? 24)); [|done]; by destruct (bit_at cs x y) as [[]|].
Qed.

(** ** Wider texts *)

Lemma paint_fault l buf w h x y c :
  zlen buf = w * h -> (x, y, c) ∈ l -> 0 <= x <= w -> 0 <= y <= h -> w * h <= y * w + x -> paint l buf w h = Fault.
Proof.
  intros Hb Hin Hx Hy Hi; revert buf Hb; induction l as [|[[x1 y1] c1] l IH]; intros buf Hb; [by apply elem_of_nil in Hin|].
  cbn [paint]; apply elem_of_cons in Hin as [[= <- <- <-]|Hin].
  - unfold putpixels; replace (_ || _) with false by lia; replace (_ && _) with false by lia; done.
  - unfold putpixels; destruct (_ || _); [by apply IH|]; destruct (_ && _); [|done]; apply IH; [done|].
    unfold zlen in *; by rewrite zset_length.
Qed.

Lemma cell_wide wd bit color x0 buf w h (rest : list Z -> outcome (list Z)) :
  zlen buf = w * h -> h = 24 -> 0 < wd -> 0 <= x0 <= w ->
  (w < x0 + wd \/ forall b1, zlen b1 = w * h -> rest b1 = Fault) ->
  (let* b := paint (block wd x0 bit color) buf w h in rest b) = Fault.
Proof.
  intros Hb -> Hwd Hx Hr; destruct (decide (w < x0 + wd)) as [Hlt|Hge].
  - rewrite (paint_fault _ buf w 24 w 23 (if bit 23 (w - x0) then color else background)); try done || lia.
    apply block_in; split_and!; lia || done.
  - destruct Hr as [Hr|Hr]; [lia|].
    destruct (block_painted wd x0 bit color buf w 24) as (b1 & -> & L1 & _); try done || lia; by apply Hr.
Qed.

Lemma put_wide asc hz color w h s n x0 buf cs :
  cells asc hz s n = Done cs -> zlen buf = w * h -> h = 24 -> 0 <= x0 <= w -> w < x0 + width cs ->
  put asc hz s n x0 color buf w h = Fault.
Proof.
  revert n x0 buf cs; induction s as [|p|p q s IH1 IH2] using cells_ind; intros n x0 buf cs Hcs Hb Hh Hx Hw; cbn [cells put obind] in *;
    [injection Hcs as <-; cbn in Hw; lia|..];
    (destruct (n <=? 0); [injection Hcs as <-; cbn in Hw; lia|]);
    destruct (0xA0 <? p); obinv Hcs; rewrite E; cbn [obind] in *; injection Hcs as <-; cbn [width foldr c_width] in Hw;
    (apply cell_wide; [done|done|done|done|]); try (left; lia).
  - destruct (decide (w < x0 + 24)); [by left|right; intros b1 L1]; eapply IH2; [done|done|done|lia|unfold width; lia].
  - destruct (decide (w < x0 + 12)); [by left|right; intros b1 L1]; eapply IH1; [done|done|done|lia|unfold width; lia].
Qed.

(** A text that is wider than its buffer writes past it.  The bounds test lets the
    column [w] and the row [h] through, so that in a buffer of 24 rows the last row's
    pixel in column [w] lies behind the allocation: any text whose cells are wider
    than the buffer overflows it, as 31 letters do in the 360 pixels of
    ParametricManager::PutInfo and 5 in the 48 of SetTextMask. *)
Theorem wide_text_overflows asc hz txt color w cs :
  cells asc hz txt (if 40 <? zlen txt then 40 else zlen txt) = Done cs ->
  0 <= w -> w * 24 * 4 <= 2147483647 -> w < width cs ->
  GenTextbuffer (mkText (Some asc) (Some hz)) (Some txt) color w 24 = Fault.
Proof.
  intros Hcs Hw Hm Hwd; unfold GenTextbuffer, PutText; cbn [ascbuffer hzbuffer].
  replace (_ || _) with false by lia; rewrite (put_wide _ _ _ _ _ _ _ 0 _ _ Hcs); try done || lia.
  unfold zlen; rewrite length_replicate; lia.
Qed.

(** A pair cut off by the end of the text takes its second byte from the terminator,
    which puts the glyph of a first row before the font. *)
Lemma half_pair_faults asc hz x color buf w h :
  put asc hz [0xA1] 1 x color buf w h = Fault.
Proof. reflexivity. Qed.

(** ** Concrete texts *)

Definition demo_asc : bytes := Eval vm_compute in replicate (36 * 66) 0xF0.
Definition demo_hz : bytes := replicate 72 0xAA.
Definition demo_font : jatext := mkText (Some demo_asc) (Some demo_hz).
(** "A" and the pair A1 A1. *)
Definition demo_text : cstr := [65; 0xA1; 0xA1].

Lemma text_painted_witness : exists buf,
  GenTextbuffer demo_font (Some demo_text) 7 48 24 = Done (Some buf) /\
  zget buf (2 * 48 + 1) = 7 /\ zget buf (2 * 48 + 13) = background /\ zget buf (2 * 48 + 40) = 0.
Proof.
  destruct (text_painted demo_asc demo_hz demo_text 7 48 24 [mkCell 12 (asc_bit (replicate 36 0xF0)); mkCell 24 (hz_bit (replicate 72 0xAA))])
    as (buf & E & _ & H); [reflexivity|lia|cbn; lia|lia|].
  exists buf; split; [exact E|]; rewrite !H by lia; split_and!; reflexivity.
Defined.

Lemma wide_text_overflows_witness : GenTextbuffer demo_font (Some demo_text) 7 30 24 = Fault.
Proof.
  eapply (wide_text_overflows demo_asc demo_hz demo_text 7 30); [reflexivity|lia|lia|cbn; lia].
Defined.
End Text.
