(* ===== verification/Surface.v ===== *)
(** A video on the screen: the transform of ParametricSurface
    (gles/GLES/ParametricSurface.cpp) and NormalPlay's limits on panning and zooming
    (gles/GLES/NormalPlay.cpp), with the flags of BaseScreen.  Numbers are binary32,
    and binary64 where the code computes in double.  The loading and information
    pictures that follow a video, and everything sent to GL, are left out. *)
From Stdlib Require Import SpecFloat.
From S2P Require Import Prelude Float32.

(** The display modes, the kinds of mesh and of transform (ParametricSurface.h). *)
Abbreviation SCRN_NORMAL := 0 (only parsing).
Abbreviation SCRN_HEMISPHERE := 1 (only parsing).
Abbreviation SCRN_CYLINDER := 2 (only parsing).
Abbreviation SCRN_EXPAND := 3 (only parsing).
Abbreviation SCRN_UPDOWN := 4 (only parsing).
Abbreviation SCRN_FOUR := 5 (only parsing).
Abbreviation SCRN_VR := 6 (only parsing).
Abbreviation SCRN_SPHERE := 7 (only parsing).
Abbreviation SCRN_THREE := 8 (only parsing).
Abbreviation SCRN_SIX := 9 (only parsing).
Abbreviation SCRN_PANORAMA := 11 (only parsing).
Abbreviation SCRN_STITCH := 13 (only parsing).
Abbreviation SCRN_CUP := 14 (only parsing).
Abbreviation SCRN_FOUREX := 15 (only parsing).
Abbreviation SCRN_STITCH2 := 18 (only parsing).
Abbreviation SCRN_VECTOROBJECT := 0x103 (only parsing).
Abbreviation VERTEX_TYPE_HEMISPHERE := 0 (only parsing).
Abbreviation VERTEX_TYPE_PANORAMA := 1 (only parsing).
Abbreviation VERTEX_TYPE_CYLINDER := 2 (only parsing).
Abbreviation VERTEX_TYPE_EXPAND := 3 (only parsing).
Abbreviation VERTEX_TYPE_SPHERE := 5 (only parsing).
Abbreviation TRANSFORM_POSITION := 0 (only parsing).
Abbreviation TRANSFORM_SCALE := 1 (only parsing).
Abbreviation TRANSFORM_ROTATE := 2 (only parsing).

Module Surface.

(** ** Vectors *)

Record vec3 := vec { x : spec_float; y : spec_float; z : spec_float }.
Definition vec_of (a b c : Z) : vec3 := vec (F32.of_Z a) (F32.of_Z b) (F32.of_Z c).
Definition vadd (u v : vec3) : vec3 := vec (F32.add (x u) (x v)) (F32.add (y u) (y v)) (F32.add (z u) (z v)).
(** [operator==] *)
Definition veqb (u v : vec3) : bool := SFeqb (x u) (x v) && SFeqb (y u) (y v) && SFeqb (z u) (z v).

(** ** The state *)

(** Position, scale and rotation, of the object or of its texture. *)
Record transform := mkTr { pos : vec3; scale : vec3; rotate : vec3 }.
Definition at_rest : transform := mkTr (vec_of 0 0 0) (vec_of 1 1 1) (vec_of 0 0 0).

Record surface := mkSurf {
  obj : transform; tex : transform; mNeedDraw : bool;
  Visible : bool; mIsSelected : bool; mIsOwnAnimation : bool; mShowInfo : bool;
  m_aspect : spec_float; mKeepAspect : spec_float;
  mZoom : spec_float; mLeftOffset : spec_float; mTopOffset : spec_float
}.

Definition zero : spec_float := F32.of_Z 0.
Definition one : spec_float := F32.of_Z 1.
Definition two : spec_float := F32.of_Z 2.

(** The constructors of ParametricSurface, BaseScreen and NormalPlay. *)
Definition NormalPlay (aspect : spec_float) : surface :=
  mkSurf at_rest at_rest false true false false false aspect one one zero zero.

Definition set_obj (s : surface) (t : transform) (need : bool) : surface :=
  mkSurf t (tex s) need (Visible s) (mIsSelected s) (mIsOwnAnimation s) (mShowInfo s) (m_aspect s) (mKeepAspect s)
    (mZoom s) (mLeftOffset s) (mTopOffset s).
Definition set_tex (s : surface) (t : transform) (need : bool) : surface :=
  mkSurf (obj s) t need (Visible s) (mIsSelected s) (mIsOwnAnimation s) (mShowInfo s) (m_aspect s) (mKeepAspect s)
    (mZoom s) (mLeftOffset s) (mTopOffset s).
Definition set_pan (s : surface) (zoom left top : spec_float) : surface :=
  mkSurf (obj s) (tex s) (mNeedDraw s) (Visible s) (mIsSelected s) (mIsOwnAnimation s) (mShowInfo s) (m_aspect s)
    (mKeepAspect s) zoom left top.

Definition SetVisible (s : surface) (value : bool) : surface :=
  mkSurf (obj s) (tex s) (mNeedDraw s) value (mIsSelected s) (mIsOwnAnimation s) (mShowInfo s) (m_aspect s)
    (mKeepAspect s) (mZoom s) (mLeftOffset s) (mTopOffset s).
Definition SetSelected (s : surface) (value : bool) : surface :=
  mkSurf (obj s) (tex s) (mNeedDraw s) (Visible s) value (mIsOwnAnimation s) (mShowInfo s) (m_aspect s)
    (mKeepAspect s) (mZoom s) (mLeftOffset s) (mTopOffset s).
Definition GetSelected (s : surface) : bool := mIsSelected s.
Definition SetIsAnimation (s : surface) (animation : bool) : surface :=
  mkSurf (obj s) (tex s) (mNeedDraw s) (Visible s) (mIsSelected s) animation (mShowInfo s) (m_aspect s)
    (mKeepAspect s) (mZoom s) (mLeftOffset s) (mTopOffset s).
Definition ShowInfo (s : surface) (value : bool) : surface :=
  mkSurf (obj s) (tex s) (mNeedDraw s) (Visible s) (mIsSelected s) (mIsOwnAnimation s) value (m_aspect s)
    (mKeepAspect s) (mZoom s) (mLeftOffset s) (mTopOffset s).
Definition SetKeepAspect (s : surface) (aspect : spec_float) : surface :=
  mkSurf (obj s) (tex s) (mNeedDraw s) (Visible s) (mIsSelected s) (mIsOwnAnimation s) (mShowInfo s) (m_aspect s)
    aspect (mZoom s) (mLeftOffset s) (mTopOffset s).
(** The aspect alone: the buffers are rebuilt in GL. *)
Definition ReSetBuffer (s : surface) (aspect : spec_float) : surface :=
  mkSurf (obj s) (tex s) (mNeedDraw s) (Visible s) (mIsSelected s) (mIsOwnAnimation s) (mShowInfo s) aspect
    (mKeepAspect s) (mZoom s) (mLeftOffset s) (mTopOffset s).

(** ** ParametricSurface *)

Definition put (texture : bool) (s : surface) (t : transform) (same : bool) : surface :=
  if same then s else if texture then set_tex s t true else set_obj s t true.
Definition part (texture : bool) (s : surface) : transform := if texture then tex s else obj s.

Definition surface_SetPosition (s : surface) (p : vec3) (texture : bool) : surface :=
  let t := part texture s in put texture s (mkTr p (scale t) (rotate t)) (veqb (pos t) p).
Definition surface_SetScale (s : surface) (p : vec3) (texture : bool) : surface :=
  let t := part texture s in put texture s (mkTr (pos t) p (rotate t)) (veqb (scale t) p).
Definition setRotate (s : surface) (p : vec3) (texture : bool) : surface :=
  let t := part texture s in put texture s (mkTr (pos t) (scale t) p) (veqb (rotate t) p).
Definition GetPosition (s : surface) (texture : bool) : vec3 := pos (part texture s).
Definition GetScale (s : surface) (texture : bool) : vec3 := scale (part texture s).
Definition GetRotate (s : surface) (texture : bool) : vec3 := rotate (part texture s).
Definition NeedDraw (s : surface) : bool := mNeedDraw s && Visible s.

(** ** NormalPlay *)

(** A visible surface is drawn, and asks for no other drawing; the calls of GL are left out. *)
Definition DrawSelf (s : surface) : surface :=
  if Visible s then
    mkSurf (obj s) (tex s) false (Visible s) (mIsSelected s) (mIsOwnAnimation s) (mShowInfo s) (m_aspect s)
      (mKeepAspect s) (mZoom s) (mLeftOffset s) (mTopOffset s)
  else s.

(** How far the texture can be moved at the magnification [sx], across and up. *)
Definition pan_limits (s : surface) (sx : spec_float) : spec_float * spec_float :=
  let half := F32.div (F32.sub one (F32.div one sx)) two in
  let other a b :=
    F64.to_float (F64.div (F64.sub (F64.of_float (F32.div a b)) (F64.div (F64.of_Z 1) (F64.of_float sx))) (F64.of_Z 2)) in
  if negb (SFeqb (mKeepAspect s) one) then
    if F32.ltb (m_aspect s) (mKeepAspect s) then (half, other (m_aspect s) (mKeepAspect s))
    else (other (mKeepAspect s) (m_aspect s), half)
  else (half, half).

Definition limit (l p : spec_float) : spec_float :=
  let p := if F32.ltb p (SFopp l) then SFopp l else p in
  let p := if F32.ltb l p then l else p in
  if F32.ltb l zero then zero else p.
Definition limited (s : surface) (sx : spec_float) (p : vec3) : vec3 :=
  let '(lw, lh) := pan_limits s sx in vec (limit lw (x p)) (limit lh (y p)) (z p).

Definition SetPosition (s : surface) (p : vec3) (texture : bool) : surface :=
  if negb texture then surface_SetPosition s p false
  else surface_SetPosition s (limited s (x (GetScale s true)) p) true.

Definition SetScale (s : surface) (p : vec3) (texture : bool) : surface :=
  if negb texture then surface_SetScale s p false
  else if F32.ltb (x p) one then s
  else
    let s := surface_SetPosition s (limited s (x p) (GetPosition s true)) true in
    surface_SetScale s p true.

(** The older panning: offsets within the part of the picture left out by the zoom. *)
Definition pan_room (zoom : spec_float) : spec_float := F32.div (F32.sub one zoom) two.
Definition outside_room (lw v : spec_float) : bool := F32.ltb v (SFopp lw) || F32.ltb lw v.
Definition TurnLeftRight (s : surface) (angle : spec_float) : surface :=
  if SFleb one (mZoom s) then s
  else
    let v := F32.add angle (mLeftOffset s) in
    if outside_room (pan_room (mZoom s)) v then s
    else set_pan s (mZoom s) (F32.add (mLeftOffset s) angle) (mTopOffset s).
Definition TurnUpDown (s : surface) (angle : spec_float) : surface :=
  if SFleb one (mZoom s) then s
  else
    let v := F32.add angle (mTopOffset s) in
    if outside_room (pan_room (mZoom s)) v then s
    else set_pan s (mZoom s) (mLeftOffset s) (F32.add (mTopOffset s) angle).
Definition pull (lw v : spec_float) : spec_float :=
  let v := if F32.ltb v (SFopp lw) then SFopp lw else v in if F32.ltb lw v then lw else v.
Definition setZoom (s : surface) (multi : spec_float) : surface :=
  let zoom := F32.div one multi in
  let lw := pan_room zoom in
  set_pan s zoom (pull lw (mLeftOffset s)) (pull lw (mTopOffset s)).
Definition ResetPosition (s : surface) : surface :=
  let s := set_tex (set_obj s at_rest true) at_rest true in
  set_pan (SetIsAnimation s false) one zero zero.

(** ** Comparisons *)

Lemma eqb_cases a b : SFeqb a b = true -> a = b \/ exists u v, a = S754_zero u /\ b = S754_zero v.
Proof.
  destruct a as [s|s| |s m e], b as [t|t| |t n f]; unfold SFeqb, SFcompare; try (destruct s, t; done);
    try (destruct s; done); try (destruct t; done); try done; intros H; [right; eauto|left; by destruct s, t|left].
  destruct s, t; try done; destruct (Z.compare_spec e f) as [->| |]; try done;
    destruct (Pos.compare_cont Eq m n) eqn:E; try done; by apply Pos.compare_eq in E as ->.
Qed.
Lemma ltb_eqb_l a b c : SFeqb a b = true -> SFltb a c = SFltb b c.
Proof. intros [->|(u & v & -> & ->)]%eqb_cases; [done|]; by destruct c as [[]| | |]. Qed.
Lemma ltb_eqb_r a b c : SFeqb a b = true -> SFltb c a = SFltb c b.
Proof. intros [->|(u & v & -> & ->)]%eqb_cases; [done|]; by destruct c as [[]|[]| |[]]. Qed.
Lemma eqb_zero a b : SFeqb a b = true -> SFeqb a zero = SFeqb b zero.
Proof. intros [->|(u & v & -> & ->)]%eqb_cases; [done|]; by destruct u, v. Qed.
(** Addition commutes. *)
Lemma add_comm a b : F32.add a b = F32.add b a.
Proof.
  destruct a as [s|s| |s m e], b as [t|t| |t n f]; try done; try (by destruct s, t).
  unfold F32.add, SFadd; by rewrite (Z.min_comm e f), (Z.add_comm (cond_Zopp s _)).
Qed.

(** ** The texture stays within its limits *)

(** Between [-l] and [l]; in the middle when the picture is narrower than its place. *)
Definition inside (l v : spec_float) : Prop :=
  if F32.ltb l zero then SFeqb v zero = true else F32.ltb v (SFopp l) = false /\ F32.ltb l v = false.
Definition within (s : surface) : Prop :=
  let '(lw, lh) := pan_limits s (x (scale (tex s))) in inside lw (x (pos (tex s))) /\ inside lh (y (pos (tex s))).

Lemma pull_inside lw v : F32.ltb lw zero = false -> inside lw (pull lw v).
Proof.
  intros Hl; unfold inside, pull; rewrite Hl; unfold F32.ltb in *.
  destruct (SFltb v (SFopp lw)) eqn:E1.
  - rewrite (F32.ltb_opp _ Hl); destruct (SFltb lw (SFopp lw)) eqn:E2; [by rewrite (F32.ltb_opp _ Hl) in E2|].
    by rewrite F32.ltb_irrefl.
  - destruct (SFltb lw v) eqn:E2; [by rewrite (F32.ltb_opp _ Hl), F32.ltb_irrefl|done].
Qed.
Lemma limit_inside l p : inside l (limit l p).
Proof.
  unfold limit; destruct (F32.ltb l zero) eqn:El; [unfold inside; by rewrite El|exact (pull_inside l p El)].
Qed.
Lemma inside_eqb l a b : SFeqb a b = true -> inside l b -> inside l a.
Proof.
  intros He; unfold inside; destruct (F32.ltb l zero); [by rewrite (eqb_zero a b)|].
  unfold F32.ltb; by rewrite (ltb_eqb_l a b), (ltb_eqb_r a b).
Qed.

(** What SetPosition puts into the texture, up to the equality of floats. *)
Lemma surface_SetPosition_tex s p :
  let s' := surface_SetPosition s p true in
  scale (tex s') = scale (tex s) /\ m_aspect s' = m_aspect s /\ mKeepAspect s' = mKeepAspect s /\
  (forall l, inside l (x p) -> inside l (x (pos (tex s')))) /\ (forall l, inside l (y p) -> inside l (y (pos (tex s')))).
Proof.
  unfold surface_SetPosition, put, part; destruct (veqb (pos (tex s)) p) eqn:E; [|done].
  unfold veqb in E; rewrite !andb_true_iff in E; destruct E as ((Ex & Ey) & _); repeat split; intros l; by apply inside_eqb.
Qed.
Lemma limited_tex s sx p lw lh : pan_limits s sx = (lw, lh) -> inside lw (x (limited s sx p)) /\ inside lh (y (limited s sx p)).
Proof. unfold limited; intros ->; split; apply limit_inside. Qed.
Lemma pan_limits_same s s' sx : m_aspect s' = m_aspect s -> mKeepAspect s' = mKeepAspect s -> pan_limits s' sx = pan_limits s sx.
Proof. unfold pan_limits; by intros -> ->. Qed.

(** Wherever the texture is moved and however it is magnified, its position stays
    within the limits of its magnification and of the kept aspect; a magnification
    below 1 is refused. *)
Theorem texture_within s p sc :
  within (SetPosition s p true) /\
  (F32.ltb (x sc) one = true -> SetScale s sc true = s) /\
  (F32.ltb (x sc) one = false -> within (SetScale s sc true) /\ SFeqb (x (scale (tex (SetScale s sc true)))) (x sc) = SFeqb (x sc) (x sc)).
Proof.
  split; [|split].
  - unfold within, SetPosition; cbn [negb].
    destruct (surface_SetPosition_tex s (limited s (x (GetScale s true)) p)) as (Es & Ea & Ek & Hx & Hy).
    rewrite Es, (pan_limits_same s) by done; destruct (pan_limits s (x (scale (tex s)))) as (lw, lh) eqn:E.
    destruct (limited_tex s _ p _ _ E); split; [by apply Hx|by apply Hy].
  - intros E; unfold SetScale; by rewrite E.
  - intros E; unfold SetScale; rewrite E; cbn [negb].
    destruct (surface_SetPosition_tex s (limited s (x sc) (GetPosition s true))) as (_ & Ea & Ek & Hx & Hy).
    set (s1 := surface_SetPosition s _ true) in *.
    assert (H1 : let '(lw, lh) := pan_limits s1 (x sc) in inside lw (x (pos (tex s1))) /\ inside lh (y (pos (tex s1)))).
    { rewrite (pan_limits_same s) by done; destruct (pan_limits s (x sc)) as (lw, lh) eqn:El.
      destruct (limited_tex s _ (GetPosition s true) _ _ El); split; [by apply Hx|by apply Hy]. }
    unfold surface_SetScale, put, part, within; destruct (veqb (scale (tex s1)) sc) eqn:Ev; [|done].
    unfold veqb in Ev; rewrite !andb_true_iff in Ev; destruct Ev as ((Exx & _) & _).
    destruct (eqb_cases _ _ Exx) as [E0|(u & v & E0 & E1)]; [by rewrite E0|by rewrite E1 in E; destruct v].
Qed.

(** ** The offsets stay within the room the zoom leaves *)

Inductive pan_op := LeftRight (angle : spec_float) | UpDown (angle : spec_float) | ZoomBy (multi : spec_float) | Reset.
Definition pan (s : surface) (o : pan_op) : surface :=
  match o with
  | LeftRight a => TurnLeftRight s a
  | UpDown a => TurnUpDown s a
  | ZoomBy m => setZoom s m
  | Reset => ResetPosition s
  end.
Definition roomy (s : surface) : Prop :=
  F32.ltb (pan_room (mZoom s)) zero = false ->
  outside_room (pan_room (mZoom s)) (mLeftOffset s) = false /\ outside_room (pan_room (mZoom s)) (mTopOffset s) = false.
Lemma outside_inside lw v : F32.ltb lw zero = false -> inside lw v <-> outside_room lw v = false.
Proof. intros E; unfold inside, outside_room; by rewrite E, orb_false_iff. Qed.

(** Whatever is panned and zoomed, the older offsets stay within the part of the
    picture that the zoom leaves out, as long as the zoom does not enlarge the view
    beyond the picture. *)
Theorem offsets_in_room aspect os : roomy (fold_left pan os (NormalPlay aspect)).
Proof.
  assert (Hstep : forall s o, roomy s -> roomy (pan s o)).
  { intros s [a|a|m|] Hs; cbn [pan].
    - unfold TurnLeftRight; case_bool; try done; intros Hr; cbn in *; rewrite (add_comm _ a); split; [done|by apply Hs].
    - unfold TurnUpDown; case_bool; try done; intros Hr; cbn in *; rewrite (add_comm _ a); split; [by apply Hs|done].
    - intros Hr; cbn in *; rewrite <- !outside_inside by done; split; by apply pull_inside.
    - intros _; vm_compute; by split. }
  assert (H0 : roomy (NormalPlay aspect)) by (intros _; vm_compute; by split).
  revert H0; generalize (NormalPlay aspect); induction os as [|o os IH]; intros s Hs; [done|apply IH; by apply Hstep].
Qed.
End Surface.
