(* ===== verification/Screen.v ===== *)
(** The grid of videos: NormalScreen (gles/GLES/NormalScreen.cpp), its split tables,
    pages and selection, and ParametricManager::SetSingVideo, over the 36 surfaces of
    Surface.v.  What the class asks of its two events is logged ([asked]); drawing is
    the order in which the videos draw themselves.  Textures, the record icons (never
    drawn) and the calls that only pass a texture on are left out, and so is
    [isSpliting], true only while SetSplitPosition runs. *)
From Stdlib Require Import SpecFloat.
From S2P Require Import Prelude Float32 Surface.

Module Screen.
Import Surface (surface, vec3, Visible, vec).

(** ** The split tables: cells of a 12 by 12 grid, y downwards *)

Record SPLIT_POSITION := cell { cx : Z; cy : Z; cw : Z; ch : Z }.
Record SPLIT_MODE := mode { count : Z; cells : list SPLIT_POSITION }.

Definition SPLIT_1 : list SPLIT_POSITION := [cell 0 0 12 12].
Definition SPLIT_2 : list SPLIT_POSITION := [cell 0 0 6 6; cell 6 0 6 6; cell 0 6 6 6; cell 6 6 6 6].
Definition SPLIT_3 : list SPLIT_POSITION :=
  [cell 0 0 8 8; cell 8 0 4 4; cell 8 4 4 4; cell 0 8 4 4; cell 4 8 4 4; cell 8 8 4 4].
Definition SPLIT_4 : list SPLIT_POSITION :=
  [cell 0 0 9 9; cell 9 0 3 3; cell 9 3 3 3; cell 9 6 3 3;
   cell 0 9 3 3; cell 3 9 3 3; cell 6 9 3 3; cell 9 9 3 3].
Definition SPLIT_5 : list SPLIT_POSITION :=
  [cell 0 0 4 4; cell 4 0 4 4; cell 8 0 4 4; cell 0 4 4 4; cell 4 4 4 4; cell 8 4 4 4;
   cell 0 8 4 4; cell 4 8 4 4; cell 8 8 4 4].
Definition SPLIT_6 : list SPLIT_POSITION :=
  [cell 0 0 3 3; cell 3 0 3 3; cell 6 0 3 3; cell 9 0 3 3; cell 0 3 3 3; cell 3 3 6 6; cell 9 3 3 3;
   cell 0 6 3 3; cell 9 6 3 3; cell 0 9 3 3; cell 3 9 3 3; cell 6 9 3 3; cell 9 9 3 3].
Definition SPLIT_7 : list SPLIT_POSITION :=
  [cell 0 0 3 3; cell 3 0 3 3; cell 6 0 3 3; cell 9 0 3 3; cell 0 3 3 3; cell 3 3 3 3; cell 6 3 3 3;
   cell 9 3 3 3; cell 0 6 3 3; cell 3 6 3 3; cell 6 6 3 3; cell 9 6 3 3; cell 0 9 3 3; cell 3 9 3 3;
   cell 6 9 3 3; cell 9 9 3 3].
Definition SplitMode : list SPLIT_MODE :=
  [mode 1 SPLIT_1; mode 4 SPLIT_2; mode 6 SPLIT_3; mode 8 SPLIT_4; mode 9 SPLIT_5; mode 13 SPLIT_6; mode 16 SPLIT_7].

(** The upper right corners of the cells, y upwards. *)
Definition SPLITE_RECORD_1 : list SPLIT_POSITION := [cell 0 0 12 12].
Definition SPLITE_RECORD_2 : list SPLIT_POSITION := [cell 0 0 6 12; cell 0 0 12 12; cell 0 0 6 6; cell 0 0 12 6].
Definition SPLITE_RECORD_3 : list SPLIT_POSITION :=
  [cell 0 0 8 12; cell 0 0 12 12; cell 0 0 12 8; cell 0 0 4 4; cell 0 0 8 4; cell 0 0 12 4].
Definition SPLITE_RECORD_4 : list SPLIT_POSITION :=
  [cell 0 0 9 12; cell 0 0 12 12; cell 0 0 12 9; cell 0 0 12 6;
   cell 0 0 3 3; cell 0 0 6 3; cell 0 0 9 3; cell 0 0 12 3].
Definition SPLITE_RECORD_5 : list SPLIT_POSITION :=
  [cell 0 0 4 12; cell 0 0 8 12; cell 0 0 12 12; cell 0 0 4 8; cell 0 0 8 8; cell 0 0 12 8;
   cell 0 0 4 4; cell 0 0 8 4; cell 0 0 12 4].
Definition SPLITE_RECORD_6 : list SPLIT_POSITION :=
  [cell 0 0 3 12; cell 0 0 6 12; cell 0 0 9 12; cell 0 0 12 12; cell 0 0 3 9; cell 0 0 9 9; cell 0 0 12 9;
   cell 0 0 3 6; cell 0 0 12 6; cell 0 0 3 3; cell 0 0 6 3; cell 0 0 9 3; cell 0 0 12 3].
Definition SPLITE_RECORD_7 : list SPLIT_POSITION :=
  [cell 0 0 3 12; cell 0 0 6 12; cell 0 0 9 12; cell 0 0 12 12; cell 0 0 3 9; cell 0 0 6 9; cell 0 0 9 9;
   cell 0 0 12 9; cell 0 0 3 6; cell 0 0 6 6; cell 0 0 9 6; cell 0 0 12 6; cell 0 0 3 3; cell 0 0 6 3;
   cell 0 0 9 3; cell 0 0 12 3].
Definition SplitRecordMode : list SPLIT_MODE :=
  [mode 1 SPLITE_RECORD_1; mode 4 SPLITE_RECORD_2; mode 6 SPLITE_RECORD_3; mode 8 SPLITE_RECORD_4;
   mode 9 SPLITE_RECORD_5; mode 13 SPLITE_RECORD_6; mode 16 SPLITE_RECORD_7].

(** ** The state *)

Inductive request :=
| Hidden (video index : Z)                          (* ObjectHidden(mgn, video, OnPageAniEnd, this, index) *)
| WillVisible (video : Z) (pos scale rotate : vec3). (* ObjectWillVisible *)

Record screen := mkScr {
  mVideo : list surface; allPage : Z; mCurrentMode : Z; mCurrentPage : Z; mSelectIndex : Z; m_aspect : spec_float;
  ObjectHidden : bool; ObjectWillVisible : bool;     (* whether the events are set *)
  asked : list request
}.

Definition set_video (s : screen) (l : list surface) : screen :=
  mkScr l (allPage s) (mCurrentMode s) (mCurrentPage s) (mSelectIndex s) (m_aspect s)
    (ObjectHidden s) (ObjectWillVisible s) (asked s).
Definition set_split (s : screen) (m p sel : Z) : screen :=
  mkScr (mVideo s) (allPage s) m p sel (m_aspect s) (ObjectHidden s) (ObjectWillVisible s) (asked s).
Definition ask (s : screen) (r : request) : screen :=
  mkScr (mVideo s) (allPage s) (mCurrentMode s) (mCurrentPage s) (mSelectIndex s) (m_aspect s)
    (ObjectHidden s) (ObjectWillVisible s) (asked s ++ [r]).
Definition set_aspect (s : screen) (a : spec_float) : screen :=
  mkScr (mVideo s) (allPage s) (mCurrentMode s) (mCurrentPage s) (mSelectIndex s) a
    (ObjectHidden s) (ObjectWillVisible s) (asked s).
Definition SetAllPage (s : screen) (n : Z) : screen :=
  mkScr (mVideo s) n (mCurrentMode s) (mCurrentPage s) (mSelectIndex s) (m_aspect s)
    (ObjectHidden s) (ObjectWillVisible s) (asked s).
(** ParametricManager's constructor sets both events. *)
Definition set_events (s : screen) : screen :=
  mkScr (mVideo s) (allPage s) (mCurrentMode s) (mCurrentPage s) (mSelectIndex s) (m_aspect s) true true (asked s).

(** An access to an array. *)
Definition at_index {A} (l : list A) (i : Z) : outcome A :=
  match znth l i with Some a => Done a | None => Fault end.
Definition on_video (s : screen) (k : Z) (f : surface -> surface) : outcome screen :=
  let* v := at_index (mVideo s) k in Done (set_video s (zset (mVideo s) k (f v))).
Definition count_of (m : Z) : outcome Z := let* md := at_index SplitMode m in Done (count md).

(** The loop over the videos of a page, left behind the last video; and over all. *)
Fixpoint each (f : Z -> Z -> screen -> outcome screen) (first j : Z) (n : nat) (s : screen) : outcome screen :=
  match n with
  | O => Done s
  | S n => if 35 <? first + j then Done s else let* s := f (first + j) j s in each f first (j + 1) n s
  end.
Fixpoint all (f : surface -> surface) (i : Z) (n : nat) (s : screen) : outcome screen :=
  match n with
  | O => Done s
  | S n => let* s := on_video s i f in all f (i + 1) n s
  end.
Definition for_all (s : screen) (f : surface -> surface) : outcome screen := all f 0 (Z.to_nat (allPage s)) s.

(** ** Pages and splits *)

Definition GetPage (s : screen) : Z := mCurrentPage s.
Definition GetSplitMode (s : screen) : Z := mCurrentMode s.
Definition getVideoIndex (s : screen) : Z := mSelectIndex s.
Definition GetScreenCount (s : screen) : Z := allPage s.
Definition pages (n c : Z) : Z := cdiv n c + (if cmod n c =? 0 then 0 else 1).
Definition GetAllPage (s : screen) : outcome Z :=
  let* c := count_of (mCurrentMode s) in Done (pages (allPage s) c).

Definition lposunit : spec_float := F32.div (F32.of_Z 1) (F32.of_Z 6).
Definition neg_one : spec_float := F32.of_Z (-1).
(** The position and the scale of a cell; [z] is kept. *)
Definition placement (aspect z : spec_float) (c : SPLIT_POSITION) : vec3 * vec3 :=
  let half n := F32.div (F32.mul lposunit (F32.of_Z n)) (F32.of_Z 2) in
  let lx := F32.div (F32.mul (SFopp lposunit) (F32.of_Z (cw c))) (F32.of_Z 2) in
  let absx := F32.add neg_one (F32.mul (F32.of_Z (cx c)) lposunit) in
  let absy := F32.sub (F32.of_Z 1) (F32.mul (F32.of_Z (cy c)) lposunit) in
  (vec (F32.mul (F32.sub absx lx) aspect) (F32.sub absy (half (ch c))) z,
   vec (F32.div (F32.of_Z (cw c)) (F32.of_Z 6)) (F32.div (F32.of_Z (ch c)) (F32.of_Z 6)) (F32.of_Z 1)).

Definition show_cell (ani : bool) (k j : Z) (s : screen) : outcome screen :=
  let* md := at_index SplitMode (mCurrentMode s) in
  let* s := on_video s k (fun v => Surface.SetVisible v true) in
  let* v := at_index (mVideo s) k in
  let* c := at_index (cells md) j in
  let '(lpos, lscale) := placement (m_aspect s) (Surface.z (Surface.GetPosition v false)) c in
  if ani && ObjectWillVisible s then Done (ask s (WillVisible k lpos lscale (Surface.vec_of 0 0 0)))
  else on_video s k (fun v => Surface.SetPosition (Surface.SetScale v lscale false) lpos false).
Definition SetSplitPosition (s : screen) (ani : bool) : outcome screen :=
  let* c := count_of (mCurrentMode s) in
  each (show_cell ani) (mCurrentPage s * c) 0 (Z.to_nat c) s.

Definition hide_cell (ani : bool) (k j : Z) (s : screen) : outcome screen :=
  let* v := at_index (mVideo s) k in
  if ani && ObjectHidden s then Done (ask s (Hidden k j))
  else on_video s k (fun v => Surface.SetVisible v false).
Definition hide_page (s : screen) (ani : bool) : outcome screen :=
  let* c := count_of (mCurrentMode s) in
  each (hide_cell ani) (mCurrentPage s * c) 0 (Z.to_nat c) s.

Definition SetPage (s : screen) (index : Z) (ani : bool) : outcome screen :=
  let* pc := GetAllPage s in
  if (index <? 0) || (pc <=? index) then Done s
  else
    let* s := hide_page s ani in
    let s := set_split s (mCurrentMode s) index (mSelectIndex s) in
    if ani then Done s else SetSplitPosition s ani.

Definition SetSplit (s : screen) (index : Z) (ani : bool) : outcome screen :=
  let* s := hide_page s ani in
  let s := set_split s index (mCurrentPage s) (mSelectIndex s) in
  if ani then Done s
  else
    let* c := count_of index in
    let page := cdiv (mSelectIndex s) c in
    SetPage (set_split s index page (mSelectIndex s)) page false.

(** The end of the animation that hides the video. *)
Definition OnPageAniEnd (s : screen) (video index : Z) : outcome screen :=
  let* s := on_video s video (fun v => Surface.SetVisible v false) in
  if index =? 0 then SetSplitPosition s true else Done s.

(** ParametricManager::SetSingVideo. *)
Definition SetSingVideo (s : screen) (index : Z) (ani : bool) : outcome screen :=
  let* s := SetSplit s 0 ani in SetPage s index ani.

Definition ResetPosition (s : screen) : outcome screen :=
  let* s := for_all s Surface.ResetPosition in
  let* s := SetSplit s (mCurrentMode s) false in
  for_all s (fun v => Surface.setRotate v (Surface.vec_of 0 0 0) false).

Definition ReSizeSplite (s : screen) (aspect : spec_float) : outcome screen :=
  let s := set_aspect s aspect in
  let* s := for_all s (fun v => Surface.ReSetBuffer v aspect) in
  SetSplitPosition s false.

(** The constructor; the manager sets the events behind it. *)
Definition NormalScreen (aspect : spec_float) : outcome screen :=
  let videos := map (fun i => let v := Surface.NormalPlay aspect in if Z.of_nat i >? 0 then Surface.SetVisible v false else v)
                    (seq 0 36) in
  let* s := SetSplitPosition (mkScr videos 36 0 0 0 aspect false false []) false in
  on_video s 0 (fun v => Surface.SetSelected v true).

(** ** Selection *)

Definition covers (px py : Z) (c : SPLIT_POSITION) : bool :=
  (cx c <=? px) && (px <=? cx c + cw c) && (cy c <=? py) && (py <=? cy c + ch c).
Fixpoint first_cell (px py i : Z) (l : list SPLIT_POSITION) : option Z :=
  match l with
  | [] => None
  | c :: l => if covers px py c then Some i else first_cell px py (i + 1) l
  end.
Definition SetSelected (s : screen) (x y w h : Z) : outcome screen :=
  let wunit := cdiv w 12 in
  let hunit := cdiv h 12 in
  if (wunit =? 0) || (hunit =? 0) then Fault
  else
    let px := cdiv x wunit in
    let py := cdiv y hunit in
    let* s := for_all s (fun v => Surface.SetSelected v false) in
    let* md := at_index SplitMode (mCurrentMode s) in
    match first_cell px py 0 (cells md) with
    | None => Done s
    | Some i =>
        let* c := count_of (mCurrentPage s) in
        let k := mCurrentPage s * c + i in
        let* s := on_video s k (fun v => Surface.SetSelected v true) in
        Done (set_split s (mCurrentMode s) (mCurrentPage s) k)
    end.

Definition SetSelectedByIndex (s : screen) (value : bool) (index : Z) : outcome screen :=
  let hide v := if mCurrentMode s =? 0 then Surface.SetVisible v false else v in
  let* s := for_all s (fun v => hide (Surface.SetSelected v false)) in
  let* s := on_video s index (fun v => Surface.SetSelected v value) in
  let* s := if mCurrentMode s =? 0 then on_video s index (fun v => Surface.SetVisible v true) else Done s in
  Done (set_split s (mCurrentMode s) (mCurrentPage s) index).

(** ** The operations of one video *)

Definition out (k : Z) : bool := (k <? 0) || (35 <? k).
Definition with_video (s : screen) (k : Z) (f : surface -> surface) : outcome screen :=
  if out k then Done s else on_video s k f.
Definition from_video {A} (s : screen) (k : Z) (d : A) (f : surface -> A) : outcome A :=
  if out k then Done d else let* v := at_index (mVideo s) k in Done (f v).
Definition SetPosition (s : screen) (p : vec3) (texture : bool) (k : Z) : outcome screen :=
  with_video s k (fun v => Surface.SetPosition v p texture).
Definition SetScale (s : screen) (p : vec3) (texture : bool) (k : Z) : outcome screen :=
  with_video s k (fun v => Surface.SetScale v p texture).
Definition setRotate (s : screen) (p : vec3) (texture : bool) (k : Z) : outcome screen :=
  with_video s k (fun v => Surface.setRotate v p texture).
Definition GetPosition (s : screen) (texture : bool) (k : Z) : outcome vec3 :=
  from_video s k (Surface.vec_of 0 0 0) (fun v => Surface.GetPosition v texture).
Definition GetScale (s : screen) (texture : bool) (k : Z) : outcome vec3 :=
  from_video s k (Surface.vec_of 0 0 0) (fun v => Surface.GetScale v texture).
Definition GetRotate (s : screen) (texture : bool) (k : Z) : outcome vec3 :=
  from_video s k (Surface.vec_of 0 0 0) (fun v => Surface.GetRotate v texture).
Definition GetSelected (s : screen) (k : Z) : outcome bool := from_video s k false Surface.GetSelected.
Definition SetIsAnimation (s : screen) (k : Z) (animation : bool) : outcome screen :=
  with_video s k (fun v => Surface.SetIsAnimation v animation).
Definition SetKeepAspect (s : screen) (aspect : spec_float) (k : Z) : outcome screen :=
  if negb (out k) && F32.ltb aspect (F32.of_Z 1) then Done s
  else with_video s k (fun v => Surface.SetKeepAspect v aspect).
Definition GetKeepAspect (s : screen) (k : Z) : outcome spec_float :=
  from_video s k (F32.of_Z 1) Surface.mKeepAspect.
Definition GetVisibility (s : screen) (k : Z) : outcome bool :=
  let* v := at_index (mVideo s) k in Done (Visible v).
Definition ShowInfo (s : screen) (value : bool) (k : Z) : outcome screen :=
  on_video s k (fun v => Surface.ShowInfo v value).

Fixpoint need_draw (s : screen) (i : Z) (n : nat) (lneed : bool) : outcome bool :=
  match n with
  | O => Done lneed
  | S n => let* v := at_index (mVideo s) i in need_draw s (i + 1) n (lneed || Surface.NeedDraw v)
  end.
Definition NeedDraw (s : screen) : outcome bool := need_draw s 0 (Z.to_nat (allPage s)) false.

(** The videos in the order of their DrawSelf, the selected one last; those that are
    visible are drawn and ask for no other drawing. *)
Fixpoint draw_loop (i : Z) (n : nat) (index : Z) (drawn : list Z) (s : screen) : outcome (screen * list Z * Z) :=
  match n with
  | O => Done (s, drawn, index)
  | S n =>
      let* v := at_index (mVideo s) i in
      let sel := Surface.GetSelected v in
      let* s := on_video s i (fun v => Surface.ShowInfo (if sel then v else Surface.DrawSelf v) (negb (2 <? GetSplitMode s))) in
      draw_loop (i + 1) n (if sel then i else index) (if sel then drawn else drawn ++ [i]) s
  end.
Definition DrawSelf (s : screen) : outcome (screen * list Z) :=
  let* '(s, drawn, index) := draw_loop 0 (Z.to_nat (allPage s)) (-1) [] s in
  if 0 <=? index then let* s := on_video s index Surface.DrawSelf in Done (s, drawn ++ [index]) else Done (s, drawn).

(** * Access to the videos *)

Definition cnt (m : Z) : Z := default 1 (count <$> znth SplitMode m).
Definition sees (s : screen) (k : Z) : bool := match znth (mVideo s) k with Some v => Visible v | None => false end.
(** The 36 videos are there, and all but the videos and the requests is as in [s0]. *)
Definition keeps (s0 s : screen) : Prop :=
  length (mVideo s) = 36%nat /\ allPage s = allPage s0 /\ mCurrentMode s = mCurrentMode s0 /\
  mCurrentPage s = mCurrentPage s0 /\ mSelectIndex s = mSelectIndex s0 /\
  ObjectHidden s = ObjectHidden s0 /\ ObjectWillVisible s = ObjectWillVisible s0.

Lemma kept_refl s : length (mVideo s) = 36%nat -> keeps s s.
Proof. by repeat split. Qed.
Lemma kept_trans s0 s1 s2 : keeps s0 s1 -> keeps s1 s2 -> keeps s0 s2.
Proof.
  intros (? & ? & ? & ? & ? & ? & ?) (? & ? & ? & ? & ? & ? & ?); repeat split; congruence.
Qed.

Lemma mode_cases m : 0 <= m < 7 -> m = 0 \/ m = 1 \/ m = 2 \/ m = 3 \/ m = 4 \/ m = 5 \/ m = 6.
Proof. lia. Qed.
Lemma mode_spec m : 0 <= m < 7 ->
  exists md, at_index SplitMode m = Done md /\ count_of m = Done (cnt m) /\ count md = cnt m /\
    zlen (cells md) = cnt m /\ 1 <= cnt m <= 16.
Proof.
  intros H; destruct (mode_cases m H) as [->|[->|[->|[->|[->|[->| ->]]]]]]; eexists; (repeat split; try reflexivity; vm_compute; discriminate).
Qed.
Lemma count_of_spec m : 0 <= m < 7 -> count_of m = Done (cnt m) /\ 1 <= cnt m <= 16.
Proof. intros H; by destruct (mode_spec m H) as (? & ? & ? & ? & ? & ?). Qed.

Lemma at_index_some {A} (l : list A) k : 0 <= k < zlen l -> exists a, znth l k = Some a /\ at_index l k = Done a.
Proof.
  intros H; unfold at_index, znth, zlen in *; replace (k <? 0) with false by lia.
  destruct (lookup_lt_is_Some_2 l (Z.to_nat k) ltac:(lia)) as (a & E); rewrite E; eauto.
Qed.
Lemma at_index_done {A} (l : list A) k a : at_index l k = Done a -> znth l k = Some a /\ 0 <= k < zlen l.
Proof.
  unfold at_index; destruct (znth l k) eqn:E; [|done]; intros [= ->]; split; [done|].
  unfold znth in E; destruct (k <? 0) eqn:Ek; [done|]; apply lookup_lt_Some in E; unfold zlen; lia.
Qed.

Lemma sees_zset s k w i : 0 <= k < zlen (mVideo s) ->
  sees (set_video s (zset (mVideo s) k w)) i = if i =? k then Visible w else sees s i.
Proof.
  intros H; unfold sees, znth, zset, zlen in *; cbn [mVideo set_video]; replace (k <? 0) with false by lia.
  destruct (Z.eqb_spec i k) as [->|Hn].
  - replace (k <? 0) with false by lia; by rewrite list_lookup_insert_eq by lia.
  - destruct (i <? 0) eqn:Ei; [done|]; by rewrite list_lookup_insert_ne by lia.
Qed.

(** An update of one video: what becomes of its visibility. *)
Lemma on_video_spec s k f : length (mVideo s) = 36%nat -> 0 <= k < 36 ->
  exists v, znth (mVideo s) k = Some v /\ on_video s k f = Done (set_video s (zset (mVideo s) k (f v))) /\
    keeps s (set_video s (zset (mVideo s) k (f v))) /\
    forall i, sees (set_video s (zset (mVideo s) k (f v))) i = if i =? k then Visible (f v) else sees s i.
Proof.
  intros Hl Hk; assert (Hz : zlen (mVideo s) = 36) by (unfold zlen; lia).
  destruct (at_index_some (mVideo s) k ltac:(lia)) as (v & E & Ea).
  exists v; unfold on_video; rewrite Ea; repeat split; try done.
  - cbn; by rewrite zset_length.
  - intros i; apply sees_zset; lia.
Qed.
Lemma on_video_done s k f s' : on_video s k f = Done s' ->
  exists v, znth (mVideo s) k = Some v /\ 0 <= k < zlen (mVideo s) /\ s' = set_video s (zset (mVideo s) k (f v)).
Proof.
  unfold on_video; intros H; obinv H; apply at_index_done in E as (E & Hk); injection H as <-; eauto.
Qed.

(** A loop over a page whose turns set the visibility of their video. *)
Lemma each_spec f first b (F : Z -> bool) :
  forall n j s0 s, keeps s0 s -> 0 <= first + j ->
  (forall k i s, keeps s0 s -> 0 <= k < 36 -> j <= i < j + Z.of_nat n ->
     exists s', f k i s = Done s' /\ keeps s0 s' /\ forall x, sees s' x = if (x =? k) && F i then b else sees s x) ->
  exists s', each f first j n s = Done s' /\ keeps s0 s' /\
    forall x, 0 <= x < 36 -> sees s' x = if (first + j <=? x) && (x <? first + j + Z.of_nat n) && F (x - first) then b else sees s x.
Proof.
  induction n as [|n IH]; intros j s0 s Hs Hf Hstep; cbn [each].
  - exists s; repeat split; try apply Hs; intros x Hx; by replace (_ && _) with false by lia.
  - destruct (35 <? first + j) eqn:Eb.
    { exists s; repeat split; try apply Hs; intros x Hx; by replace (_ && _) with false by lia. }
    destruct (Hstep (first + j) j s Hs ltac:(lia) ltac:(lia)) as (s1 & E & H1 & Hv); rewrite E; cbn [obind].
    destruct (IH (j + 1) s0 s1 H1 ltac:(lia)) as (s2 & E2 & H2 & Hv2).
    { intros k i s' Hk Hi Hr; apply Hstep; [done|done|lia]. }
    exists s2; repeat split; [done|apply H2..|].
    intros x Hx; rewrite Hv2, Hv by done.
    destruct (Z.eqb_spec x (first + j)) as [->|Hn].
    + replace (first + j - first) with j by lia.
      destruct (F j); cbn [andb]; case_bool; try done; lia.
    + cbn [andb]; replace (first + (j + 1) <=? x) with (first + j <=? x) by lia.
      by replace (first + (j + 1) + Z.of_nat n) with (first + j + Z.of_nat (S n)) by lia.
Qed.

(** A loop over all videos that keeps their visibility, or sets it. *)
Lemma all_spec f (g : bool -> bool) : (forall v, Visible (f v) = g (Visible v)) ->
  forall n i s0 s, keeps s0 s -> 0 <= i -> i + Z.of_nat n <= 36 ->
  exists s', all f i n s = Done s' /\ keeps s0 s' /\
    forall x, sees s' x = if (i <=? x) && (x <? i + Z.of_nat n) then g (sees s x) else sees s x.
Proof.
  intros Hg; induction n as [|n IH]; intros i s0 s Hs Hi Hn; cbn [all].
  - exists s; repeat split; try apply Hs; intros x; by replace (_ && _) with false by lia.
  - destruct (on_video_spec s i f (proj1 Hs) ltac:(lia)) as (v & Ev & E & Hk & Hv); rewrite E; cbn [obind].
    destruct (IH (i + 1) s0 _ (kept_trans _ _ _ Hs Hk) ltac:(lia) ltac:(lia)) as (s2 & E2 & H2 & Hv2).
    exists s2; repeat split; [done|apply H2..|].
    intros x; rewrite Hv2, !Hv, Hg.
    destruct (Z.eqb_spec x i) as [->|Hne].
    + replace (i + 1 <=? i) with false by lia; cbn [andb]; replace (_ && _) with true by lia.
      unfold sees; by rewrite Ev.
    + replace (i + 1 <=? x) with (i <=? x) by lia.
      by replace (i + 1 + Z.of_nat n) with (i + Z.of_nat (S n)) by lia.
Qed.
Lemma for_all_spec f (g : bool -> bool) s : (forall v, Visible (f v) = g (Visible v)) ->
  length (mVideo s) = 36%nat -> allPage s = 36 ->
  exists s', for_all s f = Done s' /\ keeps s s' /\ forall x, 0 <= x < 36 -> sees s' x = g (sees s x).
Proof.
  intros Hg Hl Ha; unfold for_all; rewrite Ha.
  destruct (all_spec f g Hg (Z.to_nat 36) 0 s s (kept_refl s Hl) ltac:(lia) ltac:(lia)) as (s' & E & Hk & Hv).
  exists s'; repeat split; [done|apply Hk..|]; intros x Hx; rewrite Hv; by replace (_ && _) with true by lia.
Qed.

(** * Hiding and showing a page *)

Definition on_page (m p k : Z) : bool := (p * cnt m <=? k) && (k <? p * cnt m + cnt m).

Lemma visible_transforms v a b t u : Visible (Surface.SetPosition (Surface.SetScale v a t) b u) = Visible v.
Proof.
  assert (Hp : forall s p t, Visible (Surface.surface_SetPosition s p t) = Visible s)
    by (intros; unfold Surface.surface_SetPosition, Surface.put; by case_bool).
  assert (Hs : forall s p t, Visible (Surface.surface_SetScale s p t) = Visible s)
    by (intros; unfold Surface.surface_SetScale, Surface.put; by case_bool).
  assert (Hps : forall s p t, Visible (Surface.SetPosition s p t) = Visible s)
    by (intros; unfold Surface.SetPosition; case_bool; by rewrite Hp).
  rewrite Hps; unfold Surface.SetScale; case_bool; by rewrite ?Hs, ?Hp.
Qed.
Lemma visible_rotate v r t : Visible (Surface.setRotate v r t) = Visible v.
Proof. unfold Surface.setRotate, Surface.put; by case_bool. Qed.

Lemma hide_cell_spec s0 k i s : keeps s0 s -> 0 <= k < 36 ->
  exists s', hide_cell false k i s = Done s' /\ keeps s0 s' /\ forall x, sees s' x = if x =? k then false else sees s x.
Proof.
  intros Hs Hk; unfold hide_cell; cbn [andb].
  destruct (on_video_spec s k (fun v => Surface.SetVisible v false) (proj1 Hs) Hk) as (v & Ev & E & Hk' & Hv).
  unfold at_index; rewrite Ev, E; cbn [obind]; eexists; repeat split; [apply (kept_trans _ _ _ Hs Hk')..|exact Hv].
Qed.

Lemma hide_page_spec s : length (mVideo s) = 36%nat -> 0 <= mCurrentMode s < 7 -> 0 <= mCurrentPage s ->
  exists s', hide_page s false = Done s' /\ keeps s s' /\
    forall x, 0 <= x < 36 -> sees s' x = if on_page (mCurrentMode s) (mCurrentPage s) x then false else sees s x.
Proof.
  intros Hl Hm Hp; unfold hide_page; destruct (count_of_spec _ Hm) as (Ec & Hc); rewrite Ec; cbn [obind].
  destruct (each_spec (hide_cell false) (mCurrentPage s * cnt (mCurrentMode s)) false (fun _ => true)
              (Z.to_nat (cnt (mCurrentMode s))) 0 s s (kept_refl s Hl) ltac:(nia)) as (s' & E & Hk & Hv).
  { intros k i s1 H1 Hk _; destruct (hide_cell_spec s k i s1 H1 Hk) as (s' & E & Hk' & Hv).
    exists s'; repeat split; [done|apply Hk'..|]; intros x; rewrite Hv; by rewrite andb_true_r. }
  exists s'; repeat split; [done|apply Hk..|]; intros x Hx; rewrite Hv by done; unfold on_page.
  rewrite andb_true_r; by replace (mCurrentPage s * cnt (mCurrentMode s) + 0) with (mCurrentPage s * cnt (mCurrentMode s)) by lia;
    rewrite Z2Nat.id by lia.
Qed.

Lemma show_cell_spec ani s0 k i s : keeps s0 s -> 0 <= mCurrentMode s0 < 7 -> 0 <= k < 36 -> 0 <= i < cnt (mCurrentMode s0) ->
  exists s', show_cell ani k i s = Done s' /\ keeps s0 s' /\ forall x, sees s' x = if x =? k then true else sees s x.
Proof.
  intros Hs Hm Hk Hi; unfold show_cell; rewrite (proj1 (proj2 (proj2 Hs))).
  destruct (mode_spec _ Hm) as (md & Em & _ & _ & Hz & _); rewrite Em; cbn [obind].
  destruct (on_video_spec s k (fun v => Surface.SetVisible v true) (proj1 Hs) Hk) as (v & Ev & E & Hk' & Hv).
  rewrite E; cbn [obind].
  set (s1 := set_video s _) in *; pose proof (kept_trans _ _ _ Hs Hk') as H1.
  destruct (at_index_some (mVideo s1) k ltac:(unfold zlen; rewrite (proj1 H1); lia)) as (v1 & Ev1 & E1); rewrite E1; cbn [obind].
  destruct (at_index_some (cells md) i ltac:(lia)) as (c & _ & E2); rewrite E2; cbn [obind].
  destruct (placement _ _ c) as (lpos & lscale); destruct (ani && ObjectWillVisible s1).
  - eexists; repeat split; [apply H1..|exact Hv].
  - destruct (on_video_spec s1 k (fun v => Surface.SetPosition (Surface.SetScale v lscale false) lpos false) (proj1 H1) Hk)
      as (v2 & Ev2 & E3 & Hk2 & Hv2); rewrite E3.
    eexists; repeat split; [apply (kept_trans _ _ _ H1 Hk2)..|].
    assert (Hv2' : Visible v2 = true) by (pose proof (Hv k) as Hx; rewrite Z.eqb_refl in Hx; unfold sees in Hx; by rewrite Ev2 in Hx).
    intros i'; rewrite Hv2, visible_transforms, Hv, Hv2'; by case_bool.
Qed.
Lemma SetSplitPosition_spec ani s : length (mVideo s) = 36%nat -> 0 <= mCurrentMode s < 7 -> 0 <= mCurrentPage s ->
  exists s', SetSplitPosition s ani = Done s' /\ keeps s s' /\
    forall x, 0 <= x < 36 -> sees s' x = if on_page (mCurrentMode s) (mCurrentPage s) x then true else sees s x.
Proof.
  intros Hl Hm Hp; unfold SetSplitPosition; destruct (count_of_spec _ Hm) as (Ec & Hc); rewrite Ec; cbn [obind].
  destruct (each_spec (show_cell ani) (mCurrentPage s * cnt (mCurrentMode s)) true (fun _ => true)
              (Z.to_nat (cnt (mCurrentMode s))) 0 s s (kept_refl s Hl) ltac:(nia)) as (s' & E & Hk & Hv).
  { intros k i s1 H1 Hk Hi; destruct (show_cell_spec ani s k i s1 H1 Hm Hk ltac:(lia)) as (s' & E & Hk' & Hv).
    exists s'; repeat split; [done|apply Hk'..|]; intros x; rewrite Hv; by rewrite andb_true_r. }
  exists s'; repeat split; [done|apply Hk..|]; intros x Hx; rewrite Hv by done; unfold on_page.
  rewrite andb_true_r; by replace (mCurrentPage s * cnt (mCurrentMode s) + 0) with (mCurrentPage s * cnt (mCurrentMode s)) by lia;
    rewrite Z2Nat.id by lia.
Qed.

(** * What the screen shows *)

(** The videos of the current page and no others; or, in the one-video split, the
    selected video alone, as SetSelectedByIndex leaves it. *)
Definition shown (s : screen) : Prop :=
  forall k, 0 <= k < 36 -> sees s k = on_page (mCurrentMode s) (mCurrentPage s) k.
Definition single (s : screen) : Prop :=
  mCurrentMode s = 0 /\ forall k, 0 <= k < 36 -> sees s k = (k =? mSelectIndex s).
(** One video may be visible beside the page, or in its place in the one-video split,
    when it has been selected by its index: see [select_then_page]. *)
Definition beside (s : screen) (x : Z) : Prop :=
  forall k, 0 <= k < 36 -> sees s k = on_page (mCurrentMode s) (mCurrentPage s) k || (k =? x).
Definition alone (s : screen) (x : Z) : Prop :=
  mCurrentMode s = 0 /\ forall k, 0 <= k < 36 -> sees s k = (k =? x).
Record inv (s : screen) : Prop := {
  inv_videos : length (mVideo s) = 36%nat;
  inv_all : allPage s = 36;
  inv_mode : 0 <= mCurrentMode s < 7;
  inv_page : 0 <= mCurrentPage s < pages 36 (cnt (mCurrentMode s));
  inv_select : 0 <= mSelectIndex s < 36;
  inv_seen : exists x, beside s x \/ alone s x
}.
Lemma shown_seen s : shown s -> exists x, beside s x \/ alone s x.
Proof. intros H; exists (-1); left; intros k Hk; rewrite H by done; replace (k =? -1) with false by lia; by rewrite orb_false_r. Qed.
Lemma single_seen s : single s -> exists x, beside s x \/ alone s x.
Proof. intros H; exists (mSelectIndex s); by right. Qed.

Lemma page_of_video m k : 0 <= m < 7 -> 0 <= k < 36 ->
  0 <= cdiv k (cnt m) < pages 36 (cnt m) /\ on_page m (cdiv k (cnt m)) k = true.
Proof.
  intros Hm Hk; unfold on_page, cdiv.
  destruct (mode_cases m Hm) as [->|[->|[->|[->|[->|[->| ->]]]]]];
    match goal with |- context [cnt ?n] => let c := eval vm_compute in (cnt n) in change (cnt n) with c end;
    match goal with |- context [pages 36 ?n] => let c := eval vm_compute in (pages 36 n) in change (pages 36 n) with c end; dlia.
Qed.
Lemma page_starts m p : 0 <= m < 7 -> 0 <= p < pages 36 (cnt m) -> 0 <= p * cnt m <= 35.
Proof.
  intros Hm; destruct (mode_cases m Hm) as [->|[->|[->|[->|[->|[->| ->]]]]]];
    match goal with |- context [pages 36 ?n] => let c := eval vm_compute in (pages 36 n) in change (pages 36 n) with c end;
    match goal with |- context [cnt ?n] => let c := eval vm_compute in (cnt n) in change (cnt n) with c end; lia.
Qed.
Lemma page_unique m p q k : 0 <= m < 7 -> on_page m p k = true -> on_page m q k = true -> p = q.
Proof. intros Hm; destruct (count_of_spec m Hm) as (_ & ?); unfold on_page; nia. Qed.
Lemma on_page_one p k : on_page 0 p k = (k =? p).
Proof. unfold on_page; change (cnt 0) with 1; lia. Qed.

Lemma keeps_set_split s s' m p sel : keeps (set_split s m p sel) s' ->
  length (mVideo s') = 36%nat /\ allPage s' = allPage s /\ mCurrentMode s' = m /\ mCurrentPage s' = p /\ mSelectIndex s' = sel.
Proof. intros (? & ? & ? & ? & ? & _); by repeat split. Qed.

(** SetPage from any state: the old page is hidden, the new one shown. *)
Lemma SetPage_core s i : length (mVideo s) = 36%nat -> allPage s = 36 -> 0 <= mCurrentMode s < 7 -> 0 <= mCurrentPage s ->
  0 <= i < pages 36 (cnt (mCurrentMode s)) ->
  exists s', SetPage s i false = Done s' /\ keeps (set_split s (mCurrentMode s) i (mSelectIndex s)) s' /\
    forall x, 0 <= x < 36 -> sees s' x = if on_page (mCurrentMode s) i x then true
                                         else if on_page (mCurrentMode s) (mCurrentPage s) x then false else sees s x.
Proof.
  intros Hl Ha Hm Hp Hi; unfold SetPage, GetAllPage; destruct (count_of_spec _ Hm) as (Ec & _); rewrite Ec, Ha; cbn [obind].
  replace (_ || _) with false by lia.
  destruct (hide_page_spec s Hl Hm Hp) as (s1 & E1 & H1 & Hv1); rewrite E1; cbn [obind].
  destruct H1 as (Hl1 & Ha1 & Hm1 & Hp1 & Hs1 & He1 & Hw1); rewrite Hm1, Hs1.
  destruct (SetSplitPosition_spec false (set_split s1 (mCurrentMode s) i (mSelectIndex s)) Hl1 Hm ltac:(cbn; lia))
    as (s2 & E2 & H2 & Hv2).
  destruct H2 as (Hl2 & Ha2 & Hm2 & Hp2 & Hs2 & He2 & Hw2); cbn in *.
  exists s2; split; [exact E2|]; split; [repeat split; cbn; congruence|].
  intros x Hx; rewrite Hv2 by done; destruct (on_page (mCurrentMode s) i x); [done|exact (Hv1 x Hx)].
Qed.
(** A page index out of range is ignored. *)
Lemma SetPage_outside s i ani : allPage s = 36 -> 0 <= mCurrentMode s < 7 ->
  (i < 0 \/ pages 36 (cnt (mCurrentMode s)) <= i) -> SetPage s i ani = Done s.
Proof.
  intros Ha Hm Hi; unfold SetPage, GetAllPage; destruct (count_of_spec _ Hm) as (Ec & _); rewrite Ec, Ha; cbn [obind].
  by replace (_ || _) with true by lia.
Qed.

(** A page is hidden: at most one video is left visible. *)
Lemma hidden_rest s s1 : inv s ->
  (forall x, 0 <= x < 36 -> sees s1 x = if on_page (mCurrentMode s) (mCurrentPage s) x then false else sees s x) ->
  exists x, (forall k, 0 <= k < 36 -> sees s1 k = (k =? x)) /\ (shown s -> x = -1).
Proof.
  intros [Hl Ha Hm Hp Hsel (x & Hx)] Hv.
  destruct (on_page (mCurrentMode s) (mCurrentPage s) x) eqn:Ex.
  - exists (-1); split; [|done]; intros k Hk; rewrite Hv by done.
    destruct (on_page (mCurrentMode s) (mCurrentPage s) k) eqn:Ek; [lia|].
    destruct Hx as [Hx|(_ & Hx)]; rewrite Hx by done; rewrite ?Ek; destruct (Z.eqb_spec k x) as [->|]; (congruence || lia).
  - destruct (decide (0 <= x < 36)) as [Hr|Hr]; [destruct (sees s x) eqn:Es|].
    + exists x; split.
      * intros k Hk; rewrite Hv by done; destruct (on_page (mCurrentMode s) (mCurrentPage s) k) eqn:Ek;
          [destruct (Z.eqb_spec k x) as [->|]; congruence|].
        destruct Hx as [Hx|(_ & Hx)]; rewrite Hx by done; by rewrite ?Ek.
      * intros H; rewrite H in Es by done; congruence.
    + exfalso; destruct Hx as [Hx|(_ & Hx)]; rewrite Hx, Z.eqb_refl, ?orb_true_r in Es by done; done.
    + exists (-1); split; [|done]; intros k Hk; rewrite Hv by done.
      destruct (on_page (mCurrentMode s) (mCurrentPage s) k) eqn:Ek; [lia|].
      destruct Hx as [Hx|(_ & Hx)]; rewrite Hx by done; rewrite ?Ek; cbn; lia.
Qed.
(** The visibility when a page has been hidden and another shown. *)
Lemma SetPage_beside s i s' : inv s -> mCurrentMode s' = mCurrentMode s -> mCurrentPage s' = i ->
  (forall x, 0 <= x < 36 -> sees s' x = if on_page (mCurrentMode s) i x then true
                                         else if on_page (mCurrentMode s) (mCurrentPage s) x then false else sees s x) ->
  exists x, beside s' x.
Proof.
  intros [Hl Ha Hm Hp Hsel (x & Hx)] Em Ep Hv.
  exists (if on_page (mCurrentMode s) (mCurrentPage s) x then -1 else x); intros k Hk; rewrite Hv, Em, Ep by done.
  destruct (on_page (mCurrentMode s) i k); [done|]; cbn [orb].
  destruct (on_page (mCurrentMode s) (mCurrentPage s) k) eqn:Ek;
    destruct (on_page (mCurrentMode s) (mCurrentPage s) x) eqn:Ex;
    [lia|destruct (Z.eqb_spec k x) as [->|]; congruence|..];
    destruct Hx as [Hx|(_ & Hx)]; rewrite Hx by done; rewrite ?Ek; cbn [orb]; try done;
    destruct (Z.eqb_spec k x) as [->|]; (congruence || lia).
Qed.

(** SetSplit shows the page of the selected video. *)
Lemma SetSplit_core s m : inv s -> 0 <= m < 7 ->
  exists s', SetSplit s m false = Done s' /\
    keeps (set_split s m (cdiv (mSelectIndex s) (cnt m)) (mSelectIndex s)) s' /\ (exists x, beside s' x) /\
    (shown s \/ single s -> shown s').
Proof.
  intros Hi Hm; pose proof Hi as [Hl Ha Hm0 Hp Hsel Hseen]; unfold SetSplit.
  destruct (hide_page_spec s Hl Hm0 (proj1 Hp)) as (s1 & E1 & H1 & Hv1); rewrite E1; cbn [obind].
  destruct (hidden_rest s s1 Hi Hv1) as (x & Hx & _).
  destruct H1 as (Hl1 & Ha1 & Hm1 & Hp1 & Hs1 & He1 & Hw1).
  destruct (count_of_spec _ Hm) as (Ec & _); rewrite Ec; cbn [obind mSelectIndex set_split]; rewrite Hs1.
  destruct (page_of_video m (mSelectIndex s) Hm Hsel) as (Hpg & Hon).
  set (p := cdiv (mSelectIndex s) (cnt m)) in *.
  destruct (SetPage_core (set_split (set_split s1 m (mCurrentPage s1) (mSelectIndex s)) m p (mSelectIndex s)) p
              Hl1 ltac:(cbn; congruence) Hm (proj1 Hpg) Hpg) as (s2 & E2 & H2 & Hv2).
  exists s2; split; [exact E2|]; destruct H2 as (Hl2 & Ha2 & Hm2 & Hp2 & Hs2 & He2 & Hw2); cbn in *.
  assert (Hv : forall k, 0 <= k < 36 -> sees s2 k = if on_page m p k then true else sees s1 k).
  { intros k Hk; rewrite Hv2 by done; by destruct (on_page m p k). }
  split; [repeat split; cbn; congruence|]; split.
  - exists x; intros k Hk; rewrite Hv, Hm2, Hp2, Hx by done; by destruct (on_page m p k).
  - intros Hn k Hk; rewrite Hv, Hm2, Hp2 by done; destruct (on_page m p k) eqn:Eon; [done|].
    rewrite Hv1 by done; destruct (on_page (mCurrentMode s) (mCurrentPage s) k) eqn:E0; [done|].
    destruct Hn as [Hs|(_ & Hs)]; rewrite Hs by done; [done|].
    destruct (Z.eqb_spec k (mSelectIndex s)) as [->|]; congruence.
Qed.

Lemma split_inv s m s' : inv s -> 0 <= m < 7 ->
  keeps (set_split s m (cdiv (mSelectIndex s) (cnt m)) (mSelectIndex s)) s' -> (exists x, beside s' x) -> inv s'.
Proof.
  intros [Hl Ha Hm0 Hp Hsel Hseen] Hm (H1 & H2 & H3 & H4 & H5 & _) (x & Hx); cbn in *.
  destruct (page_of_video m (mSelectIndex s) Hm Hsel); constructor; rewrite ?H2, ?H3, ?H4, ?H5; eauto.
Qed.

(** SetPage, which shows one page when one page was shown. *)
Lemma SetPage_shown s i : inv s ->
  exists s', SetPage s i false = Done s' /\ inv s' /\ (shown s -> shown s') /\ mCurrentMode s' = mCurrentMode s /\
    mSelectIndex s' = mSelectIndex s /\
    mCurrentPage s' = if (0 <=? i) && (i <? pages 36 (cnt (mCurrentMode s))) then i else mCurrentPage s.
Proof.
  intros Hi; pose proof Hi as [Hl Ha Hm Hp Hsel _].
  destruct (_ && _) eqn:Ei.
  - destruct (SetPage_core s i Hl Ha Hm (proj1 Hp) ltac:(lia)) as (s' & E & (H1 & H2 & H3 & H4 & H5 & _) & Hv); cbn in *.
    destruct (SetPage_beside s i s' Hi H3 H4 Hv) as (x & Hx).
    exists s'; split; [done|]; split; [constructor; rewrite ?H2, ?H3, ?H4, ?H5; eauto; lia|].
    split; [|by repeat split]; intros Hs k Hk; rewrite Hv, H3, H4, Hs by done; by case_bool.
  - exists s; rewrite SetPage_outside by (done || lia); by auto 10.
Qed.

(** The same operations on every video keep what is shown. *)
Lemma keeps_inv s s' : inv s -> keeps s s' -> (forall x, 0 <= x < 36 -> sees s' x = sees s x) ->
  inv s' /\ (shown s -> shown s') /\ (single s -> single s').
Proof.
  intros [Hl Ha Hm Hp Hsel (x & Hx)] (H1 & H2 & H3 & H4 & H5 & _) Hv.
  split; [|split; [intros Hs k Hk; rewrite Hv, H3, H4; auto|intros (Hz & Hs); split; [congruence|]; intros k Hk; rewrite Hv, H5; auto]].
  constructor; rewrite ?H2, ?H3, ?H4, ?H5; auto; exists x.
  destruct Hx as [Hs|(Hz & Hs)]; [left|right; split; [congruence|]]; intros k Hk; rewrite Hv, ?H3, ?H4; auto.
Qed.

(** What an operation must keep of the visibility. *)
Definition stays (s s' : screen) : Prop := inv s' /\ (shown s -> shown s') /\ (single s -> single s').
Lemma stays_refl s : inv s -> stays s s.
Proof. unfold stays; tauto. Qed.
Lemma stays_trans s1 s2 s3 : stays s1 s2 -> stays s2 s3 -> stays s1 s3.
Proof. unfold stays; tauto. Qed.
Lemma video_inv s k f : inv s -> (forall v, Visible (f v) = Visible v) ->
  exists s', with_video s k f = Done s' /\ stays s s'.
Proof.
  intros Hi Hf; unfold with_video; destruct (out k) eqn:Eo; [exists s; split; [done|by apply stays_refl]|].
  destruct (on_video_spec s k f (inv_videos s Hi) ltac:(unfold out in *; lia)) as (v & Ev & E & Hk & Hv); rewrite E.
  eexists; split; [done|]; apply (keeps_inv s _ Hi Hk).
  intros x Hx; rewrite Hv, Hf; destruct (Z.eqb_spec x k) as [->|]; [|done]; unfold sees; by rewrite Ev.
Qed.
Lemma move_stays s p texture k : inv s -> exists s', SetPosition s p texture k = Done s' /\ stays s s'.
Proof. intros Hi; apply video_inv; [done|]; intros v; unfold Surface.SetPosition, Surface.surface_SetPosition, Surface.put; by case_bool. Qed.
Lemma zoom_stays s p texture k : inv s -> exists s', SetScale s p texture k = Done s' /\ stays s s'.
Proof.
  intros Hi; apply video_inv; [done|]; intros v.
  unfold Surface.SetScale, Surface.surface_SetScale, Surface.surface_SetPosition, Surface.put; by case_bool.
Qed.
Lemma turn_stays s p texture k : inv s -> exists s', setRotate s p texture k = Done s' /\ stays s s'.
Proof. intros Hi; apply video_inv; [done|]; intros v; apply visible_rotate. Qed.
Lemma animate_stays s k animation : inv s -> exists s', SetIsAnimation s k animation = Done s' /\ stays s s'.
Proof. intros Hi; by apply video_inv. Qed.
Lemma keep_stays s aspect k : inv s -> exists s', SetKeepAspect s aspect k = Done s' /\ stays s s'.
Proof. intros Hi; unfold SetKeepAspect; case_bool; [exists s; split; [done|by apply stays_refl]|by apply video_inv]. Qed.
Lemma info_stays s value k : inv s -> 0 <= k < 36 -> exists s', ShowInfo s value k = Done s' /\ stays s s'.
Proof.
  intros Hi Hr; replace (ShowInfo s value k) with (with_video s k (fun v => Surface.ShowInfo v value)); [by apply video_inv|].
  unfold with_video, out; by replace (_ || _) with false by lia.
Qed.

Lemma SetSelectedByIndex_spec s value i : inv s -> 0 <= i < 36 ->
  exists s', SetSelectedByIndex s value i = Done s' /\ keeps (set_split s (mCurrentMode s) (mCurrentPage s) i) s' /\
    forall x, 0 <= x < 36 -> sees s' x = if mCurrentMode s =? 0 then x =? i else sees s x.
Proof.
  intros Hi Hr; pose proof Hi as [Hl Ha Hm Hp Hsel _]; unfold SetSelectedByIndex; cbv zeta.
  match goal with |- context [for_all s ?f] =>
    destruct (for_all_spec f (fun b => if mCurrentMode s =? 0 then false else b) s
                ltac:(intros v; by case_bool) Hl Ha) as (s1 & E1 & H1 & Hv1) end; rewrite E1; cbn [obind].
  destruct (on_video_spec s1 i (fun v => Surface.SetSelected v value) (proj1 H1) Hr) as (v & Ev & E2 & H2 & Hv2); rewrite E2; cbn [obind].
  set (s2 := set_video s1 _) in *; pose proof (kept_trans _ _ _ H1 H2) as H3.
  assert (Hsee : forall x, 0 <= x < 36 -> sees s2 x = if mCurrentMode s =? 0 then false else sees s x).
  { intros x Hx; rewrite Hv2; destruct (Z.eqb_spec x i) as [->|]; [|by apply Hv1].
    rewrite <- Hv1 by done; unfold sees; by rewrite Ev. }
  rewrite (proj1 (proj2 (proj2 H3))); destruct (mCurrentMode s =? 0) eqn:Em.
  - destruct (on_video_spec s2 i (fun v => Surface.SetVisible v true) (proj1 H3) Hr) as (v2 & Ev2 & E4 & H4 & Hv4); rewrite E4; cbn [obind].
    destruct (kept_trans _ _ _ H3 H4) as (? & ? & ? & ? & ? & ? & ?).
    eexists; split; [done|]; split; [by repeat split|]; intros x Hx.
    change (sees (set_video s2 (zset (mVideo s2) i (Surface.SetVisible v2 true))) x = (x =? i)).
    rewrite Hv4, Hsee by done; cbn; by case_bool.
  - cbn [obind]; destruct H3 as (? & ? & ? & ? & ? & ? & ?); eexists; split; [done|]; split; [by repeat split|exact Hsee].
Qed.
Lemma select_inv s value i : inv s -> 0 <= i < 36 ->
  exists s', SetSelectedByIndex s value i = Done s' /\ inv s' /\ mCurrentMode s' = mCurrentMode s /\
    mCurrentPage s' = mCurrentPage s /\ mSelectIndex s' = i /\
    forall x, 0 <= x < 36 -> sees s' x = if mCurrentMode s =? 0 then x =? i else sees s x.
Proof.
  intros Hi Hr; destruct (SetSelectedByIndex_spec s value i Hi Hr) as (s' & E & (H1 & H2 & H3 & H4 & H5 & _) & Hv); cbn in *.
  pose proof Hi as [Hl Ha Hm Hp Hsel (x & Hx)]; exists s'; split; [done|]; split; [|by repeat split].
  constructor; rewrite ?H2, ?H3, ?H4, ?H5; auto.
  destruct (mCurrentMode s =? 0) eqn:Em.
  - exists i; right; split; [lia|exact Hv].
  - exists x; left; intros k Hk; rewrite Hv, H3, H4 by done; destruct Hx as [Hs|(? & _)]; [by apply Hs|lia].
Qed.
(** Selecting by the index leaves a page shown, or the video alone. *)
Lemma select_tidy s value i s' : inv s -> 0 <= i < 36 -> SetSelectedByIndex s value i = Done s' ->
  shown s \/ single s -> shown s' \/ single s'.
Proof.
  intros Hi Hr E; destruct (select_inv s value i Hi Hr) as (s1 & E1 & _ & Em & Ep & Es & Hv); rewrite E in E1; injection E1 as <-.
  destruct (Z.eqb_spec (mCurrentMode s) 0) as [E0|E0]; intros Hn.
  - right; split; [congruence|]; intros k Hk; by rewrite Hv, Es.
  - left; intros k Hk; rewrite Hv, Em, Ep by done; destruct Hn as [Hs|(? & _)]; [by apply Hs|done].
Qed.

(** ** Touching *)

Lemma first_cell_spec px py l i k : first_cell px py i l = Some k ->
  i <= k < i + zlen l /\ exists c, l !! Z.to_nat (k - i) = Some c /\ covers px py c = true.
Proof.
  revert i; induction l as [|c l IH]; intros i; cbn [first_cell]; [done|].
  unfold zlen in *; cbn [length]; destruct (covers px py c) eqn:Ec.
  - intros [= <-]; split; [lia|]; exists c; by replace (Z.to_nat (i - i)) with 0%nat by lia.
  - intros H; destruct (IH _ H) as (Hr & c' & El & Hc); split; [lia|]; exists c'; split; [|done].
    by replace (Z.to_nat (k - i)) with (S (Z.to_nat (k - (i + 1)))) by lia.
Qed.

(** The video a touch selects: the first cell that covers the grid square, in the
    page of the split with the page's number. *)
Definition touched (s : screen) (x y w h : Z) : option Z :=
  i ← first_cell (cdiv x (cdiv w 12)) (cdiv y (cdiv h 12)) 0 (default [] (cells <$> znth SplitMode (mCurrentMode s)));
  Some (mCurrentPage s * cnt (mCurrentPage s) + i).
Lemma cdiv_12 w : 12 <= w -> (cdiv w 12 =? 0) = false.
Proof. unfold cdiv; intros; dlia. Qed.

Lemma SetSelected_spec s x y w h : inv s -> 12 <= w -> 12 <= h ->
  (forall k, touched s x y w h = Some k -> mCurrentPage s < 7 /\ 0 <= k < 36) ->
  exists s', SetSelected s x y w h = Done s' /\ keeps (set_split s (mCurrentMode s) (mCurrentPage s) (default (mSelectIndex s) (touched s x y w h))) s' /\
    forall k, 0 <= k < 36 -> sees s' k = sees s k.
Proof.
  intros Hi Hw Hh; pose proof Hi as [Hl Ha Hm Hp Hsel _]; unfold SetSelected, touched; rewrite !cdiv_12 by done; cbn [orb].
  destruct (for_all_spec (fun v => Surface.SetSelected v false) id s ltac:(done) Hl Ha) as (s1 & E1 & H1 & Hv1); rewrite E1; cbn [obind].
  pose proof H1 as (_ & _ & Em1 & Ep1 & _); rewrite Em1, Ep1.
  destruct (mode_spec _ Hm) as (md & Emd & _); destruct (at_index_done _ _ _ Emd) as (Ez & _); rewrite Emd, Ez; cbn.
  destruct (first_cell _ _ 0 (cells md)) as [i|]; cbn.
  - intros Hk; destruct (Hk _ eq_refl) as (Hp7 & Hr); destruct (count_of_spec (mCurrentPage s) ltac:(lia)) as (Ec & _).
    rewrite Ec; cbn [obind]; set (k := _ + i) in *.
    destruct (on_video_spec s1 k (fun v => Surface.SetSelected v true) (proj1 H1) Hr) as (v & Ev & E2 & H2 & Hv2); rewrite E2; cbn [obind].
    destruct (kept_trans _ _ _ H1 H2) as (? & ? & ? & ? & ? & ? & ?).
    eexists; split; [done|]; split; [by repeat split|]; intros x0 Hx0.
    change (sees (set_video s1 (zset (mVideo s1) k (Surface.SetSelected v true))) x0 = sees s x0).
    rewrite Hv2; destruct (Z.eqb_spec x0 k) as [->|]; [|by apply Hv1].
    transitivity (sees s1 k); [unfold sees; by rewrite Ev|by apply Hv1].
  - intros _; exists s1; repeat split; try apply H1; exact Hv1.
Qed.

(** ** Every operation *)

Inductive op :=
| Split (m : Z) | Page (i : Z) | Touch (x y w h : Z) | Select (value : bool) (i : Z) | Reset | Resize (aspect : spec_float)
| Move (p : vec3) (texture : bool) (k : Z) | Zoom (p : vec3) (texture : bool) (k : Z) | Turn (p : vec3) (texture : bool) (k : Z)
| Animate (k : Z) (animation : bool) | Keep (aspect : spec_float) (k : Z) | Info (value : bool) (k : Z) | Draw.
Definition apply (s : screen) (o : op) : outcome screen :=
  match o with
  | Split m => SetSplit s m false
  | Page i => SetPage s i false
  | Touch x y w h => SetSelected s x y w h
  | Select value i => SetSelectedByIndex s value i
  | Reset => ResetPosition s
  | Resize aspect => ReSizeSplite s aspect
  | Move p texture k => SetPosition s p texture k
  | Zoom p texture k => SetScale s p texture k
  | Turn p texture k => setRotate s p texture k
  | Animate k animation => SetIsAnimation s k animation
  | Keep aspect k => SetKeepAspect s aspect k
  | Info value k => ShowInfo s value k
  | Draw => let* '(s, _) := DrawSelf s in Done s
  end.

(** What the operations take for granted: a split of the table, a video of the array, a
    window of at least twelve points each way, and a touch that [SetSelected] does not
    look up beyond its tables. *)
Definition valid (s : screen) (o : op) : Prop :=
  match o with
  | Split m => 0 <= m < 7
  | Touch x y w h => 12 <= w /\ 12 <= h /\
      forall k, touched s x y w h = Some k -> mCurrentPage s < 7 /\ 0 <= k < 36
  | Select _ i | Info _ i => 0 <= i < 36
  | _ => True
  end.
(** The page is turned, touched and resized while it is shown, not while a video has been
    selected alone. *)
Definition tidy (s : screen) (o : op) : Prop :=
  valid s o /\ match o with Page _ | Resize _ | Touch _ _ _ _ => shown s | _ => True end.

Inductive reach (ok : screen -> op -> Prop) (aspect : spec_float) : screen -> Prop :=
| reach_new s : NormalScreen aspect = Done s -> reach ok aspect (set_events s)
| reach_op s o s' : reach ok aspect s -> ok s o -> apply s o = Done s' -> reach ok aspect s'.

Lemma visible_draw v : Visible (Surface.DrawSelf v) = Visible v.
Proof. unfold Surface.DrawSelf; by destruct (Visible v) eqn:E; cbn. Qed.
Lemma draw_loop_spec : forall n i index drawn s0 s, keeps s0 s -> 0 <= i -> i + Z.of_nat n <= 36 -> index < 36 ->
  exists s' d x, draw_loop i n index drawn s = Done (s', d, x) /\ keeps s0 s' /\ x < 36 /\ forall k, sees s' k = sees s k.
Proof.
  induction n as [|n IH]; intros i index drawn s0 s Hs Hi Hn Hx; cbn [draw_loop]; [by exists s, drawn, index|].
  destruct (at_index_some (mVideo s) i ltac:(unfold zlen; rewrite (proj1 Hs); lia)) as (v & Ev & Ea); rewrite Ea; cbn [obind].
  set (f v' := Surface.ShowInfo (if Surface.GetSelected v then v' else Surface.DrawSelf v') (negb (2 <? GetSplitMode s))).
  assert (Hf : forall u, Visible (f u) = Visible u).
  { intros u; unfold f; destruct (Surface.GetSelected v); cbn; by rewrite ?visible_draw. }
  destruct (on_video_spec s i f (proj1 Hs) ltac:(lia)) as (v1 & Ev1 & E & Hk & Hv); rewrite E; cbn [obind].
  destruct (IH (i + 1) (if Surface.GetSelected v then i else index) (if Surface.GetSelected v then drawn else drawn ++ [i])
              s0 _ (kept_trans _ _ _ Hs Hk) ltac:(lia) ltac:(lia) ltac:(case_bool; lia)) as (s2 & d & x & E2 & H2 & Hx2 & Hv2).
  exists s2, d, x; split; [done|]; split; [done|]; split; [done|]; intros k; rewrite Hv2, Hv, Hf.
  destruct (Z.eqb_spec k i) as [->|]; [|done]; unfold sees; by rewrite Ev1.
Qed.
Lemma DrawSelf_inv s : inv s -> exists s' d, DrawSelf s = Done (s', d) /\ stays s s'.
Proof.
  intros Hi; unfold DrawSelf; rewrite (inv_all s Hi).
  destruct (draw_loop_spec (Z.to_nat 36) 0 (-1) [] s s (kept_refl s (inv_videos s Hi)) ltac:(lia) ltac:(lia) ltac:(lia))
    as (s1 & d & x & E & H & Hx & Hv).
  rewrite E; cbn [obind]; pose proof (keeps_inv s s1 Hi H (fun k _ => Hv k)) as Hi1.
  destruct (0 <=? x) eqn:E0; [|by do 2 eexists].
  destruct (on_video_spec s1 x Surface.DrawSelf (proj1 H) ltac:(lia)) as (v & Ev & E2 & H2 & Hv2); rewrite E2; cbn [obind].
  do 2 eexists; split; [done|]; apply (stays_trans _ _ _ Hi1), (keeps_inv s1 _ (proj1 Hi1) H2).
  intros k Hk; rewrite Hv2, visible_draw; destruct (Z.eqb_spec k x) as [->|]; [|done]; unfold sees; by rewrite Ev.
Qed.

Lemma Reset_inv s : inv s -> exists s', ResetPosition s = Done s' /\ inv s' /\ (shown s \/ single s -> shown s').
Proof.
  intros Hi; unfold ResetPosition.
  destruct (for_all_spec Surface.ResetPosition id s ltac:(done) (inv_videos s Hi) (inv_all s Hi)) as (s1 & E1 & H1 & Hv1); rewrite E1; cbn [obind].
  destruct (keeps_inv s s1 Hi H1 Hv1) as (Hi1 & Ht1 & Hu1); pose proof (inv_mode s Hi) as Hm.
  rewrite (proj1 (proj2 (proj2 H1))).
  destruct (SetSplit_core s1 (mCurrentMode s) Hi1 Hm) as (s2 & E2 & H2 & Hs2 & Ht2); rewrite E2; cbn [obind].
  pose proof (split_inv s1 _ s2 Hi1 Hm H2 Hs2) as Hi2.
  destruct (for_all_spec (fun v => Surface.setRotate v (Surface.vec_of 0 0 0) false) id s2
              ltac:(intros v; apply visible_rotate) (inv_videos s2 Hi2) (inv_all s2 Hi2)) as (s3 & E3 & H3 & Hv3).
  exists s3; split; [done|]; destruct (keeps_inv s2 s3 Hi2 H3 Hv3) as (Hi3 & Ht3 & _); split; [done|tauto].
Qed.
Lemma Resize_inv s a : inv s -> exists s', ReSizeSplite s a = Done s' /\ inv s' /\ (shown s -> shown s').
Proof.
  intros Hi; unfold ReSizeSplite.
  assert (Hia : inv (set_aspect s a)) by (destruct Hi; by constructor).
  destruct (for_all_spec (fun v => Surface.ReSetBuffer v a) id (set_aspect s a) ltac:(done) (inv_videos _ Hia) (inv_all _ Hia))
    as (s1 & E1 & H1 & Hv1); rewrite E1; cbn [obind].
  destruct (keeps_inv _ s1 Hia H1 Hv1) as (Hi1 & Hs1 & _).
  destruct (SetSplitPosition_spec false s1 (inv_videos _ Hi1) (inv_mode _ Hi1) (proj1 (inv_page _ Hi1))) as (s2 & E2 & H2 & Hv2).
  destruct H2 as (G1 & G2 & G3 & G4 & G5 & _).
  exists s2; split; [done|]; pose proof Hi1 as [Hl Ha Hm Hp Hsel (x & Hx)]; split.
  - constructor; rewrite ?G2, ?G3, ?G4, ?G5; auto.
    exists x; left; intros k Hk; rewrite Hv2, G3, G4 by done.
    destruct (on_page _ _ k) eqn:Ek; [done|]; destruct Hx as [Hx|(_ & Hx)]; rewrite Hx by done; by rewrite ?Ek.
  - intros Hs k Hk; specialize (Hs1 Hs); rewrite Hv2, G3, G4, Hs1 by done; by case_bool.
Qed.

(** No operation fails, and the state stays well formed. *)
Lemma op_inv s o : inv s -> valid s o -> exists s', apply s o = Done s' /\ inv s'.
Proof.
  intros Hi; destruct o; cbn [valid apply].
  - intros Hm; destruct (SetSplit_core s m Hi Hm) as (s' & E & H & Hs & _); exists s'; split; [done|by apply (split_inv s m)].
  - intros _; destruct (SetPage_shown s i Hi) as (s' & E & H & _); eauto.
  - intros (Hw & Hh & Hk); destruct (SetSelected_spec s x y w h Hi Hw Hh Hk) as (s' & E & H & Hv).
    exists s'; split; [done|]; refine (proj1 (keeps_inv _ s' _ H Hv)); destruct Hi; constructor; auto; cbn.
    destruct (touched s x y w h); cbn; [by apply Hk|done].
  - intros Hr; destruct (select_inv s value i Hi Hr) as (s' & E & H & _); eauto.
  - intros _; destruct (Reset_inv s Hi) as (s' & E & H & _); eauto.
  - intros _; destruct (Resize_inv s aspect Hi) as (s' & E & H & _); eauto.
  - intros _; destruct (move_stays s p texture k Hi) as (s' & E & H & _); eauto.
  - intros _; destruct (zoom_stays s p texture k Hi) as (s' & E & H & _); eauto.
  - intros _; destruct (turn_stays s p texture k Hi) as (s' & E & H & _); eauto.
  - intros _; destruct (animate_stays s k animation Hi) as (s' & E & H & _); eauto.
  - intros _; destruct (keep_stays s aspect k Hi) as (s' & E & H & _); eauto.
  - intros Hr; destruct (info_stays s value k Hi Hr) as (s' & E & H & _); eauto.
  - intros _; destruct (DrawSelf_inv s Hi) as (s' & d & E & H & _); rewrite E; cbn [obind]; eauto.
Qed.
(** An operation that is tidy leaves one page shown, or one video alone. *)
Lemma op_tidy s o s' : inv s -> tidy s o -> apply s o = Done s' -> shown s \/ single s -> shown s' \/ single s'.
Proof.
  intros Hi (Hv & Ht); destruct o; cbn [valid apply] in *; intros E Hn.
  - destruct (SetSplit_core s m Hi Hv) as (s1 & E1 & _ & _ & H); rewrite E in E1; injection E1 as <-; left; auto.
  - destruct (SetPage_shown s i Hi) as (s1 & E1 & _ & H & _); rewrite E in E1; injection E1 as <-; left; auto.
  - destruct Hv as (Hw & Hh & Hk); destruct (SetSelected_spec s x y w h Hi Hw Hh Hk) as (s1 & E1 & H & Hs); rewrite E in E1; injection E1 as <-.
    destruct (keeps_set_split _ _ _ _ _ H) as (_ & _ & Em & Ep & _); left; intros k Hr; rewrite Hs, Em, Ep by done; auto.
  - exact (select_tidy s value i s' Hi Hv E Hn).
  - destruct (Reset_inv s Hi) as (s1 & E1 & _ & H); rewrite E in E1; injection E1 as <-; left; auto.
  - destruct (Resize_inv s aspect Hi) as (s1 & E1 & _ & H); rewrite E in E1; injection E1 as <-; left; auto.
  - destruct (move_stays s p texture k Hi) as (s1 & E1 & _ & H); rewrite E in E1; injection E1 as <-; tauto.
  - destruct (zoom_stays s p texture k Hi) as (s1 & E1 & _ & H); rewrite E in E1; injection E1 as <-; tauto.
  - destruct (turn_stays s p texture k Hi) as (s1 & E1 & _ & H); rewrite E in E1; injection E1 as <-; tauto.
  - destruct (animate_stays s k animation Hi) as (s1 & E1 & _ & H); rewrite E in E1; injection E1 as <-; tauto.
  - destruct (keep_stays s aspect k Hi) as (s1 & E1 & _ & H); rewrite E in E1; injection E1 as <-; tauto.
  - destruct (info_stays s value k Hi Hv) as (s1 & E1 & _ & H); rewrite E in E1; injection E1 as <-; tauto.
  - destruct (DrawSelf_inv s Hi) as (s1 & d & E1 & _ & H); rewrite E1 in E; cbn in E; injection E as <-; tauto.
Qed.

Lemma NormalScreen_inv aspect : exists s, NormalScreen aspect = Done s /\ inv (set_events s) /\ shown (set_events s).
Proof.
  unfold NormalScreen; cbv zeta; set (vs := map _ _).
  assert (Hvs : forall k, 0 <= k < 36 -> sees (mkScr vs 36 0 0 0 aspect false false []) k = (k =? 0)).
  { intros k Hk; unfold sees, znth; cbn [mVideo]; replace (k <? 0) with false by lia; unfold vs.
    rewrite list_lookup_fmap, lookup_seq_lt by lia; cbn [fmap option_fmap option_map]; case_bool; cbn; lia. }
  destruct (SetSplitPosition_spec false (mkScr vs 36 0 0 0 aspect false false []) ltac:(cbn [mVideo]; unfold vs; by rewrite length_map, length_seq)
              ltac:(cbn; lia) ltac:(cbn; lia)) as (s1 & E1 & H1 & Hv1); rewrite E1; cbn [obind].
  destruct (on_video_spec s1 0 (fun v => Surface.SetSelected v true) (proj1 H1) ltac:(lia)) as (v & Ev & E2 & H2 & Hv2); rewrite E2.
  eexists; split; [done|]; set (s2 := set_video s1 _) in *.
  destruct (kept_trans _ _ _ H1 H2) as (Hl & Ha & Hm & Hp & Hs & _).
  change (allPage s2 = 36) in Ha; change (mCurrentMode s2 = 0) in Hm; change (mCurrentPage s2 = 0) in Hp; change (mSelectIndex s2 = 0) in Hs.
  assert (Hsh : shown (set_events s2)).
  { intros k Hk; change (sees (set_events s2) k) with (sees s2 k).
    cbn [mCurrentMode mCurrentPage set_events]; rewrite Hm, Hp, on_page_one, Hv2.
    assert (E : sees s1 k = (k =? 0)).
    { rewrite Hv1, Hvs by done; cbn [mCurrentMode mCurrentPage]; rewrite on_page_one; by case_bool. }
    destruct (Z.eqb_spec k 0) as [->|]; [|exact E]; unfold sees in E; by rewrite Ev in E. }
  split; [|done]; constructor; cbn [mVideo allPage mCurrentMode mCurrentPage mSelectIndex set_events]; [..|by apply shown_seen]; auto; rewrite ?Hm, ?Hp, ?Hs; try lia.
  vm_compute; by split.
Qed.

Lemma reach_inv aspect s : reach valid aspect s -> inv s.
Proof.
  induction 1 as [s E|s o s' _ IH Hv E].
  - destruct (NormalScreen_inv aspect) as (s' & E' & H & _); by replace s with s' by congruence.
  - destruct (op_inv s o IH Hv) as (s1 & E1 & H1); by replace s' with s1 by congruence.
Qed.
Lemma reach_tidy aspect s : reach tidy aspect s -> inv s /\ (shown s \/ single s).
Proof.
  induction 1 as [s E|s o s' _ (IH & Hn) Hv E].
  - destruct (NormalScreen_inv aspect) as (s' & E' & H & Hs); replace s with s' by congruence; by auto.
  - destruct (op_inv s o IH (proj1 Hv)) as (s1 & E1 & H1); replace s1 with s' in * by congruence.
    split; [done|by apply (op_tidy s o)].
Qed.

(** ** Hiding with an animation *)

(** The requests of hiding a page with an animation, and their answers. *)
Fixpoint requests (first j : Z) (n : nat) : list request :=
  match n with
  | O => []
  | S n => if 35 <? first + j then [] else Hidden (first + j) j :: requests first (j + 1) n
  end.
Definition asks (s : screen) (l : list request) : screen := fold_left ask l s.
Definition answer (s : screen) (r : request) : outcome screen :=
  match r with Hidden k j => OnPageAniEnd s k j | WillVisible _ _ _ _ => Done s end.
Fixpoint answers (s : screen) (l : list request) : outcome screen :=
  match l with [] => Done s | r :: l => let* s := answer s r in answers s l end.

Lemma keeps_asks l s : length (mVideo s) = 36%nat -> keeps s (asks s l) /\ mVideo (asks s l) = mVideo s /\ asked (asks s l) = asked s ++ l.
Proof.
  revert s; induction l as [|r l IH]; intros s Hl; [cbn; rewrite app_nil_r; by repeat split|].
  change (asks s (r :: l)) with (asks (ask s r) l).
  destruct (IH (ask s r) Hl) as (Hk & E1 & E2); rewrite E2; cbn [asked ask]; rewrite <- app_assoc.
  split; [exact Hk|by split].
Qed.
Lemma requests_in first k i : forall n j, 0 <= first + j ->
  In (Hidden k i) (requests first j n) <-> i = k - first /\ first + j <= k < first + j + Z.of_nat n /\ k <= 35.
Proof.
  induction n as [|n IH]; intros j Hj; cbn [requests]; [cbn; lia|].
  destruct (35 <? first + j) eqn:E; [cbn; lia|]; cbn [In]; rewrite IH by lia.
  split; [intros [[= <- <-]|?]; lia|].
  intros (-> & Hk); destruct (Z.eq_dec k (first + j)) as [->|]; [left; f_equal; lia|right; lia].
Qed.
Lemma requests_hidden first r : forall n j, In r (requests first j n) -> exists k i, r = Hidden k i.
Proof.
  induction n as [|n IH]; intros j; cbn [requests]; [done|]; case_bool; [done|]; intros [<-|H]; eauto.
Qed.
Lemma each_ask first : forall n j s, length (mVideo s) = 36%nat -> 0 <= first + j -> ObjectHidden s = true ->
  each (hide_cell true) first j n s = Done (asks s (requests first j n)).
Proof.
  induction n as [|n IH]; intros j s Hl Hj He; cbn [each requests]; [done|].
  destruct (35 <? first + j) eqn:E; [done|]; unfold hide_cell at 1.
  destruct (at_index_some (mVideo s) (first + j) ltac:(unfold zlen; lia)) as (v & _ & Ev); rewrite Ev, He; cbn [obind andb].
  rewrite IH by (cbn; (done || lia)); done.
Qed.

(** The answers, in any order: their videos are hidden, and the page set by now is
    shown when the first video's answer comes. *)
Definition asked_for (l : list request) (k : Z) : bool := existsb (fun r => match r with Hidden v _ => v =? k | _ => false end) l.
Definition asked_first (l : list request) : bool := existsb (fun r => match r with Hidden _ j => j =? 0 | _ => false end) l.
Lemma answers_spec m p q : p <> q -> 0 <= m < 7 -> 0 <= q -> forall l s,
  length (mVideo s) = 36%nat -> mCurrentMode s = m -> mCurrentPage s = q ->
  Forall (fun r => exists k j, r = Hidden k j /\ 0 <= k < 36 /\ on_page m p k = true) l ->
  exists s', answers s l = Done s' /\ keeps s s' /\
    forall x, 0 <= x < 36 -> sees s' x =
      if on_page m p x then negb (asked_for l x) && sees s x
      else (asked_first l && on_page m q x) || sees s x.
Proof.
  intros Hpq Hm Hq; induction l as [|r l IH]; intros s Hl Em Eq Hf; cbn [answers].
  - exists s; split; [done|]; split; [by apply kept_refl|]; intros x Hx; cbn; by case_bool.
  - apply Forall_cons_1 in Hf as ((k & j & -> & Hk & Hon) & Hf); cbn [answer]; unfold OnPageAniEnd.
    destruct (on_video_spec s k (fun v => Surface.SetVisible v false) Hl Hk) as (v & Ev & E1 & H1 & Hv1); rewrite E1; cbn [obind].
    set (s1 := set_video s _) in *.
    assert (exists s2, (if j =? 0 then SetSplitPosition s1 true else Done s1) = Done s2 /\ keeps s1 s2 /\
              forall x, 0 <= x < 36 -> sees s2 x = if (j =? 0) && on_page m q x then true else sees s1 x) as (s2 & E2 & H2 & Hv2).
    { destruct (j =? 0); [|exists s1; repeat split; apply H1].
      destruct (SetSplitPosition_spec true s1 (proj1 H1) ltac:(cbn; lia) ltac:(cbn; lia)) as (s2 & E2 & H2 & Hv2).
      exists s2; split; [done|]; split; [done|]; intros x Hx; rewrite Hv2 by done; cbn [andb].
      change (mCurrentMode s1) with (mCurrentMode s); change (mCurrentPage s1) with (mCurrentPage s); by rewrite Em, Eq. }
    rewrite E2; cbn [obind]; pose proof (kept_trans _ _ _ H1 H2) as H3.
    destruct H3 as (Hl3 & ? & Em3 & Eq3 & ? & ? & ?).
    destruct (IH s2 Hl3 ltac:(congruence) ltac:(congruence) Hf) as (s3 & E3 & Hk3 & Hv3).
    exists s3; split; [done|]; split; [apply (kept_trans _ _ _ (kept_trans _ _ _ H1 H2) Hk3)|].
    intros x Hx; rewrite Hv3, Hv2, Hv1 by done; cbn [asked_for asked_first existsb]; fold (asked_for l x) (asked_first l).
    destruct (on_page m p x) eqn:Ex.
    + assert (Hnq : on_page m q x = false)
        by (destruct (on_page m q x) eqn:E; [|done]; by destruct Hpq; apply (page_unique m p q x)).
      rewrite Hnq, andb_false_r, (Z.eqb_sym k x); destruct (x =? k); cbn; by rewrite ?andb_false_r.
    + replace (x =? k) with false by (symmetry; apply Z.eqb_neq; intros ->; congruence).
      by destruct (j =? 0), (on_page m q x), (asked_first l), (sees s x).
Qed.

(** * The correctness of the grid *)

(** The centre and the size of a cell as the code computes them in floats, against
    the exact ones; [scaled x] is [x * 2 ^ 30], rounded down. *)
Definition scaled (x : spec_float) : Z :=
  match x with
  | S754_finite sgn m e => let v := Z.shiftl (Z.pos m) (e + 30) in if sgn then - v else v
  | _ => 0
  end.
Definition near (x : spec_float) (num den : Z) : bool := Z.abs (den * scaled x - num * 2 ^ 30) <=? den * 2 ^ 8.
Definition placed (c : SPLIT_POSITION) : bool :=
  let '(p, sc) := placement (F32.of_Z 1) (F32.of_Z 0) c in
  near (Surface.x p) (2 * cx c + cw c - 12) 12 && near (Surface.y p) (12 - 2 * cy c - ch c) 12 &&
  near (Surface.x sc) (cw c) 6 && near (Surface.y sc) (ch c) 6.
Definition holds_square (px py : Z) (c : SPLIT_POSITION) : bool :=
  (cx c <=? px) && (px <? cx c + cw c) && (cy c <=? py) && (py <? cy c + ch c).
Definition twelve : list Z := map Z.of_nat (seq 0 12).
Definition tiles (l : list SPLIT_POSITION) : bool :=
  forallb (fun px => forallb (fun py => zlen (List.filter (holds_square px py) l) =? 1) twelve) twelve.
Definition cornered (c r : SPLIT_POSITION) : bool := (cw r =? cx c + cw c) && (ch r =? 12 - cy c).
Definition laid_out (md rd : SPLIT_MODE) : bool :=
  (count md =? zlen (cells md)) && (count rd =? zlen (cells rd)) && tiles (cells md) && forallb placed (cells md) &&
  (zlen (cells md) =? zlen (cells rd)) && forallb (fun '(c, r) => cornered c r) (zip (cells md) (cells rd)).

(** The seven splits are layouts of the screen: the counts are the lengths of the
    tables, every square of the 12 by 12 grid lies in exactly one cell, the position
    and scale that SetSplitPosition computes in floats are within 2 ^ -22 of the
    cell's centre and size, and the record icons' table gives the corners of the same
    cells. *)
Theorem split_layout : Forall2 (fun md rd => laid_out md rd = true) SplitMode SplitRecordMode.
Proof. repeat constructor; vm_compute; reflexivity. Qed.

(** C21: after any sequence of splits, page turns, touches, selections, resizings,
    movements and drawings whose indices are in the tables, the operations return, the
    page, split and selection are in range, and the current page is visible and no other
    video, save at most one, which may be visible beside the page or, in the one-video
    split, in its place; and while no page is turned, touched or resized with one video
    selected alone, exactly the page or that video is visible. *)
Theorem pages_shown aspect :
  (forall s, reach valid aspect s -> inv s /\ forall o, valid s o -> exists s', apply s o = Done s' /\ reach valid aspect s') /\
  (forall s, reach tidy aspect s -> shown s \/ single s).
Proof.
  split; [|by intros s [_ H]%reach_tidy].
  intros s Hr; pose proof (reach_inv aspect s Hr) as Hi; split; [done|]; intros o Ho.
  destruct (op_inv s o Hi Ho) as (s' & E & _); exists s'; split; [done|by apply (reach_op _ aspect s o)].
Qed.

(** SetSplit changes to the page that contains the selected video and shows that page;
    that page only, where one page or the selected video was visible before. *)
Theorem split_shows_selection s m : inv s -> 0 <= m < 7 ->
  exists s', SetSplit s m false = Done s' /\ mCurrentMode s' = m /\ mCurrentPage s' = cdiv (mSelectIndex s) (cnt m) /\
    mSelectIndex s' = mSelectIndex s /\ sees s' (mSelectIndex s) = true /\ (shown s \/ single s -> shown s').
Proof.
  intros Hi Hm; destruct (SetSplit_core s m Hi Hm) as (s' & E & H & (x & Hx) & Hs).
  destruct (keeps_set_split _ _ _ _ _ H) as (_ & _ & Em & Ep & Es).
  exists s'; repeat (split; [done|]); split; [|done]; rewrite Hx, Em, Ep by apply (inv_select s Hi).
  by rewrite (proj2 (page_of_video m _ Hm (inv_select s Hi))).
Qed.

(** The double tap: SetSingVideo on the selected video shows it alone; going back
    with SetSplit, SetPage on the selection's page and SetSelectedByIndex restores the
    split, the page, the selection and what is visible. *)
Theorem zoom_and_back s : inv s -> shown s -> on_page (mCurrentMode s) (mCurrentPage s) (mSelectIndex s) = true ->
  exists s1 s2, SetSingVideo s (mSelectIndex s) false = Done s1 /\
    (forall k, 0 <= k < 36 -> sees s1 k = (k =? mSelectIndex s)) /\
    (let* a := SetSplit s1 (mCurrentMode s) false in
     let* a := SetPage a (cdiv (mSelectIndex a) (cnt (mCurrentMode s))) false in
     SetSelectedByIndex a true (mSelectIndex a)) = Done s2 /\
    mCurrentMode s2 = mCurrentMode s /\ mCurrentPage s2 = mCurrentPage s /\ mSelectIndex s2 = mSelectIndex s /\
    forall k, 0 <= k < 36 -> sees s2 k = sees s k.
Proof.
  intros Hi Hs Hon; pose proof (inv_mode s Hi) as Hm; pose proof (inv_select s Hi) as Hsel.
  destruct (SetSplit_core s 0 Hi ltac:(lia)) as (a & Ea & Ha & Hba & Hsa); specialize (Hsa (or_introl Hs)).
  pose proof (split_inv s 0 a Hi ltac:(lia) Ha Hba) as Hia.
  destruct (keeps_set_split _ _ _ _ _ Ha) as (_ & _ & Ema & _ & Esa).
  destruct (SetPage_shown a (mSelectIndex s) Hia) as (s1 & E1 & Hi1 & Hs1 & Em1 & Es1 & Ep1); specialize (Hs1 Hsa).
  rewrite Ema in Em1, Ep1; replace (_ && _) with true in Ep1 by (change (pages 36 (cnt 0)) with 36; lia).
  exists s1; unfold SetSingVideo; rewrite Ea; cbn [obind]; rewrite E1.
  destruct (SetSplit_core s1 (mCurrentMode s) Hi1 Hm) as (b & Eb & Hb & Hbb & Hsb); specialize (Hsb (or_introl Hs1)).
  pose proof (split_inv s1 _ b Hi1 Hm Hb Hbb) as Hib.
  destruct (keeps_set_split _ _ _ _ _ Hb) as (_ & _ & Emb & Epb & Esb).
  assert (Esel : mSelectIndex b = mSelectIndex s) by congruence.
  destruct (page_of_video _ _ Hm Hsel) as (Hrange & Hpage).
  pose proof (page_unique _ _ _ _ Hm Hpage Hon) as Epage.
  destruct (SetPage_shown b (mCurrentPage s) Hib) as (c & Ec & Hic & Hsc & Emc & Esc & Epc); specialize (Hsc Hsb).
  destruct (select_inv c true (mSelectIndex s) Hic Hsel) as (s2 & E2 & Hi2 & Em2 & Ep2 & Es2 & Hv2).
  exists s2; rewrite Eb; cbn [obind]; rewrite Esel, Epage, Ec; cbn [obind]; rewrite Esc, Esel, E2.
  rewrite Emb, <- Epage in Epc; replace (_ && _) with true in Epc by lia.
  repeat split; try congruence.
  - intros k Hk; rewrite Hs1, Em1, Ep1 by done; apply on_page_one.
  - intros k Hk; rewrite Hv2 by done; rewrite Emc, Emb; rewrite Hs by done; destruct (Z.eqb_spec (mCurrentMode s) 0) as [E0|_].
    + rewrite E0, on_page_one; rewrite E0, on_page_one in Hon; f_equal; lia.
    + rewrite Hsc, Emc, Emb, Epc, Epage by done; done.
Qed.

(** With an animation SetPage only asks for the old page's videos to be hidden;
    whatever the order in which those animations end, the new page and no other video
    is shown when the last has ended. *)
Theorem animated_page s i l : inv s -> shown s -> ObjectHidden s = true -> asked s = [] ->
  0 <= i < pages 36 (cnt (mCurrentMode s)) -> i <> mCurrentPage s ->
  exists s1, SetPage s i true = Done s1 /\ mVideo s1 = mVideo s /\ mCurrentPage s1 = i /\
    (l ≡ₚ asked s1 -> exists s2, answers s1 l = Done s2 /\ inv s2 /\ shown s2 /\ mCurrentPage s2 = i).
Proof.
  intros Hi Hs He Has Hr Hne; pose proof Hi as [Hl Ha Hm Hp Hsel _].
  destruct (count_of_spec _ Hm) as (Ec & Hc); set (m := mCurrentMode s) in *; set (p := mCurrentPage s) in *.
  set (rs := requests (p * cnt m) 0 (Z.to_nat (cnt m))).
  destruct (keeps_asks rs s Hl) as ((_ & Ka & Km & Kp & Ks & Kh & Kw) & Kv & Kr).
  exists (set_split (asks s rs) m i (mSelectIndex s)).
  assert (E : SetPage s i true = Done (set_split (asks s rs) m i (mSelectIndex s))).
  { unfold SetPage, GetAllPage; fold m; rewrite Ec, Ha; cbn [obind]; replace (_ || _) with false by lia.
    unfold hide_page; fold m p; rewrite Ec; cbn [obind]; rewrite each_ask by (done || nia); cbn [obind].
    fold rs; by rewrite Km, Ks. }
  split; [done|]; split; [exact Kv|]; split; [done|]; cbn [asked set_split]; rewrite Kr, Has, app_nil_l; intros Hperm.
  assert (Hin : forall k j, In (Hidden k j) l <-> j = k - p * cnt m /\ on_page m p k = true /\ k <= 35).
  { intros k j; rewrite <- !list_elem_of_In, Hperm, list_elem_of_In; unfold rs; rewrite requests_in by nia; unfold on_page; lia. }
  destruct (answers_spec m p i ltac:(congruence) Hm ltac:(lia) l (set_split (asks s rs) m i (mSelectIndex s))) as (s2 & E2 & H2 & Hv2); try done.
  { cbn; by rewrite Kv. }
  { apply Forall_forall; intros r Hr1; rewrite Hperm in Hr1.
    destruct (requests_hidden _ _ _ _ Hr1) as (k & j & ->); exists k, j; split; [done|].
    apply requests_in in Hr1; [|nia]; unfold on_page; split; nia. }
  exists s2; split; [done|]; destruct (keeps_set_split _ _ _ _ _ H2) as (H1 & H3 & H4 & H5 & H6).
  assert (Hs2 : shown s2).
  { intros x Hx; rewrite Hv2, H4, H5 by done.
    change (sees (set_split (asks s rs) m i (mSelectIndex s)) x) with (sees (asks s rs) x).
    replace (sees (asks s rs) x) with (sees s x) by (unfold sees; by rewrite Kv); rewrite Hs by done; fold m p.
    destruct (on_page m p x) eqn:Ex.
    - replace (asked_for l x) with true; [|symmetry; apply existsb_exists; exists (Hidden x (x - p * cnt m)); split; [apply Hin; lia|apply Z.eqb_refl]].
      cbn; destruct (on_page m i x) eqn:Ei; [|done]; by destruct Hne; apply (page_unique m i p x).
    - replace (asked_first l) with true; [by destruct (on_page m i x)|].
      symmetry; apply existsb_exists; exists (Hidden (p * cnt m) 0); split; [|done].
      apply Hin; pose proof (page_starts m p Hm Hp); unfold on_page; lia. }
  split; [|done]; constructor; rewrite ?H3, ?H4, ?H5, ?H6; auto using shown_seen; by rewrite Ka.
Qed.

(** A grid square that does not lie on its cell's inner left or upper border. *)
Definition inner (px py : Z) (c : SPLIT_POSITION) : bool :=
  ((cx c =? 0) || (cx c <? px)) && ((cy c =? 0) || (cy c <? py)).
Definition finds (l : list SPLIT_POSITION) (px py : Z) (ic : nat * SPLIT_POSITION) : bool :=
  let '(i, c) := ic in
  if holds_square px py c then
    match first_cell px py 0 l with
    | Some k => implb (inner px py c) (k =? Z.of_nat i) && (inner px py c || negb (k =? Z.of_nat i) || (zlen l =? 13))
    | None => false
    end
  else true.
Definition finds_all (md : SPLIT_MODE) : bool :=
  forallb (fun px => forallb (fun py => forallb (finds (cells md) px py) (zip (seq 0 (length (cells md))) (cells md))) twelve) twelve.
Lemma finds_cell m md px py i c : at_index SplitMode m = Done md -> 0 <= px < 12 -> 0 <= py < 12 ->
  cells md !! i = Some c -> holds_square px py c = true ->
  exists k, first_cell px py 0 (cells md) = Some k /\ (inner px py c = true -> k = Z.of_nat i) /\
    (inner px py c = false -> k = Z.of_nat i -> zlen (cells md) = 13).
Proof.
  intros (Ez & Hm)%at_index_done Hx Hy Hc Hs.
  assert (Hf : forallb finds_all SplitMode = true) by (vm_compute; reflexivity).
  assert (Hmd : finds_all md = true).
  { rewrite forallb_forall in Hf; apply Hf; unfold znth in Ez; destruct (m <? 0); [done|].
    apply list_elem_of_In; by apply list_elem_of_lookup_2 with (Z.to_nat m). }
  assert (Htw : forall z, 0 <= z < 12 -> In z twelve).
  { intros z Hz; unfold twelve; apply in_map_iff; exists (Z.to_nat z); rewrite in_seq; lia. }
  unfold finds_all in Hmd; rewrite forallb_forall in Hmd; specialize (Hmd px (Htw px Hx)).
  rewrite forallb_forall in Hmd; specialize (Hmd py (Htw py Hy)).
  rewrite forallb_forall in Hmd; specialize (Hmd (i, c)).
  assert (Hin : In (i, c) (zip (seq 0 (length (cells md))) (cells md))).
  { apply list_elem_of_In, (list_elem_of_lookup_2 _ i); apply lookup_zip_with_Some; exists i, c.
    rewrite lookup_seq_lt by (by apply lookup_lt_Some in Hc); done. }
  specialize (Hmd Hin); unfold finds in Hmd; rewrite Hs in Hmd; destruct (first_cell px py 0 (cells md)) as [k|]; [|done].
  exists k; split; [done|]; destruct (inner px py c); cbn in Hmd; lia.
Qed.

(** A touch on the first page selects the cell that was touched, except on the
    squares along the cell's inner left and upper borders, which select a neighbour
    (but for two squares of the split of thirteen); nothing that is shown changes. *)
Theorem touch_selects s x y w h md i c : inv s -> shown s -> mCurrentPage s = 0 -> 12 <= w -> 12 <= h ->
  at_index SplitMode (mCurrentMode s) = Done md -> cells md !! i = Some c ->
  0 <= cdiv x (cdiv w 12) < 12 -> 0 <= cdiv y (cdiv h 12) < 12 -> holds_square (cdiv x (cdiv w 12)) (cdiv y (cdiv h 12)) c = true ->
  exists s', SetSelected s x y w h = Done s' /\ inv s' /\ shown s' /\
    (inner (cdiv x (cdiv w 12)) (cdiv y (cdiv h 12)) c = true -> mSelectIndex s' = Z.of_nat i) /\
    (inner (cdiv x (cdiv w 12)) (cdiv y (cdiv h 12)) c = false -> mSelectIndex s' = Z.of_nat i -> mCurrentMode s = 5).
Proof.
  intros Hi Hs Hp Hw Hh Emd Hc Hx Hy Hsq.
  destruct (finds_cell _ md _ _ i c Emd Hx Hy Hc Hsq) as (k & Ek & Hk & Hk5).
  destruct (first_cell_spec _ _ _ _ _ Ek) as (Hkr & _).
  destruct (mode_spec _ (inv_mode s Hi)) as (md' & Emd' & _ & _ & Hz & Hcnt); rewrite Emd in Emd'; injection Emd' as <-.
  assert (Ht : touched s x y w h = Some k).
  { unfold touched; destruct (at_index_done _ _ _ Emd) as (-> & _); cbn; rewrite Ek; cbn; by rewrite Hp. }
  destruct (SetSelected_spec s x y w h Hi Hw Hh) as (s' & E & H & Hv).
  { rewrite Ht, Hp; intros ? [= <-]; lia. }
  rewrite Ht in H; cbn in H; destruct (keeps_set_split _ _ _ _ _ H) as (_ & _ & _ & _ & Es).
  assert (Hi' : inv (set_split s (mCurrentMode s) (mCurrentPage s) k)) by (destruct Hi; constructor; auto; cbn; lia).
  destruct (keeps_inv _ s' Hi' H Hv) as (H1 & H2 & _).
  exists s'; split; [done|]; split; [done|]; split; [by apply H2|]; rewrite Es; split; [done|]; intros Hin Hki.
  specialize (Hk5 Hin Hki); rewrite Hz in Hk5; by destruct (mode_cases _ (inv_mode s Hi)) as [E0|[E0|[E0|[E0|[E0|[E0|E0]]]]]]; rewrite E0 in *.
Qed.

(** On a later page the touch is looked up with the count of the split whose
    number is the page's: in the split of four, pages 2 and 3 it selects a video
    that is not shown, and from page 4 on it accesses a video beyond the last, or a
    split beyond the table. *)
Theorem later_page_touch s x y w h : inv s -> shown s -> mCurrentMode s = 1 -> 2 <= mCurrentPage s -> 12 <= w -> 12 <= h ->
  0 <= cdiv x (cdiv w 12) < 12 -> 0 <= cdiv y (cdiv h 12) < 12 ->
  if mCurrentPage s <? 4 then exists s', SetSelected s x y w h = Done s' /\ sees s' (mSelectIndex s') = false
  else SetSelected s x y w h = Fault.
Proof.
  intros Hi Hs Em Hp Hw Hh Hx Hy.
  set (px := cdiv x _) in *; set (py := cdiv y _) in *.
  assert (Hfc : exists i, first_cell px py 0 SPLIT_2 = Some i /\ 0 <= i < 4).
  { unfold SPLIT_2, first_cell, covers; cbn [cx cy cw ch]; case_bool; try (exfalso; clearbody px py; lia); eexists; (split; [reflexivity|lia]). }
  destruct Hfc as (i & Ei & Hir).
  assert (Ht : touched s x y w h = Some (mCurrentPage s * cnt (mCurrentPage s) + i)).
  { unfold touched; rewrite Em; fold px py; cbn [znth SplitMode]; change (default [] (cells <$> znth SplitMode 1)) with SPLIT_2; by rewrite Ei. }
  pose proof (inv_page s Hi) as Hpg; rewrite Em in Hpg; change (pages 36 (cnt 1)) with 9 in Hpg.
  destruct (mCurrentPage s <? 4) eqn:E6.
  - assert (Hcnt : mCurrentPage s * cnt (mCurrentPage s) + i < 36 /\ mCurrentPage s * 4 + 4 <= mCurrentPage s * cnt (mCurrentPage s)).
    { assert (mCurrentPage s = 2 \/ mCurrentPage s = 3) as [->| ->] by lia;
        match goal with |- context [cnt ?n] => let c := eval vm_compute in (cnt n) in change (cnt n) with c end; lia. }
    destruct (SetSelected_spec s x y w h Hi Hw Hh) as (s' & E & H & Hv).
    { rewrite Ht; intros ? [= <-]; lia. }
    rewrite Ht in H; destruct (keeps_set_split _ _ _ _ _ H) as (_ & _ & _ & _ & Es); cbn in Es.
    exists s'; split; [done|]; rewrite Es, Hv, Hs, Em by lia; unfold on_page; change (cnt 1) with 4; lia.
  - unfold SetSelected; rewrite !cdiv_12 by done; cbn [orb]; fold px py.
    destruct (for_all_spec (fun v => Surface.SetSelected v false) id s ltac:(done) (inv_videos s Hi) (inv_all s Hi)) as (s1 & E1 & H1 & _).
    rewrite E1; cbn [obind]; destruct H1 as (Hl1 & _ & -> & -> & _); rewrite Em.
    change (at_index SplitMode 1) with (Done (mode 4 SPLIT_2)); cbn [obind cells]; rewrite Ei.
    assert (Hfar : forall k, 36 <= k -> on_video s1 k (fun v => Surface.SetSelected v true) = Fault).
    { intros k Hk; unfold on_video, at_index, znth; rewrite lookup_ge_None_2 by lia; by case_bool. }
    assert (mCurrentPage s = 4 \/ mCurrentPage s = 5 \/ mCurrentPage s = 6 \/ mCurrentPage s = 7 \/ mCurrentPage s = 8)
      as [->|[->|[->|[->| ->]]]] by lia; [| | |reflexivity..];
      match goal with |- context [count_of ?n] => let c := eval vm_compute in (count_of n) in change (count_of n) with c end;
      cbn [obind]; by rewrite Hfar by lia.
Qed.

(** Selecting a video by index in the one-video split shows it without turning to
    its page: a page turn then leaves it visible beside the new page. *)
Theorem select_then_page s i q : inv s -> mCurrentMode s = 0 -> 0 <= i < 36 -> 0 <= q < 36 -> i <> mCurrentPage s -> q <> i ->
  exists s', (let* a := SetSelectedByIndex s true i in SetPage a q false) = Done s' /\
    mCurrentPage s' = q /\ sees s' q = true /\ sees s' i = true.
Proof.
  intros Hi Em Hr Hq Hne Hqi.
  destruct (select_inv s true i Hi Hr) as (a & Ea & Hia & Ema & Epa & Esa & Hva); rewrite Ea; cbn [obind].
  destruct (SetPage_core a q (inv_videos a Hia) (inv_all a Hia) (inv_mode a Hia) (proj1 (inv_page a Hia))) as (s' & E & H & Hv).
  { rewrite Ema, Em; change (pages 36 (cnt 0)) with 36; lia. }
  destruct (keeps_set_split _ _ _ _ _ H) as (_ & _ & _ & Ep & _); exists s'; split; [done|]; split; [done|].
  rewrite !Hv, Ema, Em, Epa, !on_page_one, Z.eqb_refl by done; split; [done|].
  by rewrite (proj2 (Z.eqb_neq i q)), (proj2 (Z.eqb_neq i (mCurrentPage s))), Hva, Em, !Z.eqb_refl by (done || congruence).
Qed.

(** * Concrete screens *)

Definition one : spec_float := F32.of_Z 1.
Definition start : screen := match NormalScreen one with Done s => set_events s | _ => mkScr [] 0 0 0 0 one false false [] end.
Lemma start_ok : inv start /\ shown start /\ NormalScreen one = Done (match NormalScreen one with Done s => s | _ => start end).
Proof. unfold start; destruct (NormalScreen_inv one) as (s & E & Hi & Hs); by rewrite E. Qed.
(** The split of four. *)
Definition four : screen := match SetSplit start 1 false with Done s => s | _ => start end.
Lemma four_ok : inv four /\ shown four.
Proof.
  unfold four; destruct (SetSplit_core start 1 (proj1 start_ok) ltac:(lia)) as (s & E & H & Hb & Hs); rewrite E; split; [|apply Hs; left; apply start_ok].
  by apply (split_inv start 1 s (proj1 start_ok) ltac:(lia) H).
Qed.
Definition third_page : screen := match SetPage four 2 false with Done s => s | _ => four end.
Lemma third_page_ok : inv third_page /\ shown third_page /\ mCurrentMode third_page = 1 /\ mCurrentPage third_page = 2.
Proof.
  unfold third_page; destruct four_ok as (Hi & Hs); destruct (SetPage_shown four 2 Hi) as (s & E & H1 & H2 & H3 & H4 & H5); specialize (H2 Hs); rewrite E.
  assert (E1 : mCurrentMode four = 1) by (vm_compute; reflexivity).
  split; [exact H1|]; split; [exact H2|]; split; [congruence|by rewrite H5, E1].
Qed.

Lemma pages_shown_witness : exists s, reach valid one s /\ inv s /\ exists s', apply s (Page 7) = Done s' /\ inv s'.
Proof.
  exists start; assert (H : reach valid one start) by (unfold start; destruct (NormalScreen_inv one) as (s & E & _); rewrite E; by apply reach_new).
  destruct (proj1 (pages_shown one) start H) as (Hi & Ho); split; [exact H|]; split; [exact Hi|].
  destruct (Ho (Page 7) I) as (s' & E & H'); exists s'; split; [exact E|exact (proj1 (proj1 (pages_shown one) s' H'))].
Defined.
Lemma split_shows_selection_witness : exists s', SetSplit start 4 false = Done s' /\ shown s'.
Proof.
  destruct (split_shows_selection start 4 (proj1 start_ok) ltac:(lia)) as (s' & E & _ & _ & _ & _ & H).
  exists s'; split; [done|]; apply H; left; apply start_ok.
Defined.
Lemma zoom_and_back_witness : exists s1, SetSingVideo four (mSelectIndex four) false = Done s1.
Proof.
  destruct (zoom_and_back four (proj1 four_ok) (proj2 four_ok) ltac:(vm_compute; reflexivity)) as (s1 & s2 & E & _); by exists s1.
Defined.
Lemma animated_page_witness : exists s1 s2, SetPage four 3 true = Done s1 /\ answers s1 (asked s1) = Done s2 /\ shown s2.
Proof.
  destruct (animated_page four 3 [Hidden 0 0; Hidden 1 1; Hidden 2 2; Hidden 3 3] (proj1 four_ok) (proj2 four_ok)
              ltac:(vm_compute; reflexivity) ltac:(vm_compute; reflexivity) ltac:(vm_compute; by split) ltac:(vm_compute; discriminate))
    as (s1 & E & _ & _ & H).
  assert (Ea : asked s1 = [Hidden 0 0; Hidden 1 1; Hidden 2 2; Hidden 3 3]).
  { assert (E2 : (let* s := SetPage four 3 true in Done (asked s)) = Done [Hidden 0 0; Hidden 1 1; Hidden 2 2; Hidden 3 3])
      by (vm_compute; reflexivity).
    rewrite E in E2; by injection E2. }
  destruct (H ltac:(rewrite Ea; reflexivity)) as (s2 & E2 & _ & Hs & _).
  exists s1, s2; split; [exact E|]; split; [by rewrite Ea|exact Hs].
Defined.
Lemma touch_selects_witness : exists s', SetSelected four 700 100 1200 1200 = Done s' /\ mSelectIndex s' = 1.
Proof.
  destruct (touch_selects four 700 100 1200 1200 (mode 4 SPLIT_2) 1 (cell 6 0 6 6) (proj1 four_ok) (proj2 four_ok)
              ltac:(vm_compute; reflexivity) ltac:(lia) ltac:(lia) ltac:(vm_compute; reflexivity) eq_refl
              ltac:(vm_compute; split; [discriminate|reflexivity]) ltac:(vm_compute; split; [discriminate|reflexivity])
              ltac:(vm_compute; reflexivity)) as (s' & E & _ & _ & H & _).
  exists s'; split; [exact E|]; apply H; vm_compute; reflexivity.
Defined.
Lemma later_page_touch_witness : exists s', SetSelected third_page 700 100 1200 1200 = Done s' /\ sees s' (mSelectIndex s') = false.
Proof.
  destruct third_page_ok as (Hi & Hs & Em & Ep).
  pose proof (later_page_touch third_page 700 100 1200 1200 Hi Hs Em ltac:(rewrite Ep; lia) ltac:(lia) ltac:(lia)
    ltac:(vm_compute; split; [discriminate|reflexivity]) ltac:(vm_compute; split; [discriminate|reflexivity])) as H.
  rewrite Ep in H; exact H.
Defined.
Lemma select_then_page_witness : exists s', (let* a := SetSelectedByIndex start true 5 in SetPage a 3 false) = Done s' /\
  sees s' 3 = true /\ sees s' 5 = true.
Proof.
  destruct (select_then_page start 5 3 (proj1 start_ok) ltac:(vm_compute; reflexivity) ltac:(lia) ltac:(lia)
              ltac:(vm_compute; discriminate) ltac:(lia)) as (s' & E & _ & H1 & H2).
  exists s'; by repeat split.
Defined.
End Screen.
