(* ===== verification/FishEye.v ===== *)
(** The screen of a fish-eye camera: VertexObjectImpl
    (gles/GLES/VertexObjectImpl.cpp), its tables of windows, its modes and the thread
    that changes from one mode to the next, and the outlines that follow the selected
    window (framedraw.cpp, ExpandFrameDraw.cpp).  The drawing itself, textures, the
    overlay texts and the pictures shown while a video loads are calls of GL; what
    UpdateFrame asks of ParametricManager is in Gestures.v. *)
From Stdlib Require Import SpecFloat.
From S2P Require Import Prelude Float32 Surface.

Module FishEye.
Import Surface (vec3, vec, vec_of, vadd).

(** ** The tables (VertexObjectImpl.h): windows on a grid of 12 by 12, y upwards *)

Record VOSPLIT_POSITION := at12 { wx : Z; wy : Z; ww : Z; wh : Z }.
Record VO_MATRIX := mkMat {
  _pos : vec3; _scale : vec3; _rotate : vec3; _texpos : vec3; _texscale : vec3; _texrotate : vec3 }.
Record VO_MODEITEM := mkItem {
  _window : VOSPLIT_POSITION; _default : VO_MATRIX; _matrix : VO_MATRIX; _type : Z; _ismain : bool; _showframe : bool }.
Record VO_MODE := mkMode { _item : list VO_MODEITEM; _mode : Z; _count : Z; _showselected : bool }.


Definition _DP : vec3 := vec_of 0 0 0.
Definition _DS : vec3 := vec_of 1 1 1.
Definition _DR : vec3 := vec_of 0 0 0.
Definition _DR1 : vec3 := vec_of 60 0 0.
Definition _DP1 : vec3 := vec_of 0 0 3.
Definition _DP2 : vec3 := vec_of 0 0 2.

(** Every entry of the tables has the same default and current matrix, and leaves the
    texture as it is. *)
Definition item (w : VOSPLIT_POSITION) (p s r : vec3) (t : Z) (main frame : bool) : VO_MODEITEM :=
  mkItem w (mkMat p s r _DP _DS _DR) (mkMat p s r _DP _DS _DR) t main frame.
Definition plain (w : VOSPLIT_POSITION) (t : Z) (main frame : bool) : VO_MODEITEM := item w _DP _DS _DR t main frame.
(** A movable window of half the sphere, turned by [r]. *)
Definition window (w : VOSPLIT_POSITION) (p r0 r : vec3) : VO_MODEITEM :=
  item w p _DS (vadd r0 r) VERTEX_TYPE_HEMISPHERE false false.
Definition about_z (z : Z) : vec3 := vec_of 0 0 z.
Definition about_y (y : Z) : vec3 := vec_of 0 y 0.
Definition whole : VOSPLIT_POSITION := at12 0 0 12 12.
Definition half_y : vec3 := vec (F32.of_Z 1) (F64.to_float (F64.dec 1 2)) (F32.of_Z 1).
Definition cup : vec3 := let c := F64.to_float (F64.dec 85 100) in vec c c c.

Definition VMODE1 := [plain whole VERTEX_TYPE_HEMISPHERE true false].
Definition VMODE2 := [item whole (vec_of 0 0 (-6)) _DS (vec_of 30 180 0) VERTEX_TYPE_CYLINDER true false].
Definition VMODE3 := [plain whole VERTEX_TYPE_EXPAND true false].
Definition VMODE4 := [plain (at12 (-12) 6 24 6) VERTEX_TYPE_PANORAMA true false; plain (at12 0 0 24 6) VERTEX_TYPE_PANORAMA true false].
Definition four (p r : vec3) (about : Z -> vec3) :=
  [item (at12 0 0 6 6) p _DS r VERTEX_TYPE_HEMISPHERE false false; window (at12 6 0 6 6) p r (about (-90));
   window (at12 0 6 6 6) p r (about (-180)); window (at12 6 6 6 6) p r (about (-270))].
Definition VMODE5 := four _DP1 _DR1 about_z.
Definition three (p r : vec3) (about : Z -> vec3) :=
  [item (at12 0 4 6 8) p _DS r VERTEX_TYPE_HEMISPHERE false false; window (at12 6 4 6 8) p r (about 90);
   plain (at12 0 0 12 4) VERTEX_TYPE_PANORAMA false true].
Definition VMODE6 := three _DP1 _DR1 about_z.
Definition six (p r : vec3) (about : Z -> vec3) :=
  [window (at12 8 8 4 4) p r (about 60); window (at12 8 4 4 4) p r (about 120); window (at12 0 0 4 4) p r (about 180);
   window (at12 4 0 4 4) p r (about 240); window (at12 8 0 4 4) p r (about 300); plain (at12 0 4 8 8) VERTEX_TYPE_HEMISPHERE true true].
Definition VMODE7 := six _DP1 _DR1 about_z.
Definition VMODE8 :=
  [item (at12 0 0 6 12) _DP1 _DS _DR1 VERTEX_TYPE_HEMISPHERE false false; item (at12 6 0 6 12) _DP1 _DS _DR1 VERTEX_TYPE_HEMISPHERE false false].
Definition VMODE9 := [item whole _DP half_y _DR VERTEX_TYPE_PANORAMA true false].
Definition VMODE10 := [plain whole VERTEX_TYPE_SPHERE true false].
Definition VMODE11 := [item whole _DP cup (vec_of 60 0 0) VERTEX_TYPE_HEMISPHERE true false].
Definition VMODE12 :=
  [window (at12 8 8 4 4) _DP1 _DR1 (about_z 90); window (at12 8 4 4 4) _DP1 _DR1 (about_z 180);
   plain (at12 0 0 12 4) VERTEX_TYPE_PANORAMA false true; plain (at12 0 4 8 8) VERTEX_TYPE_HEMISPHERE true true].
Definition DUAL_VMODE2 := [item whole (vec_of 0 0 (-6)) _DS (vec_of (-30) 0 0) VERTEX_TYPE_CYLINDER true false].
Definition DUAL_VMODE5 := four _DP2 _DR about_y.
Definition DUAL_VMODE6 := three _DP2 _DR about_y.
Definition DUAL_VMODE7 := six _DP2 _DR about_y.
Definition DUAL_VMODE11 := [item whole _DP2 _DS (vec_of (-90) 0 0) VERTEX_TYPE_HEMISPHERE true false].

(** One lens, and two. *)
Definition _VMode : list VO_MODE :=
  [mkMode VMODE1 SCRN_HEMISPHERE 1 false; mkMode VMODE2 SCRN_CYLINDER 1 false; mkMode VMODE3 SCRN_EXPAND 1 false;
   mkMode VMODE4 SCRN_UPDOWN 2 false; mkMode VMODE5 SCRN_FOUR 4 true; mkMode VMODE6 SCRN_THREE 3 true;
   mkMode VMODE7 SCRN_SIX 6 true; mkMode VMODE8 SCRN_VR 2 true; mkMode VMODE9 SCRN_PANORAMA 1 false;
   mkMode VMODE10 SCRN_STITCH 1 false; mkMode VMODE11 SCRN_CUP 1 false; mkMode VMODE12 SCRN_FOUREX 4 true].
Definition _Dual_VMode : list VO_MODE :=
  [mkMode VMODE1 SCRN_HEMISPHERE 1 false; mkMode DUAL_VMODE2 SCRN_CYLINDER 1 false; mkMode VMODE3 SCRN_EXPAND 1 false;
   mkMode VMODE4 SCRN_UPDOWN 2 false; mkMode DUAL_VMODE5 SCRN_FOUR 4 true; mkMode DUAL_VMODE6 SCRN_THREE 3 true;
   mkMode DUAL_VMODE7 SCRN_SIX 6 true; mkMode VMODE8 SCRN_VR 2 true; mkMode VMODE9 SCRN_PANORAMA 1 false;
   mkMode VMODE10 SCRN_STITCH 1 false; mkMode DUAL_VMODE11 SCRN_CUP 1 false; mkMode VMODE12 SCRN_FOUREX 4 true].

(** ** The outlines *)

Record outline := mkFrame { mLeft : spec_float; mRigth : spec_float; mTop : spec_float; mBottom : spec_float; mIsUpdatePosition : bool }.
Definition six_UpdatePosition (tbstart tbend lrstart lrend : spec_float) : outline := mkFrame lrstart lrend tbstart tbend true.
(** The left and right edges of the outline on the unrolled picture; whole numbers
    below 720, which floats hold exactly. *)
Definition unrolled (lr rr : Z) : Z * Z :=
  let l := cmod lr 360 in
  let r := cmod rr 360 in
  let '(l, r) :=
    if r <? l then if (l <? 0) && (r <? 0) then (0, 360 + r) else (l, 360)
    else if (l <? 0) && (r <? 0) then (360 + l, 360 + r) else (l, r) in
  (if l <? 0 then 0 else l, r).
Definition expand_UpdatePosition (tbstart tbend lrstart lrend : spec_float) : outcome outline :=
  let* lr := F32.to_int lrstart in
  let* rr := F32.to_int lrend in
  let '(l, r) := unrolled lr rr in
  Done (mkFrame (F32.of_Z l) (F32.of_Z r) (F32.sub (F32.of_Z 70) tbstart) (F32.sub (F32.of_Z 70) tbend) true).

(** ** The state *)

Record screen := mkVoi {
  m_aspect : spec_float; mDualMode : Z; mCurrentMode : Z; single : list VO_MODE; dual : list VO_MODE; (* mVertexList *)
  mSelected : Z; _NeedDraw : bool; mleftangle : spec_float; mrightangle : spec_float;
  mChangeAnimation : bool; mChangeMode : Z; mChangeStep : Z; mChangeStepCount : Z;
  mSix : outline; mExpand : outline                     (* mFrameList *)
}.
Definition modes (s : screen) : outcome (list VO_MODE) :=
  if mDualMode s =? 0 then Done (single s) else if mDualMode s =? 1 then Done (dual s) else Fault.
Definition with_modes (s : screen) (l : list VO_MODE) : screen :=
  mkVoi (m_aspect s) (mDualMode s) (mCurrentMode s) (if mDualMode s =? 0 then l else single s) (if mDualMode s =? 0 then dual s else l)
    (mSelected s) (_NeedDraw s) (mleftangle s) (mrightangle s) (mChangeAnimation s) (mChangeMode s) (mChangeStep s) (mChangeStepCount s)
    (mSix s) (mExpand s).
Definition needing (s : screen) : screen :=
  mkVoi (m_aspect s) (mDualMode s) (mCurrentMode s) (single s) (dual s) (mSelected s) true (mleftangle s) (mrightangle s)
    (mChangeAnimation s) (mChangeMode s) (mChangeStep s) (mChangeStepCount s) (mSix s) (mExpand s).
Definition SetSelected (s : screen) (value : bool) (scnindex : Z) : screen :=
  mkVoi (m_aspect s) (mDualMode s) (mCurrentMode s) (single s) (dual s) scnindex (_NeedDraw s) (mleftangle s) (mrightangle s)
    (mChangeAnimation s) (mChangeMode s) (mChangeStep s) (mChangeStepCount s) (mSix s) (mExpand s).
Definition GetSelected (s : screen) (scnindex : Z) : Z := mSelected s.
Definition SetDualMode (s : screen) (mode : Z) : screen :=
  mkVoi (m_aspect s) mode (mCurrentMode s) (single s) (dual s) (mSelected s) (_NeedDraw s) (mleftangle s) (mrightangle s)
    (mChangeAnimation s) (mChangeMode s) (mChangeStep s) (mChangeStepCount s) (mSix s) (mExpand s).
Definition DualMode (s : screen) : bool := mDualMode s =? 1.
Definition GetSwitchAnimation (s : screen) : bool := mChangeAnimation s.
Definition GetScreenMode (s : screen) : Z := mCurrentMode s.
(** The members of a change of mode, and the mode. *)
Definition changing (s : screen) (mode : Z) (ani : bool) (next step count : Z) : screen :=
  mkVoi (m_aspect s) (mDualMode s) mode (single s) (dual s) (mSelected s) (_NeedDraw s) (mleftangle s) (mrightangle s)
    ani next step count (mSix s) (mExpand s).
Definition outlined (s : screen) (a b : outline) : screen :=
  mkVoi (m_aspect s) (mDualMode s) (mCurrentMode s) (single s) (dual s) (mSelected s) (_NeedDraw s) (mleftangle s) (mrightangle s)
    (mChangeAnimation s) (mChangeMode s) (mChangeStep s) (mChangeStepCount s) a b.
(** UpdateAspect on the screen's own members; the pictures' aspects are GL's. *)
Definition UpdateAspect (s : screen) (aspect : spec_float) : screen :=
  mkVoi aspect (mDualMode s) (mCurrentMode s) (single s) (dual s) (mSelected s) (_NeedDraw s) (mleftangle s) (mrightangle s)
    (mChangeAnimation s) (mChangeMode s) (mChangeStep s) (mChangeStepCount s) (mSix s) (mExpand s).

(** The constructor.  The members of the change are not set there: [garbage] is what
    they happen to be, and the change thread starts on them. *)
Definition VertexObjectImpl (aspect viewangle : spec_float) (garbage : bool * Z * Z * Z) : screen :=
  let '(ani, next, step, count) := garbage in
  let left := F32.sub (F32.of_Z 360) (F32.add (F32.of_Z 225) (F32.div (F32.mul (F32.of_Z 60) aspect) (F32.of_Z 2))) in
  let va := F32.mul viewangle aspect in
  mkVoi aspect 0 SCRN_HEMISPHERE _VMode _Dual_VMode 0 false left (F32.add left (F32.of_Z 360)) ani next step count
    (mkFrame (F32.of_Z 40) (F32.add (F32.of_Z 40) va) (F32.of_Z 0) (F32.of_Z 30) false)
    (mkFrame (F32.of_Z 0) va (F32.of_Z 0) (F32.of_Z 60) false).

(** ** The windows of a mode *)

Fixpoint find_mode (mode : Z) (i : Z) (l : list VO_MODE) : option Z :=
  match l with
  | [] => None
  | m :: l => if _mode m =? mode then Some i else find_mode mode (i + 1) l
  end.
(** The entry's place in the list stands for the pointer. *)
Definition getCurrent (s : screen) (mode : Z) : outcome (option Z) := let* l := modes s in Done (find_mode mode 0 l).
Definition at_ {A} (l : list A) (i : Z) : outcome A := match znth l i with Some a => Done a | None => Fault end.
Definition entry (s : screen) (i : Z) : outcome VO_MODE := let* l := modes s in at_ l i.
Definition set_entry (s : screen) (i : Z) (m : VO_MODE) : outcome screen :=
  let* l := modes s in Done (with_modes s (zset l i m)).
Definition set_item (m : VO_MODE) (k : Z) (it : VO_MODEITEM) : VO_MODE := mkMode (zset (_item m) k it) (_mode m) (_count m) (_showselected m).
Definition set_matrix (it : VO_MODEITEM) (x : VO_MATRIX) : VO_MODEITEM := mkItem (_window it) (_default it) x (_type it) (_ismain it) (_showframe it).
Definition the_item (s : screen) (i k : Z) : outcome VO_MODEITEM := let* m := entry s i in at_ (_item m) k.
Definition change_item (s : screen) (i k : Z) (f : VO_MODEITEM -> VO_MODEITEM) : outcome screen :=
  let* m := entry s i in let* it := at_ (_item m) k in set_entry s i (set_item m k (f it)).

(** The common shape of the six accessors: nothing happens without the mode or
    outside its windows. *)
Definition on_window (s : screen) (k : Z) (f : VO_MATRIX -> VO_MATRIX) : outcome screen :=
  let* c := getCurrent s (mCurrentMode s) in
  match c with
  | None => Done s
  | Some i =>
      let* m := entry s i in
      if (_count m - 1 <? k) || (k <? 0) then Done s
      else let* s := change_item s i k (fun it => set_matrix it (f (_matrix it))) in Done (needing s)
  end.
Definition from_window (s : screen) (k : Z) (f : VO_MATRIX -> vec3) : outcome vec3 :=
  let* c := getCurrent s (mCurrentMode s) in
  match c with
  | None => Done (vec_of 0 0 0)
  | Some i =>
      let* m := entry s i in
      if (_count m - 1 <? k) || (k <? 0) then Done (vec_of 0 0 0)
      else let* it := at_ (_item m) k in Done (f (_matrix it))
  end.

Definition put_pos (texture : bool) (v : vec3) (x : VO_MATRIX) : VO_MATRIX :=
  if texture then mkMat (_pos x) (_scale x) (_rotate x) v (_texscale x) (_texrotate x)
  else mkMat v (_scale x) (_rotate x) (_texpos x) (_texscale x) (_texrotate x).
Definition put_scale (texture : bool) (v : vec3) (x : VO_MATRIX) : VO_MATRIX :=
  if texture then mkMat (_pos x) (_scale x) (_rotate x) (_texpos x) v (_texrotate x)
  else mkMat (_pos x) v (_rotate x) (_texpos x) (_texscale x) (_texrotate x).
Definition put_rotate (texture : bool) (v : vec3) (x : VO_MATRIX) : VO_MATRIX :=
  if texture then mkMat (_pos x) (_scale x) (_rotate x) (_texpos x) (_texscale x) v
  else mkMat (_pos x) (_scale x) v (_texpos x) (_texscale x) (_texrotate x).
(** With two lenses the texture goes round: only the fraction of its position counts. *)
Definition wrapped (x : VO_MATRIX) : VO_MATRIX :=
  let t := _texpos x in
  mkMat (_pos x) (_scale x) (_rotate x) (vec (F32.sub (Surface.x t) (F32.floor (Surface.x t))) (Surface.y t) (Surface.z t)) (_texscale x) (_texrotate x).
Definition SetPosition (s : screen) (pos : vec3) (texture : bool) (k : Z) : outcome screen :=
  on_window s k (fun x => let x := put_pos texture pos x in if negb (mDualMode s =? 0) then wrapped x else x).
Definition SetScale (s : screen) (scale : vec3) (texture : bool) (k : Z) : outcome screen := on_window s k (put_scale texture scale).
Definition setRotate (s : screen) (rotate : vec3) (texture : bool) (k : Z) : outcome screen := on_window s k (put_rotate texture rotate).
Definition GetPosition (s : screen) (texture : bool) (k : Z) : outcome vec3 := from_window s k (if texture then _texpos else _pos).
Definition GetScale (s : screen) (texture : bool) (k : Z) : outcome vec3 := from_window s k (if texture then _texscale else _scale).
Definition GetRotate (s : screen) (texture : bool) (k : Z) : outcome vec3 := from_window s k (if texture then _texrotate else _rotate).

Definition GetScreenCount (s : screen) : outcome Z :=
  let* c := getCurrent s (mCurrentMode s) in
  match c with None => Done 0 | Some i => let* m := entry s i in Done (_count m) end.

(** The loops over the windows of an entry. *)
Fixpoint windows (f : VO_MODEITEM -> VO_MODEITEM) (i k : Z) (n : nat) (s : screen) : outcome screen :=
  match n with
  | O => Done s
  | S n => let* s := change_item s i k f in windows f i (k + 1) n s
  end.
Definition ResetPosition (s : screen) : outcome screen :=
  let* c := getCurrent s (mCurrentMode s) in
  match c with
  | None => Done (needing s)
  | Some i =>
      let* m := entry s i in
      let* s := windows (fun it => set_matrix it (_default it)) i 0 (Z.to_nat (_count m)) s in
      Done (needing s)
  end.

(** The window is not tested from below. *)
Definition TransformVertex (s : screen) (mode : Z) (v : vec3) (texture : bool) (ty k : Z) : outcome screen :=
  let* c := getCurrent s mode in
  match c with
  | None => Done s
  | Some i =>
      let* m := entry s i in
      if _count m <=? k then Done s
      else
        let put f := change_item s i k (fun it => set_matrix it (f (_matrix it))) in
        if ty =? TRANSFORM_POSITION then put (put_pos texture v)
        else if ty =? TRANSFORM_SCALE then put (put_scale texture v)
        else if ty =? TRANSFORM_ROTATE then put (put_rotate texture v)
        else Done s
  end.

(** The windows of one lens that can be moved look down by half the angle of view. *)
Definition lower (angle : spec_float) (it : VO_MODEITEM) : VO_MODEITEM :=
  if (_type it =? VERTEX_TYPE_HEMISPHERE) && negb (_ismain it) then
    let r0 := _rotate (_default it) in
    let r := vec (F32.sub (F32.of_Z 90) (F32.div angle (F32.of_Z 2))) (Surface.y r0) (Surface.z r0) in
    mkItem (_window it) (put_rotate false r (_default it)) (put_rotate false r (_matrix it)) (_type it) (_ismain it) (_showframe it)
  else it.
Fixpoint entries (f : VO_MODEITEM -> VO_MODEITEM) (i : Z) (n : nat) (s : screen) : outcome screen :=
  match n with
  | O => Done s
  | S n =>
      let* m := entry s i in
      let* s := windows f i 0 (Z.to_nat (_count m)) s in
      entries f (i + 1) n s
  end.
Definition SetViewAngle (s : screen) (angle : spec_float) : outcome screen :=
  if negb (mDualMode s =? 0) then Done s
  else let* l := modes s in entries (lower angle) 0 (length l) s.

(** The next window with an outline, from [i]; and where to go on. *)
Fixpoint shown_from (k : Z) (its : list VO_MODEITEM) : option (Z * Z) :=
  match its with
  | [] => None
  | it :: its => if _showframe it then Some (k, k + 1) else shown_from (k + 1) its
  end.
Definition getFrameTypeVO (s : screen) (index : Z) : outcome (option (VO_MODEITEM * Z)) :=
  let* c := getCurrent s (mCurrentMode s) in
  match c with
  | None => Done None
  | Some i =>
      let* m := entry s i in
      match shown_from index (drop (Z.to_nat index) (take (Z.to_nat (_count m)) (_item m))) with
      | None => Done None
      | Some (k, next) => let* it := at_ (_item m) k in Done (Some (it, next))
      end
  end.

(** ** Changing the mode *)

Definition SwitchMode (s : screen) (mode : Z) (Ani : bool) : outcome screen :=
  let s := SetSelected s true 0 in
  let at_once := changing s mode false (mChangeMode s) (mChangeStep s) (mChangeStepCount s) in
  if negb Ani || negb (mDualMode s =? 0) then Done at_once
  else
    let* c1 := getCurrent s (mCurrentMode s) in
    let* c2 := getCurrent s mode in
    match c1, c2 with
    | Some i1, Some i2 =>
        let* m1 := entry s i1 in
        let* m2 := entry s i2 in
        if (_count m1 =? _count m2) && negb (i1 =? i2) then Done (changing s (mCurrentMode s) true mode 0 60)
        else Done at_once
    | _, _ => Done at_once
    end.

(** One turn of HandleChangeThread. *)
Definition HandleChangeThread (s : screen) : screen :=
  if mChangeAnimation s then
    let step := mChangeStep s + 1 in
    let s :=
      if mChangeStepCount s <=? step then changing s (mChangeMode s) false (mChangeMode s) step (mChangeStepCount s)
      else changing s (mCurrentMode s) true (mChangeMode s) step (mChangeStepCount s) in
    needing s
  else s.
Fixpoint change_turns (n : nat) (s : screen) : screen := match n with O => s | S n => change_turns n (HandleChangeThread s) end.

(** ** The invariant: the windows are those of the tables *)

Definition frame (it : VO_MODEITEM) : VOSPLIT_POSITION * Z * bool * bool := (_window it, _type it, _ismain it, _showframe it).
Definition shape_of (m : VO_MODE) := (_mode m, _count m, frame <$> _item m).
Definition shape (l : list VO_MODE) := shape_of <$> l.
Record ok (s : screen) : Prop := {
  ok_single : shape (single s) = shape _VMode;
  ok_dual : shape (dual s) = shape _VMode;
  ok_mode : mDualMode s = 0 \/ mDualMode s = 1
}.
Definition keeps (f : VO_MODEITEM -> VO_MODEITEM) : Prop := forall it, frame (f it) = frame it.

Lemma znth_inside {A} (l : list A) i : 0 <= i < zlen l -> exists x, znth l i = Some x.
Proof.
  intros H; unfold znth, zlen in *; replace (i <? 0) with false by lia.
  destruct (lookup_lt_is_Some_2 l (Z.to_nat i) ltac:(lia)) as [x Hx]; eauto.
Qed.
Lemma znth_bound {A} (l : list A) i x : znth l i = Some x -> 0 <= i < zlen l.
Proof. unfold znth, zlen; case_bool; [done|]; intros H%lookup_lt_Some; lia. Qed.
Lemma znth_put {A} (l : list A) i j x : 0 <= i < zlen l -> znth (zset l i x) j = if decide (j = i) then Some x else znth l j.
Proof.
  intros H; unfold znth, zset, zlen in *; replace (i <? 0) with false by lia; destruct (decide (j = i)) as [->|Hn].
  - replace (i <? 0) with false by lia; by rewrite list_lookup_insert_eq by lia.
  - destruct (j <? 0) eqn:Ej; [done|]; by rewrite list_lookup_insert_ne by lia.
Qed.
Lemma fmap_zset {A B} (g : A -> B) (l : list A) i x y : znth l i = Some y -> g x = g y -> g <$> zset l i x = g <$> l.
Proof.
  unfold znth, zset; case_bool; [done|]; intros Hl Hg; apply list_eq; intros j; rewrite !list_lookup_fmap.
  destruct (decide (j = Z.to_nat i)) as [->|Hj].
  - rewrite list_lookup_insert_eq by (by eapply lookup_lt_Some); rewrite Hl; cbn; by rewrite Hg.
  - by rewrite list_lookup_insert_ne by done.
Qed.

(** The tables have one entry per mode, with as many windows as it counts. *)
Lemma shape_length l : shape l = shape _VMode -> zlen l = 12.
Proof. intros H; apply (f_equal length) in H; unfold shape in H; rewrite !length_fmap in H; unfold zlen; by rewrite H. Qed.
Lemma shape_entry l i m : shape l = shape _VMode -> znth l i = Some m ->
  exists m0, znth _VMode i = Some m0 /\ shape_of m = shape_of m0 /\ zlen (_item m) = _count m.
Proof.
  intros H Hm; pose proof (znth_bound _ _ _ Hm) as Hb; rewrite (shape_length l H) in Hb.
  destruct (znth_inside _VMode i ltac:(exact Hb)) as (m0 & H0); exists m0; split; [done|].
  assert (E : shape_of m = shape_of m0).
  { unfold znth in Hm, H0; replace (i <? 0) with false in * by lia.
    assert (shape_of <$> l !! Z.to_nat i = shape_of <$> _VMode !! Z.to_nat i) as E
      by (rewrite <- !list_lookup_fmap; by f_equal).
    rewrite Hm, H0 in E; by apply (inj Some) in E. }
  split; [done|]; unfold shape_of in E; assert (Ec := f_equal (fun t => t.1.2) E); assert (Ei := f_equal snd E); cbn in Ec, Ei; apply (f_equal length) in Ei; rewrite !length_fmap in Ei; unfold zlen; rewrite Ei, Ec.
  assert (Hc : forall_range 12 0 (fun i => match znth _VMode i with Some m => Z.of_nat (length (_item m)) =? _count m | None => false end) = true)
    by (vm_compute; reflexivity).
  apply (forall_range_spec 12 0 _) with (x := i) in Hc; [|lia]; rewrite H0 in Hc; lia.
Qed.
Lemma find_mode_shape mode l l' i : _mode <$> l = _mode <$> l' -> find_mode mode i l = find_mode mode i l'.
Proof.
  revert l' i; induction l as [|m l IH]; intros [|m' l'] i H; try done; injection H as E H; cbn; rewrite E; case_bool; [done|by apply IH].
Qed.
Lemma shape_modes l : shape l = shape _VMode -> _mode <$> l = _mode <$> _VMode.
Proof.
  intros H; assert (E : forall l, _mode <$> l = (fun t : Z * Z * list (VOSPLIT_POSITION * Z * bool * bool) => t.1.1) <$> shape l)
    by (intros l0; unfold shape; rewrite <- list_fmap_compose; by apply list_fmap_ext).
  by rewrite !E, H.
Qed.
Lemma find_mode_bound mode l i k : find_mode mode i l = Some k -> i <= k < i + zlen l.
Proof.
  revert i; induction l as [|m l IH]; intros i; cbn; [done|]; unfold zlen in *; cbn [length]; case_bool; [intros [= ->]; lia|].
  intros H%IH; lia.
Qed.

Lemma modes_ok s : ok s -> exists l, modes s = Done l /\ shape l = shape _VMode.
Proof. intros [H1 H2 [H|H]]; unfold modes; rewrite H; cbn; eauto. Qed.
Lemma with_modes_modes s l : ok s -> modes (with_modes s l) = Done l.
Proof. intros [_ _ [H|H]]; unfold modes, with_modes; cbn; by rewrite H. Qed.
Lemma with_modes_ok s l : ok s -> shape l = shape _VMode -> ok (with_modes s l).
Proof. intros [H1 H2 H] Hl; constructor; cbn; [by case_bool|by case_bool|done]. Qed.
Lemma getCurrent_ok s mode : ok s -> getCurrent s mode = Done (find_mode mode 0 _VMode).
Proof.
  intros H; destruct (modes_ok s H) as (l & E & Hl); unfold getCurrent; rewrite E; cbn [obind]; f_equal.
  by apply find_mode_shape, shape_modes.
Qed.
Lemma found_bound mode i : find_mode mode 0 _VMode = Some i -> 0 <= i < 12.
Proof. intros H%find_mode_bound; change (zlen _VMode) with 12 in H; lia. Qed.
Lemma entry_ok s i : ok s -> 0 <= i < 12 ->
  exists m m0, entry s i = Done m /\ znth _VMode i = Some m0 /\ shape_of m = shape_of m0 /\ zlen (_item m) = _count m.
Proof.
  intros H Hi; destruct (modes_ok s H) as (l & E & Hl); unfold entry; rewrite E; cbn [obind]; unfold at_.
  destruct (znth_inside l i ltac:(rewrite (shape_length l Hl); lia)) as (m & Em); rewrite Em.
  destruct (shape_entry l i m Hl Em) as (m0 & H0 & H1 & H2); by exists m, m0.
Qed.

(** Writing a window changes that window only. *)
Lemma the_item_ok s i k m : ok s -> entry s i = Done m -> 0 <= k < _count m -> 0 <= i < 12 -> exists it, the_item s i k = Done it.
Proof.
  intros H Em Hk Hi; unfold the_item; rewrite Em; cbn [obind]; destruct (entry_ok s i H Hi) as (m' & m0 & E & _ & _ & Hz).
  rewrite Em in E; injection E as <-; unfold at_; destruct (znth_inside (_item m) k ltac:(lia)) as (it & Eit); rewrite Eit; eauto.
Qed.
Lemma change_item_spec s i k f it : ok s -> keeps f -> the_item s i k = Done it ->
  exists l, change_item s i k f = Done (with_modes s l) /\ ok (with_modes s l) /\
    forall j c, the_item (with_modes s l) j c = if decide (j = i /\ c = k) then Done (f it) else the_item s j c.
Proof.
  intros H Hf Hit; destruct (modes_ok s H) as (l & E & Hl); unfold the_item, entry in Hit; rewrite E in Hit; cbn [obind] in Hit.
  unfold at_ in Hit at 1; destruct (znth l i) as [m|] eqn:Em; [|done]; cbn [obind] in Hit; unfold at_ in Hit.
  destruct (znth (_item m) k) as [it'|] eqn:Ek; [|done]; injection Hit as ->.
  pose proof (znth_bound _ _ _ Em) as Hbi; pose proof (znth_bound _ _ _ Ek) as Hbk.
  exists (zset l i (set_item m k (f it))).
  assert (Hs : shape (zset l i (set_item m k (f it))) = shape _VMode).
  { rewrite <- Hl; apply (fmap_zset _ _ _ _ m Em); unfold shape_of, set_item; cbn [_mode _count _item].
    by rewrite (fmap_zset frame _ _ _ it Ek (Hf it)). }
  split; [|split].
  - unfold change_item, entry, set_entry; rewrite E; cbn [obind]; unfold at_; rewrite Em; cbn [obind]; by rewrite Ek.
  - by apply with_modes_ok.
  - intros j c; unfold the_item, entry; rewrite E, with_modes_modes by done; cbn [obind]; unfold at_; rewrite znth_put by done.
    destruct (decide (j = i)) as [->|Hj]; cbn [obind].
    + unfold set_item; cbn [_item]; rewrite znth_put by done; destruct (decide (c = k)) as [->|Hc].
      * by rewrite decide_True by done.
      * rewrite decide_False by (intros [? ?]; done); by rewrite Em.
    + by rewrite decide_False by (intros [? ?]; done).
Qed.

(** How many windows a mode has. *)
Definition windows_of (mode : Z) : Z :=
  match find_mode mode 0 _VMode with
  | Some i => match znth _VMode i with Some m => _count m | None => 0 end
  | None => 0
  end.
Lemma current_ok s mode : ok s ->
  find_mode mode 0 _VMode = None /\ windows_of mode = 0 \/
  exists i m, find_mode mode 0 _VMode = Some i /\ 0 <= i < 12 /\ entry s i = Done m /\ _count m = windows_of mode /\ zlen (_item m) = _count m.
Proof.
  intros H; unfold windows_of; destruct (find_mode mode 0 _VMode) as [i|] eqn:Ef; [right|by left].
  pose proof (found_bound _ _ Ef) as Hi; destruct (entry_ok s i H Hi) as (m & m0 & Em & H0 & Hs & Hz).
  exists i, m; rewrite H0; repeat (split; [done|]); split; [|done]; exact (f_equal (fun t => t.1.2) Hs).
Qed.
Lemma GetScreenCount_ok s : ok s -> GetScreenCount s = Done (windows_of (mCurrentMode s)).
Proof.
  intros H; unfold GetScreenCount; rewrite getCurrent_ok by done; cbn [obind].
  destruct (current_ok s (mCurrentMode s) H) as [(E & Hw)|(i & m & E & _ & Em & Hc & _)]; rewrite E; [by rewrite Hw|].
  rewrite Em; cbn [obind]; by rewrite Hc.
Qed.

Lemma set_matrix_keeps (f : VO_MODEITEM -> VO_MATRIX) : keeps (fun it => set_matrix it (f it)).
Proof. done. Qed.
Lemma lower_keeps angle : keeps (lower angle).
Proof. intros it; unfold lower; case_bool; done. Qed.
#[local] Hint Resolve set_matrix_keeps lower_keeps : core.

Lemma change_in s i k f m : ok s -> keeps f -> 0 <= i < 12 -> entry s i = Done m -> 0 <= k < _count m ->
  exists it l, the_item s i k = Done it /\ change_item s i k f = Done (with_modes s l) /\ ok (with_modes s l) /\
    forall j c, the_item (with_modes s l) j c = if decide (j = i /\ c = k) then Done (f it) else the_item s j c.
Proof.
  intros H Hf Hi Em Hk; destruct (the_item_ok s i k m H Em Hk Hi) as (it & Eit).
  destruct (change_item_spec s i k f it H Hf Eit) as (l & H1 & H2 & H3); by exists it, l.
Qed.
(** The accessors, on a window of the current mode and on anything else. *)
Lemma on_window_spec s k f : ok s -> 0 <= k < windows_of (mCurrentMode s) ->
  exists i it l, find_mode (mCurrentMode s) 0 _VMode = Some i /\ the_item s i k = Done it /\
    on_window s k f = Done (needing (with_modes s l)) /\ ok (with_modes s l) /\
    forall j c, the_item (with_modes s l) j c = if decide (j = i /\ c = k) then Done (set_matrix it (f (_matrix it))) else the_item s j c.
Proof.
  intros H Hk; destruct (current_ok s (mCurrentMode s) H) as [(_ & Hw)|(i & m & E & Hi & Em & Hc & Hz)]; [lia|].
  destruct (change_in s i k (fun it => set_matrix it (f (_matrix it))) m H ltac:(auto) Hi Em ltac:(lia)) as (it & l & Eit & Ec & Hok & Hl).
  exists i, it, l; split; [done|]; split; [done|]; split; [|done].
  unfold on_window; rewrite getCurrent_ok by done; cbn [obind]; rewrite E, Em; cbn [obind].
  replace ((_count m - 1 <? k) || (k <? 0)) with false by lia; by rewrite Ec.
Qed.
Lemma on_window_none s k f : ok s -> (k < 0 \/ windows_of (mCurrentMode s) <= k) -> on_window s k f = Done s.
Proof.
  intros H Hk; unfold on_window; rewrite getCurrent_ok by done; cbn [obind].
  destruct (current_ok s (mCurrentMode s) H) as [(E & _)|(i & m & E & Hi & Em & Hc & _)]; rewrite E; [done|]; rewrite Em; cbn [obind].
  by replace ((_count m - 1 <? k) || (k <? 0)) with true by lia.
Qed.
Lemma from_window_spec s k f : ok s -> 0 <= k < windows_of (mCurrentMode s) ->
  exists i it, find_mode (mCurrentMode s) 0 _VMode = Some i /\ the_item s i k = Done it /\ from_window s k f = Done (f (_matrix it)).
Proof.
  intros H Hk; destruct (current_ok s (mCurrentMode s) H) as [(_ & Hw)|(i & m & E & Hi & Em & Hc & Hz)]; [lia|].
  destruct (the_item_ok s i k m H Em ltac:(lia) Hi) as (it & Eit); exists i, it; split; [done|]; split; [done|].
  unfold from_window; rewrite getCurrent_ok by done; cbn [obind]; rewrite E, Em; cbn [obind].
  replace ((_count m - 1 <? k) || (k <? 0)) with false by lia.
  unfold the_item in Eit; rewrite Em in Eit; cbn [obind] in Eit; by rewrite Eit.
Qed.
Lemma from_window_none s k f : ok s -> (k < 0 \/ windows_of (mCurrentMode s) <= k) -> from_window s k f = Done (vec_of 0 0 0).
Proof.
  intros H Hk; unfold from_window; rewrite getCurrent_ok by done; cbn [obind].
  destruct (current_ok s (mCurrentMode s) H) as [(E & _)|(i & m & E & Hi & Em & Hc & _)]; rewrite E; [done|]; rewrite Em; cbn [obind].
  by replace ((_count m - 1 <? k) || (k <? 0)) with true by lia.
Qed.
(** The six as one, by the kind of value: position, scale, rotation. *)
Definition put (ty : Z) (s : screen) (v : vec3) (texture : bool) (k : Z) : outcome screen :=
  if ty =? 0 then SetPosition s v texture k else if ty =? 1 then SetScale s v texture k else setRotate s v texture k.
Definition get (ty : Z) (s : screen) (texture : bool) (k : Z) : outcome vec3 :=
  if ty =? 0 then GetPosition s texture k else if ty =? 1 then GetScale s texture k else GetRotate s texture k.
Definition putter (ty : Z) (texture : bool) (v : vec3) : VO_MATRIX -> VO_MATRIX :=
  if ty =? 0 then put_pos texture v else if ty =? 1 then put_scale texture v else put_rotate texture v.
Definition getter (ty : Z) (texture : bool) : VO_MATRIX -> vec3 :=
  if ty =? 0 then (if texture then _texpos else _pos) else if ty =? 1 then (if texture then _texscale else _scale)
  else (if texture then _texrotate else _rotate).
Lemma put_window ty s v texture k : mDualMode s = 0 -> put ty s v texture k = on_window s k (putter ty texture v).
Proof. intros H; unfold put, putter, SetPosition, SetScale, setRotate; rewrite H; cbn [Z.eqb negb]; by case_bool. Qed.
Lemma get_window ty s texture k : get ty s texture k = from_window s k (getter ty texture).
Proof. unfold get, getter, GetPosition, GetScale, GetRotate; by case_bool. Qed.
Lemma getter_putter ty ty' t t' v x : 0 <= ty <= 2 -> 0 <= ty' <= 2 ->
  getter ty' t' (putter ty t v x) = if decide (ty' = ty /\ t' = t) then v else getter ty' t' x.
Proof.
  intros H H'; assert (ty = 0 \/ ty = 1 \/ ty = 2) as [->|[->| ->]] by lia;
    (assert (ty' = 0 \/ ty' = 1 \/ ty' = 2) as [->|[->| ->]] by lia); destruct t, t'; cbn; first [reflexivity|by rewrite decide_True|by rewrite decide_False by (intros [? ?])].
Qed.

(** A value set on a window is read back, and nothing else has changed. *)
Lemma set_get_lemma s ty t v k : ok s -> mDualMode s = 0 -> 0 <= ty <= 2 -> 0 <= k < windows_of (mCurrentMode s) ->
  exists s', put ty s v t k = Done s' /\ ok s' /\ _NeedDraw s' = true /\ mCurrentMode s' = mCurrentMode s /\
    forall ty' t' k', 0 <= ty' <= 2 -> get ty' s' t' k' = if decide (ty' = ty /\ t' = t /\ k' = k) then Done v else get ty' s t' k'.
Proof.
  intros H Hd Hty Hk; rewrite put_window by done.
  destruct (on_window_spec s k (putter ty t v) H Hk) as (i & it & l & Ei & Eit & E & Hok & Hl); exists (needing (with_modes s l)).
  split; [done|]; split; [by destruct Hok|]; split; [done|]; split; [done|]; intros ty' t' k' Hty'; rewrite !get_window.
  assert (Hok' : ok (needing (with_modes s l))) by (by destruct Hok).
  assert (Hit : forall j c, the_item (needing (with_modes s l)) j c = the_item (with_modes s l) j c) by done.
  destruct (decide (0 <= k' < windows_of (mCurrentMode s))) as [Hk'|Hk'].
  - destruct (from_window_spec (needing (with_modes s l)) k' (getter ty' t') Hok' Hk') as (i1 & it1 & Ei1 & Eit1 & E1); cbn [mCurrentMode needing with_modes] in Ei1.
    destruct (from_window_spec s k' (getter ty' t') H Hk') as (i2 & it2 & Ei2 & Eit2 & E2); rewrite E1, E2.
    rewrite Ei in Ei1, Ei2; injection Ei1 as <-; injection Ei2 as <-; rewrite Hit, Hl in Eit1; destruct (decide (k' = k)) as [->|Hn].
    + rewrite decide_True in Eit1 by done; injection Eit1 as <-; rewrite Eit in Eit2; injection Eit2 as <-; cbn [_matrix set_matrix].
      rewrite getter_putter by done; case_decide as Hc; [by rewrite decide_True by tauto|by rewrite decide_False by tauto].
    + rewrite decide_False in Eit1 by tauto; rewrite Eit1 in Eit2; injection Eit2 as ->; by rewrite decide_False by tauto.
  - rewrite !from_window_none by (try done; cbn; lia); rewrite decide_False; [done|]; intros (_ & _ & ->); lia.
Qed.

(** ** The loops *)

Lemma with_modes_twice s l l' : with_modes (with_modes s l) l' = with_modes s l'.
Proof. unfold with_modes; cbn; by case_bool. Qed.
Lemma with_modes_same s l : modes s = Done l -> with_modes s l = s.
Proof. unfold modes, with_modes; destruct s; cbn; case_bool; by intros [= ->]. Qed.
Lemma entry_with s i l m : ok s -> shape l = shape _VMode -> entry s i = Done m -> 0 <= i < 12 ->
  exists m', entry (with_modes s l) i = Done m' /\ _count m' = _count m.
Proof.
  intros H Hl Em Hi; destruct (entry_ok s i H Hi) as (m1 & m0 & E & H0 & Hs & _); rewrite Em in E; injection E as <-.
  destruct (entry_ok (with_modes s l) i (with_modes_ok s l H Hl) Hi) as (m' & m0' & E' & H0' & Hs' & _).
  rewrite H0 in H0'; injection H0' as <-; exists m'; split; [done|]; rewrite <- Hs in Hs'; exact (f_equal (fun t => t.1.2) Hs').
Qed.
Lemma ok_lists s l : ok s -> ok (with_modes s l) -> shape l = shape _VMode.
Proof. intros [_ _ H] [H1 H2 _]; unfold with_modes in *; cbn in *; destruct H as [H|H]; by rewrite H in *. Qed.

Lemma windows_spec f i n : keeps f -> 0 <= i < 12 -> forall s k m, ok s -> entry s i = Done m -> 0 <= k -> k + Z.of_nat n <= _count m ->
  exists l, windows f i k n s = Done (with_modes s l) /\ ok (with_modes s l) /\
    forall j c, the_item (with_modes s l) j c =
      if decide (j = i /\ k <= c < k + Z.of_nat n) then (let* it := the_item s j c in Done (f it)) else the_item s j c.
Proof.
  intros Hf Hi; induction n as [|n IH]; intros s k m H Em Hk Hn; cbn [windows].
  - destruct (modes_ok s H) as (l & El & Hl); exists l; rewrite with_modes_same by done; split; [done|]; split; [done|].
    intros j c; rewrite decide_False; [done|lia].
  - destruct (change_in s i k f m H Hf Hi Em ltac:(lia)) as (it & l1 & Eit & E1 & Hok1 & Hl1); rewrite E1; cbn [obind].
    destruct (entry_with s i l1 m H (ok_lists s l1 H Hok1) Em Hi) as (m1 & Em1 & Hc1).
    destruct (IH (with_modes s l1) (k + 1) m1 Hok1 Em1 ltac:(lia) ltac:(lia)) as (l2 & E2 & Hok2 & Hl2).
    rewrite with_modes_twice in *; exists l2; split; [done|]; split; [done|]; intros j c; rewrite Hl2, !Hl1.
    destruct (decide (j = i /\ c = k)) as [[-> ->]|Hn1].
    + rewrite decide_False by lia; rewrite decide_True by lia; by rewrite Eit.
    + destruct (decide (j = i /\ k + 1 <= c < k + 1 + Z.of_nat n)); [by rewrite decide_True by lia|by rewrite decide_False by lia].
Qed.
Lemma entries_spec f n : keeps f -> forall s i, ok s -> 0 <= i -> i + Z.of_nat n <= 12 ->
  exists l, entries f i n s = Done (with_modes s l) /\ ok (with_modes s l) /\
    forall j c it, the_item s j c = Done it -> the_item (with_modes s l) j c = Done (if decide (i <= j < i + Z.of_nat n) then f it else it).
Proof.
  intros Hf; induction n as [|n IH]; intros s i H Hi Hn; cbn [entries].
  - destruct (modes_ok s H) as (l & El & Hl); exists l; rewrite with_modes_same by done; split; [done|]; split; [done|].
    intros j c it E; rewrite decide_False by lia; done.
  - destruct (entry_ok s i H ltac:(lia)) as (m & m0 & Em & _ & _ & Hz); rewrite Em; cbn [obind].
    assert (0 <= _count m) by (rewrite <- Hz; unfold zlen; lia).
    destruct (windows_spec f i (Z.to_nat (_count m)) Hf ltac:(lia) s 0 m H Em ltac:(lia) ltac:(lia)) as (l1 & E1 & Hok1 & Hl1); rewrite E1; cbn [obind].
    destruct (IH (with_modes s l1) (i + 1) Hok1 ltac:(lia) ltac:(lia)) as (l2 & E2 & Hok2 & Hl2); rewrite with_modes_twice in *.
    exists l2; split; [done|]; split; [done|]; intros j c it Eit.
    assert (Ej : the_item (with_modes s l1) j c = Done (if decide (j = i) then f it else it)).
    { rewrite Hl1, Eit; cbn [obind]; destruct (decide (j = i)) as [->|Hj]; [|by rewrite decide_False by tauto].
      rewrite decide_True; [done|]; unfold the_item in Eit; rewrite Em in Eit; cbn [obind] in Eit; unfold at_ in Eit.
      destruct (znth (_item m) c) eqn:Ec; [|done]; apply znth_bound in Ec; lia. }
    rewrite (Hl2 j c _ Ej); destruct (decide (j = i)) as [->|Hj].
    + rewrite decide_False by lia; by rewrite decide_True by lia.
    + destruct (decide (i + 1 <= j < i + 1 + Z.of_nat n)); [by rewrite decide_True by lia|by rewrite decide_False by lia].
Qed.

Lemma needing_ok s : ok s -> ok (needing s).
Proof. by intros []. Qed.
Lemma changing_ok s a b c d e : ok s -> ok (changing s a b c d e).
Proof. by intros []. Qed.
Lemma SetSelected_ok s b k : ok s -> ok (SetSelected s b k).
Proof. by intros []. Qed.
#[local] Hint Resolve needing_ok changing_ok SetSelected_ok : core.

(** The position, the scale and the rotation of the windows of the current mode are
    their defaults again. *)
Lemma reset_lemma s : ok s ->
  exists s', ResetPosition s = Done s' /\ ok s' /\ _NeedDraw s' = true /\ mCurrentMode s' = mCurrentMode s /\
    forall j c it, the_item s j c = Done it ->
      the_item s' j c = Done (if decide (find_mode (mCurrentMode s) 0 _VMode = Some j) then set_matrix it (_default it) else it).
Proof.
  intros H; unfold ResetPosition; rewrite getCurrent_ok by done; cbn [obind].
  destruct (current_ok s (mCurrentMode s) H) as [(E & _)|(i & m & E & Hi & Em & Hc & Hz)]; rewrite E.
  - exists (needing s); split; [done|]; split; [auto|]; do 2 (split; [done|]); intros j c it Hit; by rewrite decide_False by done.
  - rewrite Em; cbn [obind]; assert (0 <= _count m) by (rewrite <- Hz; unfold zlen; lia).
    destruct (windows_spec (fun it => set_matrix it (_default it)) i (Z.to_nat (_count m)) ltac:(auto) Hi s 0 m H Em ltac:(lia) ltac:(lia))
      as (l & El & Hok & Hl); rewrite El; cbn [obind]; exists (needing (with_modes s l)); split; [done|]; split; [auto|]; do 2 (split; [done|]).
    intros j c it Hit; change (the_item (needing (with_modes s l)) j c) with (the_item (with_modes s l) j c); rewrite Hl, Hit; cbn [obind].
    destruct (decide (j = i)) as [->|Hj].
    + rewrite (decide_True _ _ (eq_refl : Some i = Some i)); rewrite decide_True; [done|].
      unfold the_item in Hit; rewrite Em in Hit; cbn [obind] in Hit; unfold at_ in Hit; destruct (znth (_item m) c) eqn:Ec; [|done].
      apply znth_bound in Ec; lia.
    + rewrite decide_False by tauto; rewrite decide_False; [done|]; by intros [= ->].
Qed.
Lemma view_angle_lemma s angle : ok s ->
  exists s', SetViewAngle s angle = Done s' /\ ok s' /\ mCurrentMode s' = mCurrentMode s /\
    forall j c it, the_item s j c = Done it -> the_item s' j c = Done (if mDualMode s =? 0 then lower angle it else it).
Proof.
  intros H; unfold SetViewAngle; destruct (mDualMode s =? 0) eqn:Ed; cbn [negb].
  - destruct (modes_ok s H) as (l & El & Hl); rewrite El; cbn [obind].
    destruct (entries_spec (lower angle) (length l) ltac:(auto) s 0 H ltac:(lia)) as (l' & E & Hok & Hl').
    { pose proof (shape_length l Hl); unfold zlen in *; lia. }
    exists (with_modes s l'); split; [done|]; split; [done|]; split; [done|]; intros j c it Hit; rewrite (Hl' j c it Hit).
    rewrite decide_True; [done|]; unfold the_item, entry in Hit; rewrite El in Hit; cbn [obind] in Hit; unfold at_ in Hit at 1.
    destruct (znth l j) eqn:Ej; [|done]; apply znth_bound in Ej; unfold zlen in Ej; lia.
  - exists s; split; [done|]; split; [done|]; split; [done|]; done.
Qed.

(** ** The operations keep the invariant *)

Inductive op :=
| Place (ty : Z) (v : vec3) (texture : bool) (k : Z)
| Reset
| Switch (mode : Z) (ani : bool)
| Tick                                                   (* a turn of the change thread *)
| Angle (angle : spec_float)
| Select (k : Z)
| TwoLenses                                              (* SetDualMode(1) *)
| Transform (mode : Z) (v : vec3) (texture : bool) (ty k : Z)
| Aspect (a : spec_float).
Definition step (s : screen) (o : op) : outcome screen :=
  match o with
  | Place ty v t k => put ty s v t k
  | Reset => ResetPosition s
  | Switch mode ani => SwitchMode s mode ani
  | Tick => Done (HandleChangeThread s)
  | Angle a => SetViewAngle s a
  | Select k => Done (SetSelected s true k)
  | TwoLenses => Done (SetDualMode s 1)
  | Transform mode v t ty k => TransformVertex s mode v t ty k
  | Aspect a => Done (UpdateAspect s a)
  end.
(** TransformVertex does not test the index from below. *)
Definition valid (o : op) : Prop := match o with Transform _ _ _ _ k => 0 <= k | _ => True end.

Lemma on_window_ok s k f : ok s -> exists s', on_window s k f = Done s' /\ ok s'.
Proof.
  intros H; destruct (decide (0 <= k < windows_of (mCurrentMode s))) as [Hk|Hk].
  - destruct (on_window_spec s k f H Hk) as (i & it & l & _ & _ & E & Hok & _); rewrite E; eauto.
  - rewrite on_window_none by (try done; lia); eauto.
Qed.
Lemma SwitchMode_ok s mode ani : ok s ->
  SwitchMode s mode ani = Done (SetSelected (
    if ani && (mDualMode s =? 0) && (windows_of (mCurrentMode s) =? windows_of mode) && negb (mCurrentMode s =? mode) && (0 <? windows_of mode)
    then changing s (mCurrentMode s) true mode 0 60
    else changing s mode false (mChangeMode s) (mChangeStep s) (mChangeStepCount s)) true 0).
Proof.
  intros H; unfold SwitchMode; destruct ani; [|done]; destruct (mDualMode s =? 0) eqn:Ed; [|cbn; by rewrite Ed]; cbn [negb orb andb mDualMode SetSelected].
  rewrite Ed; cbn [negb]; rewrite !getCurrent_ok by auto; cbn [obind mCurrentMode SetSelected].
  assert (Hpos : forall m i, find_mode m 0 _VMode = Some i -> 0 < windows_of m).
  { intros m i E; unfold windows_of; rewrite E; pose proof (found_bound _ _ E) as Hi.
    assert (Hc : forall_range 12 0 (fun i => match znth _VMode i with Some m => 0 <? _count m | None => false end) = true) by (vm_compute; reflexivity).
    apply (forall_range_spec 12 0 _) with (x := i) in Hc; [|lia]; destruct (znth _VMode i); [lia|done]. }
  assert (Hmode : forall m i, find_mode m 0 _VMode = Some i -> exists e, znth _VMode i = Some e /\ _mode e = m).
  { assert (G : forall m l i j, find_mode m j l = Some i -> exists e, znth l (i - j) = Some e /\ _mode e = m).
    { intros m l; induction l as [|e l IH]; intros i j; cbn; [done|]; case_bool.
      - intros [= ->]; exists e; rewrite Z.sub_diag; split; [done|lia].
      - intros E; pose proof (find_mode_bound _ _ _ _ E); destruct (IH i (j + 1) E) as (e' & E1 & E2); exists e'; split; [|done].
        unfold znth in *; replace (i - j <? 0) with false by lia; replace (i - (j + 1) <? 0) with false in E1 by lia.
        replace (Z.to_nat (i - j)) with (S (Z.to_nat (i - (j + 1)))) by lia; done. }
    intros m i E; destruct (G m _VMode i 0 E) as (e & E1 & E2); rewrite Z.sub_0_r in E1; eauto. }
  destruct (current_ok s (mCurrentMode s) H) as [(E1 & Hw1)|(i1 & m1 & E1 & _ & Em1 & Hc1 & _)]; rewrite E1.
  { rewrite Hw1; destruct (windows_of mode) eqn:Ew; cbn; rewrite ?andb_false_r; done. }
  destruct (current_ok s mode H) as [(E2 & Hw2)|(i2 & m2 & E2 & _ & Em2 & Hc2 & _)]; rewrite E2.
  { rewrite Hw2; rewrite andb_false_r; done. }
  change (entry (SetSelected s true 0) i1) with (entry s i1); change (entry (SetSelected s true 0) i2) with (entry s i2); rewrite Em1, Em2; cbn [obind]; rewrite Hc1, Hc2.
  pose proof (Hpos _ _ E2); replace (0 <? windows_of mode) with true by lia; rewrite andb_true_r.
  replace (i1 =? i2) with (mCurrentMode s =? mode); [by case_bool|].
  destruct (decide (mCurrentMode s = mode)) as [Em|Hn].
  { transitivity true; [by apply Z.eqb_eq|symmetry; apply Z.eqb_eq; congruence]. }
  transitivity false; [by apply Z.eqb_neq|symmetry; apply Z.eqb_neq]; intros ->; destruct (Hmode _ _ E1) as (e1 & F1 & G1), (Hmode _ _ E2) as (e2 & F2 & G2); congruence.
Qed.
Lemma change_ok s : ok s -> ok (HandleChangeThread s).
Proof. intros H; unfold HandleChangeThread; case_bool; auto. Qed.
Lemma transform_ok s mode v t ty k : ok s -> 0 <= k -> exists s', TransformVertex s mode v t ty k = Done s' /\ ok s'.
Proof.
  intros H Hk; unfold TransformVertex; rewrite getCurrent_ok by done; cbn [obind].
  destruct (current_ok s mode H) as [(E & _)|(i & m & E & Hi & Em & Hc & _)]; rewrite E; [eauto|]; rewrite Em; cbn [obind].
  destruct (_count m <=? k) eqn:Ek; [eauto|]; cbv zeta.
  assert (G : forall f, exists s', change_item s i k (fun it => set_matrix it (f (_matrix it))) = Done s' /\ ok s').
  { intros f; destruct (change_in s i k (fun it => set_matrix it (f (_matrix it))) m H ltac:(auto) Hi Em ltac:(lia)) as (it & l & _ & E1 & Hok & _); eauto. }
  case_bool; eauto.
Qed.
Lemma step_ok s o : ok s -> valid o -> exists s', step s o = Done s' /\ ok s'.
Proof.
  intros H Hv; destruct o; cbn [step].
  - unfold put; case_bool; apply on_window_ok; done.
  - destruct (reset_lemma s H) as (s' & E & Hok & _); eauto.
  - rewrite SwitchMode_ok by done; eexists; split; [done|]; case_bool; auto.
  - eauto using change_ok.
  - destruct (view_angle_lemma s angle H) as (s' & E & Hok & _); eauto.
  - eauto.
  - eexists; split; [done|]; destruct H as [H1 H2 _]; constructor; cbn; auto.
  - by apply transform_ok.
  - eexists; split; [done|]; by destruct H.
Qed.
Fixpoint run (l : list op) (s : screen) : outcome screen :=
  match l with [] => Done s | o :: l => let* s := step s o in run l s end.
Lemma run_ok l s : ok s -> Forall valid l -> exists s', run l s = Done s' /\ ok s'.
Proof.
  revert s; induction l as [|o l IH]; intros s H Hl; cbn [run]; [eauto|]; apply Forall_cons_iff in Hl as (Ho & Hl).
  destruct (step_ok s o H Ho) as (s1 & E & H1); rewrite E; cbn [obind]; by apply IH.
Qed.

(** ** Where a change of mode ends *)

(** The mode that is being changed to, or the mode. *)
Definition goal (s : screen) : Z := if mChangeAnimation s then mChangeMode s else mCurrentMode s.
Definition left_over (s : screen) : Z := if mChangeAnimation s then mChangeStepCount s - mChangeStep s else 0.
Lemma turn_goal s : goal (HandleChangeThread s) = goal s /\
  (mChangeAnimation s = true -> left_over (HandleChangeThread s) <= Z.max 0 (left_over s - 1)).
Proof.
  unfold HandleChangeThread, goal, left_over; destruct (mChangeAnimation s) eqn:E; [|by rewrite E].
  destruct (mChangeStepCount s <=? mChangeStep s + 1) eqn:El; cbn; (split; [done|]); intros _; lia.
Qed.
Lemma still_turn s : mChangeAnimation s = false -> HandleChangeThread s = s.
Proof. intros E; unfold HandleChangeThread; by rewrite E. Qed.
Lemma still_turns n s : mChangeAnimation s = false -> change_turns n s = s.
Proof. intros E; induction n as [|n IH]; cbn; [done|]; by rewrite still_turn. Qed.
Lemma turns_land n s : left_over s <= Z.of_nat n -> (mChangeAnimation s = true -> (0 < n)%nat) ->
  mCurrentMode (change_turns n s) = goal s /\ mChangeAnimation (change_turns n s) = false.
Proof.
  revert s; induction n as [|n IH]; intros s Hn Hp; cbn [change_turns].
  - destruct (mChangeAnimation s) eqn:E; [specialize (Hp eq_refl); lia|]; unfold goal; by rewrite E.
  - destruct (mChangeAnimation s) eqn:E.
    + destruct (turn_goal s) as (Hg & Hl); specialize (Hl E); rewrite <- Hg; apply IH; [lia|].
      intros Hc; unfold HandleChangeThread in Hc; rewrite E in Hc; destruct (mChangeStepCount s <=? mChangeStep s + 1) eqn:El; [done|].
      unfold left_over in Hn; rewrite E in Hn; lia.
    + rewrite still_turn by done; rewrite still_turns by done; unfold goal; by rewrite E.
Qed.
(** What ParametricManager asks: animated unless a change is under way. *)
Definition ask (s : screen) (mode : Z) : outcome screen := SwitchMode s mode (negb (GetSwitchAnimation s)).
Lemma ask_goal s mode : ok s -> exists s', ask s mode = Done s' /\ ok s' /\ goal s' = mode /\ left_over s' <= 60 /\ mSelected s' = 0.
Proof.
  intros H; unfold ask; rewrite SwitchMode_ok by done; eexists; split; [done|]; match goal with |- context [if ?b then _ else _] => destruct b end;
    (split; [auto|]); unfold goal, left_over; cbn; repeat split; lia.
Qed.
Inductive event := Asked (mode : Z) | Turned.
Fixpoint history (l : list event) (s : screen) : outcome screen :=
  match l with
  | [] => Done s
  | Asked mode :: l => let* s := ask s mode in history l s
  | Turned :: l => history l (HandleChangeThread s)
  end.
Fixpoint last_asked (d : Z) (l : list event) : Z := match l with [] => d | Asked m :: l => last_asked m l | Turned :: l => last_asked d l end.
Lemma history_goal l : forall s, ok s -> left_over s <= 60 ->
  exists s', history l s = Done s' /\ ok s' /\ goal s' = last_asked (goal s) l /\ left_over s' <= 60.
Proof.
  induction l as [|[mode|] l IH]; intros s H Hl; cbn [history last_asked]; [eauto| |].
  - destruct (ask_goal s mode H) as (s1 & E & H1 & <- & H3 & _); rewrite E; cbn [obind]; by apply IH.
  - destruct (turn_goal s) as (Hg & Ht); rewrite <- Hg; apply IH; [by apply change_ok|].
    destruct (mChangeAnimation s) eqn:E; [specialize (Ht eq_refl); lia|]; by rewrite still_turn.
Qed.

(** ** The two threads

    The change thread tests mChangeAnimation before it takes the lock, and a SwitchMode
    without animation does not take it at all. *)

Inductive thread := Idle | Seen.                             (* the change thread has passed its test *)
Inductive caller := Free | Half (mode : Z).                  (* SwitchMode has cleared mChangeAnimation *)
Record system := mkSys { scr : screen; changer : thread; ui : caller; wanted : Z }.
(** The body of the change thread's turn, which does not test again. *)
Definition turn_body (s : screen) : screen :=
  let step := mChangeStep s + 1 in
  needing (if mChangeStepCount s <=? step then changing s (mChangeMode s) false (mChangeMode s) step (mChangeStepCount s)
           else changing s (mCurrentMode s) (mChangeAnimation s) (mChangeMode s) step (mChangeStepCount s)).
Inductive moves : system -> system -> Prop :=
| see s u w : mChangeAnimation s = true -> moves (mkSys s Idle u w) (mkSys s Seen u w)
| turn s u w : moves (mkSys s Seen u w) (mkSys (turn_body s) Idle u w)
| switch_locked s t w mode s' : mChangeAnimation s = false -> SwitchMode s mode true = Done s' ->
    moves (mkSys s t Free w) (mkSys s' t Free mode)
| switch_begin s t w mode : mChangeAnimation s = true ->
    moves (mkSys s t Free w)
      (mkSys (SetSelected (changing s (mCurrentMode s) false (mChangeMode s) (mChangeStep s) (mChangeStepCount s)) true 0) t (Half mode) mode)
| switch_end s t w mode :
    moves (mkSys s t (Half mode) w)
      (mkSys (changing s mode (mChangeAnimation s) (mChangeMode s) (mChangeStep s) (mChangeStepCount s)) t Free w).
Inductive moved_to : system -> system -> Prop :=
| here x : moved_to x x
| there x y z : moves x y -> moved_to y z -> moved_to x z.
Definition initial : screen := VertexObjectImpl (F32.of_Z 1) (F32.of_Z 60) (false, 0, 0, 0).
Definition at_rest (x : system) : Prop := changer x = Idle /\ ui x = Free /\ mChangeAnimation (scr x) = false.

(** The whole turn, with its test. *)
Lemma turn_is_body s : mChangeAnimation s = true -> HandleChangeThread s = turn_body s.
Proof. intros E; unfold HandleChangeThread, turn_body; rewrite E; by case_bool. Qed.
Lemma turns_taken n : forall s u w, mChangeAnimation s = true -> Z.of_nat n < mChangeStepCount s - mChangeStep s ->
  moved_to (mkSys s Idle u w) (mkSys (change_turns n s) Idle u w).
Proof.
  induction n as [|n IH]; intros s u w E Hn; cbn [change_turns]; [apply here|].
  apply there with (mkSys s Seen u w); [by apply see|]; apply there with (mkSys (turn_body s) Idle u w); [apply turn|].
  rewrite turn_is_body by done; apply IH; unfold turn_body; replace (mChangeStepCount s <=? mChangeStep s + 1) with false by lia; cbn; [done|lia].
Qed.
(** A change that has steps left. *)
Lemma unfinished n : forall s, mChangeAnimation s = true -> Z.of_nat n < mChangeStepCount s - mChangeStep s ->
  mChangeAnimation (change_turns n s) = true /\ mChangeStep (change_turns n s) = mChangeStep s + Z.of_nat n /\
  mChangeStepCount (change_turns n s) = mChangeStepCount s /\ mChangeMode (change_turns n s) = mChangeMode s.
Proof.
  induction n as [|n IH]; intros s Ea Es; cbn [change_turns]; [repeat split; try done; lia|].
  rewrite turn_is_body by done; unfold turn_body; replace (mChangeStepCount s <=? mChangeStep s + 1) with false by lia.
  destruct (IH (needing (changing s (mCurrentMode s) (mChangeAnimation s) (mChangeMode s) (mChangeStep s + 1) (mChangeStepCount s))) Ea ltac:(cbn; lia))
    as (A & B & C & D); rewrite A, B, C, D; cbn; repeat split; lia.
Qed.
Lemma almost_done s w : mChangeAnimation s = true -> mChangeStep s = 0 -> mChangeStepCount s = 60 ->
  exists s', moved_to (mkSys s Idle Free w) (mkSys s' Idle Free w) /\ mChangeAnimation s' = true /\ mChangeStep s' = 59 /\
    mChangeStepCount s' = 60 /\ mChangeMode s' = mChangeMode s.
Proof.
  intros Ha Hs Hc; assert (Hn : Z.of_nat 59 < mChangeStepCount s - mChangeStep s) by (rewrite Hs, Hc; lia).
  destruct (unfinished 59 s Ha Hn) as (A & B & C & D); pose proof (turns_taken 59 s Free w Ha Hn) as P.
  revert A B C D P; generalize (change_turns 59 s); intros s' A B C D P; exists s'; rewrite B, C, D; repeat (split; [done|]); split; [lia|]; by split.
Qed.
Lemma moved_trans x y z : moved_to x y -> moved_to y z -> moved_to x z.
Proof. induction 1; [done|]; intros H2; eapply there; eauto. Qed.

(** * The correctness of the fish-eye screen *)

Lemma eye_made_ok aspect angle garbage : ok (VertexObjectImpl aspect angle garbage).
Proof. destruct garbage as [[[ani next] stp] cnt]; constructor; cbn; [done|vm_compute; reflexivity|by left]. Qed.

(** Whatever is asked of the screen, whether the mode or the index exists or not,
    no window is read outside its entry, and every entry keeps its windows. *)
Theorem fisheye_ok aspect angle garbage l : Forall valid l ->
  exists s, run l (VertexObjectImpl aspect angle garbage) = Done s /\ ok s.
Proof. intros Hl; apply run_ok; [apply eye_made_ok|done]. Qed.

(** A position, scale or rotation set on a window of a single lens is read back,
    of the object and of its texture apart, and every other value of every window is as
    it was. *)
Theorem window_set_get s ty t v k : ok s -> mDualMode s = 0 -> 0 <= ty <= 2 -> 0 <= k < windows_of (mCurrentMode s) ->
  exists s', put ty s v t k = Done s' /\ ok s' /\ _NeedDraw s' = true /\ mCurrentMode s' = mCurrentMode s /\
    forall ty' t' k', 0 <= ty' <= 2 -> get ty' s' t' k' = if decide (ty' = ty /\ t' = t /\ k' = k) then Done v else get ty' s t' k'.
Proof. apply set_get_lemma. Qed.

(** After ResetPosition the windows of the mode have their default transforms,
    the other modes' windows their own. *)
Theorem reset_defaults s : ok s ->
  exists s', ResetPosition s = Done s' /\ ok s' /\ _NeedDraw s' = true /\ mCurrentMode s' = mCurrentMode s /\
    forall j c it, the_item s j c = Done it ->
      the_item s' j c = Done (if decide (find_mode (mCurrentMode s) 0 _VMode = Some j) then set_matrix it (_default it) else it).
Proof. apply reset_lemma. Qed.

(** C20: however the modes asked for and the turns of the change thread follow each
    other, within sixty further turns the mode is the last one asked for, and no change is
    under way. *)
Theorem last_mode_shown s l n : ok s -> mChangeAnimation s = false -> (60 <= n)%nat ->
  exists s', history l s = Done s' /\ ok s' /\
    mCurrentMode (change_turns n s') = last_asked (mCurrentMode s) l /\ mChangeAnimation (change_turns n s') = false.
Proof.
  intros H Ha Hn; destruct (history_goal l s H ltac:(unfold left_over; rewrite Ha; lia)) as (s' & E & Hok & Hg & Hl).
  destruct (turns_land n s' ltac:(lia) ltac:(intros _; lia)) as (H1 & H2); exists s'; split; [done|]; split; [done|]; split; [|done].
  rewrite H1, Hg; unfold goal; by rewrite Ha.
Qed.

(** C27: the test outside the lock loses a mode: the change thread, past its test when
    SwitchMode ends the change, still completes it.  Whenever a change to [m1] is animated,
    the screen may come to rest in [m1] although [m2] was asked for after it. *)
Theorem late_turn_wins s m1 m2 w : ok s -> mDualMode s = 0 -> mChangeAnimation s = false -> m1 <> mCurrentMode s ->
  windows_of m1 = windows_of (mCurrentMode s) -> 0 < windows_of m1 ->
  exists x, moved_to (mkSys s Idle Free w) x /\ at_rest x /\ wanted x = m2 /\ mCurrentMode (scr x) = m1.
Proof.
  intros H Hd Ha0 Hne Hw Hp; pose proof (SwitchMode_ok s m1 true H) as E1; rewrite Hd, Hw in E1.
  replace (mCurrentMode s =? m1) with false in E1 by lia; rewrite !Z.eqb_refl in E1; replace (0 <? windows_of (mCurrentMode s)) with true in E1 by lia.
  cbn [andb negb Z.eqb] in E1; set (s1 := SetSelected _ true 0) in E1.
  destruct (almost_done s1 m1 eq_refl eq_refl eq_refl) as (s2 & Hpath & Ha2 & Hs2 & Hc2 & Hm2); change (mChangeMode s1) with m1 in Hm2; clearbody s1.
  set (s3 := SetSelected (changing s2 (mCurrentMode s2) false (mChangeMode s2) (mChangeStep s2) (mChangeStepCount s2)) true 0).
  set (s4 := changing s3 m2 (mChangeAnimation s3) (mChangeMode s3) (mChangeStep s3) (mChangeStepCount s3)).
  exists (mkSys (turn_body s4) Idle Free m2); split.
  - eapply there; [apply (switch_locked s Idle _ m1 s1); [done|exact E1]|].
    eapply moved_trans; [exact Hpath|].
    eapply there; [by apply see|]; eapply there; [by apply (switch_begin s2 Seen _ m2)|]; fold s3.
    eapply there; [apply switch_end|]; fold s4; eapply there; [apply turn|]; apply here.
  - assert (Et : turn_body s4 = needing (changing s4 (mChangeMode s2) false (mChangeMode s2) 60 60))
      by (unfold turn_body, s4, s3; cbn; by rewrite Hs2, Hc2).
    unfold at_rest; cbn [changer ui scr wanted]; rewrite Et; repeat (split; [done|]); exact Hm2.
Qed.

(** The change of mode is not initialised: the first turn of the thread may change to
    whatever mode the memory held. *)
Theorem uninitialised_change aspect angle next stp cnt : cnt <= stp + 1 ->
  mCurrentMode (HandleChangeThread (VertexObjectImpl aspect angle (true, next, stp, cnt))) = next.
Proof. intros H; unfold HandleChangeThread; cbn; by replace (cnt <=? stp + 1) with true by lia. Qed.

(** The outline on the unrolled picture lies within the picture, its left edge
    before its right one, for any angles. *)
Theorem outline_inside lr rr : let '(l, r) := unrolled lr rr in 0 <= l <= r /\ r <= 360.
Proof.
  unfold unrolled, cmod; pose proof (Z.rem_bound_abs lr 360 ltac:(lia)); pose proof (Z.rem_bound_abs rr 360 ltac:(lia)).
  case_bool; lia.
Qed.

(** * Concrete screens *)

Lemma fisheye_ok_witness : exists s, run [Switch SCRN_SIX false; Place 2 (vec_of 1 2 3) false 5; Place 0 (vec_of 1 1 1) false 77; Reset; Tick]
    (VertexObjectImpl (F32.of_Z 1) (F32.of_Z 60) (false, 0, 0, 0)) = Done s /\ mCurrentMode s = SCRN_SIX.
Proof.
  destruct (fisheye_ok (F32.of_Z 1) (F32.of_Z 60) (false, 0, 0, 0)
     [Switch SCRN_SIX false; Place 2 (vec_of 1 2 3) false 5; Place 0 (vec_of 1 1 1) false 77; Reset; Tick] ltac:(repeat constructor)) as (s & E & _).
  exists s; split; [exact E|]; vm_compute in E; injection E as <-; reflexivity.
Defined.
Lemma window_set_get_witness : exists s', put 2 initial (vec_of 10 0 5) false 0 = Done s' /\ get 2 s' false 0 = Done (vec_of 10 0 5).
Proof.
  destruct (window_set_get initial 2 false (vec_of 10 0 5) 0 (eye_made_ok _ _ _) eq_refl ltac:(lia) ltac:(vm_compute; split; [discriminate|reflexivity]))
    as (s' & E & _ & _ & _ & Hg); exists s'; split; [exact E|]; rewrite Hg by lia; reflexivity.
Defined.
Lemma reset_defaults_witness : exists s', ResetPosition initial = Done s' /\ mCurrentMode s' = SCRN_HEMISPHERE.
Proof. destruct (reset_defaults initial (eye_made_ok _ _ _)) as (s' & E & _ & _ & Hm & _); exists s'; split; [exact E|exact Hm]. Defined.
Lemma last_mode_shown_witness : exists s', history [Asked SCRN_CYLINDER; Turned; Turned; Asked SCRN_FOUR; Asked SCRN_EXPAND; Turned] initial = Done s' /\
  mCurrentMode (change_turns 60 s') = SCRN_EXPAND.
Proof.
  destruct (last_mode_shown initial [Asked SCRN_CYLINDER; Turned; Turned; Asked SCRN_FOUR; Asked SCRN_EXPAND; Turned] 60 (eye_made_ok _ _ _) eq_refl ltac:(lia))
    as (s' & E & _ & Hm & _); exists s'; split; [exact E|exact Hm].
Defined.
Lemma late_turn_wins_witness : exists x, moved_to (mkSys initial Idle Free SCRN_HEMISPHERE) x /\ at_rest x /\
  wanted x = SCRN_EXPAND /\ mCurrentMode (scr x) = SCRN_CYLINDER.
Proof.
  exact (late_turn_wins initial SCRN_CYLINDER SCRN_EXPAND SCRN_HEMISPHERE (eye_made_ok _ _ _) eq_refl eq_refl ltac:(discriminate) eq_refl eq_refl).
Defined.
Lemma uninitialised_change_witness : mCurrentMode (HandleChangeThread (VertexObjectImpl (F32.of_Z 1) (F32.of_Z 60) (true, 77, 0, 0))) = 77.
Proof. exact (uninitialised_change (F32.of_Z 1) (F32.of_Z 60) 77 0 0 ltac:(lia)). Defined.
End FishEye.
