(* ===== verification/Animation.v ===== *)
(** The animations of ParametricManager (gles/GLES/ParametricManager.cpp):
    StartAnimation, StopAnimation, ClearAnimation and the animation thread's
    AnimationOperator, over the linked list of LinkedList.v and a heap of animations.
    The animated objects are the type class [ISurface], with the grid of videos as an
    instance; [sinf] and the callbacks at an animation's end are parameters. *)
From Stdlib Require Import SpecFloat.
From stdpp Require Import gmap.
From S2P Require Import Prelude Float32 LinkedList Surface Screen.

Module Animation.
Import Surface (vec3, vec).

(** ** The animated objects *)

Class ISurface (W : Type) := {
  SetPosition : W -> Z -> vec3 -> bool -> Z -> outcome W;
  setRotate : W -> Z -> vec3 -> bool -> Z -> outcome W;
  SetScale : W -> Z -> vec3 -> bool -> Z -> outcome W;
  GetPosition : W -> Z -> bool -> Z -> outcome vec3;
  GetRotate : W -> Z -> bool -> Z -> outcome vec3;
  GetScale : W -> Z -> bool -> Z -> outcome vec3;
  SetIsAnimation : W -> Z -> Z -> bool -> outcome W;
  GetLoading : W -> Z -> option Z;           (* the current object's loading picture *)
  SwitchAnimation : W -> bool                (* the fish-eye screen is current and changing *)
}.

(** The types of animation (ParametricManager.h). *)
Abbreviation JA_ANI_TYPE_POSITION := 0 (only parsing).
Abbreviation JA_ANI_TYPE_SCALE := 1 (only parsing).
Abbreviation JA_ANI_TYPE_ROTATE := 2 (only parsing).
Record JA_Animation := mkAni {
  _obj : Z; _start : vec3; _value : vec3; _unit : vec3; _step : Z; _stepcount : Z; _end : vec3;
  _isLoop : bool; _istexture : bool; _type : Z; duration : Z; index : Z; Inertia : bool; OnEnd : bool
}.
Definition moved (a : JA_Animation) (v : vec3) : JA_Animation :=
  mkAni (_obj a) (_start a) v (_unit a) (_step a) (_stepcount a) (_end a) (_isLoop a) (_istexture a) (_type a)
    (duration a) (index a) (Inertia a) (OnEnd a).
Definition counted (a : JA_Animation) : JA_Animation :=
  mkAni (_obj a) (_start a) (_value a) (_unit a) (_step a) (_stepcount a + 1) (_end a) (_isLoop a) (_istexture a) (_type a)
    (duration a) (index a) (Inertia a) (OnEnd a).

Section Manager.
Context {W : Type} `{ISurface W} (sinf : spec_float -> spec_float).

(** The list holds pointers; [heap] is what they point to, and [fresh] the next
    pointer that malloc returns. *)
Record manager := mkMan { world : W; _Ani : list Z; heap : gmap Z JA_Animation; fresh : Z }.
Definition set_world (m : manager) (w : W) : manager := mkMan w (_Ani m) (heap m) (fresh m).
Definition deref (m : manager) (p : Z) : outcome JA_Animation := match heap m !! p with Some a => Done a | None => Fault end.
Definition write (m : manager) (p : Z) (a : JA_Animation) : manager := mkMan (world m) (_Ani m) (<[p := a]> (heap m)) (fresh m).
Definition free (m : manager) (p : Z) : outcome manager :=
  match heap m !! p with Some _ => Done (mkMan (world m) (_Ani m) (delete p (heap m)) (fresh m)) | None => Fault end.
Definition remove_at (m : manager) (i : Z) : outcome manager :=
  let* l := CList.remove i (_Ani m) in Done (mkMan (world m) l (heap m) (fresh m)).

(** The switches on the type; other types do nothing. *)
Definition set_value (w : W) (a : JA_Animation) (v : vec3) : outcome W :=
  if _type a =? JA_ANI_TYPE_POSITION then SetPosition w (_obj a) v (_istexture a) (index a)
  else if _type a =? JA_ANI_TYPE_ROTATE then setRotate w (_obj a) v (_istexture a) (index a)
  else if _type a =? JA_ANI_TYPE_SCALE then SetScale w (_obj a) v (_istexture a) (index a)
  else Done w.
Definition get_value (w : W) (obj ty : Z) (texture : bool) (idx : Z) : outcome vec3 :=
  if ty =? JA_ANI_TYPE_POSITION then GetPosition w obj texture idx
  else if ty =? JA_ANI_TYPE_SCALE then GetScale w obj texture idx
  else if ty =? JA_ANI_TYPE_ROTATE then GetRotate w obj texture idx
  else Done (Surface.vec_of 0 0 0).

Definition StartAnimation (m : manager) (obj : Z) (pend : vec3) (step dur : Z) (isloop : bool) (anitype : Z) (texture : bool)
    (scrIndex : Z) (inertia onend : bool) : outcome (manager * Z) :=
  if SwitchAnimation (world m) then Done (m, 0)
  else
    let* w := SetIsAnimation (world m) obj scrIndex true in
    let* start := get_value w obj anitype texture scrIndex in
    let over p s := F32.div (F32.sub p s) (F32.of_Z step) in
    let unit :=
      if isloop then pend
      else vec (over (Surface.x pend) (Surface.x start)) (over (Surface.y pend) (Surface.y start)) (over (Surface.z pend) (Surface.z start)) in
    let p := fresh m in
    let a := mkAni obj start start unit step 0 pend isloop texture anitype dur scrIndex inertia onend in
    Done (mkMan w (CList.insert (-1) p (_Ani m)) (<[p := a]> (heap m)) (p + 1), p).

(** Take the animation at [i] out of the list: the common end of its three uses. *)
Definition dispose (m : manager) (p i : Z) : outcome manager :=
  let* a := deref m p in
  let* w := SetIsAnimation (world m) (_obj a) (index a) false in
  let* m := remove_at (set_world m w) i in
  free m p.

Definition StopAnimation (m : manager) (p : Z) : outcome manager :=
  if p =? 0 then Done m
  else
    let i := CList.search p (_Ani m) in
    if 0 <=? i then dispose m p i else Done m.

(** The loops from the last element down to the first; what [at] returns beyond the
    end is a new, empty element. *)
Fixpoint downwards (body : Z -> Z -> manager -> outcome manager) (n : nat) (m : manager) : outcome manager :=
  match n with
  | O => Done m
  | S n => let* p := CList.at_ 0 (Z.of_nat n) (_Ani m) in let* m := body p (Z.of_nat n) m in downwards body n m
  end.
Definition ClearAnimation (m : manager) : outcome manager :=
  downwards (fun p i m =>
    let* a := deref m p in
    if existsb (fun j => match GetLoading (world m) (Z.of_nat j) with Some o => o =? _obj a | None => false end) (seq 0 36)
    then Done m else dispose m p i) (length (_Ani m)) m.
Definition ClearAnimationOf (m : manager) (idx : Z) : outcome manager :=
  downwards (fun p i m => let* a := deref m p in if index a =? idx then dispose m p i else Done m) (length (_Ani m)) m.

(** ** The animation thread *)

(** The callback at the end of an animation; the list's lock is released around it. *)
Context (ended : manager -> Z -> outcome manager).

Definition Pi : spec_float := F32.of_bits 0x40490FDB.
Definition eased (a : JA_Animation) (s e : spec_float) : spec_float :=
  let deg := F32.div Pi (F32.of_Z 180) in
  F32.mul (sinf (F32.mul (F32.mul deg (F32.of_Z (_stepcount a))) (F32.div (F32.of_Z 90) (F32.of_Z (_step a))))) (F32.sub e s).
Definition next_value (a : JA_Animation) : vec3 :=
  if negb (Inertia a) then Surface.vadd (_value a) (_unit a)
  else Surface.vadd (_start a)
         (vec (eased a (Surface.x (_start a)) (Surface.x (_end a))) (eased a (Surface.y (_start a)) (Surface.y (_end a)))
              (eased a (Surface.z (_start a)) (Surface.z (_end a)))).

Definition operate (p i : Z) (m : manager) : outcome manager :=
  let* a := deref m p in
  if negb (_isLoop a) && (_step a =? 0) then Fault        (* ani->duration / ani->_step *)
  else
    let a := moved a (next_value a) in
    let* w := set_value (world m) a (_value a) in
    let a := counted a in
    let m := write (set_world m w) p a in
    if (_step a <=? _stepcount a) && negb (_isLoop a) then
      let* w := set_value (world m) a (_end a) in
      let m := set_world m w in
      let* m := if OnEnd a then ended m p else Done m in
      dispose m p i
    else Done m.
Definition AnimationOperator (m : manager) : outcome manager := downwards operate (length (_Ani m)) m.
Fixpoint turns (n : nat) (m : manager) : outcome manager :=
  match n with O => Done m | S n => let* m := AnimationOperator m in turns n m end.
End Manager.

(** The grid of videos as the object animated. *)
#[export] Instance grid : ISurface Screen.screen := {
  SetPosition s _ v t k := Screen.SetPosition s v t k;
  setRotate s _ v t k := Screen.setRotate s v t k;
  SetScale s _ v t k := Screen.SetScale s v t k;
  GetPosition s _ t k := Screen.GetPosition s t k;
  GetRotate s _ t k := Screen.GetRotate s t k;
  GetScale s _ t k := Screen.GetScale s t k;
  SetIsAnimation s _ k b := Screen.SetIsAnimation s k b;
  GetLoading _ _ := None;
  SwitchAnimation _ := false
}.

(** ** What the thread relies on *)

(** The objects answer, and keep answering. *)
Class ISurfaceLaws (W : Type) `{ISurface W} (good : W -> Prop) := {
  set_answers w ob v t k ty : good w -> exists w', (if ty =? JA_ANI_TYPE_POSITION then SetPosition w ob v t k else if ty =? JA_ANI_TYPE_ROTATE then setRotate w ob v t k else if ty =? JA_ANI_TYPE_SCALE then SetScale w ob v t k else Done w) = Done w' /\ good w';
  animation_answers w ob k b : good w -> exists w', SetIsAnimation w ob k b = Done w' /\ good w'
}.

Section Turns.
Context {W : Type} `{ISurface W} (good : W -> Prop) `{!ISurfaceLaws W good} (sinf : spec_float -> spec_float)
  (ended : @manager W -> Z -> outcome (@manager W)).
(** A callback that leaves the animations alone and the objects answering. *)
Definition quiet : Prop := forall m p, good (world m) -> exists w, ended m p = Done (set_world m w) /\ good w.

Record wf (m : @manager W) : Prop := {
  wf_good : good (world m);
  wf_nodup : NoDup (_Ani m);
  wf_live : forall p : Z, p ∈ _Ani m -> exists a, heap m !! p = Some a /\ (_isLoop a = false -> 0 < _step a)
}.

Definition advance (a : JA_Animation) : JA_Animation := counted (moved a (next_value sinf a)).
Definition over (a : JA_Animation) : bool := (_step a <=? _stepcount a) && negb (_isLoop a).
Definition stays (h : gmap Z JA_Animation) (p : Z) : bool := match h !! p with Some a => negb (over (advance a)) | None => false end.

Lemma search_here (p : Z) (pre post : list Z) : p ∉ pre -> CList.remove (zlen pre) (pre ++ p :: post) = Done (pre ++ post).
Proof.
  intros _; unfold CList.remove, zlen; replace (Z.of_nat (length pre) <? 0) with false by lia.
  rewrite Nat2Z.id; apply CList.remove_from_app.
Qed.
Lemma at_here (pre : list Z) p post : CList.at_ 0 (Z.of_nat (length pre)) (pre ++ p :: post) = Done p.
Proof.
  apply CList.at_lookup; unfold znth; replace (_ <? 0) with false by lia.
  by rewrite Nat2Z.id, lookup_app_r, Nat.sub_diag by lia.
Qed.

(** One turn on the animation behind [pre]. *)
Lemma operate_spec m pre p post a : quiet -> good (world m) -> _Ani m = pre ++ p :: post -> p ∉ pre ->
  heap m !! p = Some a -> (_isLoop a = false -> 0 < _step a) ->
  exists w, good w /\ operate sinf ended p (zlen pre) m =
    Done (if over (advance a) then mkMan w (pre ++ post) (delete p (heap m)) (fresh m)
          else mkMan w (_Ani m) (<[p := advance a]> (heap m)) (fresh m)).
Proof.
  intros Hq Hg Hl Hp Ha Hst; unfold operate, deref; rewrite Ha; cbn [obind].
  replace (negb (_isLoop a) && (_step a =? 0)) with false by (destruct (_isLoop a); cbn; [done|]; specialize (Hst eq_refl); lia).
  cbv zeta; set (v := next_value sinf a).
  destruct (set_answers (world m) (_obj (moved a v)) (_value (moved a v)) (_istexture (moved a v)) (index (moved a v)) (_type (moved a v)) Hg) as (w1 & E1 & H1).
  unfold set_value at 1; rewrite E1; cbn [obind].
  change (counted (moved a v)) with (advance a).
  change ((_step (advance a) <=? _stepcount (advance a)) && negb (_isLoop (advance a))) with (over (advance a)).
  destruct (over (advance a)) eqn:Eo.
  - destruct (set_answers w1 (_obj (advance a)) (_end (advance a)) (_istexture (advance a)) (index (advance a)) (_type (advance a)) H1) as (w2 & E2 & H2).
    unfold set_value; cbn [world write set_world]; rewrite E2; cbn [obind].
    set (m1 := set_world (write (set_world m w1) p (advance a)) w2).
    assert (Hm2 : exists w3, (if OnEnd (advance a) then ended m1 p else Done m1) = Done (set_world m1 w3) /\ good w3).
    { destruct (OnEnd (advance a)); [by apply Hq|exists w2; by split]. }
    destruct Hm2 as (w3 & E3 & H3); rewrite E3; cbn [obind]; unfold dispose, deref; cbn [heap set_world write m1].
    rewrite lookup_insert_eq; cbn [obind].
    destruct (animation_answers w3 (_obj (advance a)) (index (advance a)) false H3) as (w4 & E4 & H4).
    cbn [world set_world]; rewrite E4; cbn [obind]; unfold remove_at, m1; cbn [_Ani set_world write]; rewrite Hl, search_here by done; cbn [obind].
    unfold free; cbn [heap set_world write fresh world _Ani]; rewrite lookup_insert_eq, delete_insert_eq; by exists w4.
  - exists w1; by split.
Qed.

(** The loop: the animations that end leave the list and the heap, the others have
    advanced, in their order. *)
Lemma downwards_spec : quiet -> forall pre post m, good (world m) -> _Ani m = pre ++ post -> NoDup (pre ++ post) ->
  (forall p : Z, p ∈ pre -> exists a, heap m !! p = Some a /\ (_isLoop a = false -> 0 < _step a)) ->
  exists w h, good w /\
    downwards (operate sinf ended) (length pre) m = Done (mkMan w (List.filter (stays (heap m)) pre ++ post) h (fresh m)) /\
    forall p, h !! p = if decide (p ∈ pre) then (if stays (heap m) p then advance <$> heap m !! p else None) else heap m !! p.
Proof.
  intros Hq; induction pre as [|p pre IH] using rev_ind; intros post m Hg Hl Hnd Hlive.
  - exists (world m), (heap m); split; [done|]; split; [destruct m; cbn in *; by rewrite Hl|].
    intros p; by rewrite decide_False by (apply not_elem_of_nil).
  - rewrite length_app, Nat.add_1_r; cbn [downwards]; rewrite <- app_assoc in Hl, Hnd; cbn [app] in Hl, Hnd.
    rewrite Hl, at_here; cbn [obind].
    destruct (Hlive p) as (a & Ha & Hst); [apply elem_of_app; right; by apply list_elem_of_singleton|].
    assert (Hp : (p ∉ pre) /\ (p ∉ post) /\ NoDup (pre ++ post)).
    { apply list.NoDup_app in Hnd as (Hn1 & Hd & Hn2%list.NoDup_cons); destruct Hn2 as (Hpp & Hn2).
      split; [intros Hi; apply (Hd p Hi); by left|]; split; [done|].
      apply list.NoDup_app; split; [done|]; split; [intros x Hx Hx2; apply (Hd x Hx); by right|done]. }
    destruct Hp as (Hp & Hpp & Hnd').
    destruct (operate_spec m pre p post a Hq Hg Hl Hp Ha Hst) as (w1 & H1 & E1); unfold zlen in E1; rewrite E1; cbn [obind].
    assert (Est : stays (heap m) p = negb (over (advance a))) by (unfold stays; by rewrite Ha).
    assert (Hlook : forall q b, heap m !! q = Some b -> q ∈ pre -> q <> p) by (intros q b _ Hq' ->; done).
    rewrite List.filter_app; cbn [List.filter]; rewrite Est.
    set (post1 := if over (advance a) then post else p :: post).
    set (h1 := if over (advance a) then delete p (heap m) else <[p := advance a]> (heap m)).
    assert (Eh : forall q, q <> p -> h1 !! q = heap m !! q).
    { intros q Hqp; unfold h1; destruct (over (advance a)); [by rewrite lookup_delete_ne|by rewrite lookup_insert_ne]. }
    destruct (IH post1 (mkMan w1 (pre ++ post1) h1 (fresh m)) H1 eq_refl) as (w2 & h2 & H2 & E2 & Hh2).
    { unfold post1; destruct (over (advance a)); [done|]; by rewrite <- Hl in Hnd; rewrite Hl in Hnd. }
    { intros q Hq'; cbn [heap]; destruct (Hlive q) as (b & Hb & Hs); [apply elem_of_app; by left|].
      exists b; rewrite Eh; [done|]; intros ->; done. }
    exists w2, h2; split; [done|]; split.
    + replace (if over (advance a) then _ else _) with (mkMan w1 (pre ++ post1) h1 (fresh m))
        by (unfold post1, h1; rewrite Hl; by destruct (over (advance a))).
      rewrite E2; cbn [heap fresh]; do 2 f_equal.
      rewrite (List.filter_ext_in _ (stays (heap m))).
      * unfold post1; destruct (over (advance a)); cbn [negb]; rewrite ?app_nil_r; [done|by rewrite <- app_assoc].
      * intros q Hq'%list_elem_of_In; unfold stays; by rewrite Eh by (intros ->; done).
    + intros q; rewrite Hh2; cbn [heap]; destruct (decide (q = p)) as [->|Hqp].
      * rewrite decide_False by done; rewrite decide_True by (apply elem_of_app; right; by apply list_elem_of_singleton).
        rewrite Est, Ha; unfold h1; destruct (over (advance a)); cbn [negb fmap option_fmap option_map]; [by rewrite lookup_delete_eq|by rewrite lookup_insert_eq].
      * unfold stays; rewrite !Eh by done; destruct (decide (q ∈ pre)) as [Hi|Hi].
        -- by rewrite decide_True by (apply elem_of_app; by left).
        -- rewrite decide_False; [done|]; intros [?|?%list_elem_of_singleton]%elem_of_app; done.
Qed.

(** A turn of the thread. *)
Lemma turn_spec m : quiet -> wf m ->
  exists m', AnimationOperator sinf ended m = Done m' /\ wf m' /\ _Ani m' = List.filter (stays (heap m)) (_Ani m) /\
    forall p : Z, p ∈ _Ani m -> heap m' !! p = if stays (heap m) p then advance <$> heap m !! p else None.
Proof.
  intros Hq [Hg Hnd Hl]; unfold AnimationOperator.
  destruct (downwards_spec Hq (_Ani m) [] m Hg ltac:(by rewrite app_nil_r) ltac:(by rewrite app_nil_r) Hl) as (w & h & H1 & E & Hh).
  rewrite app_nil_r in E; eexists; split; [exact E|]; cbn [_Ani heap].
  assert (Hh' : forall p, p ∈ _Ani m -> h !! p = if stays (heap m) p then advance <$> heap m !! p else None)
    by (intros p Hp; by rewrite Hh, decide_True).
  split; [|by split]; constructor; cbn [world _Ani heap]; [done|by apply NoDup_ListNoDup, List.NoDup_filter, NoDup_ListNoDup|].
  intros p Hp; apply list_elem_of_In, filter_In in Hp as (Hp%list_elem_of_In & Hs); destruct (Hl p Hp) as (a & Ha & Hst).
  exists (advance a); by rewrite Hh', Hs, Ha.
Qed.

(** ** Termination *)

Definition looping (h : gmap Z JA_Animation) (p : Z) : bool := match h !! p with Some a => _isLoop a | None => false end.
Lemma filter_twice (f g h : Z -> bool) l : (forall x, x ∈ l -> g x = true -> f x = h x) -> (forall x, x ∈ l -> h x = true -> g x = true) ->
  List.filter f (List.filter g l) = List.filter h l.
Proof.
  induction l as [|x l IH]; intros H1 H2; [done|]; cbn [List.filter].
  assert (IH' : List.filter f (List.filter g l) = List.filter h l) by (apply IH; eauto using list_elem_of_further).
  pose proof (H1 x ltac:(by left)) as Hx1; pose proof (H2 x ltac:(by left)) as Hx2.
  destruct (g x); cbn [List.filter]; rewrite IH'; [by rewrite Hx1|]; destruct (h x); [by specialize (Hx2 eq_refl)|done].
Qed.
Lemma turns_spec n : quiet -> forall m, wf m ->
  (forall p a, p ∈ _Ani m -> heap m !! p = Some a -> _isLoop a = false -> 0 < _step a - _stepcount a <= Z.of_nat n) ->
  exists m', turns sinf ended n m = Done m' /\ wf m' /\ _Ani m' = List.filter (looping (heap m)) (_Ani m).
Proof.
  intros Hq; induction n as [|n IH]; intros m Hwf Hst; cbn [turns].
  - exists m; split; [done|]; split; [done|]; symmetry; apply forallb_filter_id, forallb_forall.
    intros p Hp%list_elem_of_In; destruct (wf_live m Hwf p Hp) as (a & Ha & _); unfold looping; rewrite Ha.
    destruct (_isLoop a) eqn:El; [done|]; specialize (Hst p a Hp Ha El); lia.
  - destruct (turn_spec m Hq Hwf) as (m1 & E1 & H1 & Hl1 & Hh1); rewrite E1; cbn [obind].
    assert (Hmem : forall p, p ∈ _Ani m1 -> exists a, heap m !! p = Some a /\ heap m1 !! p = Some (advance a) /\ over (advance a) = false /\ p ∈ _Ani m).
    { intros p Hp; rewrite Hl1 in Hp; apply list_elem_of_In, filter_In in Hp as (Hp%list_elem_of_In & Hs).
      destruct (wf_live m Hwf p Hp) as (a & Ha & _); exists a; split; [done|]; rewrite Hh1, Hs, Ha by done.
      split; [done|]; split; [|done]; unfold stays in Hs; rewrite Ha in Hs; by destruct (over (advance a)). }
    destruct (IH m1 H1) as (m2 & E2 & H2 & Hl2).
    { intros p b Hp Hb El; destruct (Hmem p Hp) as (a & Ha & Ha1 & Ho & Hp0); rewrite Ha1 in Hb; injection Hb as <-.
      unfold over, advance in *; cbn in *; specialize (Hst p a Hp0 Ha El); rewrite El in Ho; cbn in Ho; lia. }
    exists m2; split; [done|]; split; [done|]; rewrite Hl2.
    assert (Hlo : forall p a, heap m !! p = Some a -> looping (heap m) p = true -> stays (heap m) p = true).
    { intros p a Ha; unfold looping, stays, over; rewrite Ha; cbn; intros ->; by rewrite andb_false_r. }
    rewrite Hl1; apply filter_twice; intros p Hp.
    + intros Hs; unfold looping; rewrite Hh1, Hs by done; by destruct (heap m !! p).
    + destruct (wf_live m Hwf p Hp) as (a & Ha & _); by apply (Hlo p a).
Qed.

(** The last turn of an animation without a callback. *)
Lemma operate_last m pre p post a : good (world m) -> _Ani m = pre ++ p :: post -> p ∉ pre -> heap m !! p = Some a ->
  0 < _step a -> OnEnd a = false -> over (advance a) = true ->
  exists w w1 w2, set_value w a (_end a) = Done w1 /\ SetIsAnimation w1 (_obj a) (index a) false = Done w2 /\ good w /\ good w2 /\
    operate sinf ended p (zlen pre) m = Done (mkMan w2 (pre ++ post) (delete p (heap m)) (fresh m)).
Proof.
  intros Hg Hl Hp Ha Hst He Ho; unfold operate, deref; rewrite Ha; cbn [obind].
  replace (_step a =? 0) with false by lia; rewrite andb_false_r; cbv zeta; set (v := next_value sinf a).
  destruct (set_answers (world m) (_obj (moved a v)) (_value (moved a v)) (_istexture (moved a v)) (index (moved a v)) (_type (moved a v)) Hg) as (w & E1 & H1).
  unfold set_value at 2; rewrite E1; cbn [obind]; change (counted (moved a v)) with (advance a).
  change ((_step (advance a) <=? _stepcount (advance a)) && negb (_isLoop (advance a))) with (over (advance a)); rewrite Ho.
  destruct (set_answers w (_obj a) (_end a) (_istexture a) (index a) (_type a) H1) as (w1 & E2 & H2).
  destruct (animation_answers w1 (_obj a) (index a) false H2) as (w2 & E3 & H3).
  exists w, w1, w2; split; [exact E2|]; split; [exact E3|]; split; [done|]; split; [done|].
  unfold set_value; cbn [world write set_world _type _obj _end _istexture index advance counted moved]; rewrite E2; cbn [obind].
  cbn [OnEnd advance counted moved]; rewrite He; cbn [obind]; unfold dispose, deref; cbn [heap set_world write]; rewrite lookup_insert_eq; cbn [obind].
  cbn [world set_world _obj index advance counted moved]; rewrite E3; cbn [obind]; unfold remove_at; cbn [_Ani set_world write]; rewrite Hl, search_here by done; cbn [obind].
  unfold free; cbn [heap set_world write fresh world _Ani]; by rewrite lookup_insert_eq, delete_insert_eq.
Qed.

(** An animation alone in the list: it is there until its last turn, which sets its
    end value. *)
Lemma alone n : quiet -> forall m p a, good (world m) -> _Ani m = [p] -> heap m !! p = Some a -> _isLoop a = false -> OnEnd a = false ->
  0 < _step a -> _step a = _stepcount a + Z.of_nat (S n) ->
  exists m' w w1, turns sinf ended (S n) m = Done m' /\ _Ani m' = [] /\ heap m' !! p = None /\ good (world m') /\
    good w /\ set_value w a (_end a) = Done w1 /\ SetIsAnimation w1 (_obj a) (index a) false = Done (world m').
Proof.
  intros Hq; induction n as [|n IH]; intros m p a Hg Hl Ha Hlo He Hst Hn; cbn [turns]; unfold AnimationOperator; rewrite Hl; cbn [length downwards];
    rewrite Hl; change (CList.at_ 0 (Z.of_nat 0) [p]) with (Done p); cbn [obind]; change (Z.of_nat 0) with (zlen (@nil Z)).
  - destruct (operate_last m [] p [] a Hg Hl ltac:(apply not_elem_of_nil) Ha Hst He) as (w & w1 & w2 & E1 & E2 & H1 & H2 & E).
    { unfold over, advance; cbn; rewrite Hlo; cbn; lia. }
    rewrite E; cbn [obind]; do 3 eexists; split; [done|]; cbn [_Ani heap world]; split; [done|]; split; [by rewrite lookup_delete_eq|]; eauto.
  - destruct (operate_spec m [] p [] a Hq Hg Hl ltac:(apply not_elem_of_nil) Ha ltac:(done)) as (w & H1 & E); rewrite E; cbn [obind].
    replace (over (advance a)) with false by (unfold over, advance; cbn; rewrite Hlo; cbn; lia); cbn [obind].
    destruct (IH (mkMan w (_Ani m) (<[p := advance a]> (heap m)) (fresh m)) p (advance a) H1 Hl ltac:(cbn [heap]; by rewrite lookup_insert_eq) Hlo He Hst ltac:(cbn; lia))
      as (m' & w0 & w1 & E2 & H2 & H3 & H4 & H5 & H6 & H7).
    exists m', w0, w1; cbn [turns] in E2; split; [exact E2|]; by repeat split.
Qed.
End Turns.

(** ** The grid keeps the laws *)

#[export] Instance grid_laws : ISurfaceLaws Screen.screen Screen.inv.
Proof.
  constructor.
  - intros s ob v t k ty Hs; case_bool; [|..|by exists s].
    + exact (Screen.op_inv s (Screen.Move v t k) Hs I).
    + exact (Screen.op_inv s (Screen.Turn v t k) Hs I).
    + exact (Screen.op_inv s (Screen.Zoom v t k) Hs I).
  - intros s ob k b Hs; exact (Screen.op_inv s (Screen.Animate k b) Hs I).
Qed.
(** A video's own position, rotation or scale reads as it was set. *)
Lemma grid_reads s k ty v a s1 : 0 <= k < 36 -> 0 <= ty <= 2 -> _istexture a = false -> _type a = ty -> index a = k ->
  set_value s a v = Done s1 -> exists u, get_value s1 0 ty false k = Done u /\ (u = v \/ Surface.veqb u v = true).
Proof.
  intros Hk Hty Etex Ety Eidx E; assert (Ho : Screen.out k = false) by (unfold Screen.out; lia).
  assert (Hcase : exists f, Screen.on_video s k f = Done s1 /\
            forall w, let t := Surface.obj (f w) in
              let u := if ty =? 0 then Surface.pos t else if ty =? 1 then Surface.scale t else Surface.rotate t in
              u = v \/ Surface.veqb u v = true).
  { unfold set_value in E; rewrite Etex, Ety, Eidx in E.
    clear Ety; assert (ty = 0 \/ ty = 1 \/ ty = 2) as [->|[->| ->]] by lia; cbn [Z.eqb Pos.eqb SetPosition setRotate SetScale grid] in E;
      unfold Screen.SetPosition, Screen.setRotate, Screen.SetScale, Screen.with_video in E; rewrite Ho in E;
      eexists; (split; [exact E|]); intros w; cbn [Z.eqb Pos.eqb];
      unfold Surface.SetPosition, Surface.setRotate, Surface.SetScale, Surface.surface_SetPosition, Surface.surface_SetScale, Surface.put, Surface.part;
      cbn [negb]; case_bool; auto. }
  destruct Hcase as (f & E1 & Hf); destruct (Screen.on_video_done _ _ _ _ E1) as (w & Ew & Hz & ->).
  assert (Eg : znth (Screen.mVideo (Screen.set_video s (zset (Screen.mVideo s) k (f w)))) k = Some (f w)).
  { unfold znth, zset, zlen in *; cbn [Screen.mVideo Screen.set_video]; replace (k <? 0) with false by lia; by rewrite list_lookup_insert_eq by lia. }
  specialize (Hf w); cbv zeta in Hf; unfold get_value; cbn [GetPosition GetRotate GetScale grid];
    unfold Screen.GetPosition, Screen.GetRotate, Screen.GetScale, Screen.from_video; rewrite Ho; unfold Screen.at_index; rewrite Eg; cbn [obind].
  assert (ty = 0 \/ ty = 1 \/ ty = 2) as [->|[->| ->]] by lia; cbn [Z.eqb Pos.eqb] in *; eexists; (split; [done|exact Hf]).
Qed.
Lemma grid_animates s ob k b s1 ty : 0 <= k < 36 -> SetIsAnimation s ob k b = Done s1 ->
  get_value s1 0 ty false k = get_value s 0 ty false k /\
  exists v, znth (Screen.mVideo s1) k = Some v /\ Surface.mIsOwnAnimation v = b.
Proof.
  intros Hk; cbn [SetIsAnimation grid]; unfold Screen.SetIsAnimation, Screen.with_video.
  assert (Ho : Screen.out k = false) by (unfold Screen.out; lia); rewrite Ho.
  intros (v & Ev & Hz & ->)%Screen.on_video_done.
  assert (Eg : znth (Screen.mVideo (Screen.set_video s (zset (Screen.mVideo s) k (Surface.SetIsAnimation v b)))) k = Some (Surface.SetIsAnimation v b)).
  { unfold znth, zset, zlen in *; cbn [Screen.mVideo Screen.set_video]; replace (k <? 0) with false by lia; by rewrite list_lookup_insert_eq by lia. }
  split; [|by exists (Surface.SetIsAnimation v b)].
  unfold get_value; cbn [GetPosition GetRotate GetScale grid]; unfold Screen.GetPosition, Screen.GetRotate, Screen.GetScale, Screen.from_video, Screen.at_index.
  by rewrite Ho, Eg, Ev.
Qed.

(** * The correctness of the animations *)

(** One turn of the thread, over objects that answer and callbacks that leave the
    list alone: each animation that has taken its last step leaves the list and is
    freed, every other one stays, in the same order, one step further. *)
Theorem operator_turn {W : Type} `{ISurface W} (good : W -> Prop) `{!ISurfaceLaws W good} sinf ended m :
  quiet good ended -> wf good m ->
  exists m', AnimationOperator sinf ended m = Done m' /\ wf good m' /\ _Ani m' = List.filter (stays sinf (heap m)) (_Ani m) /\
    forall p : Z, p ∈ _Ani m -> heap m' !! p = if stays sinf (heap m) p then advance sinf <$> heap m !! p else None.
Proof. intros Hq Hm; by apply (turn_spec good sinf ended m Hq Hm). Qed.

(** C29: after as many turns as the longest animation has steps left, the looping
    animations are the only ones left, all of them. *)
Theorem animations_finish {W : Type} `{ISurface W} (good : W -> Prop) `{!ISurfaceLaws W good} sinf ended n m :
  quiet good ended -> wf good m ->
  (forall p a, p ∈ _Ani m -> heap m !! p = Some a -> _isLoop a = false -> 0 < _step a - _stepcount a <= Z.of_nat n) ->
  exists m', turns sinf ended n m = Done m' /\ wf good m' /\ _Ani m' = List.filter (looping (heap m)) (_Ani m).
Proof. intros Hq Hm Hn; by apply (turns_spec good sinf ended n Hq m Hm Hn). Qed.

(** C28: an animation of a video's position, rotation or scale ends exactly at the
    value asked for after the number of steps asked for, whatever the rounding of its
    increments; the video is marked as animated from the start to the end. *)
Theorem animation_lands sinf ended s k pend step dur ty inertia : quiet Screen.inv ended -> Screen.inv s ->
  0 <= k < 36 -> 0 <= ty <= 2 -> 0 < step ->
  exists m1 m2 v1 v2 u, StartAnimation (mkMan s [] ∅ 1) 0 pend step dur false ty false k inertia false = Done (m1, 1) /\
    znth (Screen.mVideo (world m1)) k = Some v1 /\ Surface.mIsOwnAnimation v1 = true /\
    turns sinf ended (Z.to_nat step) m1 = Done m2 /\ _Ani m2 = [] /\ heap m2 !! 1 = None /\ Screen.inv (world m2) /\
    znth (Screen.mVideo (world m2)) k = Some v2 /\ Surface.mIsOwnAnimation v2 = false /\
    get_value (world m2) 0 ty false k = Done u /\ (u = pend \/ Surface.veqb u pend = true).
Proof.
  intros Hq Hs Hk Hty Hst; unfold StartAnimation; cbn [SwitchAnimation grid world].
  destruct (animation_answers s 0 k true Hs) as (s1 & E1 & H1); cbv zeta; unfold StartAnimation; rewrite E1; cbn [obind].
  destruct (grid_animates s 0 k true s1 ty Hk E1) as (_ & v1 & Ev1 & Ha1).
  assert (Hget : exists st, get_value s1 0 ty false k = Done st).
  { unfold get_value; cbn [GetPosition GetRotate GetScale grid]; unfold Screen.GetPosition, Screen.GetRotate, Screen.GetScale, Screen.from_video.
    replace (Screen.out k) with false by (unfold Screen.out; lia); unfold Screen.at_index; rewrite Ev1; cbn [obind]; case_bool; eauto. }
  destruct Hget as (st & Est); rewrite Est; cbn [obind _Ani heap fresh].
  match goal with |- context [<[1 := ?a0]> ∅] => set (a := a0) end.
  destruct (alone Screen.inv sinf ended (pred (Z.to_nat step)) Hq (mkMan s1 [1] (<[1 := a]> ∅) 2) 1 a H1 eq_refl
              ltac:(cbn [heap]; by rewrite lookup_insert_eq) eq_refl eq_refl Hst ltac:(cbn; lia))
    as (m2 & w & w1 & E2 & H2 & H3 & H4 & H5 & H6 & H7).
  replace (S (pred (Z.to_nat step))) with (Z.to_nat step) in E2 by lia.
  destruct (grid_animates w1 0 k false (world m2) ty Hk H7) as (Eg & v2 & Ev2 & Ha2).
  destruct (grid_reads w k ty pend a w1 Hk Hty eq_refl eq_refl eq_refl H6) as (u & Eu & Hu).
  exists (mkMan s1 [1] (<[1 := a]> ∅) 2), m2, v1, v2, u; cbn [world CList.insert].
  repeat (split; [done|]); split; [by rewrite Eg|done].
Qed.

(** The list's lock is released around the callback: if the animation is stopped
    in the meantime, by the callback or by another thread, the operator uses it after
    it has been freed. *)
Theorem stop_inside_end {W : Type} `{ISurface W} (good : W -> Prop) `{!ISurfaceLaws W good} sinf m p a : good (world m) -> p <> 0 ->
  _Ani m = [p] -> heap m !! p = Some a -> 0 < _step a -> OnEnd a = true -> over (advance sinf a) = true ->
  AnimationOperator sinf StopAnimation m = Fault.
Proof.
  intros Hg Hp Hl Ha Hst He Ho; unfold AnimationOperator; rewrite Hl; cbn [length downwards].
  rewrite Hl; change (CList.at_ 0 (Z.of_nat 0) [p]) with (Done p); cbn [obind]; unfold operate at 1, deref; rewrite Ha; cbn [obind].
  replace (_step a =? 0) with false by lia; rewrite andb_false_r; cbv zeta; set (v := next_value sinf a).
  destruct (set_answers (world m) (_obj (moved a v)) (_value (moved a v)) (_istexture (moved a v)) (index (moved a v)) (_type (moved a v)) Hg) as (w & E1 & H1).
  unfold set_value at 1; rewrite E1; cbn [obind]; change (counted (moved a v)) with (advance sinf a).
  change ((_step (advance sinf a) <=? _stepcount (advance sinf a)) && negb (_isLoop (advance sinf a))) with (over (advance sinf a)); rewrite Ho.
  destruct (set_answers w (_obj a) (_end a) (_istexture a) (index a) (_type a) H1) as (w1 & E2 & H2).
  unfold set_value; cbn [world write set_world _type _obj _end _istexture index advance counted moved]; rewrite E2; cbn [obind].
  cbn [OnEnd advance counted moved]; rewrite He; unfold StopAnimation; replace (p =? 0) with false by lia.
  cbn [_Ani write set_world]; rewrite Hl; unfold CList.search; cbn [CList.search_from]; rewrite decide_True by done; cbn [Z.leb Z.compare].
  unfold dispose at 1, deref; cbn [heap set_world write]; rewrite lookup_insert_eq; cbn [obind].
  destruct (animation_answers w1 (_obj a) (index a) false H2) as (w2 & E3 & H3).
  cbn [world set_world _obj index advance counted moved]; rewrite E3; cbn [obind]; unfold remove_at; cbn [_Ani set_world write]; rewrite Hl; cbn [obind CList.remove].
  change (CList.remove 0 [p]) with (Done (@nil Z)); cbn [obind]; unfold free; cbn [heap set_world write]; rewrite lookup_insert_eq; cbn [obind].
  unfold dispose, deref; cbn [heap]; by rewrite lookup_delete_eq.
Qed.

(** * Concrete animations *)

Definition straight (x : spec_float) : spec_float := x.
Definition nothing (m : @manager Screen.screen) (_ : Z) : outcome (@manager Screen.screen) := Done m.
Lemma nothing_quiet : quiet Screen.inv nothing.
Proof. intros m p Hm; exists (world m); split; [by destruct m|done]. Qed.
(** A turning video and one that moves in three steps. *)
Definition turning : JA_Animation :=
  mkAni 0 (Surface.vec_of 0 0 0) (Surface.vec_of 0 0 0) (Surface.vec_of 0 0 5) 5 0 (Surface.vec_of 0 0 5) true false JA_ANI_TYPE_ROTATE 10 2 false false.
Definition moving (n : Z) (b : bool) : JA_Animation :=
  mkAni 0 (Surface.vec_of 0 0 0) (Surface.vec_of 0 0 0) (Surface.vec_of 1 0 0) 3 n (Surface.vec_of 3 0 0) false false 0 500 1 false b.
Definition two_running : @manager Screen.screen := mkMan Screen.start [1; 2] (<[1 := turning]> (<[2 := moving 2 false]> ∅)) 3.
Lemma two_running_wf : wf Screen.inv two_running.
Proof.
  constructor; [exact (proj1 Screen.start_ok)|apply NoDup_ListNoDup; repeat constructor; cbn; intuition lia|].
  intros p Hp; apply list_elem_of_In in Hp as [<-|[<-|[]]]; [by exists turning|by exists (moving 2 false)].
Qed.

Lemma operator_turn_witness : exists m', AnimationOperator straight nothing two_running = Done m' /\ _Ani m' = [1].
Proof.
  destruct (operator_turn Screen.inv straight nothing two_running nothing_quiet two_running_wf) as (m' & E & _ & Hl & _).
  exists m'; split; [exact E|]; rewrite Hl; vm_compute; reflexivity.
Defined.
Lemma animations_finish_witness : exists m', turns straight nothing 3 two_running = Done m' /\ _Ani m' = [1].
Proof.
  destruct (animations_finish Screen.inv straight nothing 3 two_running nothing_quiet two_running_wf) as (m' & E & _ & Hl).
  - intros p a Hp Ha Hlo; apply list_elem_of_In in Hp as [<-|[<-|[]]]; cbn in Ha; injection Ha as <-; [done|vm_compute; split; [reflexivity|discriminate]].
  - exists m'; split; [exact E|]; rewrite Hl; vm_compute; reflexivity.
Defined.
Lemma animation_lands_witness : exists m1 m2, StartAnimation (mkMan Screen.start [] ∅ 1) 0 (Surface.vec_of 3 2 0) 10 500 false 0 false 4 false false = Done (m1, 1) /\
  turns straight nothing (Z.to_nat 10) m1 = Done m2 /\ _Ani m2 = [].
Proof.
  destruct (animation_lands straight nothing Screen.start 4 (Surface.vec_of 3 2 0) 10 500 0 false nothing_quiet (proj1 Screen.start_ok)
              ltac:(lia) ltac:(lia) ltac:(lia)) as (m1 & m2 & v1 & v2 & u & E1 & _ & _ & E2 & Hl & _).
  exists m1, m2; by repeat split.
Defined.
Lemma stop_inside_end_witness :
  AnimationOperator straight StopAnimation (mkMan Screen.start [2] (<[2 := moving 2 true]> ∅) 3) = Fault.
Proof.
  exact (stop_inside_end Screen.inv straight (mkMan Screen.start [2] (<[2 := moving 2 true]> ∅) 3) 2 (moving 2 true) (proj1 Screen.start_ok)
    ltac:(lia) eq_refl eq_refl ltac:(cbn; lia) eq_refl eq_refl).
Defined.
End Animation.
