(* ===== verification/Gestures.v ===== *)
(** The gestures of ParametricManager (gles/GLES/ParametricManager.cpp): double tap,
    press, move, release and wheel, on the grid of videos and on the fish-eye screen; the
    switch of modes, and the windows that follow a touch (VertexObjectImpl::UpdateFrame).
    The two screens are the objects of Animation.v's interface.  [atanf] and [acosf] are
    parameters; one reading of the clock stands for the readings a handler takes. *)
From Stdlib Require Import SpecFloat.
From stdpp Require Import gmap.
From S2P Require Import Prelude Float32 LinkedList Surface Screen FishEye Animation.

Module Gestures.
Import Surface (vec3, vec, vec_of, vadd, x, y, z).
Import FishEye (VO_MODEITEM).
Import Animation.

(** ** The screens as objects *)

(** The objects are 0, the grid, 1, the fish-eye screen, and above them the picture
    that turns while the fish-eye video loads. *)
Record stage := mkStage { grid_of : Screen.screen; eye : FishEye.screen; picture : Surface.surface; loads : bool; is_eye : bool }.
Definition set_grid (s : stage) (g : Screen.screen) : stage := mkStage g (eye s) (picture s) (loads s) (is_eye s).
Definition set_eye (s : stage) (e : FishEye.screen) : stage := mkStage (grid_of s) e (picture s) (loads s) (is_eye s).
Definition set_picture (s : stage) (p : Surface.surface) : stage := mkStage (grid_of s) (eye s) p (loads s) (is_eye s).
Definition on_object (s : stage) (ob : Z) (g : Screen.screen -> outcome Screen.screen) (e : FishEye.screen -> outcome FishEye.screen)
    (p : Surface.surface -> Surface.surface) : outcome stage :=
  if ob =? 0 then let* g := g (grid_of s) in Done (set_grid s g)
  else if ob =? 1 then let* e := e (eye s) in Done (set_eye s e)
  else Done (set_picture s (p (picture s))).
Definition of_object {A} (s : stage) (ob : Z) (g : Screen.screen -> outcome A) (e : FishEye.screen -> outcome A) (p : Surface.surface -> A) : outcome A :=
  if ob =? 0 then g (grid_of s) else if ob =? 1 then e (eye s) else Done (p (picture s)).
#[export] Instance stage_surface : ISurface stage := {
  SetPosition s ob v t k := on_object s ob (fun g => Screen.SetPosition g v t k) (fun e => FishEye.SetPosition e v t k) (fun p => Surface.surface_SetPosition p v t);
  setRotate s ob v t k := on_object s ob (fun g => Screen.setRotate g v t k) (fun e => FishEye.setRotate e v t k) (fun p => Surface.setRotate p v t);
  SetScale s ob v t k := on_object s ob (fun g => Screen.SetScale g v t k) (fun e => FishEye.SetScale e v t k) (fun p => Surface.surface_SetScale p v t);
  GetPosition s ob t k := of_object s ob (fun g => Screen.GetPosition g t k) (fun e => FishEye.GetPosition e t k) (fun p => Surface.GetPosition p t);
  GetRotate s ob t k := of_object s ob (fun g => Screen.GetRotate g t k) (fun e => FishEye.GetRotate e t k) (fun p => Surface.GetRotate p t);
  GetScale s ob t k := of_object s ob (fun g => Screen.GetScale g t k) (fun e => FishEye.GetScale e t k) (fun p => Surface.GetScale p t);
  SetIsAnimation s ob k b := on_object s ob (fun g => Screen.SetIsAnimation g k b) Done (fun p => p);
  GetLoading s _ := if is_eye s && loads s then Some 2 else None;
  SwitchAnimation s := is_eye s && FishEye.GetSwitchAnimation (eye s)
}.

(** ** ParametricManager *)

Record touch := mkTouch { lastx : Z; lasty : Z; startx : Z; starty : Z; mSpeed : Z; starttime : Z; mIndex : Z }.
Record limits := mkLim { limit_left : spec_float; limit_right : spec_float; limit_top : spec_float; limit_bottom : spec_float }.
(** The circles of the factory mode. *)
Record circles := mkCirc { mShowCircle : Z; mCurrentCircle : Z; mCircle : list Surface.surface; mDiameter : list spec_float }.
(** The statics of DoTapOrMouseMove: the point and the time are set at its first call. *)
Record statics := mkStat { speed : Z; from : option (Z * Z) }.
Record pm := mkPm {
  man : @manager stage; touched : touch; limits_of : limits; circles_of : circles; statics_of : statics;
  window_width : Z; window_height : Z; hemisphereSpeel : spec_float; hemisphereInertia : spec_float; adjustableScale : spec_float;
  mViewAngle : spec_float; _current_mode : Z; windowIndex : Z; outsideChanged : bool
}.
Definition with_man (m : pm) (a : @manager stage) : pm :=
  mkPm a (touched m) (limits_of m) (circles_of m) (statics_of m) (window_width m) (window_height m) (hemisphereSpeel m) (hemisphereInertia m)
    (adjustableScale m) (mViewAngle m) (_current_mode m) (windowIndex m) (outsideChanged m).
Definition with_touch (m : pm) (t : touch) : pm :=
  mkPm (man m) t (limits_of m) (circles_of m) (statics_of m) (window_width m) (window_height m) (hemisphereSpeel m) (hemisphereInertia m)
    (adjustableScale m) (mViewAngle m) (_current_mode m) (windowIndex m) (outsideChanged m).
Definition with_limits (m : pm) (l : limits) : pm :=
  mkPm (man m) (touched m) l (circles_of m) (statics_of m) (window_width m) (window_height m) (hemisphereSpeel m) (hemisphereInertia m)
    (adjustableScale m) (mViewAngle m) (_current_mode m) (windowIndex m) (outsideChanged m).
Definition with_circles (m : pm) (c : circles) : pm :=
  mkPm (man m) (touched m) (limits_of m) c (statics_of m) (window_width m) (window_height m) (hemisphereSpeel m) (hemisphereInertia m)
    (adjustableScale m) (mViewAngle m) (_current_mode m) (windowIndex m) (outsideChanged m).
Definition with_statics (m : pm) (s : statics) : pm :=
  mkPm (man m) (touched m) (limits_of m) (circles_of m) s (window_width m) (window_height m) (hemisphereSpeel m) (hemisphereInertia m)
    (adjustableScale m) (mViewAngle m) (_current_mode m) (windowIndex m) (outsideChanged m).
Definition with_mode (m : pm) (mode w : Z) (outside : bool) : pm :=
  mkPm (man m) (touched m) (limits_of m) (circles_of m) (statics_of m) (window_width m) (window_height m) (hemisphereSpeel m) (hemisphereInertia m)
    (adjustableScale m) (mViewAngle m) mode w outside.
Definition SetWindowWidthHeight (m : pm) (w h : Z) : pm :=
  mkPm (man m) (touched m) (limits_of m) (circles_of m) (statics_of m) w h (hemisphereSpeel m) (hemisphereInertia m)
    (adjustableScale m) (mViewAngle m) (_current_mode m) (windowIndex m) (outsideChanged m).
Definition with_experience (m : pm) (sp inertia scale angle : spec_float) : pm :=
  mkPm (man m) (touched m) (limits_of m) (circles_of m) (statics_of m) (window_width m) (window_height m) sp inertia
    scale angle (_current_mode m) (windowIndex m) (outsideChanged m).
Definition world_of (m : pm) : stage := world (man m).
Definition set_stage (m : pm) (s : stage) : pm := with_man m (set_world (man m) s).
Definition SetOutsideChanged (m : pm) (b : bool) : pm := with_mode m (_current_mode m) (windowIndex m) b.

Abbreviation ACTION_MOVE_SPEED := 0 (only parsing).
Abbreviation ACTION_MOVE_INERTIA := 1 (only parsing).
Abbreviation ACTION_MOVE_SCALE := 2 (only parsing).
Definition AdjustActionExperience (m : pm) (ty actionType : Z) (value : spec_float) : pm :=
  if actionType =? ACTION_MOVE_SPEED then with_experience m value (hemisphereInertia m) (adjustableScale m) (mViewAngle m)
  else if actionType =? ACTION_MOVE_INERTIA then with_experience m (hemisphereSpeel m) value (adjustableScale m) (mViewAngle m)
  else if actionType =? ACTION_MOVE_SCALE then with_experience m (hemisphereSpeel m) (hemisphereInertia m) value (mViewAngle m)
  else m.

(** CurrentParametric(): the object, its mode, and its accessors. *)
Definition current (m : pm) : Z := if is_eye (world_of m) then 1 else 0.
Definition GetScreenMode (m : pm) : Z := if is_eye (world_of m) then FishEye.GetScreenMode (eye (world_of m)) else SCRN_NORMAL.
Definition GetDualMode (m : pm) : bool := FishEye.DualMode (eye (world_of m)).
Definition set_pos (m : pm) (v : vec3) (t : bool) (k : Z) : outcome pm := let* s := SetPosition (world_of m) (current m) v t k in Done (set_stage m s).
Definition set_scale (m : pm) (v : vec3) (t : bool) (k : Z) : outcome pm := let* s := SetScale (world_of m) (current m) v t k in Done (set_stage m s).
Definition set_rotate (m : pm) (v : vec3) (t : bool) (k : Z) : outcome pm := let* s := setRotate (world_of m) (current m) v t k in Done (set_stage m s).
Definition get_pos (m : pm) (t : bool) (k : Z) : outcome vec3 := GetPosition (world_of m) (current m) t k.
Definition get_scale (m : pm) (t : bool) (k : Z) : outcome vec3 := GetScale (world_of m) (current m) t k.
Definition get_rotate (m : pm) (t : bool) (k : Z) : outcome vec3 := GetRotate (world_of m) (current m) t k.
Definition animate (m : pm) (v : vec3) (step dur ty : Z) (texture : bool) (k : Z) : outcome pm :=
  let* '(a, _) := StartAnimation (man m) (current m) v step dur false ty texture k true false in Done (with_man m a).
Definition clear (m : pm) : outcome pm := let* a := ClearAnimation (man m) in Done (with_man m a).
Definition clear_at (m : pm) (k : Z) : outcome pm := let* a := ClearAnimationOf (man m) k in Done (with_man m a).
(** The grid's SetSelected works on its selection box; the fish-eye screen stores the index. *)
Definition select (m : pm) (k : Z) : outcome pm :=
  if is_eye (world_of m) then Done (set_stage m (set_eye (world_of m) (FishEye.SetSelected (eye (world_of m)) true k)))
  else let* g := Screen.SetSelectedByIndex (grid_of (world_of m)) true k in Done (set_stage m (set_grid (world_of m) g)).
Definition GetViewAngle (m : pm) : spec_float := if _current_mode m =? SCRN_CUP then F32.of_Z 120 else mViewAngle m.
Definition SetViewAngle (m : pm) (angle : spec_float) : outcome pm :=
  let m := with_experience m (hemisphereSpeel m) (hemisphereInertia m) (adjustableScale m) angle in
  let* e := FishEye.SetViewAngle (eye (world_of m)) angle in
  Done (set_stage m (set_eye (world_of m) e)).
Definition TransformVertex (m : pm) (mode : Z) (v : vec3) (texture : bool) (ty k : Z) : outcome pm :=
  let* e := FishEye.TransformVertex (eye (world_of m)) mode v texture ty k in
  Done (set_stage m (set_eye (world_of m) e)).

Definition SwitchMode (m : pm) (mode : Z) : outcome pm :=
  if (mode <? 0) || (18 <? mode) then Done m                     (* SCREENMODE_COUNT *)
  else
    let m := with_mode m mode (windowIndex m) (outsideChanged m) in
    let w := world_of m in
    if 0 <? mode then
      let* e := FishEye.SwitchMode (eye w) mode (negb (FishEye.GetSwitchAnimation (eye w))) in
      Done (set_stage m (mkStage (grid_of w) e (picture w) (loads w) true))
    else Done (set_stage m (mkStage (grid_of w) (eye w) (picture w) (loads w) false)).

(** ** The grid through the manager *)

(** What the manager passes on while the current object is the grid. *)
Definition on_grid (m : pm) (f : Screen.screen -> outcome Screen.screen) : outcome pm :=
  if negb (GetScreenMode m =? SCRN_NORMAL) then Done m
  else if is_eye (world_of m) then Fault                         (* the cast to NormalScreen *)
  else let* g := f (grid_of (world_of m)) in Done (set_stage m (set_grid (world_of m) g)).
Definition of_grid {A} (m : pm) (d : A) (f : Screen.screen -> outcome A) : outcome A :=
  if negb (GetScreenMode m =? SCRN_NORMAL) then Done d
  else if is_eye (world_of m) then Fault else f (grid_of (world_of m)).
Definition SetSplit (m : pm) (index : Z) (ani : bool) : outcome pm := on_grid m (fun g => Screen.SetSplit g index ani).
Definition SetPage (m : pm) (index : Z) (ani : bool) : outcome pm := on_grid m (fun g => Screen.SetPage g index ani).
Definition SetAllPage (m : pm) (n : Z) : outcome pm := on_grid m (fun g => Done (Screen.SetAllPage g n)).
Definition SetSelected (m : pm) (px py w h : Z) : outcome pm := on_grid m (fun g => Screen.SetSelected g px py w h).
Definition SetSelectedByIndex (m : pm) (index : Z) : outcome pm := on_grid m (fun g => Screen.SetSelectedByIndex g true index).
Definition ReSizeSplite (m : pm) (aspect : spec_float) : outcome pm := on_grid m (fun g => Screen.ReSizeSplite g aspect).
Definition SetSingVideo (m : pm) (index : Z) (ani : bool) : outcome pm := on_grid m (fun g => Screen.SetSingVideo g index ani).
Definition GetPage (m : pm) : outcome Z := of_grid m 0 (fun g => Done (Screen.GetPage g)).
Definition GetAllPage (m : pm) : outcome Z := of_grid m 0 Screen.GetAllPage.
Definition GetScreenCount (m : pm) : outcome Z := of_grid m 1 (fun g => Done (Screen.GetScreenCount g)).
Definition getVideoIndex (m : pm) : outcome Z := of_grid m 0 (fun g => Done (Screen.getVideoIndex g)).
Definition GetSplitMode (m : pm) : outcome Z := of_grid m (-1) (fun g => Done (Screen.GetSplitMode g)).
Definition GetVisibility (m : pm) (index : Z) : outcome bool := of_grid m false (fun g => Screen.GetVisibility g index).
(** Of the grid, whatever the current object is. *)
Definition SetKeepAspect (m : pm) (aspect : spec_float) (k : Z) : outcome pm :=
  let* g := Screen.SetKeepAspect (grid_of (world_of m)) aspect k in Done (set_stage m (set_grid (world_of m) g)).
Definition GetKeepAspect (m : pm) (k : Z) : outcome spec_float := Screen.GetKeepAspect (grid_of (world_of m)) k.
Definition GetMode (m : pm) : Z := _current_mode m.
Definition UpdateAspect (m : pm) (aspect : spec_float) : pm := set_stage m (set_eye (world_of m) (FishEye.UpdateAspect (eye (world_of m)) aspect)).

(** The circles of the factory mode. *)
Definition EnableFactoryMode (m : pm) (value : Z) : pm :=
  let c := circles_of m in with_circles m (mkCirc value (mCurrentCircle c) (mCircle c) (mDiameter c)).
Definition Get_FM_CircleOptions (m : pm) (index : Z) : outcome (option (spec_float * spec_float * spec_float)) :=
  if (index <? 0) || (1 <? index) then Done None
  else
    let* d := FishEye.at_ (mDiameter (circles_of m)) index in
    let* c := FishEye.at_ (mCircle (circles_of m)) index in
    let pos := Surface.GetPosition c false in
    Done (Some (x pos, y pos, d)).
Definition Set_FM_CircleOptions (m : pm) (centerx centery diameter : spec_float) (index : Z) : outcome pm :=
  if (index <? 0) || (1 <? index) then Done m
  else
    let c := circles_of m in
    let* ci := FishEye.at_ (mCircle c) index in
    let ci := Surface.surface_SetPosition ci (vec centerx centery (F32.of_Z 0)) false in
    Done (with_circles m (mkCirc (mShowCircle c) (mCurrentCircle c) (zset (mCircle c) index ci) (zset (mDiameter c) index diameter))).

(** [int] arithmetic, and floats of ints. *)
Definition int (v : Z) : outcome Z := if (- 2 ^ 31 <=? v) && (v <? 2 ^ 31) then Done v else Fault.
Definition quot_int (a b : Z) : outcome Z := if b =? 0 then Fault else int (cdiv a b).
Definition flt (v : Z) : spec_float := F32.of_Z v.
(** A double computed from a float, stored in a float. *)
Definition dbl (f : spec_float -> spec_float) (v : spec_float) : spec_float := F64.to_float (f (F64.of_float v)).
Definition with_x (v : vec3) (a : spec_float) : vec3 := vec a (y v) (z v).
Definition with_y (v : vec3) (a : spec_float) : vec3 := vec (x v) a (z v).
Definition with_z (v : vec3) (a : spec_float) : vec3 := vec (x v) (y v) a.
Definition vsub (u v : vec3) : vec3 := vec (F32.sub (x u) (x v)) (F32.sub (y u) (y v)) (F32.sub (z u) (z v)).
Definition vec1 (a : spec_float) : vec3 := vec a a a.
Definition above (hi v : spec_float) : spec_float := if F32.ltb hi v then hi else v.
Definition below (lo v : spec_float) : spec_float := if F32.ltb v lo then lo else v.

(** ** The window under a touch *)

Definition GetScreenIndex (m : pm) (px py mode : Z) : outcome Z :=
  let ww := window_width m in
  let wh := window_height m in
  if mode =? SCRN_FOUR then
    let* a := quot_int px (cdiv ww 2) in
    let* b := quot_int py (cdiv wh 2) in
    Done (a + (1 - b) * 2)
  else if mode =? SCRN_THREE then
    let upper := (0 <? py) && (py <? cdiv (2 * wh) 3) in
    Done (if (cdiv ww 2 <? px) && (px <? ww) && upper then 1
          else if (0 <? px) && (px <? cdiv ww 2) && upper then 0 else -1)
  else if mode =? SCRN_SIX then
    let right := (cdiv (2 * ww) 3 <? px) && (px <? ww) in
    if cdiv (2 * wh) 3 <? py then let* a := quot_int px (cdiv ww 3) in Done (a + 2)
    else if right && (cdiv wh 3 <? py) && (py <? cdiv (2 * wh) 3) then Done 1
    else if right && (0 <? py) && (py <? cdiv wh 3) then Done 0 else Done (-1)
  else if mode =? SCRN_FOUREX then
    let right := cdiv ww 3 * 2 <? px in
    Done (if right && (cdiv wh 3 <? py) && (py <? cdiv wh 3 * 2) then 1
          else if right && (py <? cdiv wh 3) then 0 else -1)
  else Fault.                                                     (* [index] is not set *)

(** ** The outlines of the selected window *)

Section Handlers.
Context (atanf acosf : spec_float -> spec_float).

Definition the_eye (m : pm) : FishEye.screen := eye (world_of m).
Definition set_the_eye (m : pm) (e : FishEye.screen) : pm := set_stage m (set_eye (world_of m) e).
Definition deg (a : spec_float) : spec_float := F32.mul (F32.div a Pi) (flt 180).

(** The point of the picture as angles: around the axis, and from it. *)
Definition around (tb lr : spec_float) : spec_float :=
  let a := deg (atanf (F32.div lr tb)) in
  let a := if F32.ltb (flt 0) tb && F32.ltb lr (flt 0) then SFopp a else a in
  let a := if F32.ltb (flt 0) tb && F32.ltb (flt 0) lr then F32.sub (flt 360) a else a in
  if F32.ltb tb (flt 0) then F32.sub (flt 180) a else a.
Definition tilted (tbangle actr lrend langle : spec_float) : spec_float :=
  let top := F32.sub (flt 90) (F32.div langle (flt 2)) in
  if F32.ltb top tbangle || F32.ltb (F32.div lrend (flt 2)) actr then top
  else if F32.ltb tbangle (F32.div langle (flt 2)) then tbangle
  else dbl (fun v => F64.add v (F64.of_Z 12)) tbangle.
Definition widened (sy : spec_float) : spec_float := F32.mul (F32.mul (flt 100) (F32.sub sy (flt 1))) (flt 8).

(** The angle of view of the selected window. *)
Definition view (m : pm) (sel : VO_MODEITEM) : spec_float :=
  F64.to_float (F64.sub (F64.of_float (GetViewAngle m)) (F64.div (F64.of_float (widened (y (FishEye._scale (FishEye._matrix sel))))) (F64.of_Z 55))).
Definition rotation (it : VO_MODEITEM) : vec3 := FishEye._rotate (FishEye._matrix it).
(** The rotation that shows the point touched; none in the middle column. *)
Definition aim (r0 : vec3) (langle tbstart tbend lrstart lrend : spec_float) : option vec3 :=
  let tbend := F32.mul (F32.div tbend (flt 3)) (flt 2) in
  let lrend := F32.mul (F32.div lrend (flt 3)) (flt 2) in
  let lrstart := F32.sub lrstart (F32.div lrend (flt 2)) in
  let tbstart := F32.sub tbstart (F32.div tbend (flt 2)) in
  if SFeqb tbstart (flt 0) then None
  else
    let actr := F32.sqrt (F32.add (F32.mul tbstart tbstart) (F32.mul lrstart lrstart)) in
    let ratio := F32.div actr (F32.div lrend (flt 2)) in
    let tbangle := if F32.ltb (flt 1) ratio then flt 90 else F32.sub (flt 90) (deg (acosf ratio)) in
    Some (vec (tilted tbangle actr lrend langle) (y r0) (F32.sub (around tbstart lrstart) (flt 90))).
(** The outline on the hemisphere. *)
Definition follow (m : pm) (lrotate : vec3) (langle : spec_float) : pm :=
  let e := the_eye m in
  let wide := F32.mul langle (FishEye.m_aspect e) in
  let ud := F32.sub (F32.sub (flt 90) (x lrotate)) (F32.div langle (flt 2)) in
  let lr := F32.add (z lrotate) (F32.sub (flt 90) (F32.div wide (flt 2))) in
  set_the_eye m (FishEye.outlined e (FishEye.six_UpdatePosition ud (F32.add ud langle) lr (F32.add lr wide)) (FishEye.mExpand e)).
Definition turn_window (m : pm) (i k : Z) (r : vec3) : outcome pm :=
  let* e := FishEye.change_item (the_eye m) i k (fun it => FishEye.set_matrix it (FishEye.put_rotate false r (FishEye._matrix it))) in
  Done (set_the_eye m e).

Definition UpdateFrameHemisphere (m : pm) (tbstart tbend lrstart lrend : spec_float) (index : Z) (update ani : bool) : outcome pm :=
  let e := the_eye m in
  let* c := FishEye.getCurrent e (FishEye.mCurrentMode e) in
  match c with
  | None => Done m
  | Some i =>
      let index := if index <? 0 then FishEye.mSelected e else index in
      let* sel := FishEye.the_item e i (FishEye.mSelected e) in
      if negb update then Done (follow m (rotation sel) (view m sel))
      else
        let* it := FishEye.the_item e i index in
        let langle :=
          if index =? FishEye.mSelected e then view m sel else F32.sub (GetViewAngle m) (widened (y (FishEye._scale (FishEye._matrix it)))) in
        match aim (rotation it) langle tbstart tbend lrstart lrend with
        | None => Done m
        | Some r =>
            let* m :=
              if ani then let* '(a, _) := StartAnimation (man m) 1 r 30 30 false JA_ANI_TYPE_ROTATE false index true false in Done (with_man m a)
              else turn_window m i index r in
            Done (if index =? FishEye.mSelected e then follow m r langle else m)
        end
  end.

(** The outline on the unrolled picture. *)
Definition follow_unrolled (m : pm) (lrotate : vec3) (langle : spec_float) : outcome pm :=
  let e := the_eye m in
  let ud := F32.sub (flt 90) (x lrotate) in
  let lr := F32.sub (FishEye.mleftangle e) (z lrotate) in
  let half := F32.div langle (flt 2) in
  let wide := F32.div (F32.mul langle (FishEye.m_aspect e)) (flt 2) in
  let* o := FishEye.expand_UpdatePosition (F32.sub ud half) (F32.add ud half) (F32.sub lr wide) (F32.add lr wide) in
  Done (set_the_eye m (FishEye.outlined e (FishEye.mSix e) o)).
Definition aim_unrolled (e : FishEye.screen) (r0 : vec3) (tbstart tbend lrstart lrend : spec_float) : vec3 :=
  let third := F32.div lrend (flt 3) in
  vec (F32.sub (flt 100) (F32.mul (F32.div (F32.sub lrstart (F32.mul third (flt 2))) third) (flt 90))) (y r0)
      (F32.sub (FishEye.mleftangle e) (F32.mul (F32.div tbstart tbend) (flt 360))).
Definition UpdateFramePanorama (m : pm) (tbstart tbend lrstart lrend : spec_float) (index : Z) (update : bool) : outcome pm :=
  let e := the_eye m in
  let* c := FishEye.getCurrent e (FishEye.mCurrentMode e) in
  match c with
  | None => Done m
  | Some i =>
      let index := if index <? 0 then FishEye.mSelected e else index in
      let* sel := FishEye.the_item e i (FishEye.mSelected e) in
      let r := if update then aim_unrolled e (rotation sel) tbstart tbend lrstart lrend else rotation sel in
      let* m := if update then turn_window m i index r else Done m in
      follow_unrolled m r (view m sel)
  end.

Definition needing (m : pm) : pm := set_the_eye m (FishEye.needing (the_eye m)).
(** The body of UpdateFrame's loop on a window with an outline. *)
Definition update_window (m : pm) (it : VO_MODEITEM) (a b c d : spec_float) (index : Z) (update ani : bool) : outcome pm :=
  let* m :=
    if FishEye._type it =? VERTEX_TYPE_HEMISPHERE then UpdateFrameHemisphere m a b c d index update ani
    else if FishEye._type it =? VERTEX_TYPE_PANORAMA then UpdateFramePanorama m a b c d index update
    else Done m in
  Done (needing m).
Fixpoint update_loop (fuel : nat) (m : pm) (i : Z) (a b c d : spec_float) (index : Z) (update ani : bool) : outcome pm :=
  match fuel with
  | O => OutOfFuel
  | S fuel =>
      let* v := FishEye.getFrameTypeVO (the_eye m) i in
      match v with
      | None => Done m
      | Some (it, i) =>
          let* m := update_window m it a b c d index update ani in
          update_loop fuel m i a b c d index update ani
      end
  end.
Definition UpdateFrame (fuel : nat) (m : pm) (a b c d : spec_float) (index : Z) (update ani : bool) : outcome pm :=
  if update && (FishEye.GetScreenMode (the_eye m) =? SCRN_FOUREX) then
    let* m :=
      if F32.ltb (flt (cdiv (window_height m) 3 * 2)) c then
        let* m := UpdateFrameHemisphere m a b c d index update ani in UpdateFramePanorama m a b c d index update
      else
        let* m := UpdateFramePanorama m a b c d index update in UpdateFrameHemisphere m a b c d index update ani in
    Done (needing m)
  else update_loop fuel m 0 a b c d index update ani.

(** ParametricManager's own version, of the current object. *)
Definition DoUpdateFrame (m : pm) (tbstart tbend lrstart lrend : spec_float) (index : Z) (update ani : bool) : outcome pm :=
  let* lscale := get_scale m false index in
  let* r0 := get_rotate m false index in
  let langle := F32.sub (mViewAngle m) (widened (y lscale)) in
  let tbend := F32.mul (F32.div tbend (flt 3)) (flt 2) in
  let lrend := F32.mul (F32.div lrend (flt 3)) (flt 2) in
  let lrstart := F32.sub lrstart (F32.div lrend (flt 2)) in
  let tbstart := F32.sub tbstart (F32.div tbend (flt 2)) in
  let actr := F32.sqrt (F32.add (F32.mul tbstart tbstart) (F32.mul lrstart lrstart)) in
  let tbangle := F32.sub (flt 90) (deg (acosf (F32.div actr (F32.div lrend (flt 2))))) in
  let lrotate := vec (tilted tbangle actr lrend langle) (y r0) (F32.sub (around tbstart lrstart) (flt 90)) in
  if ani then animate m lrotate 50 30 JA_ANI_TYPE_ROTATE false index else set_rotate m lrotate false index.

(** ** Press *)

(** The distance of a point to a circle's centre, in half window heights. *)
Definition from_centre (m : pm) (px py : Z) (c : vec3) : spec_float :=
  let half_h := F32.div (flt (window_height m)) (flt 2) in
  let lcx := F32.sub (F32.div (F32.sub (flt px) (F32.div (flt (window_width m)) (flt 2))) half_h) (x c) in
  let lcy := F32.sub (F32.div (F32.sub (flt py) half_h) half_h) (y c) in
  F32.sqrt (F32.add (F32.mul lcx lcx) (F32.mul lcy lcy)).
Definition circle_at (m : pm) (px py i : Z) : outcome bool :=
  let* c := FishEye.at_ (mCircle (circles_of m)) i in
  let* d := FishEye.at_ (mDiameter (circles_of m)) i in
  Done (F32.ltb (from_centre m px py (Surface.GetPosition c false)) d).
Definition touched_circle (m : pm) (px py : Z) : outcome Z :=
  let* a := circle_at m px py 0 in
  if a then Done 0
  else if 1 <? mShowCircle (circles_of m) then let* b := circle_at m px py 1 in Done (if b then 1 else -1)
  else Done (-1).
Definition set_circle (m : pm) (i : Z) : pm :=
  let c := circles_of m in with_circles m (mkCirc (mShowCircle c) i (mCircle c) (mDiameter c)).
Definition set_index (m : pm) (i : Z) : pm :=
  let t := touched m in with_touch m (mkTouch (lastx t) (lasty t) (startx t) (starty t) (mSpeed t) (starttime t) i).
(** GetSelected of the current object. *)
Definition selected (m : pm) : Z := if is_eye (world_of m) then FishEye.GetSelected (the_eye m) 0 else 0.
Definition split_mode (mode : Z) : bool := (mode =? SCRN_FOUR) || (mode =? SCRN_THREE) || (mode =? SCRN_SIX) || (mode =? SCRN_FOUREX).
Definition below_panorama (m : pm) (mode py : Z) : bool := (mode =? SCRN_FOUREX) && (cdiv (window_height m) 3 * 2 <? py).

Definition DoTapOrMouseDown (fuel : nat) (m : pm) (now px py : Z) : outcome pm :=
  let* m :=
    if negb (mShowCircle (circles_of m) =? 0) then let* i := touched_circle m px py in Done (set_circle m i)
    else
      let mode := GetScreenMode m in
      if below_panorama m mode py then Done m
      else if split_mode mode then
        let* i := GetScreenIndex m px py mode in
        let m := set_index m i in
        if 0 <=? i then
          let* m := clear_at m i in
          let* m := select m i in
          UpdateFrame fuel m (flt 0) (flt 0) (flt 0) (flt 0) i false false
        else
          let* m := clear_at m (selected m) in
          UpdateFrame fuel m (flt px) (flt (window_width m)) (flt py) (flt (window_height m)) i true false
      else if negb (mode =? SCRN_NORMAL) then clear m else Done m in
  let t := touched m in
  Done (with_touch m (mkTouch px py px py (mSpeed t) (i32 now) (mIndex t))).

(** ** Move *)

(** A quarter turn for the whole window. *)
Definition turned (v : spec_float) (d size : Z) : spec_float :=
  dbl (fun v => F64.add v (F64.mul (F64.of_float (F32.div (flt d) (flt size))) (F64.of_Z 90))) v.
Definition part (d size : Z) : spec_float := F32.div (flt d) (flt size).
Definition twice (d size : Z) : spec_float := F32.div (F32.mul (flt 2) (flt d)) (flt size).

Definition move_circle (m : pm) (dx dy : Z) : outcome pm :=
  let c := circles_of m in
  if mCurrentCircle c <? 0 then Done m
  else
    let* s := FishEye.at_ (mCircle c) (mCurrentCircle c) in
    let half_h := F32.div (flt (window_height m)) (flt 2) in
    let p := Surface.GetPosition s false in
    let p := vec (F32.add (x p) (F32.div (flt dx) half_h)) (F32.sub (y p) (F32.div (flt dy) half_h)) (z p) in
    Done (with_circles m (mkCirc (mShowCircle c) (mCurrentCircle c) (zset (mCircle c) (mCurrentCircle c) (Surface.surface_SetPosition s p false)) (mDiameter c))).
Definition move_grid (m : pm) (dx dy k : Z) : outcome pm :=
  let* lscale := get_scale m true k in
  let* v := F32.to_int (x lscale) in
  let* px := quot_int dx v in
  let* py := quot_int dy v in
  let* p := get_pos m true k in
  set_pos m (vec (F32.sub (x p) (part px (window_width m))) (F32.sub (y p) (part py (window_height m))) (z p)) true k.
Definition turn_xy (m : pm) (dx dy k : Z) (r : vec3) : outcome pm :=
  set_rotate m (vec (turned (x r) dy (window_height m)) (turned (y r) dx (window_width m)) (z r)) false k.
Definition move_sphere (m : pm) (dx dy wallmode : Z) : outcome pm :=
  if GetDualMode m then let* r := get_rotate m false 0 in turn_xy m dx dy 0 r
  else
    let* s := get_scale m false 0 in
    let* r := get_rotate m false 0 in
    if negb (wallmode =? 0) then
      let left := F32.sub (flt 60) (F32.div (F32.div (flt 60) (y s)) (flt 2)) in
      let top := F32.sub (flt 30) (F32.div (F32.div (flt 60) (x s)) (flt 2)) in
      let m := with_limits m (mkLim left (SFopp left) top (SFopp top)) in
      let rx := turned (x r) dy (window_height m) in
      let ry := turned (y r) dx (window_width m) in
      let ry := below (F32.sub (SFopp left) (flt 20)) (above (F32.add left (flt 20)) ry) in
      let rx := below (F32.sub (SFopp top) (flt 10)) (above (F32.add top (flt 10)) rx) in
      set_rotate m (vec rx ry (z r)) false 0
    else
      let top := F32.sub (flt 90) (F32.div (F32.div (mViewAngle m) (y s)) (flt 2)) in
      let l := limits_of m in
      let m := with_limits m (mkLim (limit_left l) (limit_right l) top (flt 0)) in
      let rx := turned (x r) dy (window_height m) in
      let rz := turned (z r) dx (window_width m) in
      let rx := if GetScreenMode m =? SCRN_CUP then rx else below (F32.sub (flt 0) (flt 10)) (above (F32.add top (flt 10)) rx) in
      set_rotate m (vec rx (y r) rz) false 0.
Definition move_cylinder (m : pm) (dx dy px py : Z) : outcome pm :=
  let t := touched m in
  let* lrotate := get_rotate m false 0 in
  let* ltscale := get_scale m true 0 in
  let* ltpos := get_pos m true 0 in
  let* fromy := int (py - starty t) in
  let* m :=
    if (Z.abs dx <? 20) && (20 <? Z.abs fromy) then
      let sx := F32.add (x ltscale) (F32.div (F32.mul (flt (- dy)) (flt 10)) (flt (window_height m))) in
      let sx := above (flt 6) (below (flt 1) sx) in
      let grow := F32.sub sx (flt 1) in
      let rx :=
        if GetDualMode m then dbl (fun v => F64.add (F64.of_Z (-30)) (F64.mul v (F64.of_Z 6))) grow
        else dbl (fun v => F64.sub (F64.of_Z 30) (F64.mul v (F64.of_Z 6))) grow in
      let size := dbl (fun v => F64.add (F64.of_Z 1) (F64.mul v (F64.dec 1 10))) grow in
      let* m := set_scale m (with_x ltscale sx) true 0 in
      let* m := set_rotate m (with_x lrotate rx) false 0 in
      set_scale m (vec1 size) false 0
    else Done m in
  let p :=
    if GetDualMode m then
      let v := F32.sub (x ltpos) (F32.div (part dx (window_width m)) Pi) in F32.sub v (F32.floor v)
    else F32.add (x ltpos) (part dx (window_width m)) in
  set_pos m (with_x ltpos p) true 0.
Definition slide (m : pm) (d : spec_float) (k : Z) : outcome pm :=
  let* p := get_pos m true k in set_pos m (with_x p (F32.sub (x p) d)) true k.
Definition move_split (fuel : nat) (m : pm) (dx dy px py : Z) : outcome pm :=
  let mode := GetScreenMode m in
  let k := mIndex (touched m) in
  if GetDualMode m then
    let panorama := (mode =? SCRN_FOUREX) && (selected m =? 2) in
    let* r := get_rotate m false k in
    if negb panorama then turn_xy m dx dy k r else slide m (twice dx (window_width m)) k
  else if 0 <=? k then
    let* r := get_rotate m false k in
    let* s := get_scale m false k in
    let top := F32.sub (flt 90) (F32.div (F32.sub (mViewAngle m) (widened (y s))) (flt 2)) in
    let l := limits_of m in
    let m := with_limits m (mkLim (limit_left l) (limit_right l) top (flt 0)) in
    let rx := below (F32.sub (flt 0) (flt 10)) (above (F32.add top (flt 10)) (turned (x r) dy (window_height m))) in
    set_rotate m (vec rx (y r) (turned (z r) dx (window_width m))) false k
  else
    let* m := clear_at m (selected m) in
    UpdateFrame fuel m (flt px) (flt (window_width m)) (flt py) (flt (window_height m)) k true false.

(** The speed of the finger, from the statics. *)
Definition sample (m : pm) (now px : Z) : outcome pm :=
  let t := touched m in
  let st := statics_of m in
  let '(sx, tp) := match from st with Some a => a | None => (startx t, i32 now) end in
  let* st :=
    if 10 <=? u64 (now - tp) then let* d := int (px - sx) in Done (mkStat d (Some (px, i32 now)))
    else Done (mkStat (speed st) (Some (sx, tp))) in
  Done (with_touch (with_statics m st) (mkTouch (lastx t) (lasty t) (startx t) (starty t) (speed st) (starttime t) (mIndex t))).
Definition DoTapOrMouseMove (fuel : nat) (m : pm) (now px py wallmode scindex : Z) : outcome pm :=
  if startx (touched m) <? 0 then Done m
  else
    let* m := sample m now px in
    let t := touched m in
    let* dx := int (px - lastx t) in
    let* dy := int (py - lasty t) in
    let* m :=
      if negb (mShowCircle (circles_of m) =? 0) then move_circle m dx dy
      else
        let mode := GetScreenMode m in
        if mode =? SCRN_NORMAL then move_grid m dx dy scindex
        else if (mode =? SCRN_HEMISPHERE) || (mode =? SCRN_VECTOROBJECT) || (mode =? SCRN_CUP) then move_sphere m dx dy wallmode
        else if mode =? SCRN_CYLINDER then move_cylinder m dx dy px py
        else if mode =? SCRN_UPDOWN then
          let* m := slide m (twice dx (window_width m)) 0 in slide m (twice dx (window_width m)) 1
        else if below_panorama m mode py then Done m
        else if split_mode mode then move_split fuel m dx dy px py
        else if (mode =? SCRN_SPHERE) || (mode =? SCRN_STITCH2) then let* r := get_rotate m false 0 in turn_xy m dx dy 0 r
        else if mode =? SCRN_PANORAMA then slide m (part dx (window_width m)) 0
        else Done m in
    let t := touched m in
    Done (with_touch m (mkTouch px py (startx t) (starty t) (mSpeed t) (starttime t) (mIndex t))).

(** ** Release *)

Definition ANI_STEP : Z := 100.
(** The distance per second, in windows. *)
Definition pace (d size ltime : Z) : spec_float := F32.div (part d size) (F32.div (flt ltime) (flt 1000)).
Definition up_grid (m : pm) (dx dy ltime : Z) : outcome pm :=
  let* p := get_pos m true 0 in
  if (ltime <? 1500) && (100 <? ltime) && (30 <? Z.abs dx) then
    animate m (vec (F32.sub (x p) (pace dx (window_width m) ltime)) (F32.sub (y p) (pace dy (window_height m) ltime)) (z p))
      ANI_STEP 500 JA_ANI_TYPE_ROTATE true 0
  else Done m.
(** A turn that goes on: half a turn per window. *)
Definition spin (m : pm) (v : spec_float) (dx ltime : Z) : spec_float :=
  dbl (fun v => F64.add v (F64.mul (F64.of_Z 180) (F64.of_float (pace dx (window_width m) ltime)))) v.
Definition spin_y (m : pm) (dx ltime k : Z) (r : vec3) : outcome pm :=
  if (ltime <? 800) && (100 <? ltime) && (30 <? Z.abs dx) then
    animate m (with_y r (spin m (y r) dx ltime)) ANI_STEP 500 JA_ANI_TYPE_ROTATE false k
  else Done m.
Definition within (l : limits) (v : spec_float) : spec_float := below (limit_bottom l) (above (limit_top l) v).
Definition up_sphere (m : pm) (dx ltime wallmode : Z) : outcome pm :=
  let* r := get_rotate m false 0 in
  if GetDualMode m then spin_y m dx ltime 0 r
  else if negb (wallmode =? 0) then Done m
  else
    let rx := if GetScreenMode m =? SCRN_CUP then x r else within (limits_of m) (x r) in
    let s := mSpeed (touched m) in
    if (3 <? Z.abs s) && (30 <? Z.abs dx) then
      animate m (vec rx (y r) (F32.add (z r) (F32.mul (flt s) (hemisphereInertia m)))) 75 150 JA_ANI_TYPE_ROTATE false 0
    else Done m.
Definition slide_on (m : pm) (dx ltime k : Z) (forward : bool) : outcome pm :=
  let* p := get_pos m true k in
  let d := F32.mul (flt 2) (pace dx (window_width m) ltime) in
  let px := if (ltime <? 1500) && (0 <? ltime) then (if forward then F32.add (x p) d else F32.sub (x p) d) else x p in
  animate m (with_x p px) ANI_STEP 500 JA_ANI_TYPE_POSITION true k.
Definition up_cylinder (m : pm) (dx ltime : Z) : outcome pm :=
  let* lscale := get_scale m false 0 in
  let* lrotate := get_rotate m false 0 in
  let* ltscale := get_scale m true 0 in
  let* m := slide_on m dx ltime 0 (negb (GetDualMode m)) in
  let sx := x ltscale in
  if negb (SFeqb sx (flt 1)) && negb (SFeqb sx (flt 6)) then
    let low := SFltb (F64.of_float sx) (F64.dec 13 10) in
    let sx := if low then flt 1 else flt 6 in
    let rx := if low then (if GetDualMode m then flt (-30) else flt 30) else flt 0 in
    let size := if low then vec_of 1 1 1 else vec1 (F64.to_float (F64.dec 3 2)) in
    let* m := animate m (with_x ltscale sx) (cdiv ANI_STEP 3) 100 JA_ANI_TYPE_SCALE true 0 in
    let* m := animate m (with_x lrotate rx) (cdiv ANI_STEP 3) 100 JA_ANI_TYPE_ROTATE false 0 in
    animate m size (cdiv ANI_STEP 3) 100 JA_ANI_TYPE_SCALE false 0
  else Done m.
Definition up_split (m : pm) (dx ltime : Z) : outcome pm :=
  let k := mIndex (touched m) in
  if k <? 0 then Done m
  else if GetDualMode m then
    let* r := get_rotate m false 0 in
    if (GetScreenMode m =? SCRN_FOUREX) && (selected m =? 2) then slide_on m dx ltime k false
    else spin_y m dx ltime k r
  else
    let* r := get_rotate m false k in
    if (ltime <? 1500) && (0 <? ltime) && (30 <? Z.abs dx) then
      animate m (vec (within (limits_of m) (x r)) (y r) (spin m (z r) dx ltime)) ANI_STEP 500 JA_ANI_TYPE_ROTATE false k
    else Done m.
Definition no_touch (s : Z) : touch := mkTouch (-1) (-1) (-1) (-1) s 0 (-1).
Definition DoTapOrMouseUp (m : pm) (now px py wallmode : Z) : outcome pm :=
  let t := touched m in
  if startx t <? 0 then Done m
  else
    let ltime := i32 (now - starttime t) in
    let* dx := int (px - startx t) in
    let* dy := int (py - starty t) in
    let* m :=
      if negb (mShowCircle (circles_of m) =? 0) then Done (set_circle m (-1))
      else
        let mode := GetScreenMode m in
        if mode =? SCRN_NORMAL then up_grid m dx dy ltime
        else if (mode =? SCRN_HEMISPHERE) || (mode =? SCRN_VECTOROBJECT) || (mode =? SCRN_CUP) then up_sphere m dx ltime wallmode
        else if mode =? SCRN_CYLINDER then up_cylinder m dx ltime
        else if mode =? SCRN_UPDOWN then
          let* m := slide_on m dx ltime 0 false in slide_on m dx ltime 1 false
        else if split_mode mode then up_split m dx ltime
        else if (mode =? SCRN_SPHERE) || (mode =? SCRN_STITCH2) then let* r := get_rotate m false 0 in spin_y m dx ltime 0 r
        else if mode =? SCRN_PANORAMA then slide_on m dx ltime 0 false
        else Done m in
    Done (with_touch m (no_touch (mSpeed (touched m)))).

(** ** The wheel *)

Definition zoom_by (intra : Z) (a : vec3) (b : vec3) (v : vec3) : vec3 := if 0 <? intra then vadd v a else vsub v b.
(** The scale of a video: a tenth at a time, from one to eight; -100 resets it. *)
Definition wheel_grid (m : pm) (intra k : Z) : outcome pm :=
  let* s := get_scale m true k in
  let a := F64.to_float (F64.dec 1 10) in
  let s := zoom_by intra (vec1 a) (vec a a (F32.div (flt 1) (flt 10))) s in
  let s := if F32.ltb (x s) (flt 1) then vec_of 1 1 1 else s in
  let s := if F32.ltb (flt 8) (x s) then vec_of 8 8 8 else s in
  let s := if intra =? -100 then vec_of 1 1 1 else s in
  set_scale m s true k.
Definition lbs (m : pm) : spec_float := F64.to_float (F64.div (F64.of_float (mViewAngle m)) (F64.of_Z 60)).
(** A fiftieth of the angle of view, in double precision and in single. *)
Definition notch (m : pm) : spec_float := dbl (fun v => F64.mul (F64.dec 2 100) v) (lbs m).
Definition notches (m : pm) : vec3 := vec (notch m) (notch m) (F32.mul (F32.div (flt 2) (flt 100)) (lbs m)).
Definition largest (m : pm) (n : Z) (v : vec3) : vec3 :=
  let hi := F64.mul (F64.of_Z n) (F64.of_float (lbs m)) in
  if SFltb hi (F64.of_float (x v)) then vec1 (F64.to_float hi) else v.
Definition smallest (lo : spec_float) (v : vec3) : vec3 := if F32.ltb (x v) lo then vec1 lo else v.
Definition nearer : spec_float -> spec_float := dbl (fun v => F64.add v (F64.dec 5 100)).
Definition farther : spec_float -> spec_float := dbl (fun v => F64.sub v (F64.dec 5 100)).
Definition wheel_sphere (m : pm) (intra : Z) : outcome pm :=
  let* m := clear m in
  let* s := get_scale m false 0 in
  let* r := get_rotate m false 0 in
  let* p := get_pos m false 0 in
  let '(s, r, p) :=
    if intra <? 0 then
      if GetScreenMode m =? SCRN_CUP then (smallest (F32.div (flt 85) (flt 100)) (vsub s (notches m)), r, p)
      else if SFeqb (x s) (flt 1) then
        let pz := if F32.ltb (flt 0) (z p) then farther (z p) else z p in
        let pz := if F32.ltb pz (flt 0) then flt 0 else pz in
        let rx := F32.sub (x r) (flt 3) in
        let rx := if F32.ltb rx (flt 0) then flt 0 else rx in
        (s, with_x r rx, with_z p pz)
      else (smallest (flt 1) (vsub s (notches m)), r, p)
    else if F32.ltb (z p) (flt 3) then
      let pz := nearer (z p) in
      (s, r, with_z p (if F32.ltb (flt 3) pz then flt 3 else pz))
    else (largest m 3 (vadd s (vec1 (notch m))), r, p) in
  let* m := set_scale m s false 0 in
  let* m := set_rotate m r false 0 in
  set_pos m p false 0.
Definition wheel_split (m : pm) (intra px py : Z) : outcome pm :=
  let* k := GetScreenIndex m px py (GetScreenMode m) in
  if k <? 0 then Done m
  else
    let* s := get_scale m false k in
    let s := zoom_by intra (vec1 (notch m)) (notches m) s in
    let s := largest m 4 (smallest (flt 1) s) in
    let* m := clear_at m k in
    set_scale m s false k.
Definition wheel_ball (m : pm) (intra : Z) : outcome pm :=
  let* m := clear m in
  let* s := get_scale m false 0 in
  let* p := get_pos m false 0 in
  let a := F64.to_float (F64.dec 6 1000) in
  let '(s, p) :=
    if 0 <? intra then
      if F32.ltb (z p) (flt 0) then let pz := nearer (z p) in (s, with_z p (if F32.ltb (flt 0) pz then flt 0 else pz))
      else let s := vadd s (vec1 a) in ((if F32.ltb (flt 3) (x s) then vec_of 3 3 3 else s), p)
    else if F32.ltb (flt 1) (x s) then (smallest (flt 1) (vsub s (vec a a (F32.div (flt 6) (flt 1000)))), p)
    else
      let pz := farther (z p) in
      (s, with_z p (if SFltb (F64.of_float pz) (F64.dec (-25) 10) then F64.to_float (F64.dec (-25) 10) else pz)) in
  let* m := set_scale m s false 0 in
  set_pos m p false 0.
Definition wheel_panorama (m : pm) (intra k : Z) : outcome pm :=
  let* s := get_scale m false k in
  let by_ f := dbl (fun v => F64.mul v f) in
  let s :=
    if 0 <? intra then let g := by_ (F64.dec 105 100) in vec (g (x s)) (g (y s)) (g (z s))
    else let g := by_ (F64.dec 9523 10000) in vec (g (x s)) (g (y s)) (F32.mul (z s) (F32.div (flt 9523) (flt 10000))) in
  let s := if SFltb (F64.of_float (y s)) (F64.dec 1 2) then FishEye.half_y else s in
  let s := if F32.ltb (flt 1) (y s) then vec_of 2 1 2 else s in
  set_scale m s false k.
Definition wheel_circle (m : pm) (intra px py : Z) : outcome pm :=
  let* i := touched_circle m px py in
  let* m :=
    if i <? 0 then Done m
    else
      let c := circles_of m in
      let* d := FishEye.at_ (mDiameter c) i in
      let step := F64.to_float (if intra <? 0 then F64.dec (-1) 100 else F64.dec 1 100) in
      let d := F32.add d step in
      let d := if SFltb (F64.of_float d) (F64.dec 1 2) then F64.to_float (F64.dec 1 2) else d in
      let d := if SFltb (F64.dec 18 10) (F64.of_float d) then F64.to_float (F64.dec 18 10) else d in
      Done (with_circles m (mkCirc (mShowCircle c) i (mCircle c) (zset (mDiameter c) i d))) in
  Done (set_circle m (-1)).
Definition DoTapOrMouseWheel (m : pm) (intra px py scindex : Z) : outcome pm :=
  if negb (mShowCircle (circles_of m) =? 0) then wheel_circle m intra px py
  else
    let mode := GetScreenMode m in
    if mode =? SCRN_NORMAL then wheel_grid m intra scindex
    else if (mode =? SCRN_HEMISPHERE) || (mode =? SCRN_VECTOROBJECT) || (mode =? SCRN_CUP) then wheel_sphere m intra
    else if split_mode mode then wheel_split m intra px py
    else if (mode =? SCRN_SPHERE) || (mode =? SCRN_STITCH2) then wheel_ball m intra
    else if mode =? SCRN_PANORAMA then wheel_panorama m intra scindex
    else Done m.

(** ** The double tap *)

Definition convertWindowIndex (i : Z) : Z := if i =? 0 then 2 else if i =? 1 then 3 else if i =? 2 then 0 else if i =? 3 then 1 else 0.
(** Whole turns are taken off one at a time. *)
Fixpoint unwound (fuel : nat) (v : spec_float) : outcome spec_float :=
  match fuel with
  | O => OutOfFuel
  | S fuel =>
      if F32.ltb (flt 360) v then unwound fuel (F32.sub v (flt 360))
      else if F32.ltb v (flt (-360)) then unwound fuel (F32.add v (flt 360))
      else Done v
  end.
Definition place (m : pm) (p r s : vec3) (k : Z) : outcome pm :=
  let* m := set_pos m p false k in
  let* m := set_rotate m r false k in
  set_scale m s false k.
Definition round_scene (scene : Z) : bool := (scene =? 180) || (scene =? 360) || (scene =? 720).
Definition tap_sphere (fuel : nat) (m : pm) (wallmode scene scindex : Z) (p r : vec3) : outcome pm :=
  let* mr :=
    if F32.ltb (flt 360) (z r) || F32.ltb (z r) (flt (-360)) then
      let* a := unwound fuel (z r) in
      let r := with_z r a in
      let* m := set_rotate m r false scindex in Done (m, r)
    else Done (m, r) in
  let '(m, r) := mr in
  let tilted_scene := (scene =? 360) && (wallmode =? 0) in
  let o := vec_of 0 0 0 in
  if Surface.veqb p o then
    let* m := animate m (with_z o (if scene =? 180 then F64.to_float (F64.dec 175 100) else flt 3)) 100 500 JA_ANI_TYPE_POSITION false 0 in
    if round_scene scene then
      animate m (if tilted_scene then vec (flt 45) (flt 0) (F32.add (z r) (flt 90)) else o) 100 500 JA_ANI_TYPE_ROTATE false 0
    else Done m
  else
    let* m := animate m o 30 250 JA_ANI_TYPE_POSITION false 0 in
    let* m :=
      if round_scene scene then
        animate m (if tilted_scene then vec (flt 0) (flt 0) (F32.sub (z r) (flt 90)) else o) 30 250 JA_ANI_TYPE_ROTATE false 0
      else Done m in
    set_scale m (vec_of 1 1 1) false 0.
Definition DoDoubleTap (fuel : nat) (m : pm) (wallmode scene scrnFourIndex scindex : Z) : outcome pm :=
  let mode := GetScreenMode m in
  let m := if mode =? SCRN_FOUR then with_mode m (_current_mode m) (convertWindowIndex scrnFourIndex) (outsideChanged m) else m in
  let index := if mode =? SCRN_FOUR then windowIndex m else scindex in
  let* p := get_pos m false index in
  let* r := get_rotate m false index in
  let* s := get_scale m false index in
  if mode =? SCRN_HEMISPHERE then
    if negb (outsideChanged m) then
      let* m := clear m in
      let* m := SwitchMode m SCRN_FOUR in
      place m p r s (windowIndex m)
    else tap_sphere fuel m wallmode scene scindex p r
  else if mode =? SCRN_FOUR then
    let m := SetOutsideChanged m false in
    let* m := clear m in
    let* m := SwitchMode m SCRN_HEMISPHERE in
    place m p r s scindex
  else Done m.
End Handlers.

(** ** The invariant *)

Definition good (s : stage) : Prop := Screen.inv (grid_of s) /\ FishEye.ok (eye s).
Lemma grid_step (s : stage) o : good s -> Screen.valid (grid_of s) o -> exists g, Screen.apply (grid_of s) o = Done g /\ good (set_grid s g).
Proof. intros (Hg & He) Hv; destruct (Screen.op_inv (grid_of s) o Hg Hv) as (g & E & H); by exists g. Qed.
Lemma eye_step (s : stage) o : good s -> FishEye.valid o -> exists e, FishEye.step (eye s) o = Done e /\ good (set_eye s e).
Proof. intros (Hg & He) Hv; destruct (FishEye.step_ok (eye s) o He Hv) as (e & E & H); by exists e. Qed.
#[export] Instance stage_laws : ISurfaceLaws stage good.
Proof.
  constructor.
  - intros s ob v t k ty H; cbn [SetPosition setRotate SetScale stage_surface]; unfold on_object.
    assert (Hp : forall p, good (set_picture s p)) by (intros p; exact H).
    destruct (grid_step s (Screen.Move v t k) H I) as (g1 & G1 & I1), (grid_step s (Screen.Turn v t k) H I) as (g2 & G2 & I2),
      (grid_step s (Screen.Zoom v t k) H I) as (g3 & G3 & I3), (eye_step s (FishEye.Place 0 v t k) H I) as (e1 & F1 & J1),
      (eye_step s (FishEye.Place 1 v t k) H I) as (e3 & F3 & J3), (eye_step s (FishEye.Place 2 v t k) H I) as (e2 & F2 & J2).
    cbn in G1, G2, G3, F1, F2, F3; rewrite G1, G2, G3, F1, F2, F3; cbn [obind]; case_bool; eauto.
  - intros s ob k b H; cbn [SetIsAnimation stage_surface]; unfold on_object.
    destruct (grid_step s (Screen.Animate k b) H I) as (g & G & I1); cbn in G; rewrite G; cbn [obind].
    case_bool; eauto; eexists; (split; [done|]); exact H.
Qed.

Section Invariant.
Context {W : Type} `{ISurface W} (ok_world : W -> Prop) `{!ISurfaceLaws W ok_world}.

(** The pointers in the list are live and older than the next one. *)
Record sound (a : @manager W) : Prop := {
  sound_wf : wf ok_world a;
  sound_fresh : forall p : Z, p ∈ _Ani a -> 0 < p < fresh a;
  sound_next : 0 < fresh a
}.
Lemma sound_world a w : sound a -> ok_world w -> sound (set_world a w).
Proof. intros [[H1 H2 H3] H4 H5] Hw; constructor; [by constructor|done|done]. Qed.
Lemma start_sound a ob v step dur ty t k inertia e a' p : sound a -> 0 < step ->
  StartAnimation a ob v step dur false ty t k inertia e = Done (a', p) -> sound a'.
Proof.
  intros [[Hg Hn Hl] Hf Hx] Hs; unfold StartAnimation; destruct (SwitchAnimation (world a)); [by intros [= <- <-]|].
  destruct (animation_answers (world a) ob k true Hg) as (w & E & Hw); rewrite E; cbn [obind].
  intros Hd; obinv Hd; injection Hd as <- <-; rewrite CList.insert_append; constructor; cbn [_Ani fresh].
  - constructor; cbn [world _Ani heap]; [done| |].
    + apply list.NoDup_app; split; [done|]; split; [|apply NoDup_singleton].
      intros q Hq ->%list_elem_of_singleton; specialize (Hf _ Hq); lia.
    + intros q [Hq| ->%list_elem_of_singleton]%elem_of_app; [|rewrite lookup_insert_eq; eauto].
      rewrite lookup_insert_ne by (specialize (Hf _ Hq); lia); by apply Hl.
  - intros q [Hq| ->%list_elem_of_singleton]%elem_of_app; [specialize (Hf _ Hq)|]; lia.
  - lia.
Qed.
(** Taking out the animation that the loop has at hand. *)
Lemma dispose_sound a p i a' : sound a -> 0 <= i -> znth (_Ani a) i = Some p -> dispose a p i = Done a' ->
  sound a' /\ exists pre post, _Ani a = pre ++ p :: post /\ zlen pre = i /\ _Ani a' = pre ++ post.
Proof.
  intros [[Hg Hn Hl] Hf Hx] Hi Hp; unfold dispose, deref.
  unfold znth in Hp; replace (i <? 0) with false in Hp by lia; apply list_elem_of_split_length in Hp as (pre & post & El & Ei).
  destruct (Hl p) as (b & Hb & Hst); [rewrite El; apply elem_of_app; right; by left|]; rewrite Hb; cbn [obind].
  destruct (animation_answers (world a) (_obj b) (index b) false Hg) as (w & E & Hw); rewrite E; cbn [obind].
  rewrite El in Hn; apply list.NoDup_app in Hn as (Hn1 & Hd & (Hpp & Hn2)%list.NoDup_cons).
  assert (Hpre : (p ∉ pre)) by (intros Hc; apply (Hd p Hc); by left).
  unfold remove_at; cbn [_Ani set_world]; replace i with (zlen pre) by (unfold zlen; lia); rewrite El, search_here by done; cbn [obind].
  unfold free; cbn [heap set_world]; rewrite Hb; intros [= <-]; split; [|exists pre, post; by repeat split].
  assert (Hin : forall q : Z, q ∈ pre ++ post -> q <> p /\ q ∈ _Ani a).
  { intros q [Hq|Hq]%elem_of_app; (split; [intros ->; done|rewrite El; apply elem_of_app]); [by left|right; by right]. }
  constructor; cbn [_Ani fresh]; [constructor; cbn [world _Ani heap]; [done| |]|intros q Hq; apply Hf, Hin, Hq|done].
  - apply list.NoDup_app; split; [done|]; split; [|done]; intros q Hq Hc; apply (Hd q Hq); by right.
  - intros q Hq; destruct (Hin q Hq) as (Hqp & Hqa); rewrite lookup_delete_ne by done; by apply Hl.
Qed.
(** A loop that takes out some of the animations. *)
Lemma clear_sound body n : (forall p i (m m' : @manager W), body p i m = Done m' -> m' = m \/ dispose m p i = Done m') ->
  forall a a', sound a -> (n <= length (_Ani a))%nat -> downwards body n a = Done a' -> sound a'.
Proof.
  intros Hb; induction n as [|n IH]; intros a a' Ha Hn; cbn [downwards]; [by intros [= <-]|].
  destruct (lookup_lt_is_Some_2 (_Ani a) n ltac:(lia)) as (p & Hp).
  assert (Hz : znth (_Ani a) (Z.of_nat n) = Some p) by (unfold znth; replace (Z.of_nat n <? 0) with false by lia; by rewrite Nat2Z.id).
  rewrite (CList.at_lookup 0 (Z.of_nat n) (_Ani a) p Hz); cbn [obind].
  destruct (body p (Z.of_nat n) a) as [a1| |] eqn:Eb; cbn [obind]; [|done|done].
  destruct (Hb _ _ _ _ Eb) as [->|Ed]; [apply IH; [done|lia]|].
  destruct (dispose_sound a p (Z.of_nat n) a1 Ha ltac:(lia) Hz Ed) as (H1 & pre & post & _ & Hl & E1).
  apply IH; [done|]; rewrite E1, length_app; unfold zlen in Hl; lia.
Qed.
Lemma ClearAnimation_sound a a' : sound a -> ClearAnimation a = Done a' -> sound a'.
Proof.
  intros Ha; apply clear_sound; [|done|done]; intros p i m m' E; obinv E; case_match; [by injection E as <-; left|by right].
Qed.
Lemma ClearAnimationOf_sound a k a' : sound a -> ClearAnimationOf a k = Done a' -> sound a'.
Proof.
  intros Ha; apply clear_sound; [|done|done]; intros p i m m' E; obinv E; case_match; [by right|by injection E as <-; left].
Qed.
End Invariant.

Definition pm_ok (m : pm) : Prop := sound good (man m).
Lemma world_good m : pm_ok m -> good (world_of m).
Proof. by intros [[]]. Qed.
Lemma set_stage_ok m s : pm_ok m -> good s -> pm_ok (set_stage m s).
Proof. apply sound_world. Qed.

(** The primitives of the handlers. *)
Lemma set_pos_ok m v t k m' : pm_ok m -> set_pos m v t k = Done m' -> pm_ok m'.
Proof.
  intros H; unfold set_pos; destruct (set_answers (world_of m) (current m) v t k 0 (world_good m H)) as (w & E & Hw); cbn in E |- *.
  rewrite E; intros [= <-]; by apply set_stage_ok.
Qed.
Lemma set_rotate_ok m v t k m' : pm_ok m -> set_rotate m v t k = Done m' -> pm_ok m'.
Proof.
  intros H; unfold set_rotate; destruct (set_answers (world_of m) (current m) v t k JA_ANI_TYPE_ROTATE (world_good m H)) as (w & E & Hw); cbn in E |- *.
  rewrite E; intros [= <-]; by apply set_stage_ok.
Qed.
Lemma set_scale_ok m v t k m' : pm_ok m -> set_scale m v t k = Done m' -> pm_ok m'.
Proof.
  intros H; unfold set_scale; destruct (set_answers (world_of m) (current m) v t k JA_ANI_TYPE_SCALE (world_good m H)) as (w & E & Hw); cbn in E |- *.
  rewrite E; intros [= <-]; by apply set_stage_ok.
Qed.
Lemma started_ok m ob v step dur ty t k a p : pm_ok m -> (0 <? step) = true ->
  StartAnimation (man m) ob v step dur false ty t k true false = Done (a, p) -> pm_ok (with_man m a).
Proof. intros H Hs E; eapply (start_sound good (man m)); [exact H| |exact E]; lia. Qed.
Lemma animate_ok m v step dur ty t k m' : pm_ok m -> (0 <? step) = true -> animate m v step dur ty t k = Done m' -> pm_ok m'.
Proof. intros H Hs E; unfold animate in E; apply obind_done in E as ([a p] & E & [= <-]); by eapply started_ok. Qed.
Lemma clear_ok m m' : pm_ok m -> clear m = Done m' -> pm_ok m'.
Proof. intros H E; unfold clear in E; apply obind_done in E as (a & E & [= <-]); exact (ClearAnimation_sound good (man m) a H E). Qed.
Lemma clear_at_ok m k m' : pm_ok m -> clear_at m k = Done m' -> pm_ok m'.
Proof. intros H E; unfold clear_at in E; apply obind_done in E as (a & E & [= <-]); exact (ClearAnimationOf_sound good (man m) k a H E). Qed.
Lemma set_eye_ok m e : pm_ok m -> FishEye.ok e -> pm_ok (set_the_eye m e).
Proof. intros H He; apply set_stage_ok; [done|]; split; [apply (world_good m H)|done]. Qed.
Lemma eye_ok m : pm_ok m -> FishEye.ok (the_eye m).
Proof. intros H; apply (world_good m H). Qed.
Lemma select_range g k g' : Screen.inv g -> Screen.SetSelectedByIndex g true k = Done g' -> 0 <= k < 36.
Proof.
  intros Hg; unfold Screen.SetSelectedByIndex; cbv zeta; intros E; apply obind_done in E as (g1 & E1 & E); apply obind_done in E as (g2 & E2 & _).
  destruct (Screen.on_video_done _ _ _ _ E2) as (v & _ & Hk & _).
  destruct (Screen.for_all_spec (fun v => if Screen.mCurrentMode g =? 0 then Surface.SetVisible (Surface.SetSelected v false) false else Surface.SetSelected v false)
    (fun b => if Screen.mCurrentMode g =? 0 then false else b) g ltac:(intros; by case_bool) (Screen.inv_videos g Hg) (Screen.inv_all g Hg)) as (g3 & E3 & H3 & _).
  assert (g3 = g1) as -> by congruence; pose proof (proj1 H3); unfold zlen in Hk; lia.
Qed.
Lemma select_ok m k m' : pm_ok m -> select m k = Done m' -> pm_ok m'.
Proof.
  intros H; unfold select; pose proof (world_good m H) as Hg; destruct (is_eye (world_of m)).
  - intros [= <-]; by apply set_eye_ok; [|apply FishEye.SetSelected_ok, Hg].
  - intros E; apply obind_done in E as (g & E & [= <-]).
    destruct (grid_step (world_of m) (Screen.Select true k) Hg (select_range _ k g (proj1 Hg) E)) as (g' & E' & Hw); cbn in E'.
    rewrite E in E'; injection E' as <-; by apply set_stage_ok.
Qed.
Lemma outlined_ok e a b : FishEye.ok e -> FishEye.ok (FishEye.outlined e a b).
Proof. by intros []. Qed.
Lemma touch_ok m t : pm_ok m -> pm_ok (with_touch m t).
Proof. done. Qed.
Lemma limits_ok m l : pm_ok m -> pm_ok (with_limits m l).
Proof. done. Qed.
Lemma circles_ok m c : pm_ok m -> pm_ok (with_circles m c).
Proof. done. Qed.
Lemma statics_ok m st : pm_ok m -> pm_ok (with_statics m st).
Proof. done. Qed.
Lemma mode_ok m a b c : pm_ok m -> pm_ok (with_mode m a b c).
Proof. done. Qed.
(** Writing a window through the outlines' code. *)
Lemma item_ok e i k f e' : FishEye.ok e -> FishEye.keeps f -> FishEye.change_item e i k f = Done e' -> FishEye.ok e'.
Proof.
  intros H Hf E; assert (Hit : exists it, FishEye.the_item e i k = Done it).
  { unfold FishEye.change_item in E; unfold FishEye.the_item; obinv E; rewrite E0; cbn [obind]; by eexists. }
  destruct Hit as (it & Hit); destruct (FishEye.change_item_spec e i k f it H Hf Hit) as (l & E1 & Hok & _); congruence.
Qed.
Lemma switched_ok m mode m' : pm_ok m -> SwitchMode m mode = Done m' -> pm_ok m'.
Proof.
  intros H; unfold SwitchMode; pose proof (world_good m H) as (Hg & He); destruct (_ || _); [by intros [= <-]|]; cbv zeta.
  change (world_of (with_mode m mode (windowIndex m) (outsideChanged m))) with (world_of m); destruct (0 <? mode).
  - destruct (FishEye.step_ok (eye (world_of m)) (FishEye.Switch mode (negb (FishEye.GetSwitchAnimation (eye (world_of m))))) He I) as (e & E & Hok); cbn [FishEye.step] in E.
    rewrite E; intros [= <-]; by apply set_stage_ok.
  - intros [= <-]; by apply set_stage_ok.
Qed.

(** A handler's result, by the lemma of the handler. *)
Ltac head_of t := match t with ?f _ => head_of f | _ => t end.
Ltac via h lem := match goal with E : ?t = Done ?m' |- pm_ok ?m' => let f := head_of t in constr_eq f h; eapply lem; [|exact E] end.
Ltac primitive := first [via set_pos set_pos_ok | via set_rotate set_rotate_ok | via set_scale set_scale_ok | via clear clear_ok | via clear_at clear_at_ok | via select select_ok | via SwitchMode switched_ok].
Ltac known := primitive.
Ltac keep_ok :=
  repeat match goal with
  | H : pm_ok ?m |- pm_ok ?m => exact H
  | |- pm_ok (with_touch _ _) => apply touch_ok
  | |- pm_ok (with_limits _ _) => apply limits_ok
  | |- pm_ok (with_circles _ _) => apply circles_ok
  | |- pm_ok (set_circle _ _) => apply circles_ok
  | |- pm_ok (set_index _ _) => apply touch_ok
  | |- pm_ok (with_statics _ _) => apply statics_ok
  | |- pm_ok (with_mode _ _ _ _) => apply mode_ok
  | |- pm_ok (SetOutsideChanged _ _) => apply mode_ok
  | |- pm_ok (if ?b then _ else _) => destruct b
  | E : animate _ _ _ _ _ _ _ = Done ?m' |- pm_ok ?m' => eapply animate_ok; [..|exact E]; [|reflexivity]
  | E : StartAnimation (man ?m) _ _ _ _ _ _ _ _ _ _ = Done (?a, _) |- pm_ok (with_man ?m ?a) => eapply started_ok; [..|exact E]; [|reflexivity]
  | |- pm_ok _ => known
  end.
Lemma done_inj {A} (a b : A) : Done a = Done b -> a = b.
Proof. by intros [= ->]. Qed.
(** Follow a handler that returns, through its binds and tests. *)
Ltac chase :=
  repeat match goal with
  | H : (let _ := _ in _) = Done _ |- _ => cbv zeta in H
  | H : obind _ _ = Done _ |- _ => let v := fresh "v" in let E := fresh "E" in apply obind_done in H as (v & E & H)
  | H : Done _ = Done _ |- _ => apply done_inj in H; try subst
  | H : (_, _) = (_, _) |- _ => apply pair_equal_spec in H as (? & ?); subst
  | H : (if ?b then _ else _) = Done _ |- _ => destruct b
  | H : match ?p with (_, _) => _ end = Done _ |- _ => destruct p
  | H : match ?o with Some _ => _ | None => _ end = Done _ |- _ => destruct o
  | H : Fault = Done _ |- _ => discriminate H
  end.
Ltac handled := intros; chase; keep_ok.

Section Handled.
Context (atanf acosf : spec_float -> spec_float).
Lemma follow_ok m r a : pm_ok m -> pm_ok (follow m r a).
Proof. intros; apply set_eye_ok; [done|]; by apply outlined_ok, eye_ok. Qed.
Lemma unrolled_ok m r a m' : pm_ok m -> follow_unrolled m r a = Done m' -> pm_ok m'.
Proof. intros H E; apply obind_done in E as (o & _ & [= <-]); apply set_eye_ok; [done|]; by apply outlined_ok, eye_ok. Qed.
Lemma turn_window_ok m i k r m' : pm_ok m -> turn_window m i k r = Done m' -> pm_ok m'.
Proof. intros H E; apply obind_done in E as (e & E & [= <-]); apply set_eye_ok; [done|]; eapply item_ok; [by apply eye_ok| |exact E]; done. Qed.
Ltac outlines := first [apply follow_ok | via follow_unrolled unrolled_ok | via turn_window turn_window_ok].
Ltac known ::= first [primitive | outlines].
Lemma hemisphere_ok m a b c d k up ani m' : pm_ok m -> UpdateFrameHemisphere atanf acosf m a b c d k up ani = Done m' -> pm_ok m'.
Proof. unfold UpdateFrameHemisphere; handled. Qed.
Lemma panorama_ok m a b c d k up m' : pm_ok m -> UpdateFramePanorama m a b c d k up = Done m' -> pm_ok m'.
Proof. unfold UpdateFramePanorama; handled. Qed.
Lemma needing_pm_ok m : pm_ok m -> pm_ok (needing m).
Proof. intros; apply set_eye_ok; [done|]; by apply FishEye.needing_ok, eye_ok. Qed.
Ltac known ::= first [primitive | via UpdateFrameHemisphere hemisphere_ok | via UpdateFramePanorama panorama_ok | apply needing_pm_ok].
Lemma window_ok m it a b c d k up ani m' : pm_ok m -> update_window atanf acosf m it a b c d k up ani = Done m' -> pm_ok m'.
Proof. unfold update_window; handled. Qed.
Lemma loop_ok fuel : forall m i a b c d k up ani m', pm_ok m -> update_loop atanf acosf fuel m i a b c d k up ani = Done m' -> pm_ok m'.
Proof.
  induction fuel as [|fuel IH]; cbn [update_loop]; [done|]; intros m i a b c d k up ani m' H Eq; chase; [|done].
  eapply IH; [|exact Eq]; via update_window window_ok; done.
Qed.
Ltac known ::= first [primitive | via UpdateFrameHemisphere hemisphere_ok | via UpdateFramePanorama panorama_ok | apply needing_pm_ok | via update_loop loop_ok].
Lemma frame_ok fuel m a b c d k up ani m' : pm_ok m -> UpdateFrame atanf acosf fuel m a b c d k up ani = Done m' -> pm_ok m'.
Proof. unfold UpdateFrame; handled. Qed.
Ltac known ::= first [primitive | via UpdateFrame frame_ok].
Lemma down_ok fuel m now px py m' : pm_ok m -> DoTapOrMouseDown atanf acosf fuel m now px py = Done m' -> pm_ok m'.
Proof. unfold DoTapOrMouseDown; handled. Qed.
Lemma move_grid_ok m dx dy k m' : pm_ok m -> move_grid m dx dy k = Done m' -> pm_ok m'.
Proof. unfold move_grid; handled. Qed.
Lemma turn_xy_ok m dx dy k r m' : pm_ok m -> turn_xy m dx dy k r = Done m' -> pm_ok m'.
Proof. unfold turn_xy; handled. Qed.
Lemma slide_ok m d k m' : pm_ok m -> slide m d k = Done m' -> pm_ok m'.
Proof. unfold slide; handled. Qed.
Ltac known ::= first [primitive | via UpdateFrame frame_ok | via turn_xy turn_xy_ok | via slide slide_ok].
Lemma move_circle_ok m dx dy m' : pm_ok m -> move_circle m dx dy = Done m' -> pm_ok m'.
Proof. unfold move_circle; handled. Qed.
Lemma move_sphere_ok m dx dy w m' : pm_ok m -> move_sphere m dx dy w = Done m' -> pm_ok m'.
Proof. unfold move_sphere; handled. Qed.
Lemma move_cylinder_ok m dx dy px py m' : pm_ok m -> move_cylinder m dx dy px py = Done m' -> pm_ok m'.
Proof. unfold move_cylinder; handled. Qed.
Lemma move_split_ok fuel m dx dy px py m' : pm_ok m -> move_split atanf acosf fuel m dx dy px py = Done m' -> pm_ok m'.
Proof. unfold move_split; handled. Qed.
Lemma sample_ok m now px m' : pm_ok m -> sample m now px = Done m' -> pm_ok m'.
Proof. unfold sample; handled. Qed.
Ltac moves := first [via move_grid move_grid_ok | via turn_xy turn_xy_ok | via slide slide_ok | via move_circle move_circle_ok | via move_sphere move_sphere_ok | via move_cylinder move_cylinder_ok | via move_split move_split_ok].
Ltac known ::= first [primitive | moves | via sample sample_ok].
Lemma move_ok fuel m now px py w k m' : pm_ok m -> DoTapOrMouseMove atanf acosf fuel m now px py w k = Done m' -> pm_ok m'.
Proof. unfold DoTapOrMouseMove; handled. Qed.

Lemma slide_on_ok m dx t k f m' : pm_ok m -> slide_on m dx t k f = Done m' -> pm_ok m'.
Proof. unfold slide_on; handled. Qed.
Lemma spin_y_ok m dx t k r m' : pm_ok m -> spin_y m dx t k r = Done m' -> pm_ok m'.
Proof. unfold spin_y; handled. Qed.
Ltac known ::= first [primitive | via slide_on slide_on_ok | via spin_y spin_y_ok].
Lemma up_grid_ok m dx dy t m' : pm_ok m -> up_grid m dx dy t = Done m' -> pm_ok m'.
Proof. unfold up_grid; handled. Qed.
Lemma up_sphere_ok m dx t w m' : pm_ok m -> up_sphere m dx t w = Done m' -> pm_ok m'.
Proof. unfold up_sphere; handled. Qed.
Lemma up_cylinder_ok m dx t m' : pm_ok m -> up_cylinder m dx t = Done m' -> pm_ok m'.
Proof. unfold up_cylinder; handled. Qed.
Lemma up_split_ok m dx t m' : pm_ok m -> up_split m dx t = Done m' -> pm_ok m'.
Proof. unfold up_split; handled. Qed.
Ltac known ::= first [primitive | via slide_on slide_on_ok | via spin_y spin_y_ok | via up_grid up_grid_ok | via up_sphere up_sphere_ok | via up_cylinder up_cylinder_ok | via up_split up_split_ok].
Lemma up_ok m now px py w m' : pm_ok m -> DoTapOrMouseUp m now px py w = Done m' -> pm_ok m'.
Proof. unfold DoTapOrMouseUp; handled. Qed.

Ltac known ::= primitive.
Lemma wheel_grid_ok m i k m' : pm_ok m -> wheel_grid m i k = Done m' -> pm_ok m'.
Proof. unfold wheel_grid; handled. Qed.
Lemma wheel_sphere_ok m i m' : pm_ok m -> wheel_sphere m i = Done m' -> pm_ok m'.
Proof. unfold wheel_sphere; handled. Qed.
Lemma wheel_split_ok m i px py m' : pm_ok m -> wheel_split m i px py = Done m' -> pm_ok m'.
Proof. unfold wheel_split; handled. Qed.
Lemma wheel_ball_ok m i m' : pm_ok m -> wheel_ball m i = Done m' -> pm_ok m'.
Proof. unfold wheel_ball; handled. Qed.
Lemma wheel_panorama_ok m i k m' : pm_ok m -> wheel_panorama m i k = Done m' -> pm_ok m'.
Proof. unfold wheel_panorama; handled. Qed.
Lemma wheel_circle_ok m i px py m' : pm_ok m -> wheel_circle m i px py = Done m' -> pm_ok m'.
Proof. unfold wheel_circle; handled. Qed.
Ltac known ::= first [primitive | via wheel_grid wheel_grid_ok | via wheel_sphere wheel_sphere_ok | via wheel_split wheel_split_ok | via wheel_ball wheel_ball_ok | via wheel_panorama wheel_panorama_ok | via wheel_circle wheel_circle_ok].
Lemma wheel_ok m i px py k m' : pm_ok m -> DoTapOrMouseWheel m i px py k = Done m' -> pm_ok m'.
Proof. unfold DoTapOrMouseWheel; handled. Qed.
Lemma place_ok m p r sc k m' : pm_ok m -> place m p r sc k = Done m' -> pm_ok m'.
Proof. unfold place; handled. Qed.
Lemma tap_sphere_ok fuel m w sc k p r m' : pm_ok m -> tap_sphere fuel m w sc k p r = Done m' -> pm_ok m'.
Proof. unfold tap_sphere; handled. Qed.
Ltac known ::= first [primitive | via place place_ok | via tap_sphere tap_sphere_ok].
Lemma double_ok fuel m w sc f k m' : pm_ok m -> DoDoubleTap fuel m w sc f k = Done m' -> pm_ok m'.
Proof. unfold DoDoubleTap; handled. Qed.
End Handled.

(** ** The window under a touch is the window drawn there *)

(** The windows of a mode, from the table. *)
Definition layout (mode : Z) : list VO_MODEITEM :=
  match FishEye.find_mode mode 0 FishEye._VMode with
  | Some i => match znth FishEye._VMode i with Some m => FishEye._item m | None => [] end
  | None => []
  end.
(** On a display of twelve times [a] by twelve times [b] points, y downwards. *)
Definition covers (a b px py : Z) (it : VO_MODEITEM) : Prop :=
  let w := FishEye._window it in
  FishEye.wx w * a <= px < (FishEye.wx w + FishEye.ww w) * a /\
  (12 - FishEye.wy w - FishEye.wh w) * b <= py < (12 - FishEye.wy w) * b.
(** Off the edges of the window. *)
Definition strictly (a b px py : Z) (it : VO_MODEITEM) : Prop :=
  let w := FishEye._window it in
  FishEye.wx w * a < px < (FishEye.wx w + FishEye.ww w) * a /\
  (12 - FishEye.wy w - FishEye.wh w) * b < py < (12 - FishEye.wy w) * b.
(** A window that gestures move. *)
Definition movable (it : VO_MODEITEM) : bool := negb (FishEye._ismain it) && negb (FishEye._showframe it).

Lemma cdiv_by v k q : 0 < k -> v = q * k -> cdiv v k = q.
Proof. intros Hk ->; unfold cdiv; apply Z.quot_mul; lia. Qed.
Lemma quot_int_in p q : 0 < q -> 0 <= p < 2 ^ 31 -> quot_int p q = Done (p / q).
Proof.
  intros Hq Hp; unfold quot_int, int, cdiv; replace (q =? 0) with false by lia; rewrite Z.quot_div_nonneg by lia.
  assert (0 <= p / q <= p) by (split; [apply Z.div_pos; lia|apply Z.div_le_upper_bound; nia]).
  by replace ((- 2 ^ 31 <=? p / q) && (p / q <? 2 ^ 31)) with true by lia.
Qed.
Lemma third_of a p : 0 < a -> 0 <= p < 12 * a -> p / (4 * a) = (if p <? 4 * a then 0 else if p <? 8 * a then 1 else 2).
Proof. intros Ha Hp; symmetry; apply Z.div_unique with (p - (if p <? 4 * a then 0 else if p <? 8 * a then 4 * a else 8 * a)); case_bool; lia. Qed.
Lemma half_of a p : 0 < a -> 0 <= p < 12 * a -> p / (6 * a) = (if p <? 6 * a then 0 else 1).
Proof. intros Ha Hp; symmetry; apply Z.div_unique with (p - (if p <? 6 * a then 0 else 6 * a)); case_bool; lia. Qed.
Lemma display_sizes m a b : window_width m = 12 * a -> window_height m = 12 * b ->
  cdiv (window_width m) 2 = 6 * a /\ cdiv (window_height m) 2 = 6 * b /\ cdiv (window_width m) 3 = 4 * a /\ cdiv (window_height m) 3 = 4 * b /\
  cdiv (2 * window_width m) 3 = 8 * a /\ cdiv (2 * window_height m) 3 = 8 * b.
Proof.
  intros -> ->; repeat split; apply cdiv_by; lia.
Qed.
(** What GetScreenIndex answers, as comparisons. *)
Definition window_at (a b px py mode : Z) : Z :=
  if mode =? SCRN_FOUR then (if px <? 6 * a then 0 else 1) + (if py <? 6 * b then 2 else 0)
  else if mode =? SCRN_THREE then
    if (0 <? px) && (0 <? py) && (py <? 8 * b) then if px <? 6 * a then 0 else if px =? 6 * a then -1 else 1 else -1
  else if mode =? SCRN_SIX then
    if 8 * b <? py then (if px <? 4 * a then 0 else if px <? 8 * a then 1 else 2) + 2
    else if 8 * a <? px then if (4 * b <? py) && (py <? 8 * b) then 1 else if (0 <? py) && (py <? 4 * b) then 0 else -1 else -1
  else
    if 8 * a <? px then if (4 * b <? py) && (py <? 8 * b) then 1 else if py <? 4 * b then 0 else -1 else -1.
Lemma GetScreenIndex_spec m a b px py mode : window_width m = 12 * a -> window_height m = 12 * b -> 12 * a < 2 ^ 31 -> 12 * b < 2 ^ 31 ->
  0 <= px < 12 * a -> 0 <= py < 12 * b -> split_mode mode = true -> GetScreenIndex m px py mode = Done (window_at a b px py mode).
Proof.
  intros Hw Hh Ha Hb Hx Hy Hm; unfold GetScreenIndex, window_at, split_mode in *; destruct (display_sizes m a b Hw Hh) as (-> & -> & -> & -> & -> & ->); rewrite Hw.
  destruct (mode =? SCRN_FOUR) eqn:E1.
  { rewrite !quot_int_in by lia; cbn [obind]; rewrite !half_of by lia; f_equal; case_bool; lia. }
  destruct (mode =? SCRN_THREE) eqn:E2; [f_equal; case_bool; lia|].
  destruct (mode =? SCRN_SIX) eqn:E3; [|replace (mode =? SCRN_FOUREX) with true by lia; f_equal; case_bool; lia].
  rewrite quot_int_in by lia; cbn [obind]; rewrite third_of by lia; case_bool; f_equal; lia.
Qed.
Lemma window_at_covers a b px py mode : 0 <= px < 12 * a -> 0 <= py < 12 * b -> split_mode mode = true ->
  window_at a b px py mode = -1 \/ exists it, znth (layout mode) (window_at a b px py mode) = Some it /\ covers a b px py it /\ movable it = true.
Proof.
  intros Hx Hy Hm; unfold split_mode in Hm; assert (mode = SCRN_FOUR \/ mode = SCRN_THREE \/ mode = SCRN_SIX \/ mode = SCRN_FOUREX) as Hc by lia.
  destruct Hc as [->|[->|[->| ->]]]; unfold window_at; cbn [Z.eqb Pos.eqb]; case_bool; try (by left); right; eexists; (split; [reflexivity|]);
    (split; [|reflexivity]); unfold covers; cbn; lia.
Qed.
Lemma strictly_at a b px py mode k it : 0 <= px < 12 * a -> 0 <= py < 12 * b -> split_mode mode = true ->
  znth (layout mode) k = Some it -> movable it = true -> strictly a b px py it -> window_at a b px py mode = k.
Proof.
  intros Hx Hy Hm; unfold split_mode in Hm; assert (mode = SCRN_FOUR \/ mode = SCRN_THREE \/ mode = SCRN_SIX \/ mode = SCRN_FOUREX) as Hc by lia.
  intros Hk; pose proof (FishEye.znth_bound _ _ _ Hk) as Hb.
  assert (Hl : zlen (layout mode) <= 6) by (destruct Hc as [->|[->|[->| ->]]]; vm_compute; discriminate).
  assert (Hcase : k = 0 \/ k = 1 \/ k = 2 \/ k = 3 \/ k = 4 \/ k = 5) by lia; revert Hk.
  destruct Hc as [->|[->|[->| ->]]]; destruct Hcase as [->|[->|[->|[->|[->| ->]]]]]; intros [= <-] Hmov; try discriminate Hmov; unfold strictly; cbn;
    intros (H1 & H2); unfold window_at; cbn [Z.eqb Pos.eqb]; case_bool; lia.
Qed.

(** ** UpdateFrame visits the windows with an outline *)

Lemma layout_entry e mode i m : FishEye.ok e -> FishEye.find_mode mode 0 FishEye._VMode = Some i -> FishEye.entry e i = Done m ->
  FishEye.frame <$> FishEye._item m = FishEye.frame <$> layout mode /\ FishEye._count m = zlen (FishEye._item m).
Proof.
  intros H Ef Em; destruct (FishEye.entry_ok e i H (FishEye.found_bound _ _ Ef)) as (m' & m0 & E & E0 & Hs & Hz); rewrite Em in E; injection E as <-.
  unfold layout; rewrite Ef, E0; split; [|by rewrite Hz]; exact (f_equal snd Hs).
Qed.
Lemma shown_frames l l' k : FishEye.frame <$> l = FishEye.frame <$> l' -> FishEye.shown_from k l = FishEye.shown_from k l'.
Proof.
  revert l' k; induction l as [|it l IH]; intros [|it' l'] k H; try done; injection H as Hw Ht Hm Hs H; cbn; rewrite Hs; case_bool; [done|by apply IH].
Qed.
Lemma shown_from_spec l : forall k, match FishEye.shown_from k l with
  | None => List.filter FishEye._showframe l = []
  | Some (j, n) => exists it rest, k <= j /\ n = j + 1 /\ l !! Z.to_nat (j - k) = Some it /\ drop (Z.to_nat (n - k)) l = rest /\
      List.filter FishEye._showframe l = it :: List.filter FishEye._showframe rest
  end.
Proof.
  induction l as [|it l IH]; intros k; cbn [FishEye.shown_from List.filter]; [done|]; destruct (FishEye._showframe it) eqn:Es.
  - exists it, l; rewrite Z.sub_diag; replace (Z.to_nat (k + 1 - k)) with 1%nat by lia; repeat split; try done; lia.
  - specialize (IH (k + 1)); destruct (FishEye.shown_from (k + 1) l) as [[j n]|]; [|done]; destruct IH as (x & rest & H1 & -> & H3 & H4 & H5).
    exists x, rest; split; [lia|]; split; [done|]; replace (Z.to_nat (j - k)) with (S (Z.to_nat (j - (k + 1)))) by lia.
    replace (Z.to_nat (j + 1 - k)) with (S (Z.to_nat (j + 1 - (k + 1)))) by lia; by repeat split.
Qed.

Lemma frame_next e i : FishEye.ok e -> 0 <= i -> let L := layout (FishEye.mCurrentMode e) in
  match FishEye.shown_from i (drop (Z.to_nat i) L) with
  | None => FishEye.getFrameTypeVO e i = Done None
  | Some (k, n) => exists it it0, FishEye.getFrameTypeVO e i = Done (Some (it, n)) /\ znth L k = Some it0 /\ FishEye._type it = FishEye._type it0
  end.
Proof.
  intros H Hi; cbv zeta; unfold FishEye.getFrameTypeVO; rewrite FishEye.getCurrent_ok by done; cbn [obind].
  destruct (FishEye.current_ok e (FishEye.mCurrentMode e) H) as [(E & _)|(j & m & E & Hj & Em & Hc & Hz)].
  { rewrite E; unfold layout; rewrite E; by rewrite drop_nil. }
  rewrite E, Em; cbn [obind]; destruct (layout_entry e _ j m H E Em) as (Hf & Hlen).
  assert (Et : take (Z.to_nat (FishEye._count m)) (FishEye._item m) = FishEye._item m)
    by (apply take_ge; unfold zlen in Hlen; lia); rewrite Et.
  rewrite (shown_frames (drop (Z.to_nat i) (FishEye._item m)) (drop (Z.to_nat i) (layout (FishEye.mCurrentMode e))))
    by (rewrite !fmap_drop; by f_equal).
  pose proof (shown_from_spec (drop (Z.to_nat i) (layout (FishEye.mCurrentMode e))) i) as Hs.
  destruct (FishEye.shown_from i _) as [[k n]|]; [|done]; destruct Hs as (it0 & rest & Hk & _ & Hl & _ & _).
  rewrite lookup_drop in Hl; replace (Z.to_nat i + Z.to_nat (k - i))%nat with (Z.to_nat k) in Hl by lia.
  assert (Hit : exists it, FishEye._item m !! Z.to_nat k = Some it /\ FishEye.frame it = FishEye.frame it0).
  { assert (E2 : FishEye.frame <$> FishEye._item m !! Z.to_nat k = FishEye.frame <$> layout (FishEye.mCurrentMode e) !! Z.to_nat k)
      by (rewrite <- !list_lookup_fmap; by f_equal).
    rewrite Hl in E2; destruct (FishEye._item m !! Z.to_nat k) as [it|]; [|done]; exists it; split; [done|]; by apply (inj Some) in E2. }
  destruct Hit as (it & Ei & Ef); exists it, it0; unfold FishEye.at_, znth; replace (k <? 0) with false by lia; rewrite Ei, Hl; cbn [obind].
  split; [done|]; split; [done|]; exact (f_equal (fun f => f.1.1.2) Ef).
Qed.

(** The outlines' code leaves the mode alone. *)
Lemma start_keeps_eye (a : @manager stage) v step dur ty t k b c a' p :
  StartAnimation a 1 v step dur false ty t k b c = Done (a', p) -> eye (world a') = eye (world a).
Proof.
  unfold StartAnimation; destruct (SwitchAnimation (world a)); [by intros [= <- _]|]; cbn [SetIsAnimation stage_surface]; unfold on_object; cbn [Z.eqb Pos.eqb obind].
  intros H; obinv H; by injection H as <- _.
Qed.
Lemma change_item_mode e i k f e' : FishEye.change_item e i k f = Done e' -> FishEye.mCurrentMode e' = FishEye.mCurrentMode e.
Proof. unfold FishEye.change_item, FishEye.set_entry; intros H; obinv H; apply done_inj in H; by subst. Qed.
Section Visits.
Context (atanf acosf : spec_float -> spec_float).
Lemma hemisphere_mode m a b c d k up ani m' : UpdateFrameHemisphere atanf acosf m a b c d k up ani = Done m' ->
  FishEye.mCurrentMode (the_eye m') = FishEye.mCurrentMode (the_eye m).
Proof.
  assert (Hs : forall m0 a p v j, StartAnimation (man m0) 1 v 30 30 false JA_ANI_TYPE_ROTATE false j true false = Done (a, p) ->
    FishEye.mCurrentMode (the_eye (with_man m0 a)) = FishEye.mCurrentMode (the_eye m0))
    by (intros m0 a0 p v j E; unfold the_eye, world_of; cbn [man with_man]; by rewrite (start_keeps_eye _ _ _ _ _ _ _ _ _ _ _ E)).
  unfold UpdateFrameHemisphere; intros; chase; try done; case_bool;
    try (match goal with E : StartAnimation _ _ _ _ _ _ _ _ _ _ _ = _ |- _ => exact (Hs _ _ _ _ _ E) end);
    match goal with E : turn_window _ _ _ _ = Done _ |- _ => apply obind_done in E as (e & E & [= <-]); exact (change_item_mode _ _ _ _ _ E) end.
Qed.
Lemma panorama_mode m a b c d k up m' : UpdateFramePanorama m a b c d k up = Done m' ->
  FishEye.mCurrentMode (the_eye m') = FishEye.mCurrentMode (the_eye m).
Proof.
  unfold UpdateFramePanorama; intros; chase; try done;
    match goal with E : follow_unrolled _ _ _ = Done _ |- _ => apply obind_done in E as (o & _ & [= <-]) end; [|done];
    match goal with E : turn_window _ _ _ _ = Done _ |- _ => apply obind_done in E as (e & E & [= <-]); exact (change_item_mode _ _ _ _ _ E) end.
Qed.
Lemma window_mode m it a b c d k up ani m' : update_window atanf acosf m it a b c d k up ani = Done m' ->
  FishEye.mCurrentMode (the_eye m') = FishEye.mCurrentMode (the_eye m).
Proof.
  unfold update_window; intros H; chase; [exact (hemisphere_mode _ _ _ _ _ _ _ _ _ E)|exact (panorama_mode _ _ _ _ _ _ _ _ E)|done].
Qed.
Lemma window_type m it it' a b c d k up ani : FishEye._type it = FishEye._type it' ->
  update_window atanf acosf m it a b c d k up ani = update_window atanf acosf m it' a b c d k up ani.
Proof. unfold update_window; by intros ->. Qed.
(** The visit in order of a list of windows. *)
Fixpoint visit (m : pm) (its : list VO_MODEITEM) (a b c d : spec_float) (index : Z) (update ani : bool) : outcome pm :=
  match its with
  | [] => Done m
  | it :: its => let* m := update_window atanf acosf m it a b c d index update ani in visit m its a b c d index update ani
  end.
Lemma loop_visits fuel : forall m i a b c d k up ani, pm_ok m -> 0 <= i -> let L := layout (FishEye.mCurrentMode (the_eye m)) in
  i <= zlen L -> zlen L - i < Z.of_nat fuel ->
  update_loop atanf acosf fuel m i a b c d k up ani = visit m (List.filter FishEye._showframe (drop (Z.to_nat i) L)) a b c d k up ani.
Proof.
  induction fuel as [|fuel IH]; intros m i a b c d k up ani H Hi; cbv zeta; intros Hl0 Hf; cbn [update_loop].
  - lia.
  - pose proof (frame_next (the_eye m) i (eye_ok m H) Hi) as Hn; cbv zeta in Hn.
    pose proof (shown_from_spec (drop (Z.to_nat i) (layout (FishEye.mCurrentMode (the_eye m)))) i) as Hs.
    destruct (FishEye.shown_from i _) as [[j n]|]; [|by rewrite Hn, Hs].
    destruct Hn as (it & it0 & E & E0 & Et); destruct Hs as (x & rest & Hj & -> & Hl & Hr & ->); rewrite E; cbn [obind visit].
    rewrite lookup_drop in Hl; replace (Z.to_nat i + Z.to_nat (j - i))%nat with (Z.to_nat j) in Hl by lia.
    unfold znth in E0; replace (j <? 0) with false in E0 by lia; rewrite E0 in Hl; injection Hl as <-.
    rewrite (window_type m it it0) by done; destruct (update_window atanf acosf m it0 a b c d k up ani) as [m1| |] eqn:Ew; cbn [obind]; [|done|done].
    pose proof (window_mode _ _ _ _ _ _ _ _ _ _ Ew) as Hm; pose proof (lookup_lt_Some _ _ _ E0) as Hlt; unfold zlen in *; rewrite IH; [|by eapply window_ok|lia|rewrite Hm; unfold zlen; lia..].
    rewrite Hm, <- Hr, drop_drop; do 3 f_equal; lia.
Qed.
End Visits.

(** ** What the handlers leave alone *)

Lemma animation_keeps_eye (s : stage) ob k b w : SetIsAnimation s ob k b = Done w -> eye w = eye s /\ is_eye w = is_eye s.
Proof. cbn [SetIsAnimation stage_surface]; unfold on_object; case_bool; [intros H; obinv H; by injection H as <-|by intros [= <-]|by intros [= <-]]. Qed.
Lemma dispose_done (a : @manager stage) p i : sound good a -> 0 <= i -> znth (_Ani a) i = Some p ->
  exists a', dispose a p i = Done a' /\ eye (world a') = eye (world a) /\ is_eye (world a') = is_eye (world a).
Proof.
  intros [[Hg Hn Hl] Hf Hx] Hi Hp; unfold znth in Hp; replace (i <? 0) with false in Hp by lia; apply list_elem_of_split_length in Hp as (pre & post & El & Ei).
  destruct (Hl p) as (b & Hb & Hst); [rewrite El; apply elem_of_app; right; by left|].
  unfold dispose, deref; rewrite Hb; cbn [obind]; destruct (animation_answers (world a) (_obj b) (index b) false Hg) as (w & E & Hw); rewrite E; cbn [obind].
  unfold remove_at; cbn [_Ani set_world]; replace i with (zlen pre) by (unfold zlen; lia); rewrite El.
  assert (Hpre : (p ∉ pre)) by (rewrite El in Hn; apply list.NoDup_app in Hn as (_ & Hd & _); intros Hc; apply (Hd p Hc); by left).
  rewrite search_here by done; cbn [obind]; unfold free; cbn [heap set_world]; rewrite Hb; eexists; split; [done|]; by apply animation_keeps_eye in E.
Qed.
Lemma clear_done body n : (forall p i (m : @manager stage), sound good m -> 0 <= i -> znth (_Ani m) i = Some p -> body p i m = Done m \/ body p i m = dispose m p i) ->
  forall a, sound good a -> (n <= length (_Ani a))%nat ->
  exists a', downwards body n a = Done a' /\ eye (world a') = eye (world a) /\ is_eye (world a') = is_eye (world a).
Proof.
  intros Hb; induction n as [|n IH]; intros a Ha Hn; cbn [downwards]; [eauto|].
  destruct (lookup_lt_is_Some_2 (_Ani a) n ltac:(lia)) as (p & Hp).
  assert (Hz : znth (_Ani a) (Z.of_nat n) = Some p) by (unfold znth; replace (Z.of_nat n <? 0) with false by lia; by rewrite Nat2Z.id).
  rewrite (CList.at_lookup 0 (Z.of_nat n) (_Ani a) p Hz); cbn [obind].
  destruct (Hb p (Z.of_nat n) a Ha ltac:(lia) Hz) as [->| ->]; cbn [obind]; [apply IH; [done|lia]|].
  destruct (dispose_done a p (Z.of_nat n) Ha ltac:(lia) Hz) as (a1 & E & He & Hi); rewrite E; cbn [obind].
  destruct (dispose_sound good a p (Z.of_nat n) a1 Ha ltac:(lia) Hz E) as (H1 & pre & post & _ & Hl & E1).
  destruct (IH a1 H1) as (a2 & E2 & He2 & Hi2); [rewrite E1, length_app; unfold zlen in Hl; lia|]; exists a2; split; [done|]; split; congruence.
Qed.
Lemma clear_total m : pm_ok m -> exists m', clear m = Done m' /\ pm_ok m' /\ m' = with_man m (man m') /\
  the_eye m' = the_eye m /\ is_eye (world_of m') = is_eye (world_of m).
Proof.
  intros H; destruct (clear_done (fun p i m => let* a := deref m p in
      if existsb (fun j => match GetLoading (world m) (Z.of_nat j) with Some o => o =? _obj a | None => false end) (seq 0 36) then Done m else dispose m p i)
    (length (_Ani (man m)))) with (a := man m) as (a & E & He & Hi); [|exact H|done|].
  - intros p i a Ha Hi Hp; destruct Ha as [[Hg Hn Hl] _ _]; destruct (Hl p) as (b & Hb & _).
    { unfold znth in Hp; case_match; [done|]; by eapply list_elem_of_lookup_2. }
    unfold deref; rewrite Hb; cbn [obind]; case_match; [by left|by right].
  - unfold clear, ClearAnimation; rewrite E; cbn [obind]; exists (with_man m a); split; [done|]; split; [|by repeat split].
    exact (ClearAnimation_sound good (man m) a H E).
Qed.

(** While the mode changes no animation starts. *)
Definition changing (m : pm) : Prop := is_eye (world_of m) = true /\ FishEye.GetSwitchAnimation (the_eye m) = true.
Lemma animate_blocked m v step dur ty t k : changing m -> animate m v step dur ty t k = Done m.
Proof.
  intros (H1 & H2); unfold animate, StartAnimation; cbn [SwitchAnimation stage_surface]; unfold the_eye, world_of in *; rewrite H1, H2; cbn [andb obind].
  by destruct m.
Qed.
Ltac blocked Hc := repeat match goal with E : animate ?m _ _ _ _ _ _ = Done _ |- _ => rewrite (animate_blocked m _ _ _ _ _ _ Hc) in E end; chase.
Lemma up_blocked m now px py w m' : changing m -> DoTapOrMouseUp m now px py w = Done m' -> man m' = man m.
Proof.
  intros Hc; unfold DoTapOrMouseUp, up_grid, up_sphere, up_cylinder, up_split, slide_on, spin_y; intros; chase; repeat progress (blocked Hc); done.
Qed.

(** ** Reading back on the fish-eye screen *)

Record on_eye (m : pm) : Prop := { oe_ok : pm_ok m; oe_current : is_eye (world_of m) = true; oe_single : FishEye.mDualMode (the_eye m) = 0 }.
Definition reads (m : pm) (ty : Z) (t : bool) (k : Z) : outcome vec3 := FishEye.get ty (the_eye m) t k.
(** The windows of the other modes are the same. *)
Definition elsewhere (m m' : pm) : Prop := forall i k, FishEye.find_mode (GetScreenMode m) 0 FishEye._VMode <> Some i ->
  FishEye.the_item (the_eye m') i k = FishEye.the_item (the_eye m) i k.
Lemma eye_set m ty v k : on_eye m -> 0 <= ty <= 2 -> 0 <= k < FishEye.windows_of (GetScreenMode m) ->
  exists m', (if ty =? 0 then set_pos m v false k else if ty =? 1 then set_scale m v false k else set_rotate m v false k) = Done m' /\ on_eye m' /\
    m' = set_the_eye m (the_eye m') /\ GetScreenMode m' = GetScreenMode m /\
    FishEye.mChangeAnimation (the_eye m') = FishEye.mChangeAnimation (the_eye m) /\ elsewhere m m' /\
    forall ty' t' k', 0 <= ty' <= 2 -> reads m' ty' t' k' = if decide (ty' = ty /\ t' = false /\ k' = k) then Done v else reads m ty' t' k'.
Proof.
  intros [H1 H2 H3] Hty Hk; unfold GetScreenMode in Hk; rewrite H2 in Hk.
  destruct (FishEye.set_get_lemma (the_eye m) ty false v k (eye_ok m H1) H3 Hty Hk) as (e & E & Hok & _ & Hm & Hg).
  assert (Ha : FishEye.mChangeAnimation e = FishEye.mChangeAnimation (the_eye m) /\ FishEye.mDualMode e = 0 /\
      forall i c, FishEye.find_mode (FishEye.mCurrentMode (the_eye m)) 0 FishEye._VMode <> Some i -> FishEye.the_item e i c = FishEye.the_item (the_eye m) i c).
  { rewrite FishEye.put_window in E by done; destruct (FishEye.on_window_spec (the_eye m) k (FishEye.putter ty false v) (eye_ok m H1) Hk)
      as (i & it & l & Ei & _ & E1 & _ & Hl); rewrite E1 in E; injection E as <-; split; [done|]; split; [done|]; intros j c Hj.
    change (FishEye.the_item (FishEye.with_modes (the_eye m) l) j c = FishEye.the_item (the_eye m) j c); rewrite Hl, decide_False; [done|]; intros [-> _]; by apply Hj. }
  exists (set_the_eye m e); split.
  - unfold set_pos, set_scale, set_rotate, current; rewrite H2; cbn [SetPosition SetScale setRotate stage_surface]; unfold on_object; cbn [Z.eqb Pos.eqb].
    unfold FishEye.put, the_eye in E; destruct (ty =? 0); [by rewrite E|]; destruct (ty =? 1); by rewrite E.
  - destruct Ha as (Ha & Hd & Hel); split; [constructor; [by apply set_eye_ok|done|done]|]; split; [done|]; unfold elsewhere, reads, GetScreenMode; cbn; rewrite H2.
    by repeat split.
Qed.
Lemma eye_get m ty t k : on_eye m -> (if ty =? 0 then get_pos m t k else if ty =? 1 then get_scale m t k else get_rotate m t k) = reads m ty t k.
Proof.
  intros [_ H _]; unfold reads, FishEye.get, get_pos, get_scale, get_rotate, current; rewrite H; cbn [GetPosition GetScale GetRotate stage_surface].
  unfold of_object; cbn [Z.eqb Pos.eqb]; by case_bool.
Qed.
Definition of3 (p s r : vec3) (ty : Z) : vec3 := if ty =? 0 then p else if ty =? 1 then s else r.
Lemma place_spec m p r s k : on_eye m -> 0 <= k < FishEye.windows_of (GetScreenMode m) ->
  exists m', place m p r s k = Done m' /\ on_eye m' /\ m' = set_the_eye m (the_eye m') /\ GetScreenMode m' = GetScreenMode m /\
    FishEye.mChangeAnimation (the_eye m') = FishEye.mChangeAnimation (the_eye m) /\ elsewhere m m' /\
    forall ty t j, 0 <= ty <= 2 -> reads m' ty t j = if decide (t = false /\ j = k) then Done (of3 p s r ty) else reads m ty t j.
Proof.
  intros H Hk; unfold place; destruct (eye_set m 0 p k H ltac:(lia) Hk) as (m1 & E1 & H1 & S1 & M1 & A1 & L1 & R1); cbn in E1; rewrite E1; cbn [obind].
  destruct (eye_set m1 2 r k H1 ltac:(lia) ltac:(rewrite M1; lia)) as (m2 & E2 & H2 & S2 & M2 & A2 & L2 & R2); cbn in E2; rewrite E2; cbn [obind].
  destruct (eye_set m2 1 s k H2 ltac:(lia) ltac:(rewrite M2, M1; lia)) as (m3 & E3 & H3 & S3 & M3 & A3 & L3 & R3); cbn in E3; rewrite E3.
  exists m3; split; [done|]; split; [done|]; split; [rewrite S3, S2, S1; done|]; split; [congruence|]; split; [congruence|].
  split; [intros i c Hi; rewrite (L3 i c), (L2 i c), (L1 i c) by (rewrite ?M2, ?M1; done); done|].
  intros ty t j Hty; rewrite R3, R2, R1 by done; unfold of3; assert (ty = 0 \/ ty = 1 \/ ty = 2) as [->|[->| ->]] by lia; repeat case_decide; intuition (try lia; try done).
Qed.

(** SwitchMode between modes of different numbers of windows is immediate. *)
Lemma switch_now m mode : on_eye m -> FishEye.mChangeAnimation (the_eye m) = false -> 0 < mode <= 18 ->
  FishEye.windows_of (GetScreenMode m) <> FishEye.windows_of mode ->
  exists m', SwitchMode m mode = Done m' /\ on_eye m' /\ GetScreenMode m' = mode /\ FishEye.mChangeAnimation (the_eye m') = false /\
    windowIndex m' = windowIndex m /\ outsideChanged m' = outsideChanged m /\
    forall i k, FishEye.the_item (the_eye m') i k = FishEye.the_item (the_eye m) i k.
Proof.
  intros H Ha Hm Hw; pose proof H as [H1 H2 H3]; unfold GetScreenMode in Hw; rewrite H2 in Hw; change (eye (world_of m)) with (the_eye m) in Hw; unfold SwitchMode.
  replace ((mode <? 0) || (18 <? mode)) with false by lia; cbv zeta; replace (0 <? mode) with true by lia.
  change (eye (world_of (with_mode m mode (windowIndex m) (outsideChanged m)))) with (the_eye m).
  rewrite FishEye.SwitchMode_ok by (by apply eye_ok); unfold FishEye.GetScreenMode in Hw.
  replace (FishEye.windows_of (FishEye.mCurrentMode (the_eye m)) =? FishEye.windows_of mode) with false by lia; rewrite !andb_false_r; cbn [andb].
  cbn [obind]; eexists; split; [done|]; split; [|by repeat split].
  constructor; [|done|exact H3]; apply set_stage_ok; [exact H1|]; split; [apply (world_good m H1)|]; cbn; by apply FishEye.SetSelected_ok, FishEye.changing_ok, eye_ok.
Qed.
(** What the accessors read depends on the mode and on its windows. *)
Lemma reads_items m m' ty t k : pm_ok m -> pm_ok m' -> FishEye.mCurrentMode (the_eye m) = FishEye.mCurrentMode (the_eye m') ->
  (forall i k, FishEye.find_mode (FishEye.mCurrentMode (the_eye m)) 0 FishEye._VMode = Some i ->
     FishEye.the_item (the_eye m) i k = FishEye.the_item (the_eye m') i k) -> reads m ty t k = reads m' ty t k.
Proof.
  intros H H' Hm Hi; unfold reads; rewrite !FishEye.get_window.
  destruct (decide (0 <= k < FishEye.windows_of (FishEye.mCurrentMode (the_eye m)))) as [Hk|Hk].
  - destruct (FishEye.from_window_spec (the_eye m) k (FishEye.getter ty t) (eye_ok m H) Hk) as (i & it & Ei & Eit & ->).
    rewrite Hm in Hk; destruct (FishEye.from_window_spec (the_eye m') k (FishEye.getter ty t) (eye_ok m' H') Hk) as (i' & it' & Ei' & Eit' & ->).
    pose proof Ei as Ei0; rewrite Hm in Ei; rewrite Ei in Ei'; injection Ei' as <-; rewrite <- (Hi i k Ei0) in Eit'; rewrite Eit in Eit'; by injection Eit' as ->.
  - rewrite !FishEye.from_window_none by (try apply eye_ok; try done; rewrite <- ?Hm; lia); done.
Qed.

(** ** The double tap *)

Lemma window_index f : 0 <= convertWindowIndex f < 4.
Proof. unfold convertWindowIndex; case_bool; lia. Qed.
Lemma clear_eye m : on_eye m -> exists m', clear m = Done m' /\ on_eye m' /\ the_eye m' = the_eye m /\ windowIndex m' = windowIndex m /\
  outsideChanged m' = outsideChanged m /\ GetScreenMode m' = GetScreenMode m.
Proof.
  intros [H1 H2 H3]; destruct (clear_total m H1) as (m' & E & Hok & Hm & He & Hi); exists m'; split; [done|].
  split; [constructor; [done|congruence|congruence]|]; split; [done|]; rewrite Hm; split; [done|]; split; [done|].
  rewrite <- Hm; unfold GetScreenMode; rewrite Hi; unfold the_eye in He; by rewrite He.
Qed.
Lemma reads_get m p r s k : on_eye m -> (forall ty, 0 <= ty <= 2 -> reads m ty false k = Done (of3 p s r ty)) ->
  get_pos m false k = Done p /\ get_rotate m false k = Done r /\ get_scale m false k = Done s.
Proof.
  intros H Hr; pose proof (eye_get m 0 false k H : get_pos m false k = _) as E0; pose proof (eye_get m 1 false k H : get_scale m false k = _) as E1.
  pose proof (eye_get m 2 false k H : get_rotate m false k = _) as E2; rewrite E0, E1, E2, !Hr by lia; done.
Qed.
(** A tap that switches to [mode] and puts the values there. *)
Lemma tap_to m mode kf k p r s : (forall n, windowIndex n = windowIndex m -> kf n = k) -> on_eye m -> FishEye.mChangeAnimation (the_eye m) = false -> 0 < mode <= 18 ->
  FishEye.windows_of (GetScreenMode m) <> FishEye.windows_of mode -> 0 <= k < FishEye.windows_of mode ->
  exists m', (let* m := clear m in let* m := SwitchMode m mode in place m p r s (kf m)) = Done m' /\ on_eye m' /\ GetScreenMode m' = mode /\
    FishEye.mChangeAnimation (the_eye m') = false /\ windowIndex m' = windowIndex m /\ outsideChanged m' = outsideChanged m /\
    (forall i c, FishEye.find_mode mode 0 FishEye._VMode <> Some i -> FishEye.the_item (the_eye m') i c = FishEye.the_item (the_eye m) i c) /\
    (forall n, GetScreenMode n = mode -> on_eye n -> (forall i c, FishEye.find_mode mode 0 FishEye._VMode = Some i -> FishEye.the_item (the_eye n) i c = FishEye.the_item (the_eye m) i c) ->
      forall ty t j, 0 <= ty <= 2 -> ~ (t = false /\ j = k) -> reads m' ty t j = reads n ty t j) /\
    (forall ty, 0 <= ty <= 2 -> reads m' ty false k = Done (of3 p s r ty)).
Proof.
  intros Hf H Ha Hm Hw Hk; destruct (clear_eye m H) as (m1 & -> & H1 & He1 & Hw1 & Ho1 & Hm1); cbn [obind].
  destruct (switch_now m1 mode H1 ltac:(by rewrite He1) Hm ltac:(by rewrite Hm1)) as (m2 & -> & H2 & Hm2 & Ha2 & Hw2 & Ho2 & Hi2); cbn [obind]; rewrite (Hf m2) by congruence.
  destruct (place_spec m2 p r s k H2 ltac:(by rewrite Hm2)) as (m3 & E3 & H3 & S3 & M3 & A3 & L3 & R3); exists m3; split; [done|]; split; [done|].
  split; [congruence|]; split; [congruence|]; split; [rewrite S3; cbn; congruence|]; split; [rewrite S3; cbn; congruence|]; split; [|split; [|intros ty Hty; rewrite R3 by done; by rewrite decide_True]].
  - intros i c Hi; rewrite L3, Hi2, He1 by (by rewrite Hm2); done.
  - intros n Hn Hon Hin ty t j Hty Hne; rewrite R3, decide_False by done.
    pose proof (oe_current n Hon) as On; pose proof (oe_current m2 H2) as O2; unfold GetScreenMode in Hn, Hm2; rewrite On in Hn; rewrite O2 in Hm2.
    change (FishEye.mCurrentMode (the_eye n) = mode) in Hn; change (FishEye.mCurrentMode (the_eye m2) = mode) in Hm2.
    apply reads_items; [apply H2|apply Hon|congruence|]; rewrite Hm2; intros i c Hi; by rewrite Hi2, He1, Hin.
Qed.
Lemma windows_four : FishEye.windows_of SCRN_FOUR = 4 /\ FishEye.windows_of SCRN_HEMISPHERE = 1.
Proof. by split. Qed.
Lemma tap_there_and_back fuel m w scene f w' scene' f' : on_eye m -> FishEye.mChangeAnimation (the_eye m) = false -> GetScreenMode m = SCRN_FOUR ->
  exists m1 m2, DoDoubleTap fuel m w scene f 0 = Done m1 /\ on_eye m1 /\ GetScreenMode m1 = SCRN_HEMISPHERE /\
    (forall ty, 0 <= ty <= 2 -> reads m1 ty false 0 = reads m ty false (convertWindowIndex f)) /\
    DoDoubleTap fuel m1 w' scene' f' 0 = Done m2 /\ on_eye m2 /\ GetScreenMode m2 = SCRN_FOUR /\
    forall ty t j, 0 <= ty <= 2 -> reads m2 ty t j = reads m ty t j.
Proof.
  intros H Ha Hm; set (j := convertWindowIndex f); pose proof (window_index f) as Hj; fold j in Hj; destruct windows_four as (W4 & W1).
  assert (Hread : forall m ty t k, on_eye m -> exists v, reads m ty t k = Done v).
  { intros n ty t k [Hn1 _ _]; unfold reads; rewrite FishEye.get_window.
    destruct (decide (0 <= k < FishEye.windows_of (FishEye.mCurrentMode (the_eye n)))) as [Hk|Hk].
    - destruct (FishEye.from_window_spec (the_eye n) k (FishEye.getter ty t) (eye_ok n Hn1) Hk) as (? & ? & _ & _ & ->); eauto.
    - rewrite FishEye.from_window_none by (try apply eye_ok; try done; lia); eauto. }
  destruct (Hread m 0 false j H) as (p & Ep), (Hread m 1 false j H) as (s & Es), (Hread m 2 false j H) as (r & Er).
  assert (H3 : forall ty, 0 <= ty <= 2 -> reads m ty false j = Done (of3 p s r ty))
    by (intros ty Hty; assert (ty = 0 \/ ty = 1 \/ ty = 2) as [->|[->| ->]] by lia; done).
  destruct (reads_get m p r s j H H3) as (Gp & Gr & Gs).
  set (m0 := SetOutsideChanged (with_mode m (_current_mode m) j (outsideChanged m)) false).
  assert (H0 : on_eye m0) by (destruct H; by constructor).
  destruct (tap_to m0 SCRN_HEMISPHERE (fun _ => 0) 0 p r s ltac:(done) H0 Ha ltac:(lia) ltac:(change (GetScreenMode m0) with (GetScreenMode m); rewrite Hm, W4, W1; lia) ltac:(rewrite W1; lia))
    as (m1 & E1 & H1 & M1 & A1 & I1 & O1 & L1 & _ & R1).
  destruct (reads_get m1 p r s 0 H1 R1) as (Fp & Fr & Fs).
  destruct (tap_to m1 SCRN_FOUR windowIndex j p r s ltac:(intros n ->; by rewrite I1) H1 A1 ltac:(lia) ltac:(rewrite M1, W4, W1; lia) ltac:(rewrite W4; lia))
    as (m2 & E2 & H2 & M2 & A2 & I2 & O2 & L2 & R2 & R2').
  exists m1, m2; split; [|split; [done|split; [done|split; [|split; [|split; [done|split; [done|]]]]]]].
  - unfold DoDoubleTap; rewrite Hm; cbn [Z.eqb Pos.eqb]; cbv zeta; change (windowIndex (with_mode m (_current_mode m) (convertWindowIndex f) (outsideChanged m))) with j.
    change (get_pos (with_mode m (_current_mode m) (convertWindowIndex f) (outsideChanged m)) false j) with (get_pos m false j); rewrite Gp; cbn [obind].
    change (get_rotate (with_mode m (_current_mode m) (convertWindowIndex f) (outsideChanged m)) false j) with (get_rotate m false j); rewrite Gr; cbn [obind].
    change (get_scale (with_mode m (_current_mode m) (convertWindowIndex f) (outsideChanged m)) false j) with (get_scale m false j); rewrite Gs; cbn [obind].
    exact E1.
  - intros ty Hty; by rewrite R1, H3.
  - unfold DoDoubleTap; rewrite M1; cbn [Z.eqb Pos.eqb]; cbv zeta; rewrite Fp, Fr, Fs; cbn [obind]; rewrite O1; change (outsideChanged m0) with false; cbn [negb].
    exact E2.
  - intros ty t k Hty; destruct (decide (t = false /\ k = j)) as [[-> ->]|Hne]; [by rewrite R2', H3|].
    apply (R2 m Hm H); [|done|done]; intros i c Hi; symmetry; apply (L1 i c); injection Hi as <-; done.
Qed.

(** ** Ranges *)

Lemma below_spec lo v : F32.ltb (below lo v) lo = false.
Proof. unfold below; destruct (F32.ltb v lo) eqn:E; [apply F32.ltb_irrefl|done]. Qed.
(** A value pulled below [hi], then above [lo]. *)
Lemma clamped_spec lo hi v : let r := below lo (above hi v) in F32.ltb r lo = false /\ (r = lo \/ F32.ltb hi r = false).
Proof.
  cbv zeta; split; [apply below_spec|]; unfold below; destruct (F32.ltb (above hi v) lo); [by left|right].
  unfold above; destruct (F32.ltb hi v) eqn:E; [apply F32.ltb_irrefl|done].
Qed.
Lemma SFeqb_cases a b : SFeqb a b = true -> a = b \/ exists s s', a = S754_zero s /\ b = S754_zero s'.
Proof.
  destruct a as [s|s| |s m e], b as [s'|s'| |s' m' e']; try done; try (destruct s, s'; done); [right; eauto|..].
  - destruct s, s'; try done; by left.
  - unfold SFeqb, SFcompare; destruct s, s'; try done; destruct (Z.compare_spec e e') as [->| |]; try done;
      rewrite ?CompOpp_involutive; destruct (Pos.compare_cont Eq m m') eqn:E; try done; left; f_equal; by apply Pos.compare_eq.
Qed.
Lemma ltb_eqb a b c : SFeqb a b = true -> F32.ltb a c = F32.ltb b c /\ F32.ltb c a = F32.ltb c b.
Proof. intros [->|(s & s' & -> & ->)]%SFeqb_cases; [done|]; destruct c as [| | |t]; try done; by destruct t. Qed.
Definition in_range (lo hi v : spec_float) : Prop := F32.ltb v lo = false /\ F32.ltb hi v = false.
Lemma in_range_eqb lo hi a b : SFeqb a b = true -> in_range lo hi a -> in_range lo hi b.
Proof. intros E [H1 H2]; destruct (ltb_eqb a b lo E) as (E1 & _), (ltb_eqb a b hi E) as (_ & E2); split; congruence. Qed.

(** The scale that the wheel asks of a video. *)
Definition wheel_scale (intra : Z) (s : vec3) : vec3 :=
  let a := F64.to_float (F64.dec 1 10) in
  let s := zoom_by intra (vec1 a) (vec a a (F32.div (flt 1) (flt 10))) s in
  let s := if F32.ltb (x s) (flt 1) then vec_of 1 1 1 else s in
  let s := if F32.ltb (flt 8) (x s) then vec_of 8 8 8 else s in
  if intra =? -100 then vec_of 1 1 1 else s.
Lemma wheel_scale_range intra s : in_range (flt 1) (flt 8) (x (wheel_scale intra s)).
Proof.
  unfold wheel_scale; cbv zeta; set (s0 := zoom_by _ _ _ _); clearbody s0.
  assert (H1 : F32.ltb (x (if F32.ltb (x s0) (flt 1) then vec_of 1 1 1 else s0)) (flt 1) = false)
    by (destruct (F32.ltb (x s0) (flt 1)) eqn:E; [vm_compute; reflexivity|done]).
  revert H1; generalize (if F32.ltb (x s0) (flt 1) then vec_of 1 1 1 else s0); intros s1 H1.
  destruct (intra =? -100); [split; vm_compute; reflexivity|]; destruct (F32.ltb (flt 8) (x s1)) eqn:E; [split; vm_compute; reflexivity|by split].
Qed.
(** A video's texture after SetScale by a scale of at least one. *)
Lemma surface_scaled v p : F32.ltb (x p) (flt 1) = false ->
  exists q, Surface.GetScale (Surface.SetScale v p true) true = q /\ (q = p \/ Surface.veqb q p = true).
Proof.
  intros H; eexists; split; [reflexivity|]; unfold Surface.SetScale; cbn [negb]; change (F32.ltb (x p) Surface.one) with (F32.ltb (x p) (flt 1)); rewrite H.
  unfold Surface.surface_SetScale, Surface.put, Surface.part, Surface.GetScale; case_bool; [right; done|by left].
Qed.
Lemma veqb_x u v : Surface.veqb u v = true -> SFeqb (x u) (x v) = true.
Proof. unfold Surface.veqb; rewrite !andb_true_iff; tauto. Qed.
Lemma SFeqb_sym a b : SFeqb a b = true -> SFeqb b a = true.
Proof.
  intros H; destruct (SFeqb_cases a b H) as [->|(s & s' & -> & ->)]; [done|by destruct s, s'].
Qed.

Lemma wheel_grid_lemma m intra px py k : pm_ok m -> is_eye (world_of m) = false -> mShowCircle (circles_of m) = 0 -> 0 <= k < 36 ->
  exists m' s, DoTapOrMouseWheel m intra px py k = Done m' /\ pm_ok m' /\ get_scale m' true k = Done s /\ in_range (flt 1) (flt 8) (x s).
Proof.
  intros H He Hc Hk; assert (Hm : GetScreenMode m = SCRN_NORMAL) by (unfold GetScreenMode; by rewrite He).
  pose proof (world_good m H) as (Hg & _).
  destruct (znth (Screen.mVideo (grid_of (world_of m))) k) as [v|] eqn:Ev.
  2:{ destruct (FishEye.znth_inside (Screen.mVideo (grid_of (world_of m))) k) as (v & Ev'); [|congruence]; unfold zlen; rewrite (Screen.inv_videos _ Hg); lia. }
  set (p := wheel_scale intra (Surface.GetScale v true)).
  assert (Hget : get_scale m true k = Done (Surface.GetScale v true)).
  { unfold get_scale, current; rewrite He; cbn [GetScale stage_surface]; unfold of_object; cbn [Z.eqb]; unfold Screen.GetScale, Screen.from_video, Screen.at_index.
    replace (Screen.out k) with false by (unfold Screen.out; lia); by rewrite Ev. }
  destruct (wheel_scale_range intra (Surface.GetScale v true)) as (R1 & R2); fold p in R1, R2.
  destruct (surface_scaled v p R1) as (q & Eq & Hq).
  assert (Hset : set_scale m p true k = Done (set_stage m (set_grid (world_of m)
            (Screen.set_video (grid_of (world_of m)) (zset (Screen.mVideo (grid_of (world_of m))) k (Surface.SetScale v p true)))))).
  { unfold set_scale, current; rewrite He; cbn [SetScale stage_surface]; unfold on_object; cbn [Z.eqb]; unfold Screen.SetScale, Screen.with_video, Screen.on_video, Screen.at_index.
    replace (Screen.out k) with false by (unfold Screen.out; lia); by rewrite Ev. }
  eexists; exists q; split; [|split; [|split]].
  - unfold DoTapOrMouseWheel; rewrite Hc, Hm; cbn [Z.eqb negb]; unfold wheel_grid; rewrite Hget; cbn [obind]; exact Hset.
  - exact (set_scale_ok m _ _ _ _ H Hset).
  - unfold get_scale, current; cbn [world_of set_stage man with_man world set_world set_grid is_eye]; rewrite He; cbn [GetScale stage_surface]; unfold of_object; cbn [Z.eqb].
    unfold Screen.GetScale, Screen.from_video, Screen.at_index; replace (Screen.out k) with false by (unfold Screen.out; lia).
    cbn [grid_of set_grid Screen.mVideo Screen.set_video]; rewrite FishEye.znth_put by (by eapply FishEye.znth_bound); rewrite decide_True by done; cbn [obind]; by rewrite Eq.
  - destruct Hq as [->|Hq]; [by split|]; apply (in_range_eqb _ _ (x p) (x q)); [by apply SFeqb_sym, veqb_x|by split].
Qed.

Definition tilt_limited (l : limits) (r : vec3) : Prop :=
  let lo := F32.sub (limit_bottom l) (flt 10) in
  F32.ltb (x r) lo = false /\ (x r = lo \/ F32.ltb (F32.add (limit_top l) (flt 10)) (x r) = false).
Lemma eye_reads_done m ty t k : on_eye m -> exists v, reads m ty t k = Done v.
Proof.
  intros [H _ _]; unfold reads; rewrite FishEye.get_window.
  destruct (decide (0 <= k < FishEye.windows_of (FishEye.mCurrentMode (the_eye m)))) as [Hk|Hk].
  - destruct (FishEye.from_window_spec (the_eye m) k (FishEye.getter ty t) (eye_ok m H) Hk) as (? & ? & _ & _ & ->); eauto.
  - rewrite FishEye.from_window_none by (try apply eye_ok; try done; lia); eauto.
Qed.
Lemma move_sphere_limits m dx dy w : on_eye m -> GetScreenMode m <> SCRN_CUP -> 0 < FishEye.windows_of (GetScreenMode m) ->
  exists m' r, move_sphere m dx dy w = Done m' /\ on_eye m' /\ reads m' 2 false 0 = Done r /\ tilt_limited (limits_of m') r.
Proof.
  intros H Hc Hw; assert (Hd : GetDualMode m = false) by (destruct H as [_ _ H]; unfold GetDualMode, FishEye.DualMode, the_eye in *; by rewrite H).
  destruct (eye_reads_done m 1 false 0 H) as (sc & Es), (eye_reads_done m 2 false 0 H) as (r & Er).
  assert (Gs : get_scale m false 0 = Done sc) by (rewrite <- Es; exact (eye_get m 1 false 0 H)).
  assert (Gr : get_rotate m false 0 = Done r) by (rewrite <- Er; exact (eye_get m 2 false 0 H)).
  assert (Hset : forall l v, on_eye (with_limits m l) -> exists m', set_rotate (with_limits m l) v false 0 = Done m' /\ on_eye m' /\
            reads m' 2 false 0 = Done v /\ limits_of m' = l).
  { intros l v Hl; destruct (eye_set (with_limits m l) 2 v 0 Hl ltac:(lia) ltac:(change (GetScreenMode (with_limits m l)) with (GetScreenMode m); lia))
      as (m' & E & H' & S' & _ & _ & _ & R'); exists m'; split; [exact E|]; split; [done|]; split; [by rewrite R'|by rewrite S']. }
  unfold move_sphere; rewrite Hd, Gs, Gr; cbn [obind]; destruct (negb (w =? 0)).
  - edestruct Hset as (m' & -> & H' & R' & L'); [by destruct H|]; exists m'; eexists; split; [done|]; split; [done|]; split; [exact R'|].
    rewrite L'; unfold tilt_limited; cbn [x limit_bottom limit_top]; apply clamped_spec.
  - change (GetScreenMode (with_limits m (mkLim (limit_left (limits_of m)) (limit_right (limits_of m)) (F32.sub (flt 90) (F32.div (F32.div (mViewAngle m) (y sc)) (flt 2))) (flt 0))))
      with (GetScreenMode m); replace (GetScreenMode m =? SCRN_CUP) with false by lia.
    edestruct Hset as (m' & -> & H' & R' & L'); [by destruct H|]; exists m'; eexists; split; [done|]; split; [done|]; split; [exact R'|].
    rewrite L'; unfold tilt_limited; cbn [x limit_bottom limit_top]; apply clamped_spec.
Qed.

(** ** The speed of the finger *)

Lemma sample_speed m now px sx tp : from (statics_of m) = Some (sx, tp) -> 10 <= u64 (now - tp) -> in_i32 (px - sx) ->
  exists m', sample m now px = Done m' /\ mSpeed (touched m') = px - sx /\ from (statics_of m') = Some (px, i32 now).
Proof.
  intros Hf Ht [H1 H2]; unfold sample; rewrite Hf; replace (10 <=? u64 (now - tp)) with true by lia; unfold int.
  replace ((- 2 ^ 31 <=? px - sx) && (px - sx <? 2 ^ 31)) with true by lia; cbn [obind]; eexists; split; [done|]; by split.
Qed.
(** A time stored in an int whose top bit is set reads as one long past. *)
Lemma late_clock t now : 0 <= t <= now -> now < 2 ^ 63 -> 2 ^ 31 <= t mod 2 ^ 32 -> 2 ^ 32 <= u64 (now - i32 t).
Proof.
  intros H1 H2 H3; assert (E : i32 t = t mod 2 ^ 32 - 2 ^ 32).
  { unfold i32, signed; change (32 - 1) with 31; pose proof (Z.div_mod t (2 ^ 32) ltac:(lia)); pose proof (Z.mod_pos_bound t (2 ^ 32) ltac:(lia)).
    rewrite <- (Z.mod_unique (t + 2 ^ 31) (2 ^ 32) (t / 2 ^ 32 + 1) (t mod 2 ^ 32 + 2 ^ 31 - 2 ^ 32)); lia. }
  pose proof (Z.mod_le t (2 ^ 32) ltac:(lia) ltac:(lia)); rewrite u64_small by lia; lia.
Qed.

(** ** The end of a manager *)

(** The destructor's loop: its bound shrinks while its counter grows. *)
Fixpoint destroy (fuel : nat) (i : Z) (l : list Z) : outcome (list Z * list Z) :=
  match fuel with
  | O => OutOfFuel
  | S fuel =>
      if i <? zlen l then
        let* p := CList.at_ 0 0 l in
        let* l := CList.remove 0 l in
        let* '(gone, l) := destroy fuel (i + 1) l in
        Done (p :: gone, l)
      else Done ([], l)
  end.
Lemma destroyed_half fuel : forall i l, 0 <= i -> (Z.to_nat (zlen l - i) < fuel)%nat -> let n := Z.to_nat ((zlen l - i + 1) / 2) in
  destroy fuel i l = Done (take n l, drop n l).
Proof.
  induction fuel as [|fuel IH]; intros i l Hi; cbv zeta; intros Hf; cbn [destroy]; [lia|]; case_bool.
  - destruct l as [|p l]; [unfold zlen in *; cbn in *; lia|].
    change (CList.at_ 0 0 (p :: l)) with (Done p); change (CList.remove 0 (p :: l)) with (Done l); cbn [obind].
    assert (Ez : zlen (p :: l) = zlen l + 1) by (unfold zlen; cbn [length]; lia); rewrite Ez in *.
    rewrite IH by lia; cbn [obind]; replace (zlen l + 1 - i + 1) with (zlen l - (i + 1) + 1 + 1 * 2) by lia; rewrite Z.div_add by lia.
    assert (0 <= (zlen l - (i + 1) + 1) / 2) by (apply Z.div_pos; lia).
    by replace (Z.to_nat ((zlen l - (i + 1) + 1) / 2 + 1)) with (S (Z.to_nat ((zlen l - (i + 1) + 1) / 2))) by lia.
  - assert ((zlen l - i + 1) / 2 <= 0) by (apply Z.lt_succ_r, Z.div_lt_upper_bound; lia); by replace (Z.to_nat _) with 0%nat by lia.
Qed.

(** ** A session of gestures *)

Inductive gesture :=
| Press (now px py : Z) | Drag (now px py wallmode k : Z) | Release (now px py wallmode : Z) | Wheel (intra px py k : Z)
| DoubleTap (wallmode scene four k : Z) | Mode (mode : Z) | Clear
| Animate (sinf : spec_float -> spec_float)              (* a turn of the animation thread, without callbacks *)
| Change                                                 (* a turn of the change thread *)
| Resized (w h : Z) | Angle (a : spec_float)
| Grid (o : Screen.op)                                   (* through the manager, without animation *)
| Keep (aspect : spec_float) (k : Z) | Aspect (a : spec_float) | Factory (value : Z) | Circled (cx cy d : spec_float) (k : Z).
Section Session.
Context (atanf acosf : spec_float -> spec_float) (fuel : nat).
Definition perform (m : pm) (g : gesture) : outcome pm :=
  match g with
  | Press now px py => DoTapOrMouseDown atanf acosf fuel m now px py
  | Drag now px py w k => DoTapOrMouseMove atanf acosf fuel m now px py w k
  | Release now px py w => DoTapOrMouseUp m now px py w
  | Wheel i px py k => DoTapOrMouseWheel m i px py k
  | DoubleTap w sc f k => DoDoubleTap fuel m w sc f k
  | Mode mode => SwitchMode m mode
  | Clear => clear m
  | Animate sinf => let* a := AnimationOperator sinf (fun a _ => Done a) (man m) in Done (with_man m a)
  | Change => Done (set_the_eye m (FishEye.HandleChangeThread (the_eye m)))
  | Resized w h => Done (SetWindowWidthHeight m w h)
  | Angle a => SetViewAngle m a
  | Grid o => on_grid m (fun g => Screen.apply g o)
  | Keep a k => SetKeepAspect m a k
  | Aspect a => Done (UpdateAspect m a)
  | Factory v => Done (EnableFactoryMode m v)
  | Circled cx cy d k => Set_FM_CircleOptions m cx cy d k
  end.
(** What the operations on the grid take for granted: indices within its tables. *)
Definition allowed (m : pm) (g : gesture) : Prop := match g with Grid o => is_eye (world_of m) = false -> Screen.valid (grid_of (world_of m)) o | _ => True end.
Fixpoint session (m : pm) (l : list gesture) : outcome pm :=
  match l with [] => Done m | g :: l => let* m := perform m g in session m l end.
Fixpoint legal (m : pm) (l : list gesture) : Prop :=
  match l with [] => True | g :: l => allowed m g /\ match perform m g with Done m => legal m l | _ => True end end.
End Session.
Lemma turn_sound sinf (a : @manager stage) a' : sound good a -> AnimationOperator sinf (fun a _ => Done a) a = Done a' -> sound good a'.
Proof.
  intros [H Hf Hx] E; assert (Hq : quiet good (fun (a : @manager stage) (_ : Z) => Done a)) by (intros m p Hm; exists (world m); split; [by destruct m|done]).
  destruct (turn_spec good sinf _ a Hq H) as (a1 & E1 & Hw & Hl & _); rewrite E in E1; injection E1 as <-; constructor; [done| |].
  - destruct H as [Hg Hn Hlive]; destruct (downwards_spec good sinf _ Hq (_Ani a) [] a Hg ltac:(by rewrite app_nil_r) ltac:(by rewrite app_nil_r) Hlive) as (w & h & _ & E2 & _).
    unfold AnimationOperator in E; rewrite E in E2; injection E2 as E2; rewrite E2 in *; cbn [_Ani fresh] in *.
    intros p Hp; apply Hf; rewrite app_nil_r in Hp; by apply list_elem_of_In, filter_In in Hp as (Hp%list_elem_of_In & _).
  - destruct H as [Hg Hn Hlive]; destruct (downwards_spec good sinf _ Hq (_Ani a) [] a Hg ltac:(by rewrite app_nil_r) ltac:(by rewrite app_nil_r) Hlive) as (w & h & _ & E2 & _).
    unfold AnimationOperator in E; rewrite E in E2; injection E2 as E2; by rewrite E2.
Qed.
Lemma grid_done m f m' : on_grid m f = Done m' -> m' = m \/ is_eye (world_of m) = false /\ exists g : Screen.screen, f (grid_of (world_of m)) = Done g /\ m' = set_stage m (set_grid (world_of m) g).
Proof.
  unfold on_grid; destruct (negb _); [intros [= <-]; by left|]; destruct (is_eye (world_of m)); [done|]; intros E; right; split; [done|].
  apply obind_done in E as (g1 & E & [= <-]); eauto.
Qed.
Lemma set_grid_ok m g : pm_ok m -> Screen.inv g -> pm_ok (set_stage m (set_grid (world_of m) g)).
Proof. intros H Hg; apply set_stage_ok; [done|]; split; [done|apply (world_good m H)]. Qed.
Lemma perform_ok atanf acosf fuel m g m' : pm_ok m -> allowed m g -> perform atanf acosf fuel m g = Done m' -> pm_ok m'.
Proof.
  intros H Ha; destruct g; cbn [perform allowed] in *; intros E; [by eapply down_ok|by eapply move_ok|by eapply up_ok|by eapply wheel_ok|by eapply double_ok|by eapply switched_ok|by eapply clear_ok|..].
  - apply obind_done in E as (a & E & [= <-]); exact (turn_sound sinf (man m) a H E).
  - injection E as <-; apply set_eye_ok; [done|]; by apply FishEye.change_ok, eye_ok.
  - by injection E as <-.
  - unfold SetViewAngle in E; apply obind_done in E as (e & E & [= <-]); destruct (FishEye.view_angle_lemma (the_eye m) a (eye_ok m H)) as (e' & E' & Hok & _).
    change (FishEye.SetViewAngle (the_eye m) a = Done e) in E; rewrite E in E'; injection E' as <-; apply set_stage_ok; [exact H|split; [apply (world_good m H)|done]].
  - destruct (grid_done m _ m' E) as [->|(He & g1 & E1 & ->)]; [done|]; apply set_grid_ok; [done|].
    destruct (Screen.op_inv _ o (proj1 (world_good m H)) (Ha He)) as (g2 & E2 & H2); rewrite E1 in E2; by injection E2 as ->.
  - unfold SetKeepAspect in E; apply obind_done in E as (g1 & E & [= <-]); apply set_grid_ok; [done|].
    destruct (Screen.op_inv _ (Screen.Keep aspect k) (proj1 (world_good m H)) I) as (g2 & E2 & H2); cbn [Screen.apply] in E2; rewrite E in E2; by injection E2 as ->.
  - injection E as <-; apply (set_eye_ok m); [done|]; destruct (eye_ok m H); by constructor.
  - injection E as <-; exact H.
  - unfold Set_FM_CircleOptions in E; destruct (_ || _); [by injection E as <-|]; cbv zeta in E; apply obind_done in E as (c & _ & [= <-]); exact H.
Qed.
Lemma session_ok atanf acosf fuel l : forall m m', pm_ok m -> legal atanf acosf fuel m l -> session atanf acosf fuel m l = Done m' -> pm_ok m'.
Proof.
  induction l as [|g l IH]; intros m m' H; cbn [session legal]; [by intros _ [= <-]|]; intros (Ha & Hl) E; apply obind_done in E as (m1 & E1 & E).
  rewrite E1 in Hl; exact (IH m1 m' (perform_ok _ _ _ _ _ _ H Ha E1) Hl E).
Qed.

(** The constructor, on a grid that has been made; [odd] are the members it leaves as
    the memory was: mSpeed, starttime, mIndex, the window's size, windowIndex. *)
Definition ParametricManager (g : Screen.screen) (aspect : spec_float) (garbage : bool * Z * Z * Z) (odd : Z * Z * Z * Z * Z * Z) (outside : bool) : pm :=
  let '(sp, st, ix, ww, wh, wi) := odd in
  let circle p := Surface.surface_SetPosition (Surface.NormalPlay (flt 2)) p false in
  let zero := flt 0 in
  mkPm (mkMan (mkStage g (FishEye.VertexObjectImpl aspect (flt 60) garbage) (Surface.NormalPlay aspect) false false) [] ∅ 1)
    (mkTouch (-1) (-1) (-1) (-1) sp st ix) (mkLim zero zero zero zero)
    (mkCirc 0 (-1) [circle (vec_of (-1) 0 0); circle (vec_of 1 0 0)] [flt 1; flt 1]) (mkStat 0 None)
    ww wh (F64.to_float (F64.dec 3 2)) (F64.to_float (F64.dec 28 10)) (F64.to_float (F64.dec 16 10)) (flt 60) SCRN_NORMAL wi outside.
Lemma new_ok g aspect garbage odd outside : Screen.inv g -> pm_ok (ParametricManager g aspect garbage odd outside).
Proof.
  intros Hg; destruct odd as [[[[[? ?] ?] ?] ?] ?]; constructor; cbn [_Ani man ParametricManager fresh]; [|by intros p Hp%not_elem_of_nil|lia].
  constructor; cbn [world _Ani heap]; [|apply NoDup_nil_2|by intros p Hp%not_elem_of_nil]; split; [exact Hg|apply FishEye.eye_made_ok].
Qed.

(** * The correctness of the gestures *)

(** C18: whatever gestures, operations on the grid whose splits, videos and touches lie
    within its tables, switches of mode, resizes and turns of the two threads follow each
    other, if they return (no handler runs off an array, and the fuel suffices for its
    loops), the grid and the fish-eye screen are well formed, and the list of animations
    holds live, distinct animations that have steps to take. *)
Theorem gestures_ok atanf acosf fuel g aspect garbage odd outside l m : Screen.inv g ->
  legal atanf acosf fuel (ParametricManager g aspect garbage odd outside) l ->
  session atanf acosf fuel (ParametricManager g aspect garbage odd outside) l = Done m -> pm_ok m.
Proof. intros Hg; apply session_ok; by apply new_ok. Qed.

(** C19: on a display of twelve times [a] by twelve times [b] points, the window that a
    touch selects in a split mode is one that is drawn over the point touched and can be
    moved; and a touch off the edges of such a window selects it. *)
Theorem touch_hits m a b px py mode : window_width m = 12 * a -> window_height m = 12 * b -> 12 * a < 2 ^ 31 -> 12 * b < 2 ^ 31 ->
  0 <= px < 12 * a -> 0 <= py < 12 * b -> split_mode mode = true ->
  exists k, GetScreenIndex m px py mode = Done k /\
    (k = -1 \/ exists it, znth (layout mode) k = Some it /\ covers a b px py it /\ movable it = true) /\
    forall j it, znth (layout mode) j = Some it -> movable it = true -> strictly a b px py it -> k = j.
Proof.
  intros Hw Hh Ha Hb Hx Hy Hm; exists (window_at a b px py mode); split; [by apply GetScreenIndex_spec|]; split; [by apply window_at_covers|].
  intros j it Hj Hmv Hs; by apply (strictly_at a b px py mode j it).
Qed.

(** C26: UpdateFrame, unless it updates in the mode SCRN_FOUREX (where it turns two views
    without a walk), goes through the windows of the mode that have an outline, in their
    order and each once, and the walk ends: as many turns as the mode has windows, and one
    to see that there are no more, are enough. *)
Theorem update_visits atanf acosf fuel m a b c d k update ani : pm_ok m ->
  update = false \/ FishEye.GetScreenMode (the_eye m) <> SCRN_FOUREX ->
  zlen (layout (FishEye.mCurrentMode (the_eye m))) < Z.of_nat fuel ->
  UpdateFrame atanf acosf fuel m a b c d k update ani =
  visit atanf acosf m (List.filter FishEye._showframe (layout (FishEye.mCurrentMode (the_eye m)))) a b c d k update ani.
Proof.
  intros H Hu Hf; unfold UpdateFrame; replace (update && (FishEye.GetScreenMode (the_eye m) =? SCRN_FOUREX)) with false
    by (destruct Hu as [->|Hu]; [done|]; destruct update; cbn [andb]; lia).
  rewrite loop_visits; [done|done|lia|unfold zlen; lia|lia].
Qed.

(** A double tap on one of the four windows shows its view alone, and a second
    double tap brings all four windows back as they were. *)
Theorem double_tap_back fuel m w scene f w' scene' f' : on_eye m -> FishEye.mChangeAnimation (the_eye m) = false -> GetScreenMode m = SCRN_FOUR ->
  exists m1 m2, DoDoubleTap fuel m w scene f 0 = Done m1 /\ on_eye m1 /\ GetScreenMode m1 = SCRN_HEMISPHERE /\
    (forall ty, 0 <= ty <= 2 -> reads m1 ty false 0 = reads m ty false (convertWindowIndex f)) /\
    DoDoubleTap fuel m1 w' scene' f' 0 = Done m2 /\ on_eye m2 /\ GetScreenMode m2 = SCRN_FOUR /\
    forall ty t j, 0 <= ty <= 2 -> reads m2 ty t j = reads m ty t j.
Proof. apply tap_there_and_back. Qed.

(** After any turn of the wheel a video's scale is between one and eight. *)
Theorem wheel_range m intra px py k : pm_ok m -> is_eye (world_of m) = false -> mShowCircle (circles_of m) = 0 -> 0 <= k < 36 ->
  exists m' s, DoTapOrMouseWheel m intra px py k = Done m' /\ pm_ok m' /\ get_scale m' true k = Done s /\ in_range (flt 1) (flt 8) (x s).
Proof. apply wheel_grid_lemma. Qed.

Lemma sample_man m now px m' : sample m now px = Done m' -> man m' = man m /\ circles_of m' = circles_of m /\ limits_of m' = limits_of m.
Proof. unfold sample; intros; chase; done. Qed.
Lemma on_eye_man m m' : man m' = man m -> on_eye m -> on_eye m' /\ GetScreenMode m' = GetScreenMode m.
Proof. intros E [H1 H2 H3]; unfold GetScreenMode, the_eye, world_of, pm_ok in *; split; [constructor; unfold pm_ok, the_eye, world_of|]; rewrite E; done. Qed.

(** While the finger moves over the hemisphere, the view tilts at most ten degrees
    beyond its limits. *)
Theorem tilt_stays_limited atanf acosf fuel m now px py w k m' : on_eye m -> GetScreenMode m = SCRN_HEMISPHERE ->
  mShowCircle (circles_of m) = 0 -> 0 <= startx (touched m) -> DoTapOrMouseMove atanf acosf fuel m now px py w k = Done m' ->
  exists r, reads m' 2 false 0 = Done r /\ tilt_limited (limits_of m') r.
Proof.
  intros H Hm Hc Hs; unfold DoTapOrMouseMove; replace (startx (touched m) <? 0) with false by lia.
  intros E; apply obind_done in E as (m1 & E1 & E); cbv zeta in E; apply obind_done in E as (dx & _ & E); apply obind_done in E as (dy & _ & E).
  destruct (sample_man m now px m1 E1) as (S1 & S2 & S3); destruct (on_eye_man m m1 S1 H) as (H1 & M1).
  rewrite S2, Hc, M1, Hm in E; cbn [Z.eqb Pos.eqb negb orb] in E.
  destruct (move_sphere_limits m1 dx dy w H1) as (m2 & r & E2 & H2 & R2 & T2); [rewrite M1, Hm; done|rewrite M1, Hm; reflexivity|].
  rewrite E2 in E; cbn [obind] in E; injection E as <-; exists r; by split.
Qed.

(** A slow release leaves the view beyond its limits: the correction is computed and
    only used when the finger was fast. *)
Theorem slow_release_stays m now px py w m' : on_eye m -> GetScreenMode m = SCRN_HEMISPHERE -> Z.abs (px - startx (touched m)) <= 30 ->
  DoTapOrMouseUp m now px py w = Done m' -> man m' = man m.
Proof.
  intros [H1 H2 H3] Hm Hd; assert (Hdual : GetDualMode m = false) by (unfold GetDualMode, FishEye.DualMode, the_eye in *; by rewrite H3).
  unfold DoTapOrMouseUp; destruct (startx (touched m) <? 0); [by intros [= <-]|]; cbv zeta; intros E; apply obind_done in E as (dx & Ex & E); apply obind_done in E as (dy & _ & E).
  unfold int in Ex; destruct (_ && _) in Ex; [|done]; injection Ex as <-.
  rewrite Hm in E; cbn [Z.eqb Pos.eqb orb] in E; destruct (negb (mShowCircle (circles_of m) =? 0)); [cbn [obind] in E; by injection E as <-|].
  unfold up_sphere in E; rewrite Hdual in E; replace (30 <? Z.abs (px - startx (touched m))) with false in E by lia; rewrite andb_false_r in E.
  apply obind_done in E as (m1 & E & E1); apply obind_done in E as (r & _ & E); destruct (negb (w =? 0)); injection E as <-; by injection E1 as <-.
Qed.

(** While the mode changes, a release starts no animation. *)
Theorem no_inertia_while_changing m now px py w m' : changing m -> DoTapOrMouseUp m now px py w = Done m' -> man m' = man m.
Proof. apply up_blocked. Qed.

(** After a release neither a move nor another release has any effect, until the
    next press. *)
Theorem release_ends atanf acosf fuel m now px py w m' now' px' py' w' k : 0 <= startx (touched m) -> DoTapOrMouseUp m now px py w = Done m' ->
  touched m' = no_touch (mSpeed (touched m')) /\ DoTapOrMouseMove atanf acosf fuel m' now' px' py' w' k = Done m' /\ DoTapOrMouseUp m' now' px' py' w' = Done m'.
Proof.
  intros Hs; unfold DoTapOrMouseUp at 1; replace (startx (touched m) <? 0) with false by lia; cbv zeta; intros E.
  apply obind_done in E as (dx & _ & E); apply obind_done in E as (dy & _ & E); apply obind_done in E as (m1 & _ & E); injection E as <-; done.
Qed.

(** The speed of the finger is taken at most every ten milliseconds, but once the
    clock's low word has its top bit set, after some 25 days of uptime, at every event. *)
Theorem speed_every_event m now t px sx : from (statics_of m) = Some (sx, i32 t) -> 0 <= t <= now -> now < 2 ^ 63 -> 2 ^ 31 <= t mod 2 ^ 32 ->
  in_i32 (px - sx) -> exists m', sample m now px = Done m' /\ mSpeed (touched m') = px - sx.
Proof.
  intros Hf H1 H2 H3 Hd; pose proof (late_clock t now H1 H2 H3).
  destruct (sample_speed m now px sx (i32 t) Hf ltac:(lia) Hd) as (m' & E & Hs & _); by exists m'.
Qed.

Section Statics.
Context (atanf acosf : spec_float -> spec_float).
Lemma clear_at_statics m k m' : clear_at m k = Done m' -> statics_of m' = statics_of m.
Proof. unfold clear_at; intros; by chase. Qed.
Lemma clear_statics m m' : clear m = Done m' -> statics_of m' = statics_of m.
Proof. unfold clear; intros; by chase. Qed.
Lemma select_statics m k m' : select m k = Done m' -> statics_of m' = statics_of m.
Proof. unfold select; intros; by chase. Qed.
Lemma turn_window_statics m i k r m' : turn_window m i k r = Done m' -> statics_of m' = statics_of m.
Proof. unfold turn_window; intros; by chase. Qed.
Lemma hemisphere_statics m a b c d k up ani m' : UpdateFrameHemisphere atanf acosf m a b c d k up ani = Done m' -> statics_of m' = statics_of m.
Proof.
  unfold UpdateFrameHemisphere; intros; chase; try done; case_bool; try done;
    match goal with E : turn_window _ _ _ _ = Done _ |- _ => exact (turn_window_statics _ _ _ _ _ E) end.
Qed.
Lemma panorama_statics m a b c d k up m' : UpdateFramePanorama m a b c d k up = Done m' -> statics_of m' = statics_of m.
Proof.
  unfold UpdateFramePanorama, follow_unrolled; intros; chase; try done;
    match goal with E : turn_window _ _ _ _ = Done _ |- _ => exact (turn_window_statics _ _ _ _ _ E) end.
Qed.
Lemma window_statics m it a b c d k up ani m' : update_window atanf acosf m it a b c d k up ani = Done m' -> statics_of m' = statics_of m.
Proof.
  unfold update_window; intros H; chase; [exact (hemisphere_statics _ _ _ _ _ _ _ _ _ E)|exact (panorama_statics _ _ _ _ _ _ _ _ E)|done].
Qed.
Lemma loop_statics fuel : forall m i a b c d k up ani m', update_loop atanf acosf fuel m i a b c d k up ani = Done m' -> statics_of m' = statics_of m.
Proof.
  induction fuel as [|fuel IH]; cbn [update_loop]; [done|]; intros m i a b c d k up ani m' H; chase; [|done].
  rewrite (IH _ _ _ _ _ _ _ _ _ _ H); by eapply window_statics.
Qed.
Lemma frame_statics fuel m a b c d k up ani m' : UpdateFrame atanf acosf fuel m a b c d k up ani = Done m' -> statics_of m' = statics_of m.
Proof.
  unfold UpdateFrame; intros H; destruct (_ && _); [|by eapply loop_statics]; chase; unfold needing, set_the_eye, set_stage; cbn [with_man statics_of];
    repeat match goal with
    | E : UpdateFramePanorama _ _ _ _ _ _ _ = Done ?v |- statics_of ?v = _ => rewrite (panorama_statics _ _ _ _ _ _ _ _ E)
    | E : UpdateFrameHemisphere _ _ _ _ _ _ _ _ _ _ = Done ?v |- statics_of ?v = _ => rewrite (hemisphere_statics _ _ _ _ _ _ _ _ _ E)
    end; done.
Qed.
Lemma down_statics fuel m t px py m' : DoTapOrMouseDown atanf acosf fuel m t px py = Done m' -> statics_of m' = statics_of m.
Proof.
  unfold DoTapOrMouseDown; intros; chase; try done; cbn [statics_of with_touch];
    try (match goal with E : clear ?m = Done _ |- _ => by apply clear_statics in E end);
    match goal with E : UpdateFrame _ _ _ _ _ _ _ _ _ _ _ = Done _ |- _ => rewrite (frame_statics _ _ _ _ _ _ _ _ _ _ E) end;
    try (match goal with E : select _ _ = Done _ |- _ => rewrite (select_statics _ _ _ E) end);
    match goal with E : clear_at _ _ = Done _ |- _ => exact (clear_at_statics _ _ _ E) end.
Qed.
End Statics.
(** The first move of a gesture measures from where the last gesture was: the statics
    are not set by a press. *)
Theorem stale_speed atanf acosf fuel m t px py now px' sx tp m1 : from (statics_of m) = Some (sx, tp) ->
  DoTapOrMouseDown atanf acosf fuel m t px py = Done m1 -> 10 <= u64 (now - tp) -> in_i32 (px' - sx) ->
  exists m2, sample m1 now px' = Done m2 /\ mSpeed (touched m2) = px' - sx.
Proof.
  intros Hf Hdn Ht Hd; destruct (sample_speed m1 now px' sx tp ltac:(by rewrite (down_statics _ _ _ _ _ _ _ _ Hdn)) Ht Hd) as (m2 & E & H2 & _); by exists m2.
Qed.

(** The destructor deletes the first half of the screens and forgets the others: of
    the grid and the fish-eye screen only the grid. *)
Theorem half_destroyed l : destroy (S (length l)) 0 l = Done (take (Z.to_nat ((zlen l + 1) / 2)) l, drop (Z.to_nat ((zlen l + 1) / 2)) l).
Proof. rewrite destroyed_half by (unfold zlen; lia); by rewrite Z.sub_0_r. Qed.

(** ** Examples *)

Definition done_or {A} (d : A) (o : outcome A) : A := match o with Done v => v | _ => d end.
Definition new_pm : pm := ParametricManager Screen.start (F32.of_Z 1) (false, 0, 0, 0) (0, 0, -1, 1080, 1920, 0) false.
Definition at_mode (mode : Z) : pm := done_or new_pm (SwitchMode new_pm mode).
Definition pressed (mode : Z) : pm := done_or new_pm (DoTapOrMouseDown (fun v => v) (fun v => v) 64 (at_mode mode) 1000 100 200).
Definition dragged (mode : Z) : pm := done_or new_pm (DoTapOrMouseMove (fun v => v) (fun v => v) 64 (pressed mode) 1020 110 250 0 0).
Lemma new_pm_ok : pm_ok new_pm.
Proof. apply new_ok, Screen.start_ok. Qed.
Lemma at_mode_ok mode : pm_ok (at_mode mode).
Proof. unfold at_mode; destruct (SwitchMode new_pm mode) as [m| |] eqn:E; cbn [done_or]; [|apply new_pm_ok..]; exact (switched_ok _ _ _ new_pm_ok E). Qed.
Lemma pressed_ok mode : pm_ok (pressed mode).
Proof.
  unfold pressed; destruct (DoTapOrMouseDown _ _ _ _ _ _ _) as [m| |] eqn:E; cbn [done_or]; [|apply new_pm_ok..].
  exact (down_ok _ _ _ _ _ _ _ _ (at_mode_ok mode) E).
Qed.

Definition some_gestures : list gesture :=
  [Mode SCRN_FOUR; Press 1000 100 200; Drag 1020 110 250 0 0; Release 1040 150 300 0; Animate (fun v => v); Change; DoubleTap 0 0 0 0; Wheel (-1) 10 10 0; Resized 600 1080; Mode 0; Grid (Screen.Select true 5); Grid (Screen.Split 2); Clear].
(** Operations that take nothing for granted of the state. *)
Lemma always_legal atanf acosf fuel l : Forall (fun g => forall m, allowed m g) l -> forall m, legal atanf acosf fuel m l.
Proof. induction 1 as [|g l Hg Hl IH]; intros m; cbn [legal]; [done|]; split; [apply Hg|]; by destruct (perform _ _ _ m g). Qed.
Lemma gestures_ok_witness : exists m, session (fun v => v) (fun v => v) 64 new_pm some_gestures = Done m /\ pm_ok m.
Proof.
  exists (done_or new_pm (session (fun v => v) (fun v => v) 64 new_pm some_gestures)).
  assert (E : session (fun v => v) (fun v => v) 64 new_pm some_gestures = Done (done_or new_pm (session (fun v => v) (fun v => v) 64 new_pm some_gestures))) by (vm_compute; reflexivity).
  assert (L : legal (fun v => v) (fun v => v) 64 new_pm some_gestures)
    by (apply always_legal; repeat constructor; cbn; intros; repeat split; lia).
  split; [exact E|]; exact (gestures_ok (fun v => v) (fun v => v) 64 Screen.start (F32.of_Z 1) (false, 0, 0, 0) (0, 0, -1, 1080, 1920, 0) false some_gestures _ (proj1 Screen.start_ok) L E).
Defined.
Lemma touch_hits_witness : exists k, GetScreenIndex new_pm 100 200 SCRN_FOUR = Done k /\ (k = -1 \/ exists it, znth (layout SCRN_FOUR) k = Some it /\ covers 90 160 100 200 it /\ movable it = true) /\
    forall j it, znth (layout SCRN_FOUR) j = Some it -> movable it = true -> strictly 90 160 100 200 it -> k = j.
Proof. apply (touch_hits new_pm 90 160 100 200 SCRN_FOUR); (reflexivity || lia). Defined.
Lemma update_visits_witness : UpdateFrame (fun v => v) (fun v => v) 64 (at_mode SCRN_FOUR) (flt 1) (flt 2) (flt 3) (flt 4) 0 false false =
  visit (fun v => v) (fun v => v) (at_mode SCRN_FOUR) (List.filter FishEye._showframe (layout (FishEye.mCurrentMode (the_eye (at_mode SCRN_FOUR))))) (flt 1) (flt 2) (flt 3) (flt 4) 0 false false.
Proof. apply (update_visits (fun v => v) (fun v => v) 64 (at_mode SCRN_FOUR)); [apply at_mode_ok|by left|vm_compute; reflexivity]. Defined.
Lemma on_eye_at mode : is_eye (world_of (at_mode mode)) = true -> FishEye.mDualMode (the_eye (at_mode mode)) = 0 -> on_eye (at_mode mode).
Proof. constructor; [apply at_mode_ok|done|done]. Qed.
Lemma on_eye_pressed mode : is_eye (world_of (pressed mode)) = true -> FishEye.mDualMode (the_eye (pressed mode)) = 0 -> on_eye (pressed mode).
Proof. constructor; [apply pressed_ok|done|done]. Qed.
Lemma double_tap_back_witness : exists m1 m2, DoDoubleTap 64 (at_mode SCRN_FOUR) 0 0 2 0 = Done m1 /\ on_eye m1 /\ GetScreenMode m1 = SCRN_HEMISPHERE /\
    (forall ty, 0 <= ty <= 2 -> reads m1 ty false 0 = reads (at_mode SCRN_FOUR) ty false (convertWindowIndex 2)) /\
    DoDoubleTap 64 m1 0 0 2 0 = Done m2 /\ on_eye m2 /\ GetScreenMode m2 = SCRN_FOUR /\
    forall ty t j, 0 <= ty <= 2 -> reads m2 ty t j = reads (at_mode SCRN_FOUR) ty t j.
Proof.
  apply (double_tap_back 64 (at_mode SCRN_FOUR) 0 0 2 0 0 2); [apply on_eye_at; vm_compute; reflexivity|vm_compute; reflexivity|vm_compute; reflexivity].
Defined.
Lemma wheel_range_witness : exists m' s, DoTapOrMouseWheel new_pm 1 10 10 0 = Done m' /\ pm_ok m' /\ get_scale m' true 0 = Done s /\ in_range (flt 1) (flt 8) (x s).
Proof. apply (wheel_range new_pm 1 10 10 0); [apply new_pm_ok|reflexivity|reflexivity|lia]. Defined.
Lemma tilt_stays_limited_witness : exists r, reads (dragged SCRN_HEMISPHERE) 2 false 0 = Done r /\ tilt_limited (limits_of (dragged SCRN_HEMISPHERE)) r.
Proof.
  apply (tilt_stays_limited (fun v => v) (fun v => v) 64 (pressed SCRN_HEMISPHERE) 1020 110 250 0 0);
    [apply on_eye_pressed; vm_compute; reflexivity|vm_compute; reflexivity|reflexivity|vm_compute; discriminate|vm_compute; reflexivity].
Defined.
Lemma slow_release_stays_witness : man (done_or new_pm (DoTapOrMouseUp (dragged SCRN_HEMISPHERE) 1040 115 300 0)) = man (dragged SCRN_HEMISPHERE).
Proof.
  apply (slow_release_stays (dragged SCRN_HEMISPHERE) 1040 115 300 0);
    [|vm_compute; reflexivity|vm_compute; discriminate|vm_compute; reflexivity].
  constructor; [|vm_compute; reflexivity..].
  apply (move_ok (fun v => v) (fun v => v) 64 (pressed SCRN_HEMISPHERE) 1020 110 250 0 0); [apply pressed_ok|vm_compute; reflexivity].
Defined.
Definition changing_pm : pm := done_or new_pm (SwitchMode (at_mode SCRN_HEMISPHERE) SCRN_CYLINDER).
Definition changing_touched : pm := done_or new_pm (DoTapOrMouseDown (fun v => v) (fun v => v) 64 changing_pm 1000 100 200).
Lemma no_inertia_while_changing_witness : man (done_or new_pm (DoTapOrMouseUp changing_touched 1040 115 300 0)) = man changing_touched.
Proof. apply (no_inertia_while_changing changing_touched 1040 115 300 0); [split; vm_compute; reflexivity|vm_compute; reflexivity]. Defined.
Definition released : pm := done_or new_pm (DoTapOrMouseUp (dragged SCRN_FOUR) 1040 150 300 0).
Lemma release_ends_witness : touched released = no_touch (mSpeed (touched released)) /\
  DoTapOrMouseMove (fun v => v) (fun v => v) 64 released 1050 160 310 0 0 = Done released /\ DoTapOrMouseUp released 1060 160 310 0 = Done released.
Proof.
  apply (release_ends (fun v => v) (fun v => v) 64 (dragged SCRN_FOUR) 1040 150 300 0 released 1050 160 310 0 1060); [vm_compute; discriminate|vm_compute; reflexivity].
Defined.
Definition late_pm : pm := done_or new_pm (sample new_pm (2 ^ 31) 5).
Lemma speed_every_event_witness : exists m', sample late_pm (2 ^ 31 + 1) 25 = Done m' /\ mSpeed (touched m') = 20.
Proof.
  apply (speed_every_event late_pm (2 ^ 31 + 1) (2 ^ 31) 25 5); [vm_compute; reflexivity|lia|lia|vm_compute; discriminate|unfold in_i32; lia].
Defined.
Lemma stale_speed_witness : exists m2, sample (done_or new_pm (DoTapOrMouseDown (fun v => v) (fun v => v) 64 (dragged SCRN_FOUR) 5000 900 200)) 5020 905 = Done m2 /\
  mSpeed (touched m2) = 805.
Proof.
  apply (stale_speed (fun v => v) (fun v => v) 64 (dragged SCRN_FOUR) 5000 900 200 5020 905 100 1020); [vm_compute; reflexivity|vm_compute; reflexivity|vm_compute; discriminate|unfold in_i32; lia].
Defined.
End Gestures.
