(* ===== verification/Mesh.v ===== *)
(** The meshes of the screens: ParametricSurface's grid of cells and its GL buffers
    (gles/GLES/ParametricSurface.cpp), the surfaces the classes evaluate on it
    (VertexObject.cpp, sphere.cpp, SphereOne.cpp, OneScreen.cpp, NormalPlay.cpp,
    ImageLoading.cpp, ToursLoading.cpp, GPUMotionDetection.cpp, CircleDetection.cpp)
    and the matrices they are drawn with.  Like GLESMath the definitions are generic in
    the scalar type: the loops are run in binary32, the surfaces are studied over the
    reals. *)
From Stdlib Require Import Rbase Rfunctions R_sqrt Rtrigo1 Rtrigo_calc Ratan Lra SpecFloat.
From S2P Require Import Prelude Float32 GLESMath.
From stdpp Require Import list gmap.
Local Open Scope Z_scope.

Module Mesh.
Import GLESMath.

(** ** Scalars: inverse functions and conversions *)

Class Arc (F : Type) := { fasin : F -> F; fatan : F -> F }.
(** [(float)n], [(int)x] and [x < y]. *)
Class Whole (F : Type) := { fint : Z -> F; ftoi : F -> outcome Z; fltb : F -> F -> bool }.

(** Integers of 24 bits are represented exactly, and so are sums, differences, products
    and exact quotients of them. *)
Class WholeLaws (F : Type) `{Scalar F, Whole F} : Prop := {
  ftoi_int a : Z.abs a < 2 ^ 24 -> ftoi (fint a) = Done a;
  fadd_int a b : Z.abs a < 2 ^ 24 -> Z.abs b < 2 ^ 24 -> Z.abs (a + b) < 2 ^ 24 -> fadd (fint a) (fint b) = fint (a + b);
  fsub_int a b : Z.abs a < 2 ^ 24 -> Z.abs b < 2 ^ 24 -> Z.abs (a - b) < 2 ^ 24 -> fsub (fint a) (fint b) = fint (a - b);
  fmul_int a b : 0 <= a < 2 ^ 24 -> 0 <= b < 2 ^ 24 -> a * b < 2 ^ 24 -> fmul (fint a) (fint b) = fint (a * b);
  fdiv_int q b : 0 <= q < 2 ^ 24 -> 0 < b < 2 ^ 24 -> q * b < 2 ^ 24 -> fdiv (fint (q * b)) (fint b) = fint q;
  fltb_int a b : Z.abs a < 2 ^ 24 -> Z.abs b < 2 ^ 24 -> fltb (fint a) (fint b) = (a <? b)
}.

#[global] Instance F32_Whole : Whole spec_float := {| fint := F32.of_Z; ftoi := F32.to_int; fltb := F32.ltb |}.
#[global] Instance F32_WholeLaws : WholeLaws spec_float.
Proof.
  split; cbn; eauto using F32.to_int_of_Z, F32.add_exact, F32.sub_exact, F32.mul_exact, F32.div_exact, F32.ltb_exact.
Qed.

(** Truncation of a real to an [int]. *)
Definition Rtoi (x : R) : outcome Z :=
  let z := if Rle_dec 0 x then Int_part x else - Int_part (- x) in
  if (- 2 ^ 31 <=? z) && (z <? 2 ^ 31) then Done z else Fault.
#[global] Instance R_Arc : Arc R := {| fasin := asin; fatan := atan |}.
#[global] Instance R_Whole : Whole R := {| fint := IZR; ftoi := Rtoi; fltb x y := if Rlt_dec x y then true else false |}.

Lemma Int_part_IZR z : Int_part (IZR z) = z.
Proof. symmetry; apply Int_part_spec; lra. Qed.
#[global] Instance R_WholeLaws : WholeLaws R.
Proof.
  split; cbn -[IZR Z.pow]; intros; rewrite ?plus_IZR, ?minus_IZR, ?mult_IZR; try done.
  - unfold Rtoi; rewrite <- opp_IZR, !Int_part_IZR, Z.opp_involutive.
    destruct (Rle_dec _ _); by replace (_ && _) with true by lia.
  - field; apply eq_IZR_contrapositive; lia.
  - destruct (Rlt_dec _ _) as [Hl|Hl]; [apply lt_IZR in Hl; lia|].
    destruct (Z.ltb_spec a b) as [Hz|]; [apply IZR_lt in Hz|]; done.
Qed.

(** ** Vector.h *)

Record vec2 (F : Type) := mkVec2 { vx : F; vy : F }.
Arguments mkVec2 {F} _ _.
Arguments vx {F} _.
Arguments vy {F} _.

Section Vectors.
Context {F : Type} `{Scalar F}.
Local Open Scope scalar_scope.
Definition LengthSquared (v : vec2 F) : F := vx v * vx v + vy v * vy v.
Definition Length (v : vec2 F) : F := fsqrt (LengthSquared v).
Definition Normalize (v : vec2 F) : vec2 F := let s := 1 / Length v in mkVec2 (vx v * s) (vy v * s).
Definition times (v : vec2 F) (s : F) : vec2 F := mkVec2 (vx v * s) (vy v * s).
Definition Normalize3 (v : KSVec3 F) : KSVec3 F :=
  let s := 1 / fsqrt (x v * x v + y v * y v + z v * z v) in mkVec (x v * s) (y v * s) (z v * s).
End Vectors.

(** ** The grid (ParametricSurface) *)

Record ParametricInterval (F : Type) := mkInterval { angleSpan : F; StartAngle : vec2 F; EndAngle : vec2 F }.
Arguments mkInterval {F} _ _ _.
Arguments angleSpan {F} _.
Arguments StartAngle {F} _.
Arguments EndAngle {F} _.

(** Floats per vertex and per texture coordinate. *)
Definition GetVertexSize : Z := 3.
Definition GetCoordSize : Z := 2.

Section Grid.
Context {F : Type} `{Scalar F, Whole F}.
Local Open Scope scalar_scope.

Definition GetVertexCount (it : ParametricInterval F) : outcome Z :=
  ftoi (((vx (EndAngle it) - vx (StartAngle it)) / angleSpan it)
        * ((vy (EndAngle it) - vy (StartAngle it)) / angleSpan it) * fint 6).
Definition GetCoordCount (it : ParametricInterval F) : outcome Z :=
  ftoi (((vx (EndAngle it) - vx (StartAngle it)) / angleSpan it)
        * ((vy (EndAngle it) - vy (StartAngle it)) / angleSpan it) * fint 6).

(** [for (int i = start; i < last; i += span)]: the values of [i]. *)
Fixpoint steps (fuel : nat) (i : Z) (last span : F) : outcome (list Z) :=
  if fltb (fint i) last then
    match fuel with
    | O => OutOfFuel
    | S fuel => let* i' := ftoi (fint i + span) in let* l := steps fuel i' last span in Done (i :: l)
    end
  else Done [].

(** The corners [(i, j)] of the cells, in the order of the two loops. *)
Definition cells (fuel : nat) (it : ParametricInterval F) : outcome (list (Z * Z)) :=
  let* j0 := ftoi (vy (StartAngle it)) in
  let* js := steps fuel j0 (vy (EndAngle it)) (angleSpan it) in
  match js with
  | [] => Done []
  | _ =>
      let* i0 := ftoi (vx (StartAngle it)) in
      let* xs := steps fuel i0 (vx (EndAngle it)) (angleSpan it) in
      Done (flat_map (fun j => map (fun i => (i, j)) xs) js)
  end.

(** The six corners of the two triangles of a cell: left or not, down or not. *)
Definition corners : list (bool * bool) :=
  [(false, false); (true, false); (false, true); (false, true); (true, false); (true, true)].
Definition ComputeDomain (x y : F) : vec2 F := mkVec2 x y.
Definition ComputeCoordDomain (x y : F) : vec2 F := mkVec2 x y.
Definition corner (span : F) (i j : Z) (c : bool * bool) : vec2 F :=
  ComputeDomain (if fst c then fint i - span else fint i) (if snd c then fint j - span else fint j).
Definition cell_points (span : F) (c : Z * Z) : list (vec2 F) := map (corner span (fst c) (snd c)) corners.

Section Generate.
Context {A B : Type} (Evaluate : vec2 F -> A) (EvaluateCoord : vec2 F -> B).

Definition GenerateVertices (fuel : nat) (it : ParametricInterval F) : outcome (list A * list B) :=
  let* cs := cells fuel it in
  Done (map Evaluate (flat_map (cell_points (angleSpan it)) cs),
        map EvaluateCoord (flat_map (cell_points (angleSpan it)) cs)).

(** The two arrays of SetupBuffer, allocated by the counts and filled by the loops:
    writing past their end is undefined. *)
Definition filled (fuel : nat) (it : ParametricInterval F) : outcome (list A * list B * Z) :=
  let* vCount := GetVertexCount it in
  let vBufSize := (vCount * GetVertexSize)%Z in
  let* cCount := GetCoordCount it in
  let vCoorBufSize := (cCount * GetCoordSize)%Z in
  let* '(vs, ts) := GenerateVertices fuel it in
  if ((zlen vs * GetVertexSize <=? vBufSize) && (zlen ts * GetCoordSize <=? vCoorBufSize))%Z
  then Done (vs, ts, vCount) else Fault.
End Generate.
End Grid.

(** ** What the grid is *)

(** [m] values from [a] in steps of [s]. *)
Definition progression (a s : Z) (m : nat) : list Z := map (fun k => a + s * Z.of_nat k) (seq 0 m).
(** The interval of [n] by [m] cells of side [s] whose last corners are [(a + s (n-1), b + s (m-1))]. *)
Definition whole_interval {F} `{Whole F} (s a b : Z) (n m : nat) : ParametricInterval F :=
  mkInterval (fint s) (mkVec2 (fint a) (fint b)) (mkVec2 (fint (a + s * Z.of_nat n)) (fint (b + s * Z.of_nat m))).
(** Its corners row by row. *)
Definition grid (s a b : Z) (n m : nat) : list (Z * Z) :=
  flat_map (fun j => map (fun i => (i, j)) (progression a s n)) (progression b s m).
(** Everything below 2 ^ 24, where floats are exact. *)
Definition exact_grid (s a b : Z) (n m : nat) : Prop :=
  0 < s < 2 ^ 24 /\ Z.abs a < 2 ^ 24 /\ Z.abs b < 2 ^ 24 /\
  Z.abs (a + s * Z.of_nat n) < 2 ^ 24 /\ Z.abs (b + s * Z.of_nat m) < 2 ^ 24 /\
  s * Z.of_nat n < 2 ^ 24 /\ s * Z.of_nat m < 2 ^ 24 /\ Z.of_nat n * Z.of_nat m * 6 < 2 ^ 24.

Lemma progression_cons a s m : progression a s (S m) = a :: progression (a + s) s m.
Proof.
  unfold progression; cbn [seq map]; f_equal; [lia|]; rewrite <- seq_shift, map_map; apply map_ext; intros; lia.
Qed.
Lemma progression_length a s m : length (progression a s m) = m.
Proof. unfold progression; by rewrite length_map, length_seq. Qed.
Lemma elem_progression a s m i : i ∈ progression a s m <-> exists k, (k < m)%nat /\ i = a + s * Z.of_nat k.
Proof.
  unfold progression; rewrite list_elem_of_In, in_map_iff; split.
  - intros (k & <- & Hk%in_seq); exists k; split; [lia|done].
  - intros (k & Hk & ->); exists k; split; [done|]; apply in_seq; lia.
Qed.
Lemma flat_map_const {A B} (f : A -> list B) l c : (forall x, length (f x) = c) -> length (flat_map f l) = (c * length l)%nat.
Proof. intros H; induction l as [|x l IH]; cbn [flat_map length]; [lia|]; rewrite length_app, H, IH; lia. Qed.
Lemma grid_length s a b n m : length (grid s a b n m) = (n * m)%nat.
Proof.
  unfold grid; rewrite (flat_map_const _ _ n), progression_length; [done|].
  intros; by rewrite length_map, progression_length.
Qed.
Lemma elem_grid s a b n m i j :
  (i, j) ∈ grid s a b n m <-> i ∈ progression a s n /\ j ∈ progression b s m.
Proof.
  unfold grid; rewrite !list_elem_of_In, in_flat_map; split.
  - intros (j' & Hj & (i' & [= -> ->] & Hi)%in_map_iff); done.
  - intros [Hi Hj]; exists j; split; [done|]; apply in_map_iff; eauto.
Qed.

Section GridLemmas.
Context {F : Type} `{HS : Scalar F, HW : Whole F} `{!WholeLaws F}.

Lemma steps_progression s a n fuel :
  0 < s < 2 ^ 24 -> Z.abs a < 2 ^ 24 -> Z.abs (a + s * Z.of_nat n) < 2 ^ 24 -> (n <= fuel)%nat ->
  steps fuel a (fint (a + s * Z.of_nat n)) (fint s) = Done (progression a s n).
Proof.
  intros Hs; revert a fuel; induction n as [|n IH]; intros a fuel Ha He Hf.
  - destruct fuel; cbn [steps]; rewrite fltb_int by lia; by replace (_ <? _) with false by lia.
  - destruct fuel as [|fuel]; [lia|]; cbn [steps]; rewrite fltb_int by lia.
    replace (_ <? _) with true by lia; rewrite fadd_int, ftoi_int by lia; cbn [obind].
    replace (a + s * Z.of_nat (S n)) with (a + s + s * Z.of_nat n) by lia.
    by rewrite IH, progression_cons by lia.
Qed.

Lemma cells_grid s a b n m fuel : exact_grid s a b n m -> (n <= fuel)%nat -> (m <= fuel)%nat ->
  cells fuel (whole_interval s a b n m) = Done (grid s a b n m).
Proof.
  intros (Hs & Ha & Hb & Hn & Hm & Hsn & Hsm & _) Fn Fm; unfold cells, whole_interval; cbn [StartAngle EndAngle angleSpan vx vy].
  rewrite !ftoi_int by done; cbn [obind].
  destruct m as [|m].
  { rewrite Z.mul_0_r, Z.add_0_r; destruct fuel; cbn [steps]; rewrite fltb_int by lia; by replace (_ <? _) with false by lia. }
  rewrite steps_progression by nia; cbn [obind]; rewrite progression_cons at 1.
  destruct n as [|n].
  { rewrite Z.mul_0_r, Z.add_0_r.
    assert (steps fuel a (fint a) (fint s) = Done []) as ->
      by (destruct fuel; cbn [steps]; rewrite fltb_int by lia; by replace (_ <? _) with false by lia).
    cbn [obind]; reflexivity. }
  by rewrite steps_progression by nia.
Qed.

Lemma count_grid s a b n m : exact_grid s a b n m ->
  GetVertexCount (whole_interval s a b n m) = Done (Z.of_nat n * Z.of_nat m * 6).
Proof.
  intros (Hs & Ha & Hb & Hn & Hm & Hsn & Hsm & Hc); unfold GetVertexCount, whole_interval; cbn [StartAngle EndAngle angleSpan vx vy].
  assert (0 <= s * Z.of_nat n /\ 0 <= s * Z.of_nat m) as [] by nia; rewrite !fsub_int by lia.
  replace (a + s * Z.of_nat n - a) with (Z.of_nat n * s) by lia.
  replace (b + s * Z.of_nat m - b) with (Z.of_nat m * s) by lia.
  rewrite !fdiv_int by nia; rewrite !fmul_int by nia; apply ftoi_int; nia.
Qed.

Lemma cell_points_length (span : F) c : length (cell_points span c) = 6%nat.
Proof. done. Qed.
Lemma filled_grid {A B} (ev : vec2 F -> A) (evc : vec2 F -> B) s a b n m fuel :
  exact_grid s a b n m -> (n <= fuel)%nat -> (m <= fuel)%nat ->
  let points := flat_map (cell_points (fint s)) (grid s a b n m) in
  length points = (6 * (n * m))%nat /\
  filled ev evc fuel (whole_interval s a b n m) = Done (map ev points, map evc points, Z.of_nat n * Z.of_nat m * 6).
Proof.
  intros H Fn Fm points.
  assert (length points = (6 * (n * m))%nat) as L by (unfold points; by rewrite (flat_map_const _ _ 6), grid_length).
  split; [done|]; unfold filled; change (GetCoordCount ?i) with (GetVertexCount i); rewrite count_grid by done; cbn [obind].
  unfold GenerateVertices; rewrite cells_grid by done; cbn [obind whole_interval angleSpan]; fold points.
  unfold zlen, GetVertexSize, GetCoordSize; rewrite !length_map, L.
  by replace (_ && _) with true by lia.
Qed.
End GridLemmas.

(** ** The classes' intervals *)

Section Intervals.
Context {F : Type} `{Scalar F, Whole F}.
Local Open Scope scalar_scope.
Definition interval (span sx sy ex ey : Z) : ParametricInterval F :=
  mkInterval (fint span) (mkVec2 (fint sx) (fint sy)) (mkVec2 (fint ex) (fint ey)).
Definition VertexObject_interval := interval 6 6 186 366 276.
Definition VertexStep : Z := 3.
Definition sphere_interval :=
  interval VertexStep VertexStep (180 + VertexStep) (360 + VertexStep) (270 + VertexStep).
Definition SphereOne_interval := interval 6 6 186 366 276.
Definition SphereStitch_interval := interval 6 6 6 366 186.
Definition NormalPlay_interval := interval 1 1 1 2 2.
Definition ImageLoading_interval := interval 1 1 1 2 2.
Definition ToursLoading_interval := interval 3 3 3 363 30.
Definition GPUMotionDetection_interval := interval 1 1 1 2 2.
Definition CircleDetection_interval := interval 1 1 1 2 2.
(** OneScreen is as wide as its caller asks, between 90 and 360 degrees. *)
Definition OneScreen_width (width : F) : F :=
  let mWidth := width in
  let mWidth := if fltb (fint 360) width then fint 360 else mWidth in
  if fltb width (fint 90) then fint 90 else mWidth.
Definition OneScreen_interval (width : F) : ParametricInterval F :=
  mkInterval (fint 4) (mkVec2 (fint 4) (fint (-8))) (mkVec2 (OneScreen_width width + fint 4) (fint 36)).
End Intervals.

(** ** The surfaces *)

Section Shapes.
Context {F : Type} `{Scalar F, Trig F, Arc F, Whole F}.
Local Open Scope scalar_scope.

(** Degrees to radians, and a decimal constant [n / d]. *)
Definition rad (u : F) : F := u / fint 180 * fpi.
Definition dec (n d : Z) : F := fint n / fint d.

(** The half sphere flattened to a disc: VERTEX_TYPE_EXPAND and VERTEX_TYPE_SPHERE. *)
Definition unrolled (px pz u v : F) : KSVec3 F :=
  let pz := if feqb pz 0 then dec 1 10000000 else pz in
  let rx := fint 2 * fatan (px / pz) / fpi in
  let ry := - fsin (rad u) * fsin (rad (fint 270 - v)) in
  mkVec rx ry (dec 1265 1000).

(** A point of the dome of radius [r]. *)
Definition dome (r u v : F) : KSVec3 F :=
  mkVec (r * fcos (rad u) * fcos (rad v)) (r * fsin (rad u) * fcos (rad v)) (r * fsin (rad v)).

(** The whole interval as a rectangle. *)
Definition unfolded (u v : F) : KSVec3 F :=
  mkVec ((u - fint 180) / fint 360 * fint 2) ((v - fint 225) / fint 90 * fint 2) (dec 1265 1000).

(** The texture coordinate of a dome point: the lens maps the angle from the axis to
    the radius. [powf(2.0, 0.5)] is the square root. *)
Definition lens (p : KSVec3 F) : vec2 F :=
  let npos := Normalize3 p in
  let px := mkVec2 (x npos) (y npos) in
  let sinthita := Length px in
  let px := Normalize px in
  let sinthita := if fleb 1 sinthita then 1 else sinthita in
  let thita := fasin sinthita in
  let py := fint 2 * fsin (thita * dec 1 2) in
  let c := times (times px py) ((1 / fsqrt (fint 2)) * dec 1 2) in
  mkVec2 (vx c + dec 1 2) (1 - (vy c + dec 1 2)).

Definition VertexObject_Evaluate (m_radius : F) (mVertexType : Z) (domain : vec2 F) : KSVec3 F :=
  let u := vx domain in let v := vy domain in
  match mVertexType with
  | 0%Z (* HEMISPHERE *) => dome m_radius u v
  | 1%Z (* PANORAMA *) =>
      mkVec (1 * ((fint 180 - u) / fint 180))
        (if fltb (fint 250) v then (- fint 35 / fint 180) * fint 6 else ((fint 215 - v) / fint 180) * fint 6) 1
  | 2%Z (* CYLINDER *) => mkVec (rad u) v 1
  | 3%Z (* EXPAND *) =>
      unrolled (fint 2 * fcos (rad u) * fcos (rad v)) (fint 2 * fsin (rad (v - fint 180))) u v
  | 4%Z (* NORMAL *) => unfolded u v
  | 5%Z (* SPHERE *) => unrolled (fcos (rad u) * fcos (rad v)) (fsin (rad (v - fint 180))) u v
  | _ => mkVec 0 0 0
  end.
Definition VertexObject_EvaluateCoord (m_radius : F) (mVertexType : Z) (domain : vec2 F) : vec2 F :=
  let u := vx domain in let v := vy domain in
  if (mVertexType =? 4)%Z then mkVec2 (u / fint 360) ((fint 270 - v) / fint 90)
  else lens (dome m_radius u v).

Definition sphere_Evaluate (m_radius : F) (mVertexType : Z) (domain : vec2 F) : KSVec3 F :=
  let u := vx domain in let v := vy domain in
  match mVertexType with
  | 0%Z (* HEMISPHERE *) => dome m_radius u v
  | 1%Z (* PANORAMA *) => unfolded u v
  | 2%Z (* CYLINDER *) => mkVec (rad u) v 1
  | 3%Z (* EXPAND *) => unfolded u v
  | 5%Z (* SPHERE *) => unrolled (fcos (rad u) * fcos (rad v)) (fsin (rad (v - fint 180))) u v
  | _ => mkVec 0 0 0
  end.
Definition sphere_EvaluateCoord (m_radius : F) (mVertexType : Z) (domain : vec2 F) : vec2 F :=
  let u := vx domain in let v := vy domain in
  if ((mVertexType =? 3) || (mVertexType =? 2) || (mVertexType =? 1))%Z
  then mkVec2 (u / fint 360) ((fint 270 - v) / fint 90)
  else lens (dome m_radius u v).

Definition SphereOne_Evaluate (domain : vec2 F) : KSVec3 F :=
  let u := vx domain in let v := vy domain in
  unrolled (fint 2 * fcos (rad u) * fcos (rad v)) (fint 2 * fsin (rad (v - fint 180))) u v.

(** The flat pictures: the unit square around the origin, and the picture upside up. *)
Definition NormalPlay_Evaluate (m_radius m_aspect mLeft mTop : F) (domain : vec2 F) : KSVec3 F :=
  let u := vx domain in let v := vy domain in
  mkVec ((m_radius * u - m_radius / fint 2 + mLeft) * m_aspect) (m_radius * v - m_radius / fint 2 + mTop) 1.
Definition NormalPlay_EvaluateCoord (domain : vec2 F) : vec2 F := mkVec2 (vx domain) (1 - vy domain).
Definition ImageLoading_Evaluate (m_aspect : F) (domain : vec2 F) : KSVec3 F :=
  let u := vx domain in let v := vy domain in
  mkVec ((dec 2 10 * u - dec 1 10) * m_aspect) (dec 2 10 * v - dec 1 10) 1.
Definition ImageLoading_EvaluateCoord (domain : vec2 F) : vec2 F := mkVec2 (vx domain) (1 - vy domain).
Definition GPUMotionDetection_Evaluate (m_radius m_aspect : F) (domain : vec2 F) : KSVec3 F :=
  let u := vx domain in let v := vy domain in
  mkVec ((m_radius * u - m_radius / fint 2) * m_aspect) (m_radius * v - m_radius / fint 2) 1.
Definition GPUMotionDetection_EvaluateCoord (domain : vec2 F) : vec2 F := mkVec2 (vx domain) (1 - vy domain).
Definition CircleDetection_Evaluate (m_radius m_aspect : F) (domain : vec2 F) : KSVec3 F :=
  let u := vx domain in let v := vy domain in
  mkVec ((m_radius * u - m_radius / fint 2) * m_aspect) (m_radius * v - m_radius / fint 2) 1.
Definition CircleDetection_EvaluateCoord (domain : vec2 F) : vec2 F := mkVec2 (vx domain) (1 - vy domain).

Definition ToursLoading_Evaluate (m_majorRadius m_minorRadius : F) (domain : vec2 F) : KSVec3 F :=
  let value := m_majorRadius - m_minorRadius in
  let u := vx domain in let v := vy domain in
  mkVec ((value * (v / fint 30) + m_minorRadius) * fcos (rad u))
        ((value * (v / fint 30) + m_minorRadius) * fsin (rad u)) 1.
Definition ToursLoading_EvaluateCoord (domain : vec2 F) : vec2 F := mkVec2 ((fint 360 - vx domain) / fint 360) 0.

Definition OneScreen_Evaluate (m_radiusW m_radiusH m_aspect mWidth mLeft mTop : F) (domain : vec2 F) : KSVec3 F :=
  let u := vx domain in let v := vy domain in
  mkVec ((m_radiusW * (u / fint 90) / (mWidth / fint 90) + mLeft - m_radiusW / fint 2) * m_aspect)
        (m_radiusH * (ftan (rad (v - fint 12)) * dec 125 100) + mTop) 1.
Definition OneScreen_EvaluateCoord (anglespan : F) (domain : vec2 F) : outcome (vec2 F) :=
  let* W := ftoi (fint 360 / anglespan) in
  let* H := ftoi (fint 60 / anglespan) in
  let* cx := ftoi (vx domain / anglespan + fint (cdiv W 4)) in
  let* cy := ftoi (vy domain / anglespan + fint (cdiv H 2)) in
  let temp := fint 2 * fpi / fint W in
  let theta := fint 2 * fpi - fint cx * temp in
  let r := cy in
  let temp1 := fint r * fcos theta in
  let temp2 := fint r * fsin theta in
  Done (mkVec2 ((temp1 + fint H) / fint (H * 2)) ((fint (H * 2) - (temp2 + fint H)) / fint (H * 2))).
End Shapes.

(** ** The matrices of a draw *)

Section Transforms.
Context {F : Type} `{Scalar F, Trig F, Whole F}.
Local Open Scope scalar_scope.
Definition nonzero (a : F) : bool := negb (feqb a 0).

(** The turns about the three axes, a zero angle left out. *)
Definition turned (r : KSVec3 F) : KSMatrix4 F :=
  let lrotate := ksMatrixLoadIdentity in
  let lrotate := if nonzero (x r) then ksRotate lrotate (x r) 1 0 0 else lrotate in
  let lrotate := if nonzero (y r) then ksRotate lrotate (y r) 0 1 0 else lrotate in
  if nonzero (z r) then ksRotate lrotate (z r) 0 0 1 else lrotate.
Definition moved (zoom : F) (p : KSVec3 F) : KSMatrix4 F :=
  let m := ksTranslate ksMatrixLoadIdentity 0 0 zoom in ksTranslate m (x p) (y p) (z p).
Definition near : F := dec 1 10000.
Definition far : F := fint 1200.
Definition perspective (angle scale m_aspect near : F) : KSMatrix4 F :=
  ksPerspective ksMatrixLoadIdentity (angle / scale) m_aspect near far.
Definition ortho (m_aspect : F) : KSMatrix4 F :=
  ksOrtho ksMatrixLoadIdentity (- m_aspect) m_aspect (- (1)) 1 near far.

(** ParametricSurface: the projection (kept when the mode scales) and the model-view matrix. *)
Definition updateSurfaceTransform (mode : Z) (m_aspect zoom : F) (pos scale rot : KSVec3 F) (proj : KSMatrix4 F)
    : KSMatrix4 F * KSMatrix4 F :=
  let rotation := ksMatrixMultiply ksMatrixLoadIdentity (turned rot) in
  let model := moved zoom pos in
  let '(proj, rotation) :=
    if (negb (mode =? 2) && negb (mode =? 0x102))%Z  (* SCRN_CYLINDER, SCRN_ONENORMAL *)
    then (perspective (fint 60) (x scale) m_aspect near, rotation)
    else (proj, ksScale rotation (x scale) (y scale) (z scale)) in
  (proj, ksMatrixMultiply rotation model).

(** VertexObject and sphere: by the type of the mesh; sphere leaves depth alone in the
    flat modes and assumes 60 degrees without a manager. *)
Definition VertexObject_updateSurfaceTransform (view m_aspect zoom : F) (pos scale rot : KSVec3 F) (atype : Z)
    : KSMatrix4 F * KSMatrix4 F :=
  let rotation := ksMatrixMultiply ksMatrixLoadIdentity (turned rot) in
  let model := moved zoom pos in
  let '(proj, rotation) :=
    if negb (atype =? 2)%Z then
      if ((atype =? 0) || (atype =? 5))%Z then (perspective view (x scale) m_aspect near, rotation)
      else (ortho m_aspect, ksScale rotation (x scale) (y scale) (z scale))
    else (ortho m_aspect, ksScale rotation (x scale) (y scale) (z scale)) in
  (proj, ksMatrixMultiply rotation model).
Definition sphere_updateSurfaceTransform (mgn : option F) (m_aspect zoom : F) (pos scale rot : KSVec3 F) (atype : Z)
    : KSMatrix4 F * KSMatrix4 F :=
  let rotation := ksMatrixMultiply ksMatrixLoadIdentity (turned rot) in
  let model := moved zoom pos in
  let ViewAngle := default (fint 60) mgn in
  let '(proj, rotation) :=
    if negb (atype =? 2)%Z then
      if ((atype =? 0) || (atype =? 5))%Z then (perspective ViewAngle (x scale) m_aspect near, rotation)
      else (ortho m_aspect, ksScale rotation (x scale) (y scale) 1)
    else (ortho m_aspect, ksScale rotation (x scale) (y scale) (z scale)) in
  (proj, ksMatrixMultiply rotation model).

(** The versions without arguments: the surface's own state. *)
Definition VertexObject_own_transform (view m_aspect zoom : F) (pos scale rot : KSVec3 F) (mVertexType : Z)
    : KSMatrix4 F * KSMatrix4 F :=
  let rotation := ksMatrixMultiply ksMatrixLoadIdentity (turned rot) in
  let model := moved zoom pos in
  let '(proj, rotation) :=
    if negb (mVertexType =? 2)%Z then (perspective view (x scale) m_aspect near, rotation)
    else (ortho m_aspect, ksScale rotation (x scale) (y scale) (z scale)) in
  (proj, ksMatrixMultiply rotation model).

Definition sphere_own_transform (mgn : option F) (m_aspect zoom : F) (pos scale rot : KSVec3 F) (mVertexType : Z)
    : KSMatrix4 F * KSMatrix4 F :=
  let rotation := ksMatrixMultiply ksMatrixLoadIdentity (turned rot) in
  let model := moved zoom pos in
  let ViewAngle := default (fint 60) mgn in
  let '(proj, rotation) :=
    if negb (mVertexType =? 2)%Z then (perspective ViewAngle (x scale) m_aspect near, rotation)
    else (ortho m_aspect, ksScale rotation (x scale) (y scale) (z scale)) in
  (proj, ksMatrixMultiply rotation model).

(** setupProjection: the distance of the camera and the projection of a type. *)
Definition VertexObject_setupProjection (view m_aspect : F) (mVertexType : Z) : F * KSMatrix4 F :=
  if negb (mVertexType =? 2)%Z
  then (- fint 3, ksPerspective ksMatrixLoadIdentity view m_aspect near far)
  else (1, ortho m_aspect).
Definition sphere_setupProjection (mgn : option F) (m_aspect : F) (mVertexType : Z) : F * KSMatrix4 F :=
  let ViewAngle := default (fint 60) mgn in
  if negb (mVertexType =? 2)%Z
  then (- fint 3, ksPerspective ksMatrixLoadIdentity ViewAngle m_aspect near far)
  else (1, ortho m_aspect).
Definition setupProjection (m_aspect : F) : F * KSMatrix4 F :=
  (- fint 3, ksPerspective ksMatrixLoadIdentity (fint 60) m_aspect near far).

(** VertexObject::DrawSelf: the circle assumed when none was set, by the height of the
    picture, and the distance at a view angle (that of 60 degrees kept in size). *)
Definition default_circle (th mCenterX mCenterY mRadius : F) : F * F * F :=
  if fleb mRadius 0 then
    (0, 0, if feqb th (fint 720) then dec 9 10
           else if feqb th (fint 1088) || feqb th (fint 1080) then dec 85 100 else dec 95 100)
  else (mCenterX, mCenterY, mRadius).
Definition same_size (viewangle a : F) : F :=
  a * ftan (fint 30 / fint 180 * fpi) / ftan (viewangle / fint 2 / fint 180 * fpi).
Definition VertexObject_matrices (view m_aspect zoom : F) (pos scale rot : KSVec3 F) (mVertexType : Z)
    : KSMatrix4 F * KSMatrix4 F :=
  if ((mVertexType =? 0) || (mVertexType =? 5))%Z then
    VertexObject_updateSurfaceTransform view m_aspect (same_size view zoom)
      (mkVec (x pos) (y pos) (same_size view (z pos))) scale rot mVertexType
  else VertexObject_updateSurfaceTransform view m_aspect zoom pos scale rot mVertexType.
(** The matrices of the mesh a change of mode moves to. *)
Definition change_matrices (view m_aspect : F) (pos scale rot : KSVec3 F) (mChangeType : Z) : KSMatrix4 F * KSMatrix4 F :=
  let lzoom := if negb (mChangeType =? 2)%Z then - fint 3 else 1 in
  VertexObject_updateSurfaceTransform view m_aspect lzoom pos scale rot mChangeType.
End Transforms.

(** ** Buffers of GL *)

(** What a buffer holds: vertices or texture coordinates, with the size asked for. *)
Inductive data (F : Type) :=
| Vertices (l : list (KSVec3 F)) (size : Z)
| Coords (l : list (vec2 F)) (size : Z).
Arguments Vertices {F} _ _.
Arguments Coords {F} _ _.

(** The buffer names in use; [None] for one that has no data yet. *)
Abbreviation gl F := (gmap Z (option (data F))).

(** The buffers of a ParametricSurface, and those of the classes with a mesh per type. *)
Record buffers := mkBuffers {
  vertexBuffer : Z; TextureCoordBuffer : Z; lvb : Z;
  vertexSize : Z; triangleIndexCount : Z; TextureCoordSize : Z
}.
Record arrays := mkArrays {
  mVertexVBOBuffer : list Z; mVertexSize : list Z; mTriangleIndexCount : list Z;
  mTextureCoordSize : list Z; mTextureCoordBuffer : list Z; mVertexType : Z
}.
Definition VERTEX_TYPE_COUNT : nat := 7.
Definition VERTEX_TYPE_PANORAMA : Z := 1.
Definition VERTEX_TYPE_CYLINDER : Z := 2.

(** The constructors. *)
Definition no_buffers : buffers := mkBuffers 0 0 0 0 0 0.
Definition no_arrays : arrays :=
  let z := replicate VERTEX_TYPE_COUNT 0 in mkArrays z z z z z 0.

Section Buffers.
Context {F : Type} `{Scalar F, Whole F}.
(** The name glGenBuffers gives next. *)
Variable alloc : gl F -> Z.
Variable fuel : nat.

Definition glGenBuffers (g : gl F) : Z * gl F := (alloc g, <[alloc g := None]> g).
(** Zero and names that are not in use are ignored. *)
Definition glDeleteBuffers (g : gl F) (n : Z) : gl F := delete n g.
Definition glBufferData (g : gl F) (n : Z) (d : data F) : gl F := <[n := Some d]> g.
(** A buffer made and filled. *)
Definition uploaded (g : gl F) (d : data F) : Z * gl F :=
  let '(n, g) := glGenBuffers g in (n, glBufferData g n d).

Section One.
Context (it : ParametricInterval F) (Evaluate : vec2 F -> KSVec3 F) (EvaluateCoord : vec2 F -> vec2 F).

(** ParametricSurface::SetupBuffer.  The test [if(lvb!=0);] guards nothing. *)
Definition SetupBuffer (g : gl F) (b : buffers) : outcome (gl F * buffers) :=
  let* '(vbuf, vcoordbuf, vCount) := filled Evaluate EvaluateCoord fuel it in
  let lvb := vertexBuffer b in
  let g := glDeleteBuffers g lvb in
  let '(lvb, g) := uploaded g (Vertices vbuf (vCount * GetVertexSize)) in
  let CoordBuffer := TextureCoordBuffer b in
  let g := if negb (CoordBuffer =? 0) then glDeleteBuffers g CoordBuffer else g in
  let '(CoordBuffer, g) := uploaded g (Coords vcoordbuf (vCount * GetCoordSize)) in
  Done (g, mkBuffers lvb CoordBuffer lvb GetVertexSize vCount GetCoordSize).

(** Cleanup, the buffers of it. *)
Definition Cleanup (g : gl F) (b : buffers) : gl F * buffers :=
  let '(g, v) := if negb (vertexBuffer b =? 0) then (glDeleteBuffers g (vertexBuffer b), 0) else (g, vertexBuffer b) in
  let '(g, t) :=
    if negb (TextureCoordBuffer b =? 0) then (glDeleteBuffers g (TextureCoordBuffer b), 0) else (g, TextureCoordBuffer b) in
  let g := glDeleteBuffers g (lvb b) in
  (g, mkBuffers v t (lvb b) (vertexSize b) (triangleIndexCount b) (TextureCoordSize b)).

(** glDrawArrays on the two bound buffers: the vertices drawn; beyond the data of a
    buffer, or on a name that is not in use, undefined. *)
Definition glDrawArrays (g : gl F) (v t count : Z) : outcome (list (KSVec3 F * vec2 F)) :=
  match g !! v, g !! t with
  | Some (Some (Vertices vs n)), Some (Some (Coords ts m)) =>
      if (count * GetVertexSize <=? n) && (count * GetCoordSize <=? m)
      then Done (take (Z.to_nat count) (zip vs ts)) else Fault
  | _, _ => Fault
  end.
Definition DrawSelf (g : gl F) (b : buffers) (Visible : bool) : outcome (list (KSVec3 F * vec2 F)) :=
  if negb Visible then Done []
  else glDrawArrays g (vertexBuffer b) (TextureCoordBuffer b) (triangleIndexCount b).
End One.

Section Typed.
Context (it : ParametricInterval F) (Evaluate : Z -> vec2 F -> KSVec3 F) (EvaluateCoord : Z -> vec2 F -> vec2 F).

(** One turn of the loop over the types. *)
Definition type_buffer (i : nat) (g : gl F) (a : arrays) : outcome (gl F * arrays) :=
  let mVertexType := Z.of_nat i in
  let* '(vbuf, vcoordbuf, vCount) := filled (Evaluate mVertexType) (EvaluateCoord mVertexType) fuel it in
  let '(lvb, g) := uploaded g (Vertices vbuf (vCount * GetVertexSize)) in
  let '(CoordBuffer, g) := uploaded g (Coords vcoordbuf (vCount * GetCoordSize)) in
  let old := nth i (mVertexVBOBuffer a) 0 in
  let g := if negb (old =? 0) then glDeleteBuffers g old else g in
  let oldc := nth i (mTextureCoordBuffer a) 0 in
  let g := if negb (oldc =? 0) then glDeleteBuffers g oldc else g in
  Done (g, mkArrays (<[i := lvb]> (mVertexVBOBuffer a)) (<[i := GetVertexSize]> (mVertexSize a))
             (<[i := vCount]> (mTriangleIndexCount a)) (<[i := GetCoordSize]> (mTextureCoordSize a))
             (<[i := CoordBuffer]> (mTextureCoordBuffer a)) mVertexType).
Fixpoint type_buffers (l : list nat) (g : gl F) (a : arrays) : outcome (gl F * arrays) :=
  match l with
  | [] => Done (g, a)
  | i :: l => let* '(g, a) := type_buffer i g a in type_buffers l g a
  end.
Definition set_type (a : arrays) (t : Z) : arrays :=
  mkArrays (mVertexVBOBuffer a) (mVertexSize a) (mTriangleIndexCount a) (mTextureCoordSize a) (mTextureCoordBuffer a) t.
Definition VertexObject_SetupBuffer (g : gl F) (a : arrays) : outcome (gl F * arrays) :=
  let* '(g, a) := type_buffers (seq 0 VERTEX_TYPE_COUNT) g a in Done (g, set_type a VERTEX_TYPE_PANORAMA).
Definition sphere_SetupBuffer (g : gl F) (a : arrays) : outcome (gl F * arrays) :=
  let* '(g, a) := type_buffers (seq 0 VERTEX_TYPE_COUNT) g a in Done (g, set_type a VERTEX_TYPE_CYLINDER).

(** The destructors. *)
Definition destroy_type (i : nat) (g : gl F) (a : arrays) : gl F * arrays :=
  let old := nth i (mVertexVBOBuffer a) 0 in
  let '(g, vs) := if negb (old =? 0) then (glDeleteBuffers g old, <[i := 0]> (mVertexVBOBuffer a)) else (g, mVertexVBOBuffer a) in
  let oldc := nth i (mTextureCoordBuffer a) 0 in
  let '(g, ts) := if negb (oldc =? 0) then (glDeleteBuffers g oldc, <[i := 0]> (mTextureCoordBuffer a)) else (g, mTextureCoordBuffer a) in
  (g, mkArrays vs (mVertexSize a) (mTriangleIndexCount a) (mTextureCoordSize a) ts (mVertexType a)).
Fixpoint destroy_list (l : list nat) (g : gl F) (a : arrays) : gl F * arrays :=
  match l with [] => (g, a) | i :: l => let '(g, a) := destroy_type i g a in destroy_list l g a end.
Definition destroy_types (g : gl F) (a : arrays) : gl F * arrays := destroy_list (seq 0 VERTEX_TYPE_COUNT) g a.

Definition SwitchMode (a : arrays) (mode : Z) : arrays := if negb (mVertexType a =? mode) then set_type a mode else a.
Definition draw_type (g : gl F) (a : arrays) : outcome (list (KSVec3 F * vec2 F)) :=
  let i := Z.to_nat (mVertexType a) in
  glDrawArrays g (nth i (mVertexVBOBuffer a) 0) (nth i (mTextureCoordBuffer a) 0) (nth i (mTriangleIndexCount a) 0).
(** The frame of a screen, and the box around a selected one, are lines in a buffer each;
    the box is [size] = 1, the frame one half. *)
Definition line_points (size m_aspect : F) : list (KSVec3 F) :=
  let p sx sy := mkVec (sx * m_aspect)%sc sy fone in let m := fopp size in
  [p m m; p size m; p size m; p size size; p m size; p size size; p m size; p m m].
Definition mLinebufferSize : Z := 24.
Definition setupLineBuffer (g : gl F) (mLineBuffer : Z) (m_aspect : F) : Z * gl F :=
  let '(g, mLineBuffer) := if negb (mLineBuffer =? 0) then (glDeleteBuffers g mLineBuffer, 0) else (g, mLineBuffer) in
  let g := if negb (mLineBuffer =? 0) then glDeleteBuffers g mLineBuffer else g in
  uploaded g (Vertices (line_points (dec 1 2) m_aspect) mLinebufferSize).
Definition box_SetupBuffer (g : gl F) (mLineBuffer : Z) (m_aspect : F) : Z * gl F :=
  let g := if negb (mLineBuffer =? 0) then glDeleteBuffers g mLineBuffer else g in
  uploaded g (Vertices (line_points fone m_aspect) mLinebufferSize).

(** The buffers in the constructor of VertexObject and of sphere: those of the types, the
    frame's and the box's.  The constructor of SelectedBox does not set mLineBuffer: [junk]
    is what its memory holds. *)
Definition construct (setup : gl F -> arrays -> outcome (gl F * arrays)) (g : gl F) (junk : Z) (aspect : F)
    : outcome (gl F * (arrays * Z * Z)) :=
  let* '(g, a) := setup g no_arrays in
  let '(line, g) := setupLineBuffer g 0 aspect in
  let '(box, g) := box_SetupBuffer g junk aspect in
  Done (g, (a, line, box)).
(** The destructors: the types', the box's and then BaseScreen's. *)
Definition destroy (g : gl F) (o : arrays * Z * Z) : gl F :=
  let '(a, line, box) := o in
  let g := fst (destroy_types g a) in
  let g := glDeleteBuffers g box in
  if negb (line =? 0) then glDeleteBuffers g line else g.
End Typed.
End Buffers.

(** ** Real angles *)

Section Angles.
Local Open Scope R_scope.

Lemma rad_180 : @rad R _ _ _ 180 = PI.
Proof. unfold rad; cbn; field. Qed.
Lemma rad_le u v : u <= v -> @rad R _ _ _ u <= @rad R _ _ _ v.
Proof. unfold rad; cbn; intros H; pose proof PI_RGT_0; apply Rmult_le_compat_r; lra. Qed.
Lemma rad_lt u v : u < v -> @rad R _ _ _ u < @rad R _ _ _ v.
Proof. unfold rad; cbn; intros H; pose proof PI_RGT_0; apply Rmult_lt_compat_r; lra. Qed.
Lemma rad_360 : @rad R _ _ _ 360 = 2 * PI.
Proof. unfold rad; cbn; field. Qed.
Lemma rad_270 : @rad R _ _ _ 270 = 3 * (PI / 2).
Proof. unfold rad; cbn; field. Qed.

(** The lower half sphere. *)
Lemma sin_dome v : 180 <= v <= 360 -> sin (@rad R _ _ _ v) <= 0.
Proof.
  intros [H1 H2]; apply rad_le in H1, H2; rewrite rad_180 in H1; rewrite rad_360 in H2.
  pose proof PI_RGT_0; apply sin_le_0; lra.
Qed.
Lemma cos_dome v : 180 <= v < 270 -> cos (@rad R _ _ _ v) < 0.
Proof.
  intros [H1 H2]; apply rad_le in H1; apply rad_lt in H2; rewrite rad_180 in H1; rewrite rad_270 in H2.
  pose proof PI_RGT_0; apply cos_lt_0; lra.
Qed.
Lemma sin2_cos2' t : sin t * sin t + cos t * cos t = 1.
Proof. pose proof (sin2_cos2 t) as E; unfold Rsqr in E; lra. Qed.

(** Twice the sine of half an angle whose sine is [s]. *)
Lemma half_angle s : 0 <= s <= 1 ->
  0 <= sin (asin s * (1 / 2)) /\ 2 * sin (asin s * (1 / 2)) * (2 * sin (asin s * (1 / 2))) = 2 * (1 - sqrt (1 - s * s)).
Proof.
  intros Hs; set (t := asin s * (1 / 2)).
  pose proof (asin_bound s) as [A B]; pose proof PI_RGT_0; pose proof (sin_asin s ltac:(lra)) as E.
  assert (0 <= asin s) by (destruct (Rle_dec 0 (asin s)); [done|]; pose proof (sin_lt_0_var (asin s)); lra).
  split.
  { apply sin_ge_0; unfold t; lra. }
  assert (cos (asin s) = sqrt (1 - s * s)) as C by (rewrite cos_asin by lra; unfold Rsqr; done).
  replace (asin s) with (2 * t) in C by (unfold t; lra).
  rewrite cos_2a_sin in C; rewrite <- C; ring.
Qed.

(** The lens projection: towards the point's azimuth, at half the root of the height
    above the pole. *)
Lemma lens_point r c s C S : 0 < r -> C < 0 -> S <= 0 -> S * S + C * C = 1 -> s * s + c * c = 1 ->
  let rho := sqrt (1 + S) / 2 in
  lens (mkVec (r * c * C) (r * s * C) (r * S)) = mkVec2 (1 / 2 - rho * c) (1 / 2 + rho * s).
Proof.
  intros Hr HC HS V U rho; unfold lens, Normalize3, Normalize, times, Length, LengthSquared, dec; cbn -[IZR Rdiv].
  replace (r * c * C * (r * c * C) + r * s * C * (r * s * C) + r * S * (r * S)) with (r * r).
  2:{ transitivity (r * r * ((s * s + c * c) * (C * C) + S * S)); [rewrite U, Rmult_1_l, (Rplus_comm (C * C)), V|]; ring. }
  rewrite sqrt_square by lra.
  replace (r * c * C * (1 / r)) with (c * C) by (field; lra); replace (r * s * C * (1 / r)) with (s * C) by (field; lra).
  replace (sqrt (c * C * (c * C) + s * C * (s * C))) with (- C).
  2:{ rewrite <- (sqrt_square (- C)) by lra; f_equal.
      transitivity ((s * s + c * c) * (C * C)); [rewrite U; ring|ring]. }
  assert (- C <= 1) as HC1 by nra.
  replace (if (if Rle_dec 1 (- C) then true else false) then 1 else - C) with (- C) by (destruct (Rle_dec 1 (- C)); lra).
  destruct (half_angle (- C) ltac:(lra)) as [H0 H].
  replace (sqrt (1 - - C * - C)) with (- S) in H
    by (rewrite <- (sqrt_square (- S)) by lra; f_equal; lra).
  assert (0 < sqrt 2) as H2 by (apply sqrt_lt_R0; lra).
  assert (2 * sin (asin (- C) * (1 / 2)) = sqrt 2 * sqrt (1 + S)) as ->.
  { rewrite <- sqrt_mult by nra; rewrite <- (sqrt_square (2 * sin _)) by lra; f_equal; lra. }
  unfold rho; f_equal; field; lra.
Qed.
End Angles.

(** ** Properties of the grid *)

Section GridTheorems.
Context {F : Type} `{HS : Scalar F, HW : Whole F} `{!WholeLaws F}.

(** C32: on an interval of [n] by [m] whole cells the loops of GenerateVertices end within
    [n] and [m] turns, and fill the arrays allocated by GetVertexCount and GetCoordCount
    to the last float, whatever the class evaluates. *)
Theorem grid_fills {A B} (ev : vec2 F -> A) (evc : vec2 F -> B) s a b n m fuel :
  exact_grid s a b n m -> (n <= fuel)%nat -> (m <= fuel)%nat ->
  exists vs ts count, filled ev evc fuel (whole_interval s a b n m) = Done (vs, ts, count) /\
    count = Z.of_nat n * Z.of_nat m * 6 /\
    zlen vs * GetVertexSize = count * GetVertexSize /\ zlen ts * GetCoordSize = count * GetCoordSize.
Proof.
  intros H Fn Fm; destruct (filled_grid ev evc s a b n m fuel H Fn Fm) as [L E]; do 3 eexists; split; [exact E|].
  unfold zlen; rewrite !length_map, L; lia.
Qed.
End GridTheorems.

Lemma grid_fills_witness :
  exists vs ts count, filled (fun d : vec2 spec_float => d) (fun d => d) 60 (whole_interval 6 6 186 60 15) = Done (vs, ts, count) /\
    count = 60 * 15 * 6 /\ zlen vs * 3 = count * 3 /\ zlen ts * 2 = count * 2.
Proof. apply (grid_fills (F := spec_float) (fun d => d) (fun d => d) 6 6 186 60 15 60); unfold exact_grid; lia. Defined.

(** The cells tile the domain: every point left of the last corners lies in exactly
    one cell, the half-open square below and left of its corner. *)
Theorem cells_tile s a b n m p q :
  0 < s -> a - s <= p < a + s * (Z.of_nat n - 1) -> b - s <= q < b + s * (Z.of_nat m - 1) ->
  exists! c, c ∈ grid s a b n m /\ fst c - s <= p < fst c /\ snd c - s <= q < snd c.
Proof.
  intros Hs Hp Hq.
  assert (forall a p n, a - s <= p < a + s * (Z.of_nat n - 1) ->
    exists i, i ∈ progression a s n /\ i - s <= p < i) as find.
  { clear - Hs; intros a p n Hp; exists (a + s * ((p - a) / s + 1)); rewrite elem_progression.
    pose proof (Z.mul_div_le (p - a) s Hs); pose proof (Z.mul_succ_div_gt (p - a) s Hs); split; [|lia].
    assert (-1 <= (p - a) / s) by (apply Z.div_le_lower_bound; lia).
    assert ((p - a) / s < Z.of_nat n - 1) by (apply Z.div_lt_upper_bound; lia).
    exists (Z.to_nat ((p - a) / s + 1)); rewrite Z2Nat.id by lia; split; [lia|done]. }
  destruct (find a p n Hp) as (i & Hi & Pi), (find b q m Hq) as (j & Hj & Qj).
  exists (i, j); split; [by rewrite elem_grid|].
  intros [i' j'] ([(k & _ & ->)%elem_progression (l & _ & ->)%elem_progression]%elem_grid & Pi' & Qj'); cbn [fst snd] in *.
  apply elem_progression in Hi as (k' & _ & ->), Hj as (l' & _ & ->).
  assert (forall d x y, s * x - s <= d < s * x -> s * y - s <= d < s * y -> x = y) as same.
  { clear - Hs; intros d x y Hx Hy; destruct (Z.lt_trichotomy x y) as [|[|]]; [nia|done|nia]. }
  rewrite (same (p - a) (Z.of_nat k) (Z.of_nat k')), (same (q - b) (Z.of_nat l) (Z.of_nat l')) by lia; done.
Qed.
Lemma cells_tile_witness :
  exists! c, c ∈ grid 6 6 186 60 15 /\ fst c - 6 <= 100 < fst c /\ snd c - 6 <= 269 < snd c.
Proof. apply (cells_tile 6 6 186 60 15 100 269); lia. Defined.

(** The intervals of the classes are such grids. *)
Lemma class_grids {F} `{Scalar F, Whole F} :
  VertexObject_interval = whole_interval 6 6 186 60 15 /\ sphere_interval = whole_interval 3 3 183 120 30 /\
  SphereOne_interval = whole_interval 6 6 186 60 15 /\ SphereStitch_interval = whole_interval 6 6 6 60 30 /\
  NormalPlay_interval = whole_interval 1 1 1 1 1 /\ ImageLoading_interval = whole_interval 1 1 1 1 1 /\
  ToursLoading_interval = whole_interval 3 3 3 120 9 /\ GPUMotionDetection_interval = whole_interval 1 1 1 1 1 /\
  CircleDetection_interval = whole_interval 1 1 1 1 1.
Proof. split_and!; reflexivity. Qed.

(** OneScreen: the width UpDownScreen asks for fills its arrays; the narrowest width the
    constructor allows makes it write past them, since 90 degrees are 22.5 cells. *)
Theorem onescreen_overflow {A B} (ev : vec2 spec_float -> A) (evc : vec2 spec_float -> B) :
  (exists vs ts, filled ev evc 60 (OneScreen_interval (F32.of_Z 180)) = Done (vs, ts, 2970) /\ zlen vs = 2970) /\
  (exists vs ts, GenerateVertices ev evc 60 (OneScreen_interval (F32.of_Z 90)) = Done (vs, ts) /\ zlen vs = 1518 /\
     GetVertexCount (OneScreen_interval (F32.of_Z 90)) = Done 1485) /\
  filled ev evc 60 (OneScreen_interval (F32.of_Z 0)) = Fault.
Proof.
  split_and!.
  - replace (OneScreen_interval (F32.of_Z 180)) with (whole_interval (F := spec_float) 4 4 (-8) 45 11) by reflexivity.
    destruct (filled_grid ev evc 4 4 (-8) 45 11 60) as [L E]; [unfold exact_grid; lia|lia..|].
    do 2 eexists; split; [exact E|]; unfold zlen; rewrite length_map, L; lia.
  - do 2 eexists; split_and!; [vm_compute; reflexivity|by vm_compute..].
  - unfold filled.
    assert (GetVertexCount (OneScreen_interval (F32.of_Z 0)) = Done 1485) as -> by (vm_compute; reflexivity); cbn [obind].
    assert (GetCoordCount (OneScreen_interval (F32.of_Z 0)) = Done 1485) as -> by (vm_compute; reflexivity); cbn [obind].
    unfold GenerateVertices.
    assert (exists cs, cells 60 (OneScreen_interval (F32.of_Z 0)) = Done cs /\ length cs = 253%nat) as (cs & -> & L)
      by (eexists; split; vm_compute; reflexivity).
    cbn [obind]; unfold zlen; rewrite !length_map, (flat_map_const _ _ 6), L by done; done.
Qed.

(** ** Properties of the surfaces *)

Section Surfaces.
Local Open Scope R_scope.

Lemma fst_dome r u v : @dome R _ _ _ r u v =
  mkVec (r * cos (@rad R _ _ _ u) * cos (@rad R _ _ _ v)) (r * sin (@rad R _ _ _ u) * cos (@rad R _ _ _ v)) (r * sin (@rad R _ _ _ v)).
Proof. done. Qed.

(** On the lower half of the sphere of radius [r]. *)
Definition on_dome (r : R) (p : KSVec3 R) : Prop :=
  x p * x p + y p * y p + z p * z p = r * r /\ - r <= z p <= 0.
(** The texture coordinate of an equal-area lens: the disc around the centre of the
    picture through it has a fixed share (1 / 8 r^2) of the area of the cap of the
    sphere below the point, it lies in the direction of the point (the picture's y axis
    points down), and inside the picture. *)
Definition equal_area (r : R) (p : KSVec3 R) (t : vec2 R) : Prop :=
  let dx := vx t - 1 / 2 in let dy := vy t - 1 / 2 in
  8 * (r * r) * (PI * (dx * dx + dy * dy)) = 2 * PI * r * (r + z p) /\
  (exists k, 0 <= k /\ dx = k * x p /\ dy = - (k * y p)) /\
  0 <= vx t <= 1 /\ 0 <= vy t <= 1.

Lemma on_dome_dome r u v : 0 < r -> 180 <= v <= 360 -> on_dome r (@dome R _ _ _ r u v).
Proof.
  intros Hr Hv; rewrite fst_dome; pose proof (sin_dome v Hv); pose proof (SIN_bound (@rad R _ _ _ v)) as [B _].
  pose proof (sin2_cos2' (@rad R _ _ _ v)) as V; pose proof (sin2_cos2' (@rad R _ _ _ u)) as U.
  split; cbn [x y z]; [|nra]; set (c := cos (rad u)) in *; set (s := sin (rad u)) in *.
  set (C := cos (rad v)) in *; set (S := sin (rad v)) in *.
  transitivity (r * r * ((s * s + c * c) * (C * C) + S * S)); [ring|rewrite U; nra].
Qed.

Lemma equal_area_point r c s C S : 0 < r -> C < 0 -> -1 <= S <= 0 -> S * S + C * C = 1 -> s * s + c * c = 1 ->
  let p := mkVec (r * c * C) (r * s * C) (r * S) in equal_area r p (lens p).
Proof.
  intros Hr HC HS V U p; unfold p; rewrite lens_point by lra; unfold equal_area; cbn [vx vy x y z].
  set (q := sqrt (1 + S)).
  assert (0 <= q /\ q * q = 1 + S) as [Q0 Q] by (unfold q; split; [apply sqrt_pos|apply sqrt_sqrt; lra]).
  assert (q <= 1) as Q1 by nra.
  assert (-1 <= c <= 1 /\ -1 <= s <= 1) as [Hc Hs] by nra.
  split_and!.
  - transitivity (2 * PI * (r * r) * (q * q * (s * s + c * c))); [field|rewrite U, Q; ring].
  - exists (q / 2 / (r * - C)); split_and!; [|field; nra..].
    apply Rmult_le_pos; [lra|left; apply Rinv_0_lt_compat; nra].
  - nra.
  - nra.
  - nra.
  - nra.
Qed.

(** The points of a grid of the dome. *)
Lemma dome_points s n m d : (0 < s)%Z ->
  d ∈ flat_map (cell_points (IZR s)) (grid s s (180 + s) n m) ->
  exists i j : Z, d = mkVec2 (IZR i) (IZR j) /\ (180 <= j <= 180 + s * Z.of_nat m)%Z.
Proof.
  intros Hs; rewrite list_elem_of_In, in_flat_map; intros ([i j] & Hc & Hd); rewrite <- list_elem_of_In, elem_grid in Hc.
  destruct Hc as [(k & Hk & ->)%elem_progression (l & Hl & ->)%elem_progression].
  unfold cell_points, corner, ComputeDomain in Hd; cbn [fst snd fint R_Whole fsub R_Scalar] in Hd.
  apply in_map_iff in Hd as ([a b] & <- & _).
  eexists (if a then _ else _), (if b then _ else _); split; [destruct a, b; cbn -[IZR]; rewrite <- ?minus_IZR; reflexivity|].
  destruct b; nia.
Qed.

(** C25: the mesh of the fish-eye dome (VertexObject and sphere, HEMISPHERE): GenerateVertices
    ends and fills its arrays, every vertex lies on the lower half of the sphere, and the
    texture coordinate beside it, the pole apart (zero divided by zero in exact arithmetic),
    is that of the equal-area lens. *)
Theorem dome_mesh r s n m fuel : 0 < r -> (0 < s)%Z -> (s * Z.of_nat m <= 90)%Z ->
  exact_grid s s (180 + s) n m -> (n <= fuel)%nat -> (m <= fuel)%nat ->
  exists vs ts, 
    filled (VertexObject_Evaluate r 0) (VertexObject_EvaluateCoord r 0) fuel (whole_interval s s (180 + s) n m)
      = Done (vs, ts, (Z.of_nat n * Z.of_nat m * 6)%Z) /\
    filled (sphere_Evaluate r 0) (sphere_EvaluateCoord r 0) fuel (whole_interval s s (180 + s) n m)
      = Done (vs, ts, (Z.of_nat n * Z.of_nat m * 6)%Z) /\
    zlen vs = (Z.of_nat n * Z.of_nat m * 6)%Z /\
    forall p t, (p, t) ∈ zip vs ts -> on_dome r p /\ (z p <> - r -> equal_area r p t).
Proof.
  intros Hr Hs Hm He Fn Fm.
  destruct (filled_grid (F := R) (VertexObject_Evaluate r 0) (VertexObject_EvaluateCoord r 0) s s (180 + s) n m fuel He Fn Fm) as [L E].
  do 2 eexists; split; [exact E|]; split; [exact (proj2 (filled_grid _ _ s s (180 + s) n m fuel He Fn Fm))|].
  split; [unfold zlen; rewrite length_map, L; lia|]; intros p t.
  rewrite list_elem_of_In; intros Hin.
  assert (exists d, d ∈ flat_map (cell_points (IZR s)) (grid s s (180 + s) n m) /\
            p = VertexObject_Evaluate r 0 d /\ t = VertexObject_EvaluateCoord r 0 d) as (d & Hd & -> & ->).
  { clear E L; change (fint s) with (IZR s) in Hin; induction (flat_map _ _) as [|d l IH]; [done|].
    destruct Hin as [[= <- <-]|Hin]; [exists d; split; [left|done]|].
    destruct (IH Hin) as (d' & H1 & H2); exists d'; split; [by right|done]. }
  apply dome_points in Hd as (i & j & -> & Hj); [|done].
  unfold VertexObject_Evaluate, VertexObject_EvaluateCoord; cbn [vx vy Z.eqb].
  assert (180 <= IZR j <= 270) as Hv by (split; apply IZR_le; lia).
  split; [apply on_dome_dome; lra|]; rewrite fst_dome; cbn [z]; intros Hz.
  pose proof (sin_dome (IZR j) ltac:(lra)); pose proof (SIN_bound (@rad R _ _ _ (IZR j))) as [B _].
  apply equal_area_point; [lra|apply cos_dome|lra|apply sin2_cos2'..]; split; [lra|].
  destruct (proj2 Hv) as [|E270]; [done|exfalso; apply Hz; rewrite E270, rad_270, sin_3PI2; ring].
Qed.

(** The flat pictures are affine images of their textures, upright and not mirrored: the
    texture's (0, 0) is the upper left corner. *)
Definition flat (p : KSVec3 R) (t : vec2 R) (w h left top : R) : Prop :=
  x p = w * (vx t - 1 / 2) + left /\ y p = h * (1 / 2 - vy t) + top.

(** Every flat mesh shows its picture as an upright rectangle: NormalPlay and its
    relatives with their radius, aspect and place, the unfolded fish-eye modes on the
    whole of [-1, 1] by [-1, 1]. *)
Theorem flat_pictures r aspect left top d :
  flat (NormalPlay_Evaluate r aspect left top d) (NormalPlay_EvaluateCoord d) (r * aspect) r (left * aspect) top /\
  flat (ImageLoading_Evaluate aspect d) (ImageLoading_EvaluateCoord d) (1 / 5 * aspect) (1 / 5) 0 0 /\
  flat (GPUMotionDetection_Evaluate r aspect d) (GPUMotionDetection_EvaluateCoord d) (r * aspect) r 0 0 /\
  flat (CircleDetection_Evaluate r aspect d) (CircleDetection_EvaluateCoord d) (r * aspect) r 0 0 /\
  flat (VertexObject_Evaluate r 4 d) (VertexObject_EvaluateCoord r 4 d) 2 2 0 0 /\
  flat (sphere_Evaluate r 1 d) (sphere_EvaluateCoord r 1 d) 2 2 0 0 /\
  flat (sphere_Evaluate r 3 d) (sphere_EvaluateCoord r 3 d) 2 2 0 0.
Proof. destruct d as [u v]; unfold flat; split_and!; cbn -[IZR Rdiv]; unfold dec; cbn -[IZR Rdiv]; field. Qed.

(** The half sphere rolled out (EXPAND, SPHERE) stays within the screen's square. *)
Theorem unrolled_bounded r u v :
  let ps := [VertexObject_Evaluate r 3 (mkVec2 u v); VertexObject_Evaluate r 5 (mkVec2 u v);
             sphere_Evaluate r 5 (mkVec2 u v); SphereOne_Evaluate (mkVec2 u v)] in
  Forall (fun p : KSVec3 R => -1 < x p < 1 /\ -1 <= y p <= 1) ps.
Proof.
  assert (forall px pz, -1 < x (unrolled px pz u v) < 1 /\ -1 <= y (unrolled px pz u v) <= 1) as H.
  { assert (forall a, -1 < 2 * atan a / PI < 1) as bound.
    { intros a; pose proof (atan_bound a); pose proof PI_RGT_0.
      assert (2 * atan a / PI * PI = 2 * atan a) by (field; lra); split; nra. }
    intros px pz; unfold unrolled; cbn -[IZR Rdiv dec rad]; split; [apply bound|].
    pose proof (SIN_bound (rad u)); pose proof (SIN_bound (rad (270 - v))); nra. }
  intros ps; unfold ps; repeat (apply Forall_cons; split; [apply H|]); by apply Forall_nil.
Qed.

(** The loading ring lies between its two radii. *)
Theorem loading_ring major minor u v : 0 <= minor <= major -> 0 <= v <= 30 ->
  let p := ToursLoading_Evaluate major minor (mkVec2 u v) in
  minor * minor <= x p * x p + y p * y p <= major * major.
Proof.
  intros Hm Hv p; unfold p, ToursLoading_Evaluate; cbn -[IZR Rdiv rad].
  pose proof (sin2_cos2' (rad u)) as U; set (w := (major - minor) * (v / 30) + minor).
  assert (minor <= w <= major) as Hw.
  { unfold w; assert (0 <= v / 30 <= 1) by lra; nra. }
  replace (_ + _) with (w * w * (sin (rad u) * sin (rad u) + cos (rad u) * cos (rad u))) by ring; rewrite U; nra.
Qed.
End Surfaces.

Lemma dome_mesh_witness :
  exists vs ts, filled (VertexObject_Evaluate (3 / 2)%R 0) (VertexObject_EvaluateCoord (3 / 2)%R 0) 120 (whole_interval 3 3 183 120 30)
      = Done (vs, ts, 21600) /\ zlen vs = 21600.
Proof.
  destruct (dome_mesh (3 / 2)%R 3 120 30 120) as (vs & ts & E & _ & L & _); [lra|lia|lia|unfold exact_grid; lia|lia|lia|].
  exists vs, ts; split; [exact E|exact L].
Defined.
Lemma loading_ring_witness :
  let p := ToursLoading_Evaluate (15 / 100)%R (1 / 10)%R (mkVec2 90%R 15%R) in
  (1 / 10 * (1 / 10) <= x p * x p + y p * y p <= 15 / 100 * (15 / 100))%R.
Proof. apply (loading_ring (15 / 100) (1 / 10) 90 15); lra. Defined.

(** ** Properties of the matrices *)

Section Rigid.
Local Open Scope R_scope.

Definition orthogonal (q : Mat) : Prop := ksMatrixMultiply q (ksTranspose q) = I4.
Lemma orthogonal_id : orthogonal I4.
Proof. unfold orthogonal; rewrite mult_id_l; unfold ksTranspose, ksMatrixLoadIdentity; reflexivity. Qed.
Lemma orthogonal_mult p q : orthogonal p -> orthogonal q -> orthogonal (ksMatrixMultiply p q).
Proof.
  unfold orthogonal; intros Hp Hq; rewrite transpose_mult, mult_assoc, <- (mult_assoc q), Hq, mult_id_l; done.
Qed.
Lemma orthogonal_rotate r angle a b c : orthogonal r -> orthogonal (ksRotate r angle a b c).
Proof.
  intros Hr; destruct (rotate_orthogonal r angle a b c) as [H0 H1].
  destruct (Req_dec_T a 0) as [Ha|Ha], (Req_dec_T b 0) as [Hb|Hb], (Req_dec_T c 0) as [Hc|Hc].
  1: by rewrite H0.
  all: destruct H1 as (q & -> & Hq); [tauto|]; by apply orthogonal_mult.
Qed.
Lemma orthogonal_turned r : orthogonal (turned r).
Proof. unfold turned; case_bool; auto using orthogonal_rotate, orthogonal_id. Qed.

Lemma moved_translation zoom p : moved zoom p = translation (x p) (y p) (zoom + z p).
Proof. unfold moved, translation, ksTranslate, ksMatrixLoadIdentity; cbn -[IZR]; f_equal; ring. Qed.

(** A linear isometry: orthogonal, and only the first three coordinates take part. *)
Definition linear (m : Mat) : Prop :=
  m03 m = 0 /\ m13 m = 0 /\ m23 m = 0 /\ m30 m = 0 /\ m31 m = 0 /\ m32 m = 0 /\ m33 m = 1.
Definition rigid (q : Mat) : Prop := orthogonal q /\ linear q.
Lemma linear_mult p q : linear p -> linear q -> linear (ksMatrixMultiply p q).
Proof.
  unfold linear, ksMatrixMultiply, row_mul; cbn -[IZR].
  intros (-> & -> & -> & -> & -> & -> & ->) (-> & -> & -> & -> & -> & -> & ->); split_and!; ring.
Qed.
Lemma linear_turned r : linear (turned r).
Proof.
  assert (linear I4) as HI by (unfold linear, ksMatrixLoadIdentity; cbn; auto 10).
  assert (forall m angle a b c, linear m -> linear (ksRotate m angle a b c)) as HR.
  { intros; unfold ksRotate; case_bool; [done|]; apply linear_mult; [|done]; unfold linear, rotMat; cbn; auto 10. }
  unfold turned; case_bool; auto 10.
Qed.
Lemma rigid_turned r : rigid (turned r).
Proof. split; [apply orthogonal_turned|apply linear_turned]. Qed.

(** Squared length of the difference of two points. *)
Definition dist2 (p q : R * R * R * R) : R :=
  let '(a, b, c, _) := p in let '(d, e, f, _) := q in
  (a - d) * (a - d) + (b - e) * (b - e) + (c - f) * (c - f).
Definition point (v : KSVec3 R) : R * R * R * R := (x v, y v, z v, 1).

Lemma rigid_isometry q tx ty tz u v : rigid q ->
  dist2 (apply (point u) (ksMatrixMultiply q (translation tx ty tz)))
        (apply (point v) (ksMatrixMultiply q (translation tx ty tz))) = dist2 (point u) (point v).
Proof.
  intros [Ho (E3 & E13 & E23 & E30 & E31 & E32 & E33)]; destruct q as [a b c d e f g h i j k l m n o w].
  cbn [m03 m13 m23 m30 m31 m32 m33] in *; subst; unfold orthogonal, ksMatrixMultiply, row_mul, ksTranspose in Ho.
  cbn -[IZR] in Ho; injection Ho as H00 H01 H02 _ _ H11 H12 _ _ _ H22 _ _ _ _ _.
  unfold dist2, apply, point, ksMatrixMultiply, row_mul, translation; cbn -[IZR].
  destruct u as [u1 u2 u3], v as [v1 v2 v3]; cbn [x y z].
  set (p := u1 - v1); set (q := u2 - v2); set (r := u3 - v3).
  transitivity (p * p * (a * a + b * b + c * c + 0 * 0) + q * q * (e * e + f * f + g * g + 0 * 0)
                + r * r * (i * i + j * j + k * k + 0 * 0)
                + 2 * p * q * (a * e + b * f + c * g + 0 * 0) + 2 * p * r * (a * i + b * j + c * k + 0 * 0)
                + 2 * q * r * (e * i + f * j + g * k + 0 * 0)); [unfold p, q, r; ring|].
  rewrite H00, H01, H02, H11, H12, H22; ring.
Qed.

(** C31: in the spherical modes (HEMISPHERE, SPHERE) the mesh is drawn rigidly: the
    model-view matrix turns and moves it without changing any distance, whatever the
    angles, and magnifying is left to the projection, whose view angle is divided by the
    scale; the other modes scale first and are projected in parallel. *)
Theorem drawn_rigidly view aspect zoom pos scale rot ty :
  let '(proj, mv) := VertexObject_matrices view aspect zoom pos scale rot ty in
  exists q, rigid q /\
    (ty = 0%Z \/ ty = 5%Z ->
       mv = ksMatrixMultiply q (translation (x pos) (y pos) (same_size view zoom + same_size view (z pos))) /\
       proj = perspective view (x scale) aspect near /\
       forall u v, dist2 (apply (point u) mv) (apply (point v) mv) = dist2 (point u) (point v)) /\
    (ty <> 0%Z -> ty <> 5%Z ->
       mv = ksMatrixMultiply (ksMatrixMultiply (scaling (x scale) (y scale) (z scale)) q) (translation (x pos) (y pos) (zoom + z pos)) /\
       proj = ortho aspect).
Proof.
  destruct (VertexObject_matrices _ _ _ _ _ _ _) as [proj mv] eqn:E; revert E.
  unfold VertexObject_matrices, VertexObject_updateSurfaceTransform; rewrite !moved_translation, !mult_id_l.
  assert ((ty = 0 \/ ty = 5)%Z \/ (ty =? 0)%Z || (ty =? 5)%Z = false) as [[->| ->]|Hty] by lia.
  1, 2: intros [= <- <-]; exists (turned rot); split; [apply rigid_turned|]; split; [|done]; intros _;
    split_and!; [done..|]; intros u v; apply rigid_isometry, rigid_turned.
  rewrite Hty; intros E; exists (turned rot); split; [apply rigid_turned|]; split; [lia|]; intros _ _.
  rewrite (proj2 (translate_scale_spec (turned rot) _ _ _)) in E; destruct (negb (ty =? 2)%Z); by injection E as <- <-.
Qed.

(** The animated change of mode ends at the matrices the mode is then drawn with at the
    default view angle of 60 degrees, and in the flat modes; in a spherical mode at
    another view angle the picture jumps at its end. *)
Theorem change_lands aspect pos scale rot ty :
  (forall view, ty <> 0%Z -> ty <> 5%Z ->
     change_matrices view aspect pos scale rot ty
     = VertexObject_matrices view aspect (fst (VertexObject_setupProjection view aspect ty)) pos scale rot ty) /\
  change_matrices 60 aspect pos scale rot ty
     = VertexObject_matrices 60 aspect (fst (VertexObject_setupProjection 60 aspect ty)) pos scale rot ty /\
  (ty = 0%Z \/ ty = 5%Z -> z pos = 0 ->
     change_matrices 90 aspect pos scale rot ty
     <> VertexObject_matrices 90 aspect (fst (VertexObject_setupProjection 90 aspect ty)) pos scale rot ty).
Proof.
  assert (forall view, fst (VertexObject_setupProjection view aspect ty) = if negb (ty =? 2)%Z then (- (3))%R else 1%R) as Z0
    by (intros; unfold VertexObject_setupProjection; by destruct (negb _)).
  unfold change_matrices, VertexObject_matrices; split_and!.
  - intros view H0 H5; rewrite Z0; by replace ((ty =? 0) || (ty =? 5))%Z with false by lia.
  - rewrite Z0; destruct ((ty =? 0) || (ty =? 5))%Z eqn:E; [|done].
    assert (forall a, same_size 60 a = a) as S.
    { intros a; unfold same_size; cbn -[IZR tan Rdiv]; replace (60 / 2 / 180 * PI) with (30 / 180 * PI) by field.
      field; replace (30 / 180 * PI) with (PI / 6) by field; rewrite tan_PI6; pose proof (sqrt_lt_R0 3 ltac:(lra)).
      intros E0; apply (Rinv_neq_0_compat (sqrt 3)); [lra|]; lra. }
    rewrite !S; by destruct pos.
  - intros Hty Hz E; rewrite Z0 in E; apply (f_equal snd) in E.
    replace (negb (ty =? 2)%Z) with true in E by lia.
    replace ((ty =? 0) || (ty =? 5))%Z with true in E by lia.
    unfold VertexObject_updateSurfaceTransform in E.
    replace (negb (ty =? 2)%Z) with true in E by lia.
    replace ((ty =? 0) || (ty =? 5))%Z with true in E by lia; cbn [snd] in E.
    rewrite !moved_translation, !mult_id_l in E; cbn [x y z] in E; rewrite Hz in E.
    pose proof (linear_turned rot) as (_ & _ & _ & L0 & L1 & L2 & L3).
    apply (f_equal m32) in E; unfold ksMatrixMultiply, row_mul, translation in E; cbn -[IZR same_size] in E.
    rewrite L0, L1, L2, L3 in E; unfold same_size in E; cbn -[IZR tan Rdiv] in E.
    replace (90 / 2 / 180 * PI) with (PI / 4) in E by field; replace (30 / 180 * PI) with (PI / 6) in E by field.
    rewrite tan_PI4, tan_PI6 in E; pose proof (sqrt_lt_R0 3 ltac:(lra)); pose proof (sqrt_sqrt 3 ltac:(lra)).
    assert (1 / sqrt 3 = 1) as E1 by lra; assert (sqrt 3 = 1) as E2; [|nra].
    apply (f_equal (fun a => a * sqrt 3)) in E1; replace (1 / sqrt 3 * sqrt 3) with 1 in E1 by (field; lra); lra.
Qed.
End Rigid.
Lemma change_lands_witness :
  change_matrices 60%R 1%R (mkVec 0%R 0%R 0%R) (mkVec 1%R 1%R 1%R) (mkVec 0%R 0%R 0%R) 2
  = VertexObject_matrices 60%R 1%R (fst (VertexObject_setupProjection 60%R 1%R 2)) (mkVec 0%R 0%R 0%R) (mkVec 1%R 1%R 1%R)
      (mkVec 0%R 0%R 0%R) 2.
Proof. apply (proj1 (change_lands 1%R (mkVec 0%R 0%R 0%R) (mkVec 1%R 1%R 1%R) (mkVec 0%R 0%R 0%R) 2)); lia. Defined.

(** ** Ownership of buffers *)

Section Ownership.
Context {F : Type} `{Scalar F, Whole F}.
Variable alloc : gl F -> Z.
(** glGenBuffers: positive names that are not in use. *)
Hypothesis alloc_fresh : forall g, g !! alloc g = None /\ 0 < alloc g.

(** [g] is [g0] with the buffers [l] besides. *)
Definition owned (g0 g : gl F) (l : list Z) : Prop :=
  NoDup l /\ (0 ∉ l) /\ g !! 0 = None /\ Forall (fun n => is_Some (g !! n) /\ g0 !! n = None) l /\
  forall n, n ∉ l -> g !! n = g0 !! n.

#[export] Instance owned_perm g0 g : Proper (Permutation ==> iff) (owned g0 g).
Proof.
  intros l l' P; unfold owned; rewrite P; setoid_rewrite P; done.
Qed.

Lemma owned_nil g0 g : owned g0 g [] -> g = g0.
Proof. intros (_ & _ & _ & _ & E); apply map_eq; intros n; apply E, not_elem_of_nil. Qed.
Lemma owned_refl g0 : g0 !! 0 = None -> owned g0 g0 [].
Proof. intros Hz; split_and!; [constructor|apply not_elem_of_nil|done|constructor|done]. Qed.

Lemma owned_uploaded g0 g l d : owned g0 g l ->
  let '(n, g') := uploaded alloc g d in
  owned g0 g' (n :: l) /\ g' !! n = Some (Some d) /\ g !! n = None /\ n <> 0 /\ (forall k, k <> n -> g' !! k = g !! k).
Proof.
  intros (N & Z0 & G0 & A & E); destruct (alloc_fresh g) as [Hf Hp].
  unfold uploaded, glGenBuffers, glBufferData; rewrite insert_insert_eq.
  assert (alloc g ∉ l) as Hn.
  { intros Hin; rewrite Forall_forall in A; apply A in Hin as [[? Hs] _]; congruence. }
  split_and!; [|apply lookup_insert_eq|done|lia|intros; by apply lookup_insert_ne].
  split_and!; [by constructor| |by rewrite lookup_insert_ne by lia| |].
  - rewrite elem_of_cons; intros [?|?]; [lia|done].
  - constructor; [rewrite lookup_insert_eq, <- E by done; eauto|].
    eapply Forall_impl; [exact A|]; intros k [[v Hv] Hk]; rewrite lookup_insert_ne by congruence; eauto.
  - intros k [Hk1 Hk2]%not_elem_of_cons; rewrite lookup_insert_ne by done; by apply E.
Qed.

Lemma owned_deleted g0 g n l : owned g0 g (n :: l) -> owned g0 (glDeleteBuffers g n) l.
Proof.
  intros ([Hn N]%NoDup_cons & [Z0 Z1]%not_elem_of_cons & G0 & [A1 A]%Forall_cons & E); unfold glDeleteBuffers.
  split_and!; [done|done|by rewrite lookup_delete_ne by done| |].
  - rewrite Forall_forall in A |- *; intros k Hk; destruct (A k Hk); rewrite lookup_delete_ne by congruence; done.
  - intros k Hk; destruct (decide (k = n)) as [->|Hne]; [by rewrite lookup_delete_eq, (proj2 A1)|].
    rewrite lookup_delete_ne by done; apply E; by apply not_elem_of_cons.
Qed.
(** Deleting zero, or a name that is not in use, does nothing. *)
Lemma deleted_none (g : gl F) n : g !! n = None -> glDeleteBuffers g n = g.
Proof. apply delete_id. Qed.

(** Other names beside the owned ones. *)
Lemma owned_frame g0 g l ex : owned g0 g (l ++ ex) ->
  exists g', owned g' g l /\ owned g0 g' ex /\ forall k, k ∈ ex -> g' !! k = g !! k.
Proof.
  intros (N & Z0 & G0 & A & E); apply list.NoDup_app in N as (N1 & Nd & N2); rewrite elem_of_app in Z0.
  apply Forall_app in A as [A1 A2]; rewrite Forall_forall in A1; rewrite Forall_forall in A2.
  exists (filter (fun p => p.1 ∉ l) g).
  assert (forall k, k ∈ l -> filter (fun p : Z * option (data F) => p.1 ∉ l) g !! k = None) as F1.
  { intros k Hk; rewrite map_lookup_filter; destruct (g !! k); cbn; [by case_guard|done]. }
  assert (forall k, (k ∉ l) -> filter (fun p : Z * option (data F) => p.1 ∉ l) g !! k = g !! k) as F2.
  { intros k Hk; rewrite map_lookup_filter; destruct (g !! k); cbn; [by case_guard|done]. }
  split_and!.
  - split_and!; [done|tauto|done| |].
    + apply Forall_forall; intros k Hk; split; [by apply A1|by apply F1].
    + intros k Hk; by rewrite F2.
  - split_and!; [done|tauto|rewrite F2 by tauto; done| |].
    + apply Forall_forall; intros k Hk; rewrite F2 by (intros Hl; by apply (Nd k)); by apply A2.
    + intros k Hk; destruct (decide (k ∈ l)) as [Hl|Hl]; [rewrite F1, (proj2 (A1 k Hl)) by done; done|].
      rewrite F2 by done; apply E; rewrite elem_of_app; tauto.
  - intros k Hk; apply F2; intros Hl; by apply (Nd k).
Qed.
Lemma owned_join g0 g' g l ex : owned g' g l -> owned g0 g' ex -> owned g0 g (l ++ ex).
Proof.
  intros (N & Z0 & G0 & A & E) (N' & Z0' & G0' & A' & E'); rewrite Forall_forall in A; rewrite Forall_forall in A'.
  assert (forall k, k ∈ l -> k ∉ ex) as Hd.
  { intros k Hk Hx; destruct (A k Hk) as [_ H1], (A' k Hx) as [[? H2] _]; congruence. }
  split_and!; [by apply list.NoDup_app|rewrite elem_of_app; tauto|done| |].
  - apply Forall_app; split; apply Forall_forall; intros k Hk.
    + destruct (A k Hk) as [H1 H2]; split; [done|]; by rewrite <- E' by (by apply Hd).
    + destruct (A' k Hk) as [H1 H2]; split; [|done]; rewrite E; [done|]; intros Hl; by apply (Hd k).
  - intros k [Hl Hx]%not_elem_of_app; rewrite E by done; by apply E'.
Qed.

(** A field that holds a name, or zero for none. *)
Definition held (n : Z) : list Z := if n =? 0 then [] else [n].
Definition names (l : list Z) : list Z := flat_map held l.
Lemma owned_released g0 g n l : owned g0 g (held n ++ l) ->
  owned g0 (if negb (n =? 0) then glDeleteBuffers g n else g) l.
Proof. unfold held; destruct (n =? 0); cbn; [done|apply owned_deleted]. Qed.
Lemma owned_kept g0 g n l k : owned g0 g (held n ++ l) -> k ∈ l ->
  (if negb (n =? 0) then glDeleteBuffers g n else g) !! k = g !! k.
Proof.
  unfold held; destruct (n =? 0); cbn; [done|]; intros ([Hn _]%NoDup_cons & _) Hk.
  apply lookup_delete_ne; congruence.
Qed.
Lemma names_app l l' : names (l ++ l') = names l ++ names l'.
Proof. apply flat_map_app. Qed.

(** One field of a list replaced. *)
Lemma names_insert l i n : (i < length l)%nat -> n <> 0 ->
  exists rest, names l ≡ₚ held (nth i l 0) ++ rest /\ names (<[i := n]> l) ≡ₚ n :: rest /\
    names (<[i := 0]> l) ≡ₚ rest /\
    forall j, j <> i -> nth j l 0 <> 0 -> nth j l 0 ∈ rest.
Proof.
  intros Hi Hn; destruct (lookup_lt_is_Some_2 l i Hi) as [o Ho].
  rewrite nth_lookup, Ho; cbn [default from_option id].
  pose proof (take_drop_middle l i o Ho) as E; exists (names (take i l ++ drop (S i) l)).
  assert (forall k, names (<[i := k]> l) ≡ₚ held k ++ names (take i l ++ drop (S i) l)) as P.
  { intros k; rewrite insert_take_drop by done; rewrite !names_app; cbn [names flat_map].
    fold (names (drop (S i) l)); rewrite Permutation_app_swap_app; done. }
  split_and!.
  - rewrite <- (list_insert_id l i o) at 1 by done; apply P.
  - rewrite P; unfold held; by replace (n =? 0) with false by lia.
  - by rewrite P.
  - intros j Hj; rewrite nth_lookup; destruct (l !! j) as [m|] eqn:Em; cbn; [|done]; intros Hm.
    unfold names; apply list_elem_of_In, in_flat_map; exists m.
    split; [|unfold held; replace (m =? 0) with false by lia; by left].
    apply list_elem_of_In, elem_of_app; destruct (Nat.lt_ge_cases j i).
    + left; apply list_elem_of_lookup; exists j; by rewrite lookup_take_lt.
    + right; apply list_elem_of_lookup; exists (j - S i)%nat; rewrite lookup_drop.
      by replace (S i + (j - S i))%nat with j by lia.
Qed.

Context (fuel : nat) (it : ParametricInterval F) (ev : Z -> vec2 F -> KSVec3 F) (evc : Z -> vec2 F -> vec2 F).

(** The arrays of a typed mesh and the names they own. *)
Definition lengths (a : arrays) : Prop :=
  length (mVertexVBOBuffer a) = VERTEX_TYPE_COUNT /\ length (mTextureCoordBuffer a) = VERTEX_TYPE_COUNT /\
  length (mTriangleIndexCount a) = VERTEX_TYPE_COUNT.
Definition arrays_ok (g0 g : gl F) (a : arrays) : Prop :=
  lengths a /\ owned g0 g (names (mVertexVBOBuffer a) ++ names (mTextureCoordBuffer a)).
(** The buffers of type [i] hold its mesh. *)
Definition holds (g : gl F) (a : arrays) (i : nat) : Prop :=
  exists vs ts n, filled (ev (Z.of_nat i)) (evc (Z.of_nat i)) fuel it = Done (vs, ts, n) /\
    nth i (mVertexVBOBuffer a) 0 <> 0 /\ nth i (mTextureCoordBuffer a) 0 <> 0 /\
    g !! nth i (mVertexVBOBuffer a) 0 = Some (Some (Vertices vs (n * GetVertexSize))) /\
    g !! nth i (mTextureCoordBuffer a) 0 = Some (Some (Coords ts (n * GetCoordSize))) /\
    nth i (mTriangleIndexCount a) 0 = n.

Lemma nth_insert {A} (l : list A) i j x d : (i < length l)%nat -> nth j (<[i := x]> l) d = if decide (j = i) then x else nth j l d.
Proof.
  intros Hi; rewrite !nth_lookup; case_decide as Hj; [subst; by rewrite list_lookup_insert_eq|].
  by rewrite list_lookup_insert_ne.
Qed.

Lemma type_buffer_spec g0 g a i vs ts n :
  arrays_ok g0 g a -> (i < VERTEX_TYPE_COUNT)%nat ->
  filled (ev (Z.of_nat i)) (evc (Z.of_nat i)) fuel it = Done (vs, ts, n) ->
  exists g' a', type_buffer alloc fuel it ev evc i g a = Done (g', a') /\ arrays_ok g0 g' a' /\ holds g' a' i /\
    forall j, j <> i -> holds g a j -> holds g' a' j.
Proof.
  intros [(L1 & L2 & L3) HO] Hi Hf; unfold type_buffer; rewrite Hf; cbn [obind].
  pose proof (owned_uploaded g0 g _ (Vertices vs (n * GetVertexSize)) HO) as U1.
  destruct (uploaded alloc g _) as [b g1]; destruct U1 as (O1 & D1 & N1 & Z1 & K1).
  pose proof (owned_uploaded g0 g1 _ (Coords ts (n * GetCoordSize)) O1) as U2.
  destruct (uploaded alloc g1 _) as [c g2]; destruct U2 as (O2 & D2 & N2 & Z2 & K2).
  destruct (names_insert (mVertexVBOBuffer a) i b) as (rv & Pv & Pv' & _ & Hv); [lia|done|].
  destruct (names_insert (mTextureCoordBuffer a) i c) as (rt & Pt & Pt' & _ & Ht); [lia|done|].
  set (o := nth i (mVertexVBOBuffer a) 0) in *; set (oc := nth i (mTextureCoordBuffer a) 0) in *.
  assert (owned g0 g2 (held o ++ held oc ++ c :: b :: rv ++ rt)) as O3.
  { eapply owned_perm; [|exact O2]; rewrite Pv, Pt; solve_Permutation. }
  set (g3 := if negb (o =? 0) then _ else _).
  assert (forall k, k ∈ held oc ++ c :: b :: rv ++ rt -> g3 !! k = g2 !! k) as K3 by (intros; by apply (owned_kept g0 g2 o _ k O3)).
  apply owned_released in O3; fold g3 in O3; set (g4 := if negb (oc =? 0) then _ else _).
  assert (forall k, k ∈ c :: b :: rv ++ rt -> g4 !! k = g3 !! k) as K4 by (intros; by apply (owned_kept g0 g3 oc _ k O3)).
  apply owned_released in O3; fold g4 in O3.
  assert (b <> c) as Hbc by congruence.
  assert (forall k, k ∈ rv ++ rt -> g4 !! k = g !! k) as K5.
  { intros k Hk; rewrite K4, K3 by (rewrite ?elem_of_app, ?elem_of_cons, elem_of_app in *; tauto).
    assert (k ∈ names (mVertexVBOBuffer a) ++ names (mTextureCoordBuffer a)) as Hin
      by (rewrite Pv, Pt, !elem_of_app in *; tauto).
    assert (is_Some (g !! k)) as [v Hk'] by (destruct HO as (_ & _ & _ & A & _); rewrite Forall_forall in A; by apply A).
    assert (k <> b) by congruence; rewrite K2 by (intros ->; rewrite K1 in N2; congruence); by apply K1. }
  do 2 eexists; split; [reflexivity|]; split_and!.
  - split; [unfold lengths; cbn -[VERTEX_TYPE_COUNT]; by rewrite !length_insert|].
    cbn [mVertexVBOBuffer mTextureCoordBuffer]; eapply owned_perm; [|exact O3]; rewrite Pv', Pt'; solve_Permutation.
  - exists vs, ts, n; cbn [mVertexVBOBuffer mTextureCoordBuffer mTriangleIndexCount].
    rewrite !nth_insert, !decide_True by (done || lia); split_and!; try done.
    + rewrite K4, K3, K2 by (done || set_solver); done.
    + rewrite K4, K3 by set_solver; done.
  - intros j Hj (vs' & ts' & n' & E & V0 & T0 & Dv & Dt & Dn); exists vs', ts', n'.
    cbn [mVertexVBOBuffer mTextureCoordBuffer mTriangleIndexCount].
    rewrite !nth_insert, !decide_False by (done || lia); split_and!; try done.
    + rewrite K5; [done|apply elem_of_app; left; by apply Hv].
    + rewrite K5; [done|apply elem_of_app; right; by apply Ht].
Qed.

(** Every type's evaluation fits the arrays. *)
Definition fits : Prop := forall i, (i < VERTEX_TYPE_COUNT)%nat ->
  exists vs ts n, filled (ev (Z.of_nat i)) (evc (Z.of_nat i)) fuel it = Done (vs, ts, n) /\
    n * GetVertexSize = zlen vs * GetVertexSize /\ n * GetCoordSize = zlen ts * GetCoordSize.

Lemma type_buffers_spec g0 l : fits -> Forall (fun i => i < VERTEX_TYPE_COUNT)%nat l -> forall g a,
  arrays_ok g0 g a -> exists g' a', type_buffers alloc fuel it ev evc l g a = Done (g', a') /\ arrays_ok g0 g' a' /\
    forall j, j ∈ l \/ holds g a j -> holds g' a' j.
Proof.
  intros Hfit; induction 1 as [|i l Hi _ IH]; intros g a Ha; cbn [type_buffers].
  { exists g, a; split_and!; [done|exact Ha|]; intros j [Hj%not_elem_of_nil|]; done. }
  destruct (Hfit i Hi) as (vs & ts & n & Hf & _).
  destruct (type_buffer_spec g0 g a i vs ts n Ha Hi Hf) as (g1 & a1 & -> & Ha1 & H1 & K1); cbn [obind].
  destruct (IH g1 a1 Ha1) as (g2 & a2 & -> & Ha2 & K2); exists g2, a2; split_and!; [done|exact Ha2|].
  intros j Hj; apply K2; destruct (decide (j = i)) as [->|Hne]; [by right|].
  destruct Hj as [[|]%elem_of_cons|]; [done|by left|right; by apply K1].
Qed.

(** SetupBuffer as VertexObject ([t] = PANORAMA) and sphere ([t] = CYLINDER) have it. *)
Definition setup_as (t : Z) (g : gl F) (a : arrays) : outcome (gl F * arrays) :=
  let* '(g, a) := type_buffers alloc fuel it ev evc (seq 0 VERTEX_TYPE_COUNT) g a in Done (g, set_type a t).
Fixpoint again (setup : gl F -> arrays -> outcome (gl F * arrays)) (k : nat) (g : gl F) (a : arrays) : outcome (gl F * arrays) :=
  match k with O => Done (g, a) | S k => let* '(g, a) := setup g a in again setup k g a end.

Lemma setup_spec g0 t g a : fits -> arrays_ok g0 g a ->
  exists g' a', setup_as t g a = Done (g', a') /\ arrays_ok g0 g' a' /\ forall j, (j < VERTEX_TYPE_COUNT)%nat -> holds g' a' j.
Proof.
  intros Hfit Ha; unfold setup_as.
  destruct (type_buffers_spec g0 (seq 0 VERTEX_TYPE_COUNT) Hfit) with (g := g) (a := a) as (g' & a' & -> & Ha' & K); [|done|].
  { apply Forall_forall; intros i Hi%elem_of_seq; lia. }
  exists g', (set_type a' t); split_and!; [done|exact Ha'|].
  intros j Hj; apply K; left; apply elem_of_seq; lia.
Qed.
Lemma again_spec g0 k t g a : fits -> arrays_ok g0 g a ->
  exists g' a', again (setup_as t) (S k) g a = Done (g', a') /\ arrays_ok g0 g' a' /\ forall j, (j < VERTEX_TYPE_COUNT)%nat -> holds g' a' j.
Proof.
  intros Hfit; revert g a; induction k as [|k IH]; intros g a Ha; cbn [again];
    destruct (setup_spec g0 t g a Hfit Ha) as (g1 & a1 & -> & Ha1 & Hh1); cbn [obind]; [by exists g1, a1|by apply IH].
Qed.

Lemma again_keeps g0 k t g a : fits -> arrays_ok g0 g a -> (forall j, (j < VERTEX_TYPE_COUNT)%nat -> holds g a j) ->
  exists g' a', again (setup_as t) k g a = Done (g', a') /\ arrays_ok g0 g' a' /\ forall j, (j < VERTEX_TYPE_COUNT)%nat -> holds g' a' j.
Proof.
  intros Hfit Ha Hh; destruct k as [|k]; [by exists g, a|by apply again_spec].
Qed.

Lemma holds_kept g g' a j : holds g a j -> (forall k, is_Some (g !! k) -> g' !! k = g !! k) -> holds g' a j.
Proof.
  intros (vs & ts & n & E & V & T & Dv & Dt & Dn) K; exists vs, ts, n; split_and!; try done; rewrite K; eauto.
Qed.
(** The constructor on memory whose box names no buffer. *)
Lemma construct_spec g0 t aspect : fits -> g0 !! 0 = None ->
  exists g a line box, construct alloc (setup_as t) g0 0 aspect = Done (g, (a, line, box)) /\ lengths a /\
    owned g0 g ((names (mVertexVBOBuffer a) ++ names (mTextureCoordBuffer a)) ++ [line; box]) /\
    forall j, (j < VERTEX_TYPE_COUNT)%nat -> holds g a j.
Proof.
  intros Hfit Hz; destruct (setup_spec g0 t g0 no_arrays Hfit) as (g & a & E & [Hl HO] & Hh).
  { split; [done|]; exact (conj (NoDup_nil_2) (conj (not_elem_of_nil _) (conj Hz (conj (Forall_nil_2 _) (fun _ _ => eq_refl))))). }
  unfold construct; rewrite E; cbn [obind]; unfold setupLineBuffer, box_SetupBuffer; cbn [Z.eqb negb].
  pose proof (owned_uploaded g0 g _ (Vertices (line_points (dec 1 2) aspect) mLinebufferSize) HO) as U1.
  destruct (uploaded alloc g _) as [line g1]; destruct U1 as (O1 & _ & N1 & _ & K1).
  pose proof (owned_uploaded g0 g1 _ (Vertices (line_points fone aspect) mLinebufferSize) O1) as U2.
  destruct (uploaded alloc g1 _) as [box g2]; destruct U2 as (O2 & _ & N2 & _ & K2).
  exists g2, a, line, box; split; [reflexivity|]; split; [exact Hl|]; split.
  - eapply owned_perm; [|exact O2]; solve_Permutation.
  - intros j Hj; apply (holds_kept g); [by apply Hh|]; intros k [x Hk].
    rewrite K2, K1; [done|congruence|]; intros ->; rewrite K1 in N2 by congruence; congruence.
Qed.

(** A mesh drawn: its vertices with their texture coordinates. *)
Lemma draw_holds g a j : fits -> (j < VERTEX_TYPE_COUNT)%nat -> holds g a j ->
  exists vs ts n, filled (ev (Z.of_nat j)) (evc (Z.of_nat j)) fuel it = Done (vs, ts, n) /\
    draw_type g (set_type a (Z.of_nat j)) = Done (zip vs ts).
Proof.
  intros Hfit Hj (vs & ts & n & E & _ & _ & Dv & Dt & Dn); exists vs, ts, n; split; [done|].
  destruct (Hfit j Hj) as (vs' & ts' & n' & E' & Lv & Lt); rewrite E in E'; injection E' as <- <- <-.
  unfold draw_type, glDrawArrays, set_type; cbn [mVertexType mVertexVBOBuffer mTextureCoordBuffer mTriangleIndexCount].
  rewrite Nat2Z.id, Dv, Dt, Dn, !Z.leb_refl; cbn [andb]; f_equal; apply take_ge.
  rewrite length_zip; unfold zlen, GetVertexSize, GetCoordSize in *; lia.
Qed.

Lemma destroy_type_ok g0 i g a : (i < VERTEX_TYPE_COUNT)%nat -> arrays_ok g0 g a ->
  let '(g', a') := destroy_type i g a in
  arrays_ok g0 g' a' /\ nth i (mVertexVBOBuffer a') 0 = 0 /\ nth i (mTextureCoordBuffer a') 0 = 0 /\
  forall j, (nth j (mVertexVBOBuffer a) 0 = 0 -> nth j (mVertexVBOBuffer a') 0 = 0) /\
            (nth j (mTextureCoordBuffer a) 0 = 0 -> nth j (mTextureCoordBuffer a') 0 = 0).
Proof.
  intros Hi [(L1 & L2 & L3) HO]; unfold destroy_type.
  destruct (names_insert (mVertexVBOBuffer a) i 1) as (rv & Pv & _ & Pv0 & _); [lia|done|].
  destruct (names_insert (mTextureCoordBuffer a) i 1) as (rt & Pt & _ & Pt0 & _); [lia|done|].
  set (o := nth i (mVertexVBOBuffer a) 0) in *; set (oc := nth i (mTextureCoordBuffer a) 0) in *.
  assert (forall l k j, (i < length l)%nat -> nth j l 0 = 0 -> k = 0 -> nth j (<[i := k]> l) 0 = 0) as keep.
  { intros l k j Hl Hz ->; rewrite nth_insert by done; by case_decide. }
  assert (owned g0 g (held o ++ held oc ++ rv ++ rt)) as O1 by (eapply owned_perm; [|exact HO]; rewrite Pv, Pt; solve_Permutation).
  apply owned_released, owned_released in O1; unfold arrays_ok, lengths.
  destruct (o =? 0) eqn:Eo, (oc =? 0) eqn:Ec; cbn [negb] in *; unfold held in Pv, Pt; rewrite ?Eo in Pv; rewrite ?Ec in Pt; cbn [app] in Pv, Pt;
    cbn [mVertexVBOBuffer mTextureCoordBuffer mTriangleIndexCount];
    rewrite ?length_insert, ?nth_insert, ?decide_True by (done || lia); split_and!; try done; try (unfold o, oc in *; lia);
    try (eapply owned_perm; [|exact O1]; by rewrite ?Pv, ?Pt, ?Pv0, ?Pt0);
    intros j; split; eauto; intros; apply keep; (done || lia).
Qed.

Lemma names_zero l : (forall j, nth j l 0 = 0) -> names l = [].
Proof.
  induction l as [|x l IH]; intros Hl; [done|]; cbn [names flat_map]; pose proof (Hl O) as Hz; cbn in Hz; subst.
  cbn [held app]; apply IH; intros j; apply (Hl (S j)).
Qed.

Lemma destroy_list_spec g0 l g a : Forall (fun i => i < VERTEX_TYPE_COUNT)%nat l -> arrays_ok g0 g a ->
  let '(g', a') := destroy_list l g a in
  arrays_ok g0 g' a' /\ forall j,
    (j ∈ l \/ nth j (mVertexVBOBuffer a) 0 = 0 -> nth j (mVertexVBOBuffer a') 0 = 0) /\
    (j ∈ l \/ nth j (mTextureCoordBuffer a) 0 = 0 -> nth j (mTextureCoordBuffer a') 0 = 0).
Proof.
  revert g a; induction l as [|i l IH]; intros g a Hl Ha; cbn [destroy_list].
  { split; [done|]; intros j; split; intros [Hj%not_elem_of_nil|]; done. }
  apply Forall_cons in Hl as [Hi Hl]; pose proof (destroy_type_ok g0 i g a Hi Ha) as D.
  destruct (destroy_type i g a) as [g1 a1]; destruct D as (Ha1 & Z1 & Z2 & K).
  specialize (IH g1 a1 Hl Ha1); destruct (destroy_list l g1 a1) as [g2 a2]; destruct IH as [Ha2 K2].
  split; [exact Ha2|]; intros j; destruct (K2 j) as [V T], (K j) as [V' T'].
  split; intros [[->|Hj]%elem_of_cons|Hj]; auto.
Qed.

Lemma destroy_types_spec g0 g a : arrays_ok g0 g a -> fst (destroy_types g a) = g0.
Proof.
  intros Ha; unfold destroy_types.
  pose proof (destroy_list_spec g0 (seq 0 VERTEX_TYPE_COUNT) g a) as D.
  destruct (destroy_list _ g a) as [g' a'].
  destruct D as [[(L1 & L2 & _) HO] K]; [apply Forall_forall; intros i Hi%elem_of_seq; lia|done|].
  rewrite !names_zero in HO; [by apply owned_nil in HO|..]; intros j; destruct (K j) as [V T];
    (destruct (Nat.lt_ge_cases j VERTEX_TYPE_COUNT); [(apply V || apply T); left; apply elem_of_seq; lia|apply nth_overflow; lia]).
Qed.
Lemma names_full l : (forall j, (j < length l)%nat -> nth j l 0 <> 0) -> names l = l.
Proof.
  induction l as [|x l IH]; intros Hl; [done|]; cbn [names flat_map]; pose proof (Hl O) as Hx; cbn in Hx.
  unfold held; replace (x =? 0) with false by (specialize (Hx ltac:(lia)); lia); cbn [app]; f_equal.
  apply IH; intros j Hj; apply (Hl (S j)); cbn; lia.
Qed.
Lemma no_arrays_ok g0 : g0 !! 0 = None -> arrays_ok g0 g0 no_arrays.
Proof. intros Hz; split; [done|]; exact (owned_refl g0 Hz). Qed.
Lemma owned_arrays g0 g a : arrays_ok g0 g a -> (forall j, (j < VERTEX_TYPE_COUNT)%nat -> holds g a j) ->
  owned g0 g (mVertexVBOBuffer a ++ mTextureCoordBuffer a).
Proof.
  intros [(L1 & L2 & _) HO] Hh.
  rewrite !names_full in HO; [done|..]; intros j Hj; destruct (Hh j) as (? & ? & ? & _ & V & T & _); (done || lia).
Qed.
End Ownership.

Section BufferTheorems.
Context {F : Type} `{HS : Scalar F, HW : Whole F} `{!WholeLaws F}.

Lemma whole_fits ev evc s a b n m fuel : exact_grid s a b n m -> (n <= fuel)%nat -> (m <= fuel)%nat ->
  fits (F := F) fuel (whole_interval s a b n m) ev evc.
Proof.
  intros He Fn Fm i _; destruct (filled_grid (ev (Z.of_nat i)) (evc (Z.of_nat i)) s a b n m fuel He Fn Fm) as [L E].
  do 3 eexists; split; [exact E|]; unfold zlen; rewrite !length_map, L; lia.
Qed.

(** C22: where the uninitialised name in the selection box happens to be zero, the objects of
    VertexObject and sphere own exactly sixteen buffers, two for each of the seven types, the
    frame's and the box's, however often SetupBuffer is run again and whatever names GL gives
    out: the others are left alone, every type draws the whole mesh evaluated for it, and the
    destructors leave GL's buffers as they were before the constructor. *)
Theorem mesh_buffers alloc ev evc s a b n m fuel k g0 setup aspect :
  (forall g : gl F, g !! alloc g = None /\ 0 < alloc g) -> g0 !! 0 = None ->
  exact_grid s a b n m -> (n <= fuel)%nat -> (m <= fuel)%nat ->
  let it := whole_interval s a b n m in
  setup = VertexObject_SetupBuffer alloc fuel it ev evc \/ setup = sphere_SetupBuffer alloc fuel it ev evc ->
  exists g1 a1 line box g ar, construct alloc setup g0 0 aspect = Done (g1, (a1, line, box)) /\ again setup k g1 a1 = Done (g, ar) /\
    owned g0 g ((mVertexVBOBuffer ar ++ mTextureCoordBuffer ar) ++ [line; box]) /\
    length (mVertexVBOBuffer ar ++ mTextureCoordBuffer ar) = 14%nat /\
    (forall t, 0 <= t < 7 -> exists vs ts count, filled (ev t) (evc t) fuel it = Done (vs, ts, count) /\
       zlen (zip vs ts) = count /\ draw_type g (SwitchMode ar t) = Done (zip vs ts)) /\
    destroy g (ar, line, box) = g0.
Proof.
  intros Ha Hz He Fn Fm it Hs; pose proof (whole_fits ev evc s a b n m fuel He Fn Fm) as Hfit.
  assert (exists t, setup = setup_as alloc fuel it ev evc t) as [t ->] by (destruct Hs as [-> | ->]; eauto).
  destruct (construct_spec alloc Ha fuel it ev evc g0 t aspect Hfit Hz) as (g1 & a1 & line & box & E1 & Hl1 & O1 & Hh1).
  destruct (owned_frame g0 g1 _ _ O1) as (g' & O2 & O3 & _).
  destruct (again_keeps alloc Ha fuel it ev evc g' k t g1 a1 Hfit (conj Hl1 O2) Hh1) as (g & ar & E & Hok & Hh).
  exists g1, a1, line, box, g, ar; split; [exact E1|]; split; [exact E|].
  split; [eapply owned_join; [by eapply owned_arrays|exact O3]|].
  split; [destruct Hok as [(L1 & L2 & _) _]; by rewrite length_app, L1, L2|]; split.
  2:{ unfold destroy; rewrite (destroy_types_spec g' g ar Hok).
      assert (owned g0 g' [box; line]) as O4 by (eapply owned_perm; [|exact O3]; solve_Permutation).
      apply owned_deleted in O4; pose proof O4 as (_ & N0 & _); replace (line =? 0) with false by (rewrite list_elem_of_singleton in N0; lia).
      cbn [negb]; apply owned_deleted in O4; exact (owned_nil _ _ O4). }
  intros t' Ht; destruct (draw_holds fuel it ev evc g ar (Z.to_nat t') Hfit) as (vs & ts & c & Ef & Ed);
    [unfold VERTEX_TYPE_COUNT; lia|apply Hh; unfold VERTEX_TYPE_COUNT; lia|].
  rewrite Z2Nat.id in Ef, Ed by lia; exists vs, ts, c; split; [exact Ef|].
  destruct (filled_grid (ev t') (evc t') s a b n m fuel He Fn Fm) as [L E']; fold it in E'; rewrite E' in Ef.
  injection Ef as <- <- <-; split; [unfold zlen; rewrite length_zip, !length_map, L; lia|].
  rewrite <- Ed; f_equal; unfold SwitchMode; destruct (mVertexType ar =? t') eqn:Et; cbn [negb]; [|done].
  apply Z.eqb_eq in Et; unfold set_type; rewrite <- Et; by destruct ar.
Qed.

(** Where the memory of the selection box holds another number, the constructor deletes the
    buffer of that name, whoever's it is; the name is not in use any more, or the box's. *)
Theorem junk_deleted alloc setup g0 junk aspect g a line box :
  junk <> 0 -> construct alloc setup g0 junk aspect = Done (g, (a, line, box)) -> g !! junk = None \/ junk = box.
Proof.
  intros Hj; unfold construct, setupLineBuffer, box_SetupBuffer; cbn [Z.eqb negb].
  destruct (setup g0 no_arrays) as [[g1 a1]| |]; cbn [obind]; [|done|done].
  destruct (uploaded alloc g1 _) as [l g2]; replace (junk =? 0) with false by lia; cbn [negb].
  unfold uploaded, glGenBuffers, glBufferData; intros [= <- _ _ <-].
  set (n := alloc (glDeleteBuffers g2 junk)); destruct (decide (junk = n)) as [|Hn]; [by right|left].
  rewrite !lookup_insert_ne by done; apply lookup_delete_eq.
Qed.

(** The plain surface: two buffers while it lives, none after Cleanup. *)
Theorem surface_buffers alloc ev evc s a b n m fuel g0 :
  (forall g : gl F, g !! alloc g = None /\ 0 < alloc g) -> g0 !! 0 = None ->
  exact_grid s a b n m -> (n <= fuel)%nat -> (m <= fuel)%nat ->
  let setup := SetupBuffer alloc fuel (whole_interval s a b n m) ev evc in
  exists g1 b1 g2 b2 vs ts count, setup g0 no_buffers = Done (g1, b1) /\ setup g1 b1 = Done (g2, b2) /\
    owned g0 g1 [vertexBuffer b1; TextureCoordBuffer b1] /\ owned g0 g2 [vertexBuffer b2; TextureCoordBuffer b2] /\
    filled ev evc fuel (whole_interval s a b n m) = Done (vs, ts, count) /\ zlen vs = count /\
    DrawSelf g1 b1 true = Done (zip vs ts) /\ DrawSelf g2 b2 true = Done (zip vs ts) /\
    fst (Cleanup g1 b1) = g0 /\ fst (Cleanup g2 b2) = g0.
Proof.
  intros Ha Hz He Fn Fm setup; destruct (filled_grid ev evc s a b n m fuel He Fn Fm) as [L E].
  set (vs := map ev _) in E; set (ts := map evc _) in E; set (c := _ * 6) in E.
  assert (zlen vs = c /\ zlen ts = c) as [Lv Lt] by (unfold vs, ts, c, zlen; rewrite !length_map, L; lia).
  assert (forall g b, owned g0 g (held (vertexBuffer b) ++ held (TextureCoordBuffer b)) ->
    exists g' b', setup g b = Done (g', b') /\ owned g0 g' [vertexBuffer b'; TextureCoordBuffer b'] /\
      vertexBuffer b' <> 0 /\ TextureCoordBuffer b' <> 0 /\
      DrawSelf g' b' true = Done (zip vs ts) /\ fst (Cleanup g' b') = g0) as once.
  { clear - E Lv Lt Ha; intros g bf HO; unfold setup, SetupBuffer; rewrite E; cbn [obind].
    assert (owned g0 (glDeleteBuffers g (vertexBuffer bf)) (held (TextureCoordBuffer bf))) as O1.
    { pose proof HO as (_ & _ & G0 & _); apply owned_released in HO; destruct (vertexBuffer bf =? 0) eqn:Ev; cbn [negb] in HO; [|done].
      replace (vertexBuffer bf) with 0 by lia; by rewrite deleted_none. }
    pose proof (owned_uploaded alloc Ha g0 _ _ (Vertices vs (c * GetVertexSize)) O1) as U1.
    destruct (uploaded alloc _ _) as [v g2]; destruct U1 as (O2 & D2 & _ & Z2 & _).
    assert (owned g0 g2 (held (TextureCoordBuffer bf) ++ [v])) as O3 by (eapply owned_perm; [|exact O2]; solve_Permutation).
    set (g3 := if negb _ then _ else _).
    assert (g3 !! v = g2 !! v) as K3 by (apply (owned_kept g0 g2 _ [v] v O3); by left).
    apply owned_released in O3; fold g3 in O3.
    pose proof (owned_uploaded alloc Ha g0 _ _ (Coords ts (c * GetCoordSize)) O3) as U4.
    destruct (uploaded alloc g3 _) as [t g4]; destruct U4 as (O4 & D4 & N4 & Z4 & K4).
    assert (v <> t) as Hvt by congruence.
    assert (owned g0 g4 [v; t]) as O5 by (eapply owned_perm; [|exact O4]; solve_Permutation).
    do 2 eexists; split; [reflexivity|]; cbn [vertexBuffer TextureCoordBuffer]; split_and!; [done..| |].
    - unfold DrawSelf, glDrawArrays; cbn [negb vertexBuffer TextureCoordBuffer triangleIndexCount].
      rewrite D4, K4, K3, D2, !Z.leb_refl by done; cbn [andb]; f_equal; apply take_ge; rewrite length_zip.
      unfold zlen in *; lia.
    - unfold Cleanup; cbn [vertexBuffer TextureCoordBuffer lvb]; replace (v =? 0) with false by lia; replace (t =? 0) with false by lia.
      cbn [negb fst]; do 2 apply owned_deleted in O5.
      rewrite deleted_none; [by apply owned_nil in O5|]; unfold glDeleteBuffers; by rewrite lookup_delete_ne, lookup_delete_eq by done. }
  destruct (once g0 no_buffers (owned_refl g0 Hz)) as (g1 & b1 & E1 & O1 & V1 & T1 & D1 & C1).
  destruct (once g1 b1) as (g2 & b2 & E2 & O2 & V2 & T2 & D2 & C2).
  { unfold held; replace (vertexBuffer b1 =? 0) with false by lia; by replace (TextureCoordBuffer b1 =? 0) with false by lia. }
  exists g1, b1, g2, b2, vs, ts, c; split_and!; done.
Qed.
End BufferTheorems.

(** A generator of names: one more than the largest in use. *)
Definition next_name {F} (g : gl F) : Z := map_fold (fun k _ m => Z.max k m) 0 g + 1.
Lemma next_name_fresh {F} (g : gl F) : g !! next_name g = None /\ 0 < next_name g.
Proof.
  assert (0 <= map_fold (fun k _ m => Z.max k m) 0 g /\ forall k, is_Some (g !! k) -> k <= map_fold (fun k _ m => Z.max k m) 0 g) as [H0 H].
  { apply (map_fold_weak_ind (fun r (g : gl F) => 0 <= r /\ forall k, is_Some (g !! k) -> k <= r)).
    - split; [lia|]; intros k [v Hv]; by rewrite lookup_empty in Hv.
    - intros i v g' r Hi [IH0 IH]; split; [lia|]; intros k; destruct (decide (k = i)) as [->|Hk]; [lia|].
      rewrite lookup_insert_ne by done; intros Hs%IH; lia. }
  unfold next_name; split; [|lia]; destruct (g !! _) eqn:E; [|done].
  specialize (H (map_fold (fun k _ m => Z.max k m) 0 g + 1) ltac:(eauto)); lia.
Qed.

Lemma mesh_buffers_witness :
  let setup := VertexObject_SetupBuffer next_name 60 (whole_interval (F := R) 6 6 186 60 15)
                 (VertexObject_Evaluate (3 / 2)%R) (VertexObject_EvaluateCoord (3 / 2)%R) in
  exists g1 a1 line box g ar, construct next_name setup ∅ 0 (16 / 9)%R = Done (g1, (a1, line, box)) /\ again setup 2 g1 a1 = Done (g, ar) /\
    destroy g (ar, line, box) = ∅.
Proof.
  destruct (mesh_buffers (F := R) next_name (VertexObject_Evaluate (3 / 2)%R) (VertexObject_EvaluateCoord (3 / 2)%R) 6 6 186 60 15 60 2 ∅ _ (16 / 9)%R
    next_name_fresh (lookup_empty _) ltac:(unfold exact_grid; lia) ltac:(lia) ltac:(lia) (or_introl eq_refl))
    as (g1 & a1 & line & box & g & ar & E1 & E & _ & _ & _ & D).
  exists g1, a1, line, box, g, ar; split; [exact E1|]; split; [exact E|exact D].
Defined.
Lemma junk_deleted_witness :
  let setup g a := Done (g, a) in
  exists g a line box, construct next_name setup {[ 5 := Some (Vertices [] 0) ]} 5 1%R = Done (g, (a, line, box)) /\
    (g !! 5 = None \/ 5 = box).
Proof.
  do 4 eexists; split; [reflexivity|].
  eapply (junk_deleted next_name (fun g a => Done (g, a)) {[ 5 := Some (Vertices [] 0) ]} 5 1%R); [lia|reflexivity].
Defined.
Lemma surface_buffers_witness :
  exists g1 b1, SetupBuffer next_name 1 (whole_interval (F := R) 1 1 1 1 1) (NormalPlay_Evaluate 2 1 0 0)%R NormalPlay_EvaluateCoord ∅ no_buffers
    = Done (g1, b1).
Proof.
  destruct (surface_buffers (F := R) next_name (NormalPlay_Evaluate 2 1 0 0)%R NormalPlay_EvaluateCoord 1 1 1 1 1 1 ∅
    next_name_fresh (lookup_empty _) ltac:(unfold exact_grid; lia) ltac:(lia) ltac:(lia)) as (g1 & b1 & _ & _ & _ & _ & _ & E & _).
  exists g1, b1; exact E.
Defined.

End Mesh.
