(* ===== verification/Stitch.v ===== *)
(** The screens of a camera with two lenses: the sphere stitched from both
    (gles/GLES/SphereStitch2.cpp), the world map (SphereStitch.cpp), what combines them
    (SphereStitchImp.cpp) and the way of the lens table to them
    (ParametricManager::SetDistortion).  Tables are memory of the viewers, so they are
    kept in a heap that can be freed and reused behind the screen's back. *)
From Stdlib Require Import Rbase Rfunctions R_sqrt Rtrigo1 Lra SpecFloat.
From S2P Require Import Prelude Float32 GLESMath Mesh.
From stdpp Require Import list gmap.
Local Open Scope Z_scope.

Module Stitch.
Import GLESMath Mesh.

Record DISTORTION_NUM (F : Type) := mkDist { angle : F; half_height : F }.
Arguments mkDist {F} _ _.
Arguments angle {F} _.
Arguments half_height {F} _.
(** Allocated tables by address. *)
Abbreviation heap F := (gmap Z (list (DISTORTION_NUM F))).

(** A computation on every element, in order. *)
Fixpoint mapO {A B} (f : A -> outcome B) (l : list A) : outcome (list B) :=
  match l with [] => Done [] | x :: l => let* y := f x in let* r := mapO f l in Done (y :: r) end.

(** ** The world map (SphereStitch) *)

Record TRANSFORM (F : Type) := mkTransform { axis : Z; value : F; cvalue : F; svalue : F }.
Record FISHEYE (F : Type) := mkFish {
  width : F; height : F; centerx : F; centery : F; radius : F; aperture : F;
  transforms : list (TRANSFORM F)
}.
Arguments mkTransform {F} _ _ _ _.
Arguments mkFish {F} _ _ _ _ _ _ _.
Arguments axis {F} _. Arguments value {F} _. Arguments cvalue {F} _. Arguments svalue {F} _.
Arguments width {F} _. Arguments height {F} _. Arguments centerx {F} _. Arguments centery {F} _.
Arguments radius {F} _. Arguments aperture {F} _. Arguments transforms {F} _.

Definition DISTORTION_SIZE : nat := 115.
Definition XTILT : Z := 0.
Definition YROLL : Z := 1.
Definition ZPAN : Z := 2.

Section World.
Context {F : Type} `{Scalar F, Trig F, Whole F}.
Local Open Scope scalar_scope.

Definition ge_ (a b : F) : bool := fleb b a.

(** [mDistortion[i] = v]: the array has 115 elements. *)
Definition put (t : list F) (i : nat) (v : F) : outcome (list F) :=
  if (i <? length t)%nat then Done (<[i := v]> t) else Fault.

(** The while loop between two entries; [angle] stays below the size of the array, beyond
    which a write is undefined, so the loop is structural in the room there is. *)
Fixpoint span (room : nat) (a : nat) (p q : DISTORTION_NUM F) (t : list F) : outcome (list F * nat) :=
  let i := fint (Z.of_nat a) in
  if ge_ i (angle p) && fltb i (angle q) then
    match room with
    | O => Fault
    | S room =>
        let llower := half_height p in
        let lunit := (half_height q - half_height p) / (angle q - angle p) in
        let* t := put t a (llower + lunit * (i - angle p)) in
        span room (S a) p q t
    end
  else Done (t, a).
Fixpoint spans (a : nat) (l : list (DISTORTION_NUM F)) (t : list F) : outcome (list F) :=
  match l with
  | p :: (q :: _) as l =>
      let* '(t, a) := span (DISTORTION_SIZE - a) a p q t in spans a l t
  | _ => Done t
  end.
(** SetDistortion: the table is read up to [dist_count]. *)
Definition world_SetDistortion (pdist : list (DISTORTION_NUM F)) (dist_count : Z) : outcome (list F) :=
  let mDistortion := replicate DISTORTION_SIZE (fint 0) in
  if dist_count <=? 1 then Done mDistortion
  else if zlen pdist <? dist_count then Fault
  else spans 1 (take (Z.to_nat dist_count) pdist) mDistortion.

(** A turn is only replaced by one that is not zero. *)
Definition set_turn (t : TRANSFORM F) (ax : Z) (a : F) (DTOR : F) : TRANSFORM F :=
  if nonzero a then let v := a * DTOR in mkTransform ax v (fcos v) (fsin v) else t.
Definition DTOR : F := fint 174532925 / fint 10000000000.
Definition no_turn : TRANSFORM F := mkTransform (-1) 0 0 0.
(** The constructor: everything zero but the axes and the aperture. *)
Definition no_fish : FISHEYE F := mkFish 0 0 0 0 0 (fint 90 * DTOR) [no_turn; no_turn; no_turn].
Definition SetStitchOptions (mFish : list (FISHEYE F)) (cx cy r ap anglex angley anglez w h : F) (index : Z) : list (FISHEYE F) :=
  if (index <? 0) || (index >? 1) then mFish
  else match mFish !! Z.to_nat index with
  | None => mFish
  | Some f =>
      let t i := nth i (transforms f) no_turn in
      <[Z.to_nat index := mkFish w h cx cy r ap
          [set_turn (t 0%nat) XTILT anglex DTOR; set_turn (t 1%nat) YROLL angley DTOR; set_turn (t 2%nat) ZPAN anglez DTOR]]> mFish
  end.
(** The world map's rectangle. *)
Definition SphereStitch_Evaluate (domain : vec2 F) : KSVec3 F :=
  let u := vx domain in let v := vy domain in
  mkVec (fint 2 * fpi * u / fint 360 - fpi) (fpi / fint 2 - fpi * v / fint 180) (- dec 95 1000).
Definition SphereStitch_EvaluateCoord (domain : vec2 F) : vec2 F := mkVec2 0 0.
End World.

(** ** The stitched sphere (SphereStitch2) *)

Record DISTORTIONLIST (F : Type) := mkEntry {
  d_mdistortion : Z; d_count : Z; d_half : F;
  d_vertexBuffer : Z; d_vertexSize : Z; d_TextureCoordBuffer : Z; d_TextureCoordSize : Z;
  d_triangleIndexCount : Z; d_blending : F
}.
Arguments mkEntry {F} _ _ _ _ _ _ _ _ _.
Arguments d_mdistortion {F} _. Arguments d_count {F} _. Arguments d_half {F} _.
Arguments d_vertexBuffer {F} _. Arguments d_vertexSize {F} _. Arguments d_TextureCoordBuffer {F} _.
Arguments d_TextureCoordSize {F} _. Arguments d_triangleIndexCount {F} _. Arguments d_blending {F} _.

Record crystal (F : Type) := mkCrystal {
  m_radius : F; mCenter : list (vec2 F); mRotateAngle : list (KSVec3 F); mTexAspect : F; mCircle_radius : list F;
  mdistortion : Z; mdistortion_count : Z; mdistortion_half_height : F; mBlending : F;
  mDistList : list (DISTORTIONLIST F); mSingle : bool; mMode : Z; mScreenMode : Z; bufs : buffers
}.
Arguments mkCrystal {F} _ _ _ _ _ _ _ _ _ _ _ _ _ _.
Arguments m_radius {F} _. Arguments mCenter {F} _. Arguments mRotateAngle {F} _. Arguments mTexAspect {F} _.
Arguments mCircle_radius {F} _. Arguments mdistortion {F} _. Arguments mdistortion_count {F} _.
Arguments mdistortion_half_height {F} _. Arguments mBlending {F} _. Arguments mDistList {F} _. Arguments mSingle {F} _.
Arguments mMode {F} _. Arguments mScreenMode {F} _. Arguments bufs {F} _.

Section Crystal.
Context {F : Type} `{Scalar F, Trig F, Whole F}.
Local Open Scope scalar_scope.

Definition set_table (s : crystal F) (p c : Z) (h b : F) (l : list (DISTORTIONLIST F)) : crystal F :=
  mkCrystal (m_radius s) (mCenter s) (mRotateAngle s) (mTexAspect s) (mCircle_radius s) p c h b l (mSingle s) (mMode s)
    (mScreenMode s) (bufs s).
Definition set_bufs (s : crystal F) (l : list (DISTORTIONLIST F)) (b : buffers) : crystal F :=
  mkCrystal (m_radius s) (mCenter s) (mRotateAngle s) (mTexAspect s) (mCircle_radius s) (mdistortion s) (mdistortion_count s)
    (mdistortion_half_height s) (mBlending s) l (mSingle s) (mMode s) (mScreenMode s) b.
Definition set_lens (s : crystal F) (c : list (vec2 F)) (r : list (KSVec3 F)) (q : list F) : crystal F :=
  mkCrystal (m_radius s) c r (mTexAspect s) q (mdistortion s) (mdistortion_count s) (mdistortion_half_height s)
    (mBlending s) (mDistList s) (mSingle s) (mMode s) (mScreenMode s) (bufs s).
Definition set_modes (s : crystal F) (single : bool) (mode screen : Z) : crystal F :=
  mkCrystal (m_radius s) (mCenter s) (mRotateAngle s) (mTexAspect s) (mCircle_radius s) (mdistortion s) (mdistortion_count s)
    (mdistortion_half_height s) (mBlending s) (mDistList s) single mode screen (bufs s).

(** GetCurrentDistortion: the first entry for the address [dist]. *)
Definition GetCurrentDistortion (s : crystal F) (dist : Z) : option nat :=
  fst <$> list_find (fun d => d_mdistortion d = dist) (mDistList s).

Definition read_table (hp : heap F) (p i : Z) : outcome (DISTORTION_NUM F) :=
  match hp !! p with
  | Some t => match znth t i with Some d => Done d | None => Fault end
  | None => Fault
  end.

Definition SetDistortion (hp : heap F) (s : crystal F) (pdist dist_count : Z) (half : F) : outcome (crystal F) :=
  if pdist =? 0 then Done s
  else
    let* last := read_table hp pdist (dist_count - 1) in
    let blending := - fcos (rad (angle last)) in
    let l :=
      match GetCurrentDistortion s pdist with
      | Some _ => mDistList s
      | None => mDistList s ++ [mkEntry pdist dist_count half 0 0 0 0 0 blending]
      end in
    Done (set_table s pdist dist_count half blending l).

Definition SetFishEyeParameter (s : crystal F) (cx cy r anglex angley anglez : F) (index : Z) : crystal F :=
  if (index <? 0) || (index >? 1) then s
  else
    let i := Z.to_nat index in
    set_lens s (<[i := mkVec2 cx cy]> (mCenter s)) (<[i := mkVec anglex angley (anglez + fint 180)]> (mRotateAngle s))
      (<[i := r]> (mCircle_radius s)).
Definition SetSingleMode (s : crystal F) (single : bool) : crystal F :=
  set_modes s single (mMode s) (if single then 1 (* SCRN_HEMISPHERE *) else 18 (* SCRN_STITCH2 *))%Z.
Definition SetTextureAspect (s : crystal F) (aspect : F) : crystal F :=
  mkCrystal (m_radius s) (mCenter s) (mRotateAngle s) aspect (mCircle_radius s) (mdistortion s) (mdistortion_count s)
    (mdistortion_half_height s) (mBlending s) (mDistList s) (mSingle s) (mMode s) (mScreenMode s) (bufs s).

(** The constructor; the distortion is set later. *)
Definition SphereStitch2 (r : F) : crystal F :=
  mkCrystal r [mkVec2 (- dec 87 100) (dec 1 100); mkVec2 (dec 80 100) (dec 4 100)] [mkVec 0 0 0; mkVec 0 0 0] (fint 2)
    [dec 80 100; dec 80 100] 0 0 0 0 [] false 0 18 no_buffers.

(** Row [j] of the mesh is entry [j] of the table. *)
Definition crystal_Evaluate (hp : heap F) (s : crystal F) (domain : vec2 F) : outcome (KSVec3 F) :=
  let* j := ftoi (vy domain) in
  let* d := read_table hp (mdistortion s) j in
  let u := vx domain in let v := angle d in
  Done (mkVec (m_radius s * fcos (rad u) * fsin (rad v)) (m_radius s * fsin (rad u) * fsin (rad v))
              (- m_radius s * fcos (rad v))).
Definition crystal_EvaluateCoord (hp : heap F) (s : crystal F) (domain : vec2 F) : outcome (vec2 F) :=
  let* j := ftoi (vy domain) in
  let* d := read_table hp (mdistortion s) j in
  let u := vx domain in let v := half_height d / mdistortion_half_height s in
  Done (mkVec2 (fcos (rad u) / fint 2 * v + dec 1 2) (1 - (fsin (rad u) / fint 2 * v + dec 1 2))).

(** The cells: [i] from 3 below 363 by 3, [j] from 1 below the count by 1. *)
Definition crystal_cells (count : Z) : list (Z * Z) :=
  flat_map (fun j => map (fun i => (i, j)) (progression 3 3 120)) (progression 1 1 (Z.to_nat (count - 1))).
Definition crystal_corner (i j : Z) (c : bool * bool) : vec2 F :=
  ComputeDomain (fint (if fst c then i - 3 else i)) (fint (if snd c then j - 1 else j)).
Definition crystal_points (count : Z) : list (vec2 F) :=
  flat_map (fun c => map (crystal_corner (fst c) (snd c)) corners) (crystal_cells count).
(** GenerateVertices, with the arrays SetupBuffer allocates: a negative size throws, and on
    the 32-bit ABI that is built one of two gigabytes or more does; the products are ints,
    and those of smaller sizes do not overflow. *)
Definition crystal_filled (hp : heap F) (s : crystal F) : outcome (list (KSVec3 F) * list (vec2 F) * Z) :=
  let vBufSize := ((mdistortion_count s - 1) * 6 * GetVertexSize * 120)%Z in
  let vCount := ((mdistortion_count s - 1) * 6 * 120)%Z in
  let vCoorBufSize := ((mdistortion_count s - 1) * 6 * GetCoordSize * 120)%Z in
  if ((vBufSize <? 0) || (2 ^ 31 <=? 4 * vBufSize))%Z then Fault
  else
    let points := crystal_points (mdistortion_count s) in
    let* vs := mapO (crystal_Evaluate hp s) points in
    let* ts := mapO (crystal_EvaluateCoord hp s) points in
    if ((zlen vs * GetVertexSize <=? vBufSize) && (zlen ts * GetCoordSize <=? vCoorBufSize))%Z
    then Done (vs, ts, vCount) else Fault.

Section Draw.
Variable alloc : gl F -> Z.

(** SetupBuffer: the old buffers are deleted after the new ones are made. *)
Definition crystal_SetupBuffer (hp : heap F) (g : gl F) (s : crystal F) : outcome (gl F * buffers) :=
  let* '(vbuf, vcoordbuf, vCount) := crystal_filled hp s in
  let b := bufs s in
  let '(lvb, g) := uploaded alloc g (Vertices vbuf (vCount * GetVertexSize)) in
  let '(CoordBuffer, g) := uploaded alloc g (Coords vcoordbuf (vCount * GetCoordSize)) in
  let g := if negb (vertexBuffer b =? 0) then glDeleteBuffers g (vertexBuffer b) else g in
  let g := if negb (TextureCoordBuffer b =? 0) then glDeleteBuffers g (TextureCoordBuffer b) else g in
  Done (g, mkBuffers lvb CoordBuffer lvb GetVertexSize vCount GetCoordSize).

(** DrawSelf: the entry of the table set last either gets buffers or lends those it has. *)
Definition crystal_DrawSelf (hp : heap F) (g : gl F) (s : crystal F) (index : Z) (Visible : bool)
    : outcome (gl F * crystal F * list (KSVec3 F * vec2 F)) :=
  match GetCurrentDistortion s (mdistortion s) with
  | None => Done (g, s, [])
  | Some lindex =>
      match mDistList s !! lindex with
      | None => Fault
      | Some d =>
          let* '(g, s) :=
            if d_TextureCoordBuffer d =? 0 then
              let* '(g, b) := crystal_SetupBuffer hp g s in
              let d := mkEntry (d_mdistortion d) (d_count d) (d_half d) (vertexBuffer b) (vertexSize b)
                         (TextureCoordBuffer b) (TextureCoordSize b) (triangleIndexCount b) (d_blending d) in
              Done (g, set_bufs s (<[lindex := d]> (mDistList s)) b)
            else
              let b := bufs s in
              Done (g, set_bufs s (mDistList s)
                         (mkBuffers (d_vertexBuffer d) (d_TextureCoordBuffer d) (lvb b) (vertexSize b)
                            (d_triangleIndexCount d) (TextureCoordSize b))) in
          let s := set_modes s (mSingle s) (if mSingle s then 0 else index) (mScreenMode s) in
          if negb Visible then Done (g, s, [])
          else match znth (mRotateAngle s) (mMode s) with
          | None => Fault
          | Some _ => let* l := DrawSelf g (bufs s) Visible in Done (g, s, l)
          end
      end
  end.
End Draw.

(** The matrices: the turn of the lens is added to the turn asked for. *)
Definition crystal_transform (view : option F) (m_aspect zoom : F) (pos scale rot : KSVec3 F) (s : crystal F)
    : outcome (KSMatrix4 F * KSMatrix4 F) :=
  match znth (mRotateAngle s) (mMode s) with
  | None => Fault
  | Some a =>
      let tmprotate := mkVec (x rot + x a) (y rot + y a) (z rot + z a) in
      let rotation := ksMatrixMultiply ksMatrixLoadIdentity (turned tmprotate) in
      let model := moved zoom pos in
      let rotation :=
        if (negb (mScreenMode s =? 2) && negb (mScreenMode s =? 0x102))%Z then rotation
        else ksScale rotation (x scale) (y scale) (z scale) in
      Done (perspective (default (fint 60) view) (x scale) m_aspect (dec 1 10), ksMatrixMultiply rotation model)
  end.
End Crystal.

(** ** Both together (SphereStitchImp) *)

Definition STITCH_MODE_CRYSTALBALL : Z := 0.
Definition STITCH_MODE_WORLDMAP : Z := 1.
Definition STITCH_MODE_WORLDMAP_EXT : Z := 2.

Record stitch (F : Type) := mkStitch {
  mStitchMode : Z; ball : crystal F; mDistortion : list F; mHalf_Height : F; mFish : list (FISHEYE F);
  world_blending : F; one_type : Z
}.
Arguments mkStitch {F} _ _ _ _ _ _ _.
Arguments mStitchMode {F} _. Arguments ball {F} _. Arguments mDistortion {F} _. Arguments mHalf_Height {F} _.
Arguments mFish {F} _. Arguments world_blending {F} _. Arguments one_type {F} _.

Section Both.
Context {F : Type} `{Scalar F, Trig F, Whole F}.
Local Open Scope scalar_scope.

Definition SphereStitchImp : stitch F :=
  mkStitch STITCH_MODE_CRYSTALBALL (SphereStitch2 (dec 15 10)) (replicate DISTORTION_SIZE 0) 0 [no_fish; no_fish] 0 2.

Definition stitch_SetDistortion (hp : heap F) (s : stitch F) (pdist dist_count : Z) (half : F) : outcome (stitch F) :=
  let* b := SetDistortion hp (ball s) pdist dist_count half in
  let* w := world_SetDistortion (default [] (hp !! pdist)) dist_count in
  Done (mkStitch (mStitchMode s) b w half (mFish s) (world_blending s) (one_type s)).
Definition stitch_SetFishEyeParameter (s : stitch F) (cx cy r anglex angley anglez w h : F) (index : Z) : stitch F :=
  let b := SetFishEyeParameter (ball s) cx cy r anglex angley anglez index in
  let fabs a := if fltb a 0 then - a else a in
  let lz := if (index =? 0)%Z then fint 90 + (fabs anglez - fint 90) else - fint 90 - (fabs anglez - fint 90) in
  mkStitch (mStitchMode s) b (mDistortion s) (mHalf_Height s)
    (SetStitchOptions (mFish s) cx cy r (fint 195 * DTOR / fint 2) anglex lz angley w h index) (fint 8) (one_type s).
Definition SetMode (s : stitch F) (mode vertex_mode : Z) : stitch F :=
  mkStitch mode (ball s) (mDistortion s) (mHalf_Height s) (mFish s) (world_blending s) vertex_mode.
(** VertexObjectImpl::DrawSelf, dual lens: the mode of a window chooses the screen. *)
Definition window_mode (s : stitch F) (item_mode : Z) : stitch F :=
  if ((item_mode =? 1) || (item_mode =? 2))%Z then SetMode s STITCH_MODE_WORLDMAP_EXT item_mode
  else if (item_mode =? 3)%Z then SetMode s STITCH_MODE_WORLDMAP item_mode
  else SetMode s STITCH_MODE_CRYSTALBALL item_mode.
(** What is drawn: the stitched sphere, or the mesh [one_type] with the world map on it. *)
Definition stitch_DrawSelf alloc (hp : heap F) (g : gl F) (s : stitch F) (index : Z) (Visible : bool)
    : outcome (gl F * stitch F * (list (KSVec3 F * vec2 F) + Z)) :=
  if (mStitchMode s =? STITCH_MODE_CRYSTALBALL)%Z then
    let* '(g, b, l) := crystal_DrawSelf alloc hp g (ball s) index Visible in
    Done (g, mkStitch (mStitchMode s) b (mDistortion s) (mHalf_Height s) (mFish s) (world_blending s) (one_type s), inl l)
  else Done (g, s, inr (one_type s)).

(** ParametricManager::SetDistortion: [dist_size] in bytes, 8 for an entry. *)
Definition manager_SetDistortion (hp : heap F) (s : stitch F) (pdist dist_size : Z) : outcome (stitch F) :=
  if (pdist =? 0)%Z then Done s
  else if (dist_size =? 0)%Z then Done s
  else
    let dist_cnt := cdiv dist_size 8 in
    let* last_dist := read_table hp pdist (dist_cnt - 1) in
    stitch_SetDistortion hp s pdist dist_cnt (half_height last_dist).
End Both.

(** ** The world map's table *)

Section Table.
Local Open Scope R_scope.

(** The line between two entries, and the table read as a piecewise linear function: the
    first pair of neighbours around [a]. *)
Definition line (p q : DISTORTION_NUM R) (a : R) : R :=
  half_height p + (half_height q - half_height p) / (angle q - angle p) * (a - angle p).
Fixpoint interpolate (l : list (DISTORTION_NUM R)) (a : R) : R :=
  match l with
  | p :: (q :: _) as l => if Rle_dec (angle p) a then if Rlt_dec a (angle q) then line p q a else interpolate l a else interpolate l a
  | _ => 0
  end.

Lemma span_spec p q (room a : nat) t :
  length t = 115%nat -> (room = 115 - a)%nat -> (a <= 115)%nat -> angle p <= INR a ->
  (angle q <= 115 -> exists t' a', span room a p q t = Done (t', a') /\ length t' = 115%nat /\ (a <= a' <= 115)%nat /\
     angle q <= INR a' /\ forall k, nth k t' 0 = if decide (a <= k < a')%nat then line p q (INR k) else nth k t 0) /\
  (115 < angle q -> span room a p q t = Fault) /\
  (forall t' a', span room a p q t = Done (t', a') -> forall k, (a <= k < a')%nat -> angle p <= INR k < angle q).
Proof.
  revert a t; induction room as [|room IH]; intros a t Lt Hr Ha Hp; cbn [span].
  all: cbn [ge_ fleb fltb fint R_Scalar R_Whole]; unfold ge_; cbn [fleb R_Scalar]; rewrite <- INR_IZR_INZ.
  all: destruct (Rle_dec (angle p) (INR a)) as [_|]; [|done]; cbn [andb].
  - assert (a = 115%nat) as -> by lia; replace (INR 115) with 115 by (cbn; lra).
    destruct (Rlt_dec 115 (angle q)) as [Hq|Hq].
    + split_and!; [intros; lra|done|done].
    + split_and!; [|intros; lra|intros ? ? [= <- <-] k; lia].
      intros _; exists t, 115%nat; split_and!; [done|done|lia|lia|cbn; lra|].
      intros k; by rewrite decide_False by lia.
  - destruct (Rlt_dec (INR a) (angle q)) as [Hq|Hq].
    2:{ split_and!; [|intros; apply (le_INR a 115) in Ha; replace (INR 115) with 115 in Ha by (cbn; lra); lra
          |intros ? ? [= <- <-] k; lia].
        intros _; exists t, a; split_and!; [done|done|lia|lia|lra|]; intros k; by rewrite decide_False by lia. }
    unfold put; replace (a <? length t)%nat with true by (symmetry; apply Nat.ltb_lt; lia); cbn [obind].
    set (v := fadd _ _); destruct (IH (S a) (<[a := v]> t)) as (H1 & H2 & H3);
      [by rewrite length_insert|lia|lia|rewrite S_INR; lra|]; split_and!.
    + intros Hle; destruct (H1 Hle) as (t' & a' & -> & L' & Ha' & Hq' & K); exists t', a'; split_and!; try (done || lia).
      intros k; rewrite K, nth_insert by lia; destruct (decide (k = a)) as [->|Hne].
      * rewrite decide_False, decide_True by lia; done.
      * destruct (decide (a <= k < a')%nat); [by rewrite decide_True by lia|by rewrite decide_False by lia].
    + done.
    + intros t' a' E k Hk; destruct (decide (k = a)) as [->|Hne]; [lra|]; apply (H3 t' a' E); lia.
Qed.

Lemma spans_cons (p q : DISTORTION_NUM R) l a t : spans a (p :: q :: l) t = let* '(t, a) := span (DISTORTION_SIZE - a) a p q t in spans a (q :: l) t.
Proof. done. Qed.
Lemma interpolate_cons (p q : DISTORTION_NUM R) l a : interpolate (p :: q :: l) a =
  if Rle_dec (angle p) a then if Rlt_dec a (angle q) then line p q a else interpolate (q :: l) a else interpolate (q :: l) a.
Proof. done. Qed.
Lemma spans_spec l p (a : nat) t : length t = 115%nat -> (a <= 115)%nat -> angle p <= INR a ->
  (forall k, (a <= k)%nat -> nth k t 0 = 0) ->
  (Forall (fun q => angle q <= 115) l -> exists t', spans a (p :: l) t = Done t' /\ length t' = 115%nat /\
     forall k, nth k t' 0 = if decide (a <= k)%nat then
        if decide (k < 115)%nat then interpolate (p :: l) (INR k) else 0 else nth k t 0) /\
  (Exists (fun q => 115 < angle q) l -> spans a (p :: l) t = Fault).
Proof.
  revert p a t; induction l as [|q l IH]; intros p a t Lt Ha Hp Hz.
  - split; [intros _; exists t; split_and!; [done|done|]; intros k; case_decide; [rewrite Hz by done; by case_decide|done]|].
    intros []%Exists_nil.
  - rewrite spans_cons; destruct (span_spec p q (DISTORTION_SIZE - a) a t Lt eq_refl Ha Hp) as (H1 & H2 & H3).
    destruct (Rle_dec (angle q) 115) as [Hq|Hq].
    2:{ split; [intros [Hq' _]%Forall_cons; lra|]; intros _; by rewrite H2 by lra. }
    destruct (H1 Hq) as (t1 & a1 & E & L1 & Ha1 & Hq1 & K); rewrite E; cbn [obind].
    destruct (IH q a1 t1 L1 ltac:(lia) Hq1) as [I1 I2].
    { intros k Hk; rewrite K, decide_False by lia; apply Hz; lia. }
    split; [|intros [?|?]%Exists_cons; [lra|by apply I2]].
    intros [_ Hl]%Forall_cons; destruct (I1 Hl) as (t' & -> & L' & K'); exists t'; split_and!; [done|done|].
    intros k; rewrite K'; destruct (decide (a1 <= k)%nat) as [Hk|Hk].
    + destruct (decide (a <= k)%nat); [|lia]; destruct (decide (k < 115)%nat); [|done].
      assert (angle q <= INR k) as Hqk by (apply Rle_trans with (INR a1); [done|by apply le_INR]).
      rewrite interpolate_cons; destruct (Rle_dec (angle p) (INR k)); [|done]; destruct (Rlt_dec (INR k) (angle q)); [lra|done].
    + rewrite K; destruct (decide (a <= k)%nat) as [Hak|Hak].
      * rewrite !decide_True by lia; destruct (H3 _ _ E k ltac:(lia)) as [B1 B2]; rewrite interpolate_cons.
        destruct (Rle_dec (angle p) (INR k)); [|lra]; destruct (Rlt_dec (INR k) (angle q)); [done|lra].
      * by rewrite decide_False by lia.
Qed.

Lemma world_table l n : (2 <= n)%Z -> zlen l = n ->
  (exists p, l !! O = Some p /\ angle p <= 1) ->
  (Forall (fun q => angle q <= 115) (tail l) -> exists t, world_SetDistortion l n = Done t /\ length t = 115%nat /\
     forall k, (k < 115)%nat -> nth k t 0 = if decide (k = O) then 0 else interpolate l (INR k)) /\
  (Exists (fun q => 115 < angle q) (tail l) -> world_SetDistortion l n = Fault).
Proof.
  intros Hn Hl (p & Hp & Hp1); destruct l as [|p' l]; [done|]; injection Hp as ->; unfold world_SetDistortion.
  replace (n <=? 1)%Z with false by lia; replace (zlen (p :: l) <? n)%Z with false by lia.
  rewrite take_ge by (unfold zlen in Hl; lia); cbn [tail].
  assert (length (replicate DISTORTION_SIZE 0) = 115%nat) as Lr by apply length_replicate.
  assert (forall k, nth k (replicate DISTORTION_SIZE 0) 0 = 0) as Z0.
  { intros k; rewrite nth_lookup; destruct (replicate _ _ !! k) eqn:E; [|done]; by apply lookup_replicate in E as [-> _]. }
  destruct (spans_spec l p 1 (replicate DISTORTION_SIZE 0) Lr ltac:(lia)) as [H1 H2]; [cbn; lra|by intros|].
  split; [|exact H2]; intros Hf; destruct (H1 Hf) as (t & E & L & K); exists t; split_and!; [exact E|done|].
  intros k Hk; rewrite K; destruct (decide (k = O)) as [->|]; [by rewrite decide_False by lia|].
  by rewrite !decide_True by lia.
Qed.

(** Nothing is filled when the table starts beyond one degree. *)
Lemma world_table_late l n : zlen l = n -> Forall (fun q => 1 < angle q) l ->
  world_SetDistortion l n = Done (replicate DISTORTION_SIZE 0).
Proof.
  intros Hl Hf; unfold world_SetDistortion; destruct (n <=? 1)%Z; [done|]; replace (zlen l <? n)%Z with false by lia.
  rewrite take_ge by (unfold zlen in Hl; lia); change (@fint R _ 0%Z) with 0; generalize (replicate DISTORTION_SIZE 0); intros t.
  clear Hl; induction l as [|p l IH]; [done|]; destruct l as [|q l]; [done|]; rewrite spans_cons.
  apply Forall_cons in Hf as [Hp Hf].
  assert (span (DISTORTION_SIZE - 1) 1 p q t = Done (t, 1%nat)) as ->; [|by apply IH].
  cbn [span DISTORTION_SIZE Nat.sub]; unfold ge_; cbn [fleb fint R_Scalar R_Whole].
  destruct (Rle_dec (angle p) (IZR (Z.of_nat 1))) as [Hle|]; [change (Z.of_nat 1) with 1%Z in Hle; lra|done].
Qed.
End Table.

(** ** A table set *)

Section SetTable.
Context {F : Type} `{HS : Scalar F, HT : Trig F, HW : Whole F}.

Lemma find_app (l : list (DISTORTIONLIST F)) d p : d_mdistortion d = p ->
  list_find (fun e => d_mdistortion e = p) l = None ->
  exists e, list_find (fun e => d_mdistortion e = p) (l ++ [d]) = Some (length l, e) /\ e = d.
Proof.
  intros Hd Hn; exists d; split; [|done]; rewrite list_find_app_r by done; cbn [list_find]; rewrite decide_True by done.
  done.
Qed.

(** The screen after SetDistortion: the table is current and has an entry, the first for its
    address, which is a new one without buffers unless there was one. *)
Lemma set_spec hp (s : crystal F) p n half t d :
  p <> 0 -> hp !! p = Some t -> znth t (n - 1) = Some d ->
  exists l, SetDistortion hp s p n half = Done (set_table s p n half (fopp (fcos (rad (angle d)))) l) /\
    match list_find (fun e => d_mdistortion e = p) (mDistList s) with
    | Some _ => l = mDistList s
    | None => exists b, l = mDistList s ++ [mkEntry p n half 0 0 0 0 0 b]
    end.
Proof.
  intros Hp Ht Hd; unfold SetDistortion, read_table; replace (p =? 0) with false by lia; rewrite Ht, Hd; cbn [obind].
  eexists; split; [reflexivity|]; unfold GetCurrentDistortion; destruct (list_find _ _) as [[i e]|]; cbn [fmap option_fmap option_map]; eauto.
Qed.
End SetTable.

(** C30: a lens table of [n >= 2] entries from the device ends up as follows.  Without a table, or
    with one of no bytes, nothing changes; a rest smaller than an entry makes the code read
    before the table.  Otherwise the table becomes current in the stitched sphere, and the
    world map's array of 115 whole degrees is the piecewise linear function of the table,
    provided it starts at most at one degree; the screen's half height is that of the last
    entry.  An entry beyond 115 degrees makes it write past the array: the angles are not
    checked. *)
Theorem manager_distortion hp (s : stitch R) p n t :
  p <> 0 -> hp !! p = Some t -> zlen t = n -> 2 <= n -> (exists d, t !! O = Some d /\ (angle d <= 1)%R) ->
  (forall size, manager_SetDistortion hp s 0 size = Done s) /\ manager_SetDistortion hp s p 0 = Done s /\
  (forall size, 0 < size < 8 -> manager_SetDistortion hp s p size = Fault) /\
  (Forall (fun d => angle d <= 115)%R (tail t) -> exists s' d, manager_SetDistortion hp s p (8 * n) = Done s' /\
     mdistortion (ball s') = p /\ mdistortion_count (ball s') = n /\ GetCurrentDistortion (ball s') p <> None /\
     t !! Z.to_nat (n - 1) = Some d /\ mHalf_Height s' = half_height d /\ length (mDistortion s') = 115%nat /\
     forall k, (k < 115)%nat -> nth k (mDistortion s') 0%R = if decide (k = O) then 0%R else interpolate t (INR k)) /\
  (Exists (fun d => 115 < angle d)%R (tail t) -> manager_SetDistortion hp s p (8 * n) = Fault).
Proof.
  intros Hp Ht Hl Hn Hd; unfold manager_SetDistortion; cbn [Z.eqb].
  destruct (lookup_lt_is_Some_2 t (Z.to_nat (n - 1))) as [d Hld]; [unfold zlen in Hl; lia|].
  assert (znth t (n - 1) = Some d) as Hz by (unfold znth; by replace (n - 1 <? 0) with false by lia).
  replace (p =? 0) with false by lia; replace (8 * n =? 0) with false by lia.
  replace (cdiv (8 * n) 8) with n by (unfold cdiv; rewrite Z.mul_comm, Z.quot_mul by lia; done).
  split_and!; [done|done| | |].
  - intros size Hs; replace (size =? 0) with false by lia.
    replace (cdiv size 8) with 0 by (unfold cdiv; rewrite Z.quot_small by lia; done).
    unfold read_table; by rewrite Ht.
  - intros Hf; unfold read_table, stitch_SetDistortion; rewrite Ht, Hz; cbn [obind from_option id].
    destruct (set_spec hp (ball s) p n (half_height d) t d Hp Ht Hz) as (l & -> & Hlf); cbn [obind from_option id].
    destruct (proj1 (world_table t n Hn Hl Hd) Hf) as (w & -> & Lw & Kw); cbn [obind].
    eexists _, d; split; [reflexivity|]; cbn [ball mDistortion mHalf_Height set_table mdistortion mdistortion_count]; split_and!; try done.
    unfold GetCurrentDistortion; cbn [set_table mDistList].
    destruct (list_find _ (mDistList s.(ball))) as [[i e]|] eqn:E.
    + by rewrite Hlf, E.
    + destruct Hlf as [b ->]; destruct (find_app (mDistList (ball s)) (mkEntry p n (half_height d) 0 0 0 0 0 b) p eq_refl E) as (e & -> & _); done.
  - intros Hf; unfold read_table, stitch_SetDistortion; rewrite Ht, Hz; cbn [obind from_option id].
    destruct (set_spec hp (ball s) p n (half_height d) t d Hp Ht Hz) as (l & -> & _); cbn [obind from_option id].
    by rewrite (proj2 (world_table t n Hn Hl Hd) Hf).
Qed.
Lemma manager_distortion_witness :
  exists s', manager_SetDistortion {[ 1 := [mkDist 0 0; mkDist 90 400; mkDist 110 500]%R ]} SphereStitchImp 1 24 = Done s' /\
    nth 45 (mDistortion s') 0%R = 200%R.
Proof.
  pose (t := [mkDist 0 0; mkDist 90 400; mkDist 110 500]%R).
  destruct (manager_distortion {[ 1 := t ]} SphereStitchImp 1 3 t ltac:(lia) (lookup_singleton_eq _ _) eq_refl ltac:(lia)) as (_ & _ & _ & H & _).
  { exists (mkDist 0 0)%R; split; [done|cbn; lra]. }
  destruct H as (s' & d & E & _ & _ & _ & _ & _ & _ & K); [repeat constructor; cbn; lra|].
  exists s'; split; [exact E|]; rewrite (K 45%nat) by lia; rewrite decide_False by lia; unfold t; rewrite interpolate_cons; cbn [angle].
  replace (INR 45) with 45%R by (cbn; lra); destruct (Rle_dec _ _); [|lra]; destruct (Rlt_dec _ _); [|lra].
  unfold line; cbn [angle half_height]; lra.
Defined.

(** A turn once set stays when the device sends zero: SetStitchOptions leaves it. *)
Theorem turns_stick (f0 f1 : FISHEYE R) c d r ap a y z w h a' y' z' :
  a <> 0%R -> a' = 0%R ->
  exists f, SetStitchOptions (SetStitchOptions [f0; f1] c d r ap a y z w h 0) c d r ap a' y' z' w h 0 = [f; f1] /\
    value (nth 0 (transforms f) no_turn) = (a * DTOR)%R.
Proof.
  intros Ha ->; unfold SetStitchOptions; cbn -[nonzero set_turn DTOR IZR]; eexists; split; [reflexivity|].
  cbn [transforms nth]; unfold set_turn, nonzero at 1; rewrite feq_true by done; cbn [negb].
  unfold nonzero; by rewrite feq_false.
Qed.
Lemma turns_stick_witness :
  exists f, SetStitchOptions (SetStitchOptions [no_fish; no_fish] 0%R 0%R 1%R 1%R 5%R 0%R 0%R 1%R 1%R 0)
              0%R 0%R 1%R 1%R 0%R 0%R 0%R 1%R 1%R 0 = [f; no_fish] /\
    value (nth 0 (transforms f) no_turn) = (5 * DTOR)%R.
Proof. apply (turns_stick no_fish no_fish 0 0 1 1 5 0 0 1 1 0 0 0); lra. Defined.

(** ** The mesh of a table *)

Lemma mapO_done {A B} (f : A -> outcome B) (g : A -> B) l : (forall x, x ∈ l -> f x = Done (g x)) -> mapO f l = Done (map g l).
Proof.
  intros H; induction l as [|x l IH]; [done|]; cbn [mapO map]; rewrite H by (by left); cbn [obind].
  by rewrite IH by (intros; apply H; by right).
Qed.

(** The entry of a row, and what it is evaluated to. *)
Definition row {F} `{Scalar F} (t : list (DISTORTION_NUM F)) (j : Z) : DISTORTION_NUM F := default (mkDist fzero fzero) (znth t j).
Definition sphere_point {F} `{Scalar F, Trig F, Whole F} (s : crystal F) (u : F) (d : DISTORTION_NUM F) : KSVec3 F :=
  mkVec (m_radius s * fcos (rad u) * fsin (rad (angle d)))%sc (m_radius s * fsin (rad u) * fsin (rad (angle d)))%sc
        (- m_radius s * fcos (rad (angle d)))%sc.
Definition lens_point2 {F} `{Scalar F, Trig F, Whole F} (s : crystal F) (u : F) (d : DISTORTION_NUM F) : vec2 F :=
  let v := (half_height d / mdistortion_half_height s)%sc in
  mkVec2 (fcos (rad u) / fint 2 * v + dec 1 2)%sc (1 - (fsin (rad u) / fint 2 * v + dec 1 2))%sc.

Section Filled.
Context {F : Type} `{HS : Scalar F, HT : Trig F, HW : Whole F} `{!WholeLaws F}.

(** The points as pairs of integers. *)
Definition grid_points (count : Z) : list (Z * Z) :=
  flat_map (fun c => map (fun b : bool * bool => (if fst b then fst c - 3 else fst c, if snd b then snd c - 1 else snd c)) corners)
    (crystal_cells count).
Lemma crystal_points_grid count : crystal_points (F := F) count = map (fun c => mkVec2 (fint (fst c)) (fint (snd c))) (grid_points count).
Proof.
  unfold crystal_points, grid_points; induction (crystal_cells count) as [|[i j] l IH]; [done|].
  cbn [flat_map]; rewrite map_app, IH; f_equal.
Qed.
Lemma grid_points_range count c : 0 < count -> c ∈ grid_points count -> 0 <= fst c <= 360 /\ 0 <= snd c < count.
Proof.
  intros Hc; unfold grid_points; rewrite list_elem_of_In, in_flat_map; intros ([i j] & Hin & Hb).
  unfold crystal_cells in Hin; apply in_flat_map in Hin as (j' & Hj & (i' & [= -> ->] & Hi)%in_map_iff).
  apply list_elem_of_In, elem_progression in Hi as (k & Hk & ->), Hj as (l & Hl & ->).
  apply in_map_iff in Hb as ([a b] & <- & _); cbn [fst snd]; destruct a, b; lia.
Qed.
Lemma grid_points_length count : 1 <= count -> zlen (grid_points count) = (count - 1) * 6 * 120.
Proof.
  intros Hc; unfold grid_points, zlen; rewrite (flat_map_const _ _ 6) by (intros; by rewrite length_map).
  unfold crystal_cells; rewrite (flat_map_const _ _ 120) by (intros; by rewrite length_map, progression_length).
  rewrite progression_length; lia.
Qed.

(** The most entries whose arrays can be allocated. *)
Definition MAX_ENTRIES : Z := 248552.
Lemma crystal_filled_spec hp s t :
  hp !! mdistortion s = Some t -> mdistortion_count s <= zlen t -> 1 <= mdistortion_count s <= MAX_ENTRIES ->
  let eval {A} (f : crystal F -> F -> DISTORTION_NUM F -> A) :=
    map (fun c => f s (fint (fst c)) (row t (snd c))) (grid_points (mdistortion_count s)) in
  crystal_filled hp s = Done (eval sphere_point, eval lens_point2, (mdistortion_count s - 1) * 6 * 120).
Proof.
  intros Ht Hl Hc eval; unfold crystal_filled, GetVertexSize, GetCoordSize, MAX_ENTRIES in *.
  replace (_ || _) with false by lia; rewrite crystal_points_grid.
  assert (forall c, c ∈ grid_points (mdistortion_count s) ->
    read_table hp (mdistortion s) (snd c) = Done (row t (snd c)) /\ ftoi (fint (F := F) (snd c)) = Done (snd c)) as H.
  { intros c [_ Hr]%grid_points_range; [|lia]; split; [|apply ftoi_int; lia]; unfold read_table, row; rewrite Ht.
    unfold znth; replace (snd c <? 0) with false by lia.
    destruct (lookup_lt_is_Some_2 t (Z.to_nat (snd c))) as [d ->]; [unfold zlen in Hl; lia|done]. }
  rewrite (mapO_done _ (fun d => match ftoi (vy d) with Done j => sphere_point s (vx d) (row t j) | _ => mkVec fzero fzero fzero end)).
  2:{ intros d [c [-> Hc']]%list_elem_of_fmap; unfold crystal_Evaluate; cbn [vx vy]; destruct (H c Hc') as [H1 H2].
      rewrite H2; cbn [obind]; by rewrite H1. }
  cbn [obind].
  rewrite (mapO_done _ (fun d => match ftoi (vy d) with Done j => lens_point2 s (vx d) (row t j) | _ => mkVec2 fzero fzero end)).
  2:{ intros d [c [-> Hc']]%list_elem_of_fmap; unfold crystal_EvaluateCoord; cbn [vx vy]; destruct (H c Hc') as [H1 H2].
      rewrite H2; cbn [obind]; by rewrite H1. }
  cbn [obind]; rewrite !map_map; unfold zlen; rewrite !length_map.
  pose proof (grid_points_length (mdistortion_count s) ltac:(lia)) as L; unfold zlen in L; rewrite L.
  replace (_ && _) with true by lia; unfold eval.
  do 3 f_equal; apply map_ext_in; intros c Hin%list_elem_of_In; cbn [vx vy]; by destruct (H c Hin) as [_ ->].
Qed.
End Filled.

(** The vertex and the texture coordinate at the [u]th degree of the row of an entry. *)
Definition on_lens (s : crystal R) (u : R) (d : DISTORTION_NUM R) (p : KSVec3 R) (c : vec2 R) : Prop :=
  let a := @rad R _ _ _ (angle d) in let rho := (half_height d / mdistortion_half_height s / 2)%R in
  (x p * x p + y p * y p + z p * z p = m_radius s * m_radius s)%R /\ z p = (- m_radius s * cos a)%R /\
  (x p = m_radius s * sin a * cos u)%R /\ (y p = m_radius s * sin a * sin u)%R /\
  (vx c - 1 / 2 = rho * cos u)%R /\ (1 / 2 - vy c = rho * sin u)%R.
Lemma on_lens_point s u d : on_lens s (@rad R _ _ _ u) d (sphere_point s u d) (lens_point2 s u d).
Proof.
  unfold on_lens; pose proof (sin2_cos2' (@rad R _ _ _ u)) as U; pose proof (sin2_cos2' (@rad R _ _ _ (angle d))) as V.
  unfold sphere_point, lens_point2, dec; cbn -[IZR rad Rdiv].
  set (a := rad (angle d)) in *; set (w := rad u) in *.
  set (v := (half_height d / mdistortion_half_height s)%R); split_and!; [|ring|ring|ring|field|field].
  transitivity (m_radius s * m_radius s * (sin a * sin a * (sin w * sin w + cos w * cos w) + cos a * cos a))%R; [ring|].
  rewrite U, Rmult_1_r, V; ring.
Qed.

(** C24: over the reals, the mesh of the stitched sphere is the lens table made geometry, for
    tables of up to 248552 entries, whose arrays a 32-bit process can allocate: the arrays are
    filled, and at every point of the grid of 120 columns, in the order of the cells and of
    their corners, a vertex of row [j] and column [i] lies on the sphere at the angle of entry
    [j] from the lens's axis, on the meridian of [i] degrees, and its texture coordinate on the
    same meridian at the entry's height over the table's half height. *)
Theorem crystal_mesh hp (s : crystal R) t :
  hp !! mdistortion s = Some t -> mdistortion_count s <= zlen t -> 1 <= mdistortion_count s <= MAX_ENTRIES ->
  exists vs ts, crystal_filled hp s = Done (vs, ts, (mdistortion_count s - 1) * 720) /\
    zlen vs = (mdistortion_count s - 1) * 720 /\ zlen ts = (mdistortion_count s - 1) * 720 /\
    forall k p, vs !! k = Some p -> exists i j d c, grid_points (mdistortion_count s) !! k = Some (i, j) /\
      0 <= i <= 360 /\ 0 <= j < mdistortion_count s /\ znth t j = Some d /\ ts !! k = Some c /\
      on_lens s (@rad R _ _ _ (IZR i)) d p c.
Proof.
  intros Ht Hl Hc; pose proof (crystal_filled_spec hp s t Ht Hl Hc) as E.
  do 2 eexists; split; [rewrite E; f_equal; f_equal; lia|].
  split_and!; [unfold zlen; rewrite length_map; fold (zlen (grid_points (mdistortion_count s))); rewrite grid_points_length; lia..|].
  intros k p Hp; apply list_lookup_fmap_Some in Hp as ([i j] & -> & Hq).
  destruct (grid_points_range (mdistortion_count s) (i, j) ltac:(lia) (list_elem_of_lookup_2 _ _ _ Hq)) as [Hi Hj]; cbn [fst snd] in *.
  destruct (lookup_lt_is_Some_2 t (Z.to_nat j)) as [d Hd]; [unfold zlen in Hl; lia|].
  assert (znth t j = Some d) as Hz by (unfold znth; by replace (j <? 0) with false by lia).
  exists i, j, d; eexists; split_and!; [exact Hq|lia..|exact Hz|rewrite list_lookup_fmap, Hq; reflexivity|].
  cbn [fst snd]; unfold row; rewrite Hz; apply on_lens_point.
Qed.

Lemma crystal_mesh_witness :
  exists vs ts, crystal_filled {[ 1 := [mkDist 0 0; mkDist 45 250; mkDist 90 500]%R ]} (set_table (SphereStitch2 (3 / 2)%R) 1 3 500%R 0%R [])
    = Done (vs, ts, 1440) /\ zlen vs = 1440.
Proof.
  destruct (crystal_mesh {[ 1 := [mkDist 0 0; mkDist 45 250; mkDist 90 500]%R ]} (set_table (SphereStitch2 (3 / 2)%R) 1 3 500%R 0%R [])
    [mkDist 0 0; mkDist 45 250; mkDist 90 500]%R (lookup_singleton_eq _ _)) as (vs & ts & E & L & _); [unfold zlen; cbn; lia|cbn; unfold MAX_ENTRIES; lia|].
  exists vs, ts; split; [exact E|exact L].
Defined.

(** ** The buffers kept per table *)

Section Cache.
Context {F : Type} `{HS : Scalar F, HT : Trig F, HW : Whole F} `{!WholeLaws F}.
Variable alloc : gl F -> Z.
Hypothesis alloc_fresh : forall g : gl F, g !! alloc g = None /\ 0 < alloc g.

(** The lens drawn with has its turn. *)
Definition turn_ok (s : crystal F) (index : Z) : Prop := is_Some (znth (mRotateAngle s) (if mSingle s then 0 else index)).
(** GL holds [g0] and the two buffers the ball draws from. *)
Definition ball_owns (g0 g : gl F) (s : crystal F) : Prop :=
  owned g0 g (held (vertexBuffer (bufs s)) ++ held (TextureCoordBuffer (bufs s))).
Definition entry_set (d : DISTORTIONLIST F) (b : buffers) : DISTORTIONLIST F :=
  mkEntry (d_mdistortion d) (d_count d) (d_half d) (vertexBuffer b) (vertexSize b) (TextureCoordBuffer b) (TextureCoordSize b)
    (triangleIndexCount b) (d_blending d).

(** The first draw of a table makes its buffers and deletes those drawn from before. *)
Lemma draw_new hp g0 g s index i d vs ts c :
  list_find (fun e => d_mdistortion e = mdistortion s) (mDistList s) = Some (i, d) -> d_TextureCoordBuffer d = 0 ->
  crystal_filled hp s = Done (vs, ts, c) -> zlen vs = c -> zlen ts = c -> turn_ok s index -> ball_owns g0 g s ->
  exists g' b, crystal_DrawSelf alloc hp g s index true
      = Done (g', set_modes (set_bufs s (<[i := entry_set d b]> (mDistList s)) b) (mSingle s) (if mSingle s then 0 else index) (mScreenMode s), zip vs ts) /\
    vertexBuffer b <> 0 /\ TextureCoordBuffer b <> 0 /\ triangleIndexCount b = c /\
    owned g0 g' [vertexBuffer b; TextureCoordBuffer b] /\
    g' !! vertexBuffer b = Some (Some (Vertices vs (c * GetVertexSize))) /\
    g' !! TextureCoordBuffer b = Some (Some (Coords ts (c * GetCoordSize))) /\
    forall n, n ∈ held (vertexBuffer (bufs s)) ++ held (TextureCoordBuffer (bufs s)) -> g' !! n = None.
Proof.
  intros Hf Hd Hfill Lv Lt [a Ha] HO; unfold crystal_DrawSelf, GetCurrentDistortion; rewrite Hf; cbn [fmap option_fmap option_map fst].
  pose proof (proj1 (list_find_Some _ _ _ _) Hf) as (Hi & _); rewrite Hi, Hd; cbn [Z.eqb].
  unfold crystal_SetupBuffer; rewrite Hfill; cbn [obind]; unfold ball_owns in HO.
  set (ov := vertexBuffer (bufs s)) in *; set (ot := TextureCoordBuffer (bufs s)) in *.
  pose proof (owned_uploaded alloc alloc_fresh g0 g _ (Vertices vs (c * GetVertexSize)) HO) as U1.
  destruct (uploaded alloc g _) as [v g1]; destruct U1 as (O1 & D1 & N1 & Z1 & K1).
  pose proof (owned_uploaded alloc alloc_fresh g0 g1 _ (Coords ts (c * GetCoordSize)) O1) as U2.
  destruct (uploaded alloc g1 _) as [t g2]; destruct U2 as (O2 & D2 & N2 & Z2 & K2).
  assert (owned g0 g2 (held ov ++ held ot ++ [v; t])) as O3 by (eapply owned_perm; [|exact O2]; solve_Permutation).
  set (g3 := if negb (ov =? 0) then _ else _).
  assert (forall k, k ∈ held ot ++ [v; t] -> g3 !! k = g2 !! k) as K3 by (intros; by apply (owned_kept g0 g2 ov _ k O3)).
  assert (forall n, n ∈ held ov ++ held ot -> g0 !! n = None /\ n <> v /\ n <> t) as old.
  { intros n Hn; destruct HO as (_ & _ & _ & A & _); rewrite Forall_forall in A; destruct (A n Hn) as [[e He] Hg0].
    split; [done|]; assert (n <> v) by congruence; split; [done|]; intros ->; rewrite K1 in N2 by done; congruence. }
  apply owned_released in O3; fold g3 in O3; set (g4 := if negb (ot =? 0) then _ else _).
  assert (forall k, k ∈ [v; t] -> g4 !! k = g3 !! k) as K4 by (intros; by apply (owned_kept g0 g3 ot _ k O3)).
  apply owned_released in O3; fold g4 in O3.
  assert (v <> t) as Hvt by congruence.
  assert (g4 !! v = g2 !! v /\ g4 !! t = g2 !! t) as [Ev Et] by (split; rewrite K4, K3 by set_solver; done).
  set (b := mkBuffers v t v GetVertexSize c GetCoordSize); exists g4, b; split.
  - cbn [obind set_modes set_bufs mRotateAngle mMode mSingle mScreenMode mDistList negb bufs]; rewrite Ha.
    unfold DrawSelf, glDrawArrays, b; cbn [negb vertexBuffer TextureCoordBuffer triangleIndexCount].
    rewrite Ev, Et, D2, K2, D1, !Z.leb_refl by done; cbn [andb obind]; do 2 f_equal; apply take_ge; rewrite length_zip.
    unfold zlen in *; lia.
  - cbn [vertexBuffer TextureCoordBuffer triangleIndexCount b]; split_and!; try done.
    + by rewrite Ev, K2.
    + by rewrite Et.
    + intros n Hn; destruct (old n Hn) as (Hg0 & Hnv & Hnt); destruct O3 as (_ & _ & _ & _ & E).
      rewrite E by set_solver; done.
Qed.

(** A table drawn before lends its buffers, whatever has become of them and of the table. *)
Lemma draw_old hp g s index i d :
  list_find (fun e => d_mdistortion e = mdistortion s) (mDistList s) = Some (i, d) -> d_TextureCoordBuffer d <> 0 -> turn_ok s index ->
  exists s', crystal_DrawSelf alloc hp g s index true
      = (let* l := glDrawArrays g (d_vertexBuffer d) (d_TextureCoordBuffer d) (d_triangleIndexCount d) in Done (g, s', l)) /\
    mDistList s' = mDistList s.
Proof.
  intros Hf Hd [a Ha]; unfold crystal_DrawSelf, GetCurrentDistortion; rewrite Hf; cbn [fmap option_fmap option_map fst].
  pose proof (proj1 (list_find_Some _ _ _ _) Hf) as (Hi & _); rewrite Hi; replace (d_TextureCoordBuffer d =? 0) with false by lia.
  cbn [obind set_modes set_bufs mRotateAngle mMode mSingle mScreenMode mDistList negb bufs]; rewrite Ha.
  unfold DrawSelf; cbn [negb vertexBuffer TextureCoordBuffer triangleIndexCount]; eexists; split; [reflexivity|done].
Qed.

Lemma find_single (d : DISTORTIONLIST F) p : d_mdistortion d = p -> list_find (fun e => d_mdistortion e = p) [d] = Some (O, d).
Proof. intros H; cbn [list_find]; by rewrite decide_True. Qed.
Lemma find_second (d e : DISTORTIONLIST F) p : d_mdistortion d <> p -> d_mdistortion e = p ->
  list_find (fun e => d_mdistortion e = p) [d; e] = Some (1%nat, e).
Proof. intros H1 H2; cbn [list_find]; rewrite decide_False, decide_True by done; done. Qed.
Lemma table_entry (t : list (DISTORTION_NUM F)) n : 1 <= n <= zlen t -> exists d, znth t (n - 1) = Some d.
Proof.
  intros H; unfold znth; replace (n - 1 <? 0) with false by lia.
  destruct (lookup_lt_is_Some_2 t (Z.to_nat (n - 1))) as [d ->]; [unfold zlen in H; lia|eauto].
Qed.
Lemma ball_owns_two g0 g (s : crystal F) b : bufs s = b -> vertexBuffer b <> 0 -> TextureCoordBuffer b <> 0 ->
  owned g0 g [vertexBuffer b; TextureCoordBuffer b] -> ball_owns g0 g s.
Proof.
  intros <- Hv Ht HO; unfold ball_owns, held; replace (vertexBuffer (bufs s) =? 0) with false by lia.
  by replace (TextureCoordBuffer (bufs s) =? 0) with false by lia.
Qed.
(** Any table the entry count fits has a mesh of the right size. *)
Lemma table_mesh hp (s : crystal F) p n half b l t : hp !! p = Some t -> 1 <= n <= zlen t -> n <= MAX_ENTRIES ->
  exists vs ts, crystal_filled hp (set_table s p n half b l) = Done (vs, ts, (n - 1) * 6 * 120) /\
    zlen vs = (n - 1) * 6 * 120 /\ zlen ts = (n - 1) * 6 * 120.
Proof.
  intros Ht Hn Hb; pose proof (crystal_filled_spec hp (set_table s p n half b l) t Ht) as E; cbn [set_table mdistortion_count] in E.
  do 2 eexists; split; [apply E; lia|].
  unfold zlen; rewrite !length_map; fold (zlen (grid_points n)); rewrite grid_points_length; lia.
Qed.

(** A new ball, its first table set and drawn. *)
Lemma first_table hp g0 r p n half t index :
  g0 !! 0 = None -> p <> 0 -> hp !! p = Some t -> 1 <= n <= zlen t -> n <= MAX_ENTRIES -> index = 0 \/ index = 1 ->
  exists s1 g2 s2 vs ts e b, SetDistortion hp (SphereStitch2 r) p n half = Done s1 /\ crystal_filled hp s1 = Done (vs, ts, (n - 1) * 720) /\
    crystal_DrawSelf alloc hp g0 s1 index true = Done (g2, s2, zip vs ts) /\
    mDistList s2 = [e] /\ d_mdistortion e = p /\ d_vertexBuffer e = vertexBuffer b /\ d_TextureCoordBuffer e = TextureCoordBuffer b /\
    d_triangleIndexCount e = zlen vs /\ zlen ts = zlen vs /\ zlen vs = (n - 1) * 720 /\ bufs s2 = b /\ vertexBuffer b <> 0 /\ TextureCoordBuffer b <> 0 /\
    owned g0 g2 [vertexBuffer b; TextureCoordBuffer b] /\
    g2 !! vertexBuffer b = Some (Some (Vertices vs (zlen vs * GetVertexSize))) /\
    g2 !! TextureCoordBuffer b = Some (Some (Coords ts (zlen vs * GetCoordSize))) /\
    forall i, i = 0 \/ i = 1 -> turn_ok s2 i.
Proof.
  intros Hz Hp Ht Hn Hb Hi; destruct (table_entry t n Hn) as [d Hd].
  destruct (set_spec hp (SphereStitch2 r) p n half t d Hp Ht Hd) as (l & E1 & Hl); cbn [SphereStitch2 mDistList list_find] in Hl.
  destruct Hl as [bl Hl]; cbn [app] in Hl; subst l; set (s1 := set_table _ _ _ _ _ _) in E1.
  destruct (table_mesh hp (SphereStitch2 r) p n half (fopp (fcos (rad (angle d)))) [mkEntry p n half 0 0 0 0 0 bl] t Ht Hn Hb) as (vs & ts & Ef & Lv & Lt).
  fold s1 in Ef.
  assert (forall i, i = 0 \/ i = 1 -> turn_ok s1 i) as Hturn by (intros i [-> | ->]; eexists; reflexivity).
  destruct (draw_new hp g0 g0 s1 index O (mkEntry p n half 0 0 0 0 0 bl) vs ts _ (find_single _ _ eq_refl) eq_refl Ef Lv Lt (Hturn _ Hi))
    as (g2 & b & E2 & V & T & C & O & Dv & Dt & _); [exact (owned_refl g0 Hz)|].
  do 2 eexists; exists (set_modes (set_bufs s1 [entry_set (mkEntry p n half 0 0 0 0 0 bl) b] b) false index 18), vs, ts.
  exists (entry_set (mkEntry p n half 0 0 0 0 0 bl) b), b.
  split; [exact E1|]; split; [rewrite Ef; do 2 f_equal; lia|]; split; [exact E2|].
  cbn [set_modes set_bufs mDistList entry_set d_mdistortion d_vertexBuffer d_TextureCoordBuffer d_triangleIndexCount bufs].
  rewrite C, Lv, Lt; split_and!; try (done || lia); intros i Hi'; exact (Hturn i Hi').
Qed.

(** The buffers are kept by the address of the table.  When the memory of a table that was
    drawn is freed and given to another (as the viewer does when a device sends a new one), the
    new table is set but the old mesh stays on the screen. *)
Theorem reused_address hp hp' g0 r p n n' half half' t t' index :
  g0 !! 0 = None -> p <> 0 -> hp !! p = Some t -> hp' !! p = Some t' ->
  1 <= n <= zlen t -> n <= MAX_ENTRIES -> 1 <= n' <= zlen t' -> index = 0 \/ index = 1 ->
  exists s1 g2 s2 vs ts s3 s4, SetDistortion hp (SphereStitch2 r) p n half = Done s1 /\
    crystal_filled hp s1 = Done (vs, ts, (n - 1) * 720) /\
    crystal_DrawSelf alloc hp g0 s1 index true = Done (g2, s2, zip vs ts) /\
    SetDistortion hp' s2 p n' half' = Done s3 /\ mdistortion_count s3 = n' /\
    crystal_DrawSelf alloc hp' g2 s3 index true = Done (g2, s4, zip vs ts).
Proof.
  intros Hz Hp Ht Ht' Hn Hb Hn' Hi.
  destruct (first_table hp g0 r p n half t index Hz Hp Ht Hn Hb Hi)
    as (s1 & g2 & s2 & vs & ts & e & b & E1 & Ef & E2 & El & Ep & Ev & Et & Ec & Lt & Lv & Eb & V & T & Own & Dv & Dt & Hturn).
  destruct (table_entry t' n' Hn') as [d' Hd'].
  destruct (set_spec hp' s2 p n' half' t' d' Hp Ht' Hd') as (l & E3 & Hl); rewrite El, find_single in Hl by done; subst l.
  destruct (draw_old hp' g2 (set_table s2 p n' half' (fopp (fcos (rad (angle d')))) [e]) index O e) as (s4 & E4 & _);
    [by apply find_single|congruence|exact (Hturn index Hi)|].
  do 7 eexists; split_and!; [exact E1|exact Ef|exact E2|exact E3|done|].
  rewrite E4; unfold glDrawArrays; rewrite Ev, Et, Ec, Dv, Dt, !Z.leb_refl; cbn [andb obind]; do 2 f_equal.
  apply take_ge; rewrite length_zip; unfold zlen in *; lia.
Qed.

(** C23: drawing a second table deletes the buffers of the first, which its entry keeps: when
    the first is set again, the screen draws from deleted buffers.  The tables have up to
    248552 entries, whose arrays a 32-bit process can allocate. *)
Theorem stale_cache hp g0 r p q n m hp1 hp2 t u index :
  g0 !! 0 = None -> p <> 0 -> q <> 0 -> p <> q -> hp !! p = Some t -> hp !! q = Some u ->
  1 <= n <= zlen t -> n <= MAX_ENTRIES -> 1 <= m <= zlen u -> m <= MAX_ENTRIES -> index = 0 \/ index = 1 ->
  exists s1 g2 s2 l1 s3 g4 s4 l2 s5, SetDistortion hp (SphereStitch2 r) p n hp1 = Done s1 /\
    crystal_DrawSelf alloc hp g0 s1 index true = Done (g2, s2, l1) /\ zlen l1 = (n - 1) * 720 /\
    SetDistortion hp s2 q m hp2 = Done s3 /\
    crystal_DrawSelf alloc hp g2 s3 index true = Done (g4, s4, l2) /\ zlen l2 = (m - 1) * 720 /\
    SetDistortion hp s4 p n hp1 = Done s5 /\
    crystal_DrawSelf alloc hp g4 s5 index true = Fault.
Proof.
  intros Hz Hp Hq Hpq Ht Hu Hn Hb Hm Hbm Hi.
  destruct (first_table hp g0 r p n hp1 t index Hz Hp Ht Hn Hb Hi)
    as (s1 & g2 & s2 & vs & ts & e & b & E1 & Ef & E2 & El & Ep & Ev & Et & Ec & Lt & Lv & Eb & V & T & Own & Dv & Dt & Hturn).
  destruct (table_entry u m Hm) as [du Hdu], (table_entry t n Hn) as [dt Hdt].
  destruct (set_spec hp s2 q m hp2 u du Hq Hu Hdu) as (l & E3 & Hl); rewrite El in Hl; cbn [list_find] in Hl.
  rewrite decide_False in Hl by congruence; cbn [fmap option_fmap option_map] in Hl; destruct Hl as [bl ->]; cbn [app] in E3.
  set (s3 := set_table s2 q m _ _ _) in E3.
  destruct (table_mesh hp s2 q m hp2 (fopp (fcos (rad (angle du)))) [e; mkEntry q m hp2 0 0 0 0 0 bl] u Hu Hm Hbm) as (ws & us & Eg & Lw & Lu).
  fold s3 in Eg.
  assert (d_mdistortion e <> q) as Hne by congruence.
  destruct (draw_new hp g0 g2 s3 index 1%nat (mkEntry q m hp2 0 0 0 0 0 bl) ws us _ (find_second e (mkEntry q m hp2 0 0 0 0 0 bl) q Hne eq_refl) eq_refl Eg Lw Lu)
    as (g4 & b2 & E4 & _ & _ & _ & _ & _ & _ & Gone); [exact (Hturn index Hi)|by eapply (ball_owns_two g0 g2 s3 b)|].
  assert (g4 !! vertexBuffer b = None) as Hgone.
  { apply Gone; change (bufs s3) with (bufs s2); rewrite Eb; unfold held; replace (vertexBuffer b =? 0) with false by lia; by left. }
  set (s4 := set_modes _ _ _ _) in E4.
  destruct (set_spec hp s4 p n hp1 t dt Hp Ht Hdt) as (l & E5 & Hl).
  assert (list_find (fun e => d_mdistortion e = p) (mDistList s4) = Some (O, e)) as Hf
    by (cbn [s4 set_modes set_bufs s3 set_table mDistList insert list_insert list_find]; by rewrite decide_True).
  rewrite Hf in Hl; subst l.
  destruct (draw_old hp g4 (set_table s4 p n hp1 (fopp (fcos (rad (angle dt)))) (mDistList s4)) index O e Hf) as (s6 & E6 & _);
    [congruence|exact (Hturn index Hi)|].
  do 9 eexists; split_and!; [exact E1|exact E2| |exact E3|exact E4| |exact E5|].
  - unfold zlen in *; rewrite length_zip; lia.
  - unfold zlen; rewrite length_zip; unfold zlen in *; lia.
  - rewrite E6; unfold glDrawArrays; by rewrite Ev, Hgone.
Qed.

(** A table freed before its first draw is read after it was freed. *)
Theorem freed_table hp hp' g0 r p n half t index :
  g0 !! 0 = None -> p <> 0 -> hp !! p = Some t -> hp' !! p = None -> 2 <= n <= zlen t -> n <= MAX_ENTRIES ->
  exists s1, SetDistortion hp (SphereStitch2 r) p n half = Done s1 /\ crystal_DrawSelf alloc hp' g0 s1 index true = Fault.
Proof.
  intros Hz Hp Ht Ht' Hn Hb; destruct (table_entry t n ltac:(lia)) as [d Hd].
  destruct (set_spec hp (SphereStitch2 r) p n half t d Hp Ht Hd) as (l & E1 & Hl); cbn [SphereStitch2 mDistList list_find] in Hl.
  destruct Hl as [bl Hl]; cbn [app] in Hl; subst l; eexists; split; [exact E1|]; set (s1 := set_table _ _ _ _ _ _).
  unfold crystal_DrawSelf, GetCurrentDistortion.
  replace (list_find (fun e => d_mdistortion e = mdistortion s1) (mDistList s1)) with (Some (O, mkEntry (F := F) p n half 0 0 0 0 0 bl))
    by (symmetry; by apply find_single).
  cbn [fmap option_fmap option_map fst]; change (mDistList s1 !! O) with (Some (mkEntry (F := F) p n half 0 0 0 0 0 bl)).
  cbn [d_TextureCoordBuffer Z.eqb]; unfold crystal_SetupBuffer.
  assert (crystal_filled hp' s1 = Fault) as ->; [|done].
  unfold crystal_filled, GetVertexSize, MAX_ENTRIES in *; change (mdistortion_count s1) with n; replace (_ || _) with false by lia.
  rewrite crystal_points_grid; unfold grid_points, crystal_cells.
  replace (Z.to_nat (n - 1)) with (S (Z.to_nat (n - 2))) by lia; rewrite !progression_cons.
  change (progression 3 3 120) with (3 :: progression 6 3 119).
  cbn [flat_map map app fst snd corners mapO]; unfold crystal_Evaluate at 1; cbn [vx vy]; rewrite ftoi_int by lia; cbn [obind].
  unfold read_table; change (mdistortion s1) with p; by rewrite Ht'.
Qed.
End Cache.

(** Tables of two and three entries, and the calls of the application. *)
Definition table2 : list (DISTORTION_NUM R) := [mkDist 0 0; mkDist 90 500]%R.
Definition table3 : list (DISTORTION_NUM R) := [mkDist 0 0; mkDist 45 250; mkDist 95 510]%R.
Lemma reused_address_witness :
  exists s1 g2 s2 vs ts s3 s4, SetDistortion {[ 8 := table2 ]} (SphereStitch2 (3 / 2)%R) 8 2 500%R = Done s1 /\
    crystal_filled {[ 8 := table2 ]} s1 = Done (vs, ts, 720) /\
    crystal_DrawSelf next_name {[ 8 := table2 ]} ∅ s1 0 true = Done (g2, s2, zip vs ts) /\
    SetDistortion {[ 8 := table3 ]} s2 8 3 510%R = Done s3 /\ mdistortion_count s3 = 3 /\
    crystal_DrawSelf next_name {[ 8 := table3 ]} g2 s3 0 true = Done (g2, s4, zip vs ts).
Proof.
  apply (reused_address next_name next_name_fresh {[ 8 := table2 ]} {[ 8 := table3 ]} ∅ (3 / 2)%R 8 2 3 500%R 510%R table2 table3 0);
    try done; try (unfold zlen; cbn; lia); by left.
Defined.
Lemma stale_cache_witness :
  exists s1 g2 s2 l1 s3 g4 s4 l2 s5, SetDistortion {[ 8 := table2; 9 := table3 ]} (SphereStitch2 (3 / 2)%R) 8 2 500%R = Done s1 /\
    crystal_DrawSelf next_name {[ 8 := table2; 9 := table3 ]} ∅ s1 0 true = Done (g2, s2, l1) /\ zlen l1 = 720 /\
    SetDistortion {[ 8 := table2; 9 := table3 ]} s2 9 3 510%R = Done s3 /\
    crystal_DrawSelf next_name {[ 8 := table2; 9 := table3 ]} g2 s3 0 true = Done (g4, s4, l2) /\ zlen l2 = 1440 /\
    SetDistortion {[ 8 := table2; 9 := table3 ]} s4 8 2 500%R = Done s5 /\
    crystal_DrawSelf next_name {[ 8 := table2; 9 := table3 ]} g4 s5 0 true = Fault.
Proof.
  apply (stale_cache next_name next_name_fresh {[ 8 := table2; 9 := table3 ]} ∅ (3 / 2)%R 8 9 2 3 500%R 510%R table2 table3 0);
    try done; try (unfold zlen; cbn; lia); by left.
Defined.
Lemma freed_table_witness :
  exists s1, SetDistortion {[ 8 := table2 ]} (SphereStitch2 (3 / 2)%R) 8 2 500%R = Done s1 /\
    crystal_DrawSelf next_name ∅ ∅ s1 0 true = Fault.
Proof. apply (freed_table next_name {[ 8 := table2 ]} ∅ ∅ (3 / 2)%R 8 2 500%R table2 0); try done; unfold zlen; cbn; lia. Defined.
End Stitch.
